(** * A shallow embedding of the CCN forwarding daemon (ccnd/agent/ccnd.c)

    The daemon is single threaded: every operation runs to completion on the
    one [struct ccnd].  Each C function below becomes a function on an
    explicit daemon state [ccnd].  Pointers into the daemon's hashtables are
    modelled by the key of the entry they point to (the address, for faces),
    and a dereference is a lookup in the corresponding table.

    Conventions.
    - [unsigned] is 32 bits wide, [size_t] and [ccn_accession_t] 64 bits;
      their values are [Z] with the wrap-around written out ([u32], [u64]).
      Signed [int] arithmetic is plain [Z] arithmetic (overflow is undefined
      in C and does not happen on the paths studied).
    - A function returns [None] where the C code calls [abort()], reads
      through a NULL or dangling pointer, or indexes outside an array.
    - [malloc], [calloc], [realloc] and the indexbuf/charbuf constructors are
      taken to succeed.
    - [ccnd_msg] and [ccnd_debug_ccnb] only log and are left out. *)

From stdpp Require Import gmap list.
From Stdlib Require Import ZArith Lia.
From Stdlib.Strings Require Import Byte.
Open Scope Z_scope.

(** ** Bytes as hashtable keys *)

#[global] Instance byte_eq_dec : EqDecision byte := Byte.byte_eq_dec.

Lemma byte_of_to_N (b : byte) : default x00 (Byte.of_N (Byte.to_N b)) = b.
Proof. by rewrite Byte.of_to_N. Qed.

#[global] Instance byte_countable : Countable byte :=
  inj_countable' Byte.to_N (fun n => default x00 (Byte.of_N n)) byte_of_to_N.

(** ** Machine integers and C arrays *)

Definition u32 (x : Z) : Z := x mod 2 ^ 32.
Definition u64 (x : Z) : Z := x mod 2 ^ 64.

(** Conversion of an [unsigned] to [int] (two's complement). *)
Definition int_of_unsigned (x : Z) : Z := if x <? 2 ^ 31 then x else x - 2 ^ 32.

(** [a[i]] for an index held in a C integer. *)
Definition zlookup {A} (l : list A) (i : Z) : option A :=
  if i <? 0 then None else l !! Z.to_nat i.

(** [a[i] = v]; nothing is written when [i] is out of range (callers check). *)
Definition zupdate {A} (l : list A) (i : Z) (v : A) : list A :=
  if i <? 0 then l else <[Z.to_nat i := v]> l.

Definition zlength {A} (l : list A) : Z := Z.of_nat (length l).

(** [memcmp(a + i, b + j, n) == 0], for ranges that lie inside both buffers. *)
Definition bytes_at (a : list byte) (i n : Z) : list byte :=
  take (Z.to_nat n) (drop (Z.to_nat i) a).

(** ** What ccnd.c takes from its headers and libraries *)

(** The constants of ccnd_private.h, which is not part of the sources at
    hand.  Nothing is assumed about their values here; the theorems state
    what they need. *)
Class ccnd_private : Type := {
  MAXFACES : Z;
  CCN_FACE_LINK : Z;
  CCN_FACE_DGRAM : Z;
  CCN_CONTENT_ENTRY_SLOWSEND : Z;
  CCN_UNIT_INTEREST : Z;
  CCN_INTEREST_HALFLIFE_MICROSEC : Z
}.

(** The offsets of [struct ccn_parsed_interest] that ccnd.c reads, with the
    scalar fields. *)
Record ccn_parsed_interest : Type := {
  pi_prefix_comps : Z;
  pi_scope : Z;
  pi_orderpref : Z;
  CCN_PI_E_Name : Z;
  CCN_PI_B_Nonce : Z;
  CCN_PI_E_Nonce : Z;
  CCN_PI_B_OTHER : Z;
  CCN_PI_E_OTHER : Z;
  CCN_PI_E : Z
}.

(** The fields of [struct ccn_parsed_ContentObject] that ccnd.c reads. *)
Record ccn_parsed_ContentObject : Type := {
  pco_magic : Z;
  CCN_PCO_B_Signature : Z;
  CCN_PCO_E_Signature : Z;
  CCN_PCO_B_Content : Z
}.

(** The library functions the forwarder calls: the wire codec, the Bloom
    filter and the C library's generator.  They are parameters of the model. *)
Class ccn_library : Type := {
  (* nrand48(seed): the value drawn and the new seed *)
  nrand48 : Z -> Z * Z;
  (* ccn_compare_names(a, asize, b, bsize) *)
  ccn_compare_names : list byte -> list byte -> Z;
  (* ccn_content_matches_interest(content, size, 0, NULL, interest, isize, pi) *)
  ccn_content_matches_interest :
    list byte -> list byte -> ccn_parsed_interest -> bool;
  (* the response filter of an interest: the validated Bloom filter found in
     the bytes between B_OTHER and E_OTHER, if any *)
  response_filter : list byte -> option (list byte);
  (* ccn_bloom_match_wire(f, key, 32) *)
  ccn_bloom_match_wire : list byte -> list byte -> bool;
  (* get_signature_offset's decoding of the Signature element: the index of
     the signature blob relative to the element, if one of 32 bytes or more
     is found *)
  signature_blob_index : list byte -> option Z;
  (* ccn_charbuf_append_tt(c, numval, tt): the bytes appended *)
  ccn_charbuf_append_tt : Z -> Z -> list byte;
  CCN_DTAG_Nonce : Z;
  CCN_DTAG_CCNProtocolDataUnit : Z;
  CCN_DTAG : Z;
  CCN_BLOB : Z;
  (* ccn_charbuf_append_closer(c): the byte appended *)
  CCN_CLOSE : byte
}.

(** ** The scheduler interface

    [ccn_schedule_event(sched, delay, action, evdata, evint)] is recorded in
    the daemon state; the handle it returns is the position of the record. *)
Inductive sched_action : Type :=
  | ev_content_sender (content : list byte)
  | ev_do_propagate (pe : list byte)
  | ev_aging_deamon.

Record scheduled_event : Type := {
  ev_delay : Z;
  ev_action : sched_action;
  ev_evint : Z
}.

(** ** The data model *)

(** [struct face]. The buffers [inbuf] and [outbuf] belong to the socket layer and are not part of the model. *)
Module Face.
Record t : Type := mk {
  fd : Z; (* native handle *)
  flags : Z; (* CCN_FACE_LINK, CCN_FACE_DGRAM *)
  faceid : Z; (* unsigned: slot | generation *)
  recvcount : Z; (* activity counter *)
  cached_accession : Z; (* accession of the last content matched *)
}.
Definition set_fd (v : Z) (x : t) : t :=
  {| fd := v; flags := flags x; faceid := faceid x; recvcount := recvcount x;
     cached_accession := cached_accession x |}.
Definition set_flags (v : Z) (x : t) : t :=
  {| fd := fd x; flags := v; faceid := faceid x; recvcount := recvcount x;
     cached_accession := cached_accession x |}.
Definition set_faceid (v : Z) (x : t) : t :=
  {| fd := fd x; flags := flags x; faceid := v; recvcount := recvcount x; cached_accession
     := cached_accession x |}.
Definition set_recvcount (v : Z) (x : t) : t :=
  {| fd := fd x; flags := flags x; faceid := faceid x; recvcount := v; cached_accession :=
     cached_accession x |}.
Definition set_cached_accession (v : Z) (x : t) : t :=
  {| fd := fd x; flags := flags x; faceid := faceid x; recvcount := recvcount x;
     cached_accession := v |}.
End Face.

(** [struct content_entry]. *)
Module Content.
Record t : Type := mk {
  accession : Z; (* ccn_accession_t, assigned in arrival order *)
  comps : list Z; (* byte offsets of the component boundaries in [key] *)
  ncomps : Z; (* number of boundaries (components plus one) *)
  flags : Z; (* CCN_CONTENT_ENTRY_SLOWSEND *)
  key : list byte; (* the stored message: key bytes followed by the tail *)
  key_size : Z; (* length of the hashtable key *)
  tail_size : Z; (* length of the tail *)
  sig_offset : Z; (* offset of the signature bits, or 0 *)
  faces : option (list Z); (* face ids to send to; [None] is the NULL pointer *)
  nface_done : Z; (* faces[0..nface_done) have been dealt with *)
  nface_old : Z; (* boundary remembered by the cleaner *)
  sender : option nat; (* the scheduled content_sender event, if any *)
  skiplinks : option (list Z); (* skiplist links, one accession per level *)
}.
Definition set_accession (v : Z) (x : t) : t :=
  {| accession := v; comps := comps x; ncomps := ncomps x; flags := flags x; key := key x;
     key_size := key_size x; tail_size := tail_size x; sig_offset := sig_offset x; faces :=
     faces x; nface_done := nface_done x; nface_old := nface_old x; sender := sender x;
     skiplinks := skiplinks x |}.
Definition set_comps (v : list Z) (x : t) : t :=
  {| accession := accession x; comps := v; ncomps := ncomps x; flags := flags x; key :=
     key x; key_size := key_size x; tail_size := tail_size x; sig_offset := sig_offset x;
     faces := faces x; nface_done := nface_done x; nface_old := nface_old x; sender := sender
     x; skiplinks := skiplinks x |}.
Definition set_ncomps (v : Z) (x : t) : t :=
  {| accession := accession x; comps := comps x; ncomps := v; flags := flags x; key := key
     x; key_size := key_size x; tail_size := tail_size x; sig_offset := sig_offset x; faces
     := faces x; nface_done := nface_done x; nface_old := nface_old x; sender := sender x;
     skiplinks := skiplinks x |}.
Definition set_flags (v : Z) (x : t) : t :=
  {| accession := accession x; comps := comps x; ncomps := ncomps x; flags := v; key :=
     key x; key_size := key_size x; tail_size := tail_size x; sig_offset := sig_offset x;
     faces := faces x; nface_done := nface_done x; nface_old := nface_old x; sender := sender
     x; skiplinks := skiplinks x |}.
Definition set_key (v : list byte) (x : t) : t :=
  {| accession := accession x; comps := comps x; ncomps := ncomps x; flags := flags x; key
     := v; key_size := key_size x; tail_size := tail_size x; sig_offset := sig_offset x;
     faces := faces x; nface_done := nface_done x; nface_old := nface_old x; sender := sender
     x; skiplinks := skiplinks x |}.
Definition set_key_size (v : Z) (x : t) : t :=
  {| accession := accession x; comps := comps x; ncomps := ncomps x; flags := flags x; key
     := key x; key_size := v; tail_size := tail_size x; sig_offset := sig_offset x; faces :=
     faces x; nface_done := nface_done x; nface_old := nface_old x; sender := sender x;
     skiplinks := skiplinks x |}.
Definition set_tail_size (v : Z) (x : t) : t :=
  {| accession := accession x; comps := comps x; ncomps := ncomps x; flags := flags x; key
     := key x; key_size := key_size x; tail_size := v; sig_offset := sig_offset x; faces :=
     faces x; nface_done := nface_done x; nface_old := nface_old x; sender := sender x;
     skiplinks := skiplinks x |}.
Definition set_sig_offset (v : Z) (x : t) : t :=
  {| accession := accession x; comps := comps x; ncomps := ncomps x; flags := flags x; key
     := key x; key_size := key_size x; tail_size := tail_size x; sig_offset := v; faces :=
     faces x; nface_done := nface_done x; nface_old := nface_old x; sender := sender x;
     skiplinks := skiplinks x |}.
Definition set_faces (v : option (list Z)) (x : t) : t :=
  {| accession := accession x; comps := comps x; ncomps := ncomps x; flags := flags x; key
     := key x; key_size := key_size x; tail_size := tail_size x; sig_offset := sig_offset x;
     faces := v; nface_done := nface_done x; nface_old := nface_old x; sender := sender x;
     skiplinks := skiplinks x |}.
Definition set_nface_done (v : Z) (x : t) : t :=
  {| accession := accession x; comps := comps x; ncomps := ncomps x; flags := flags x; key
     := key x; key_size := key_size x; tail_size := tail_size x; sig_offset := sig_offset x;
     faces := faces x; nface_done := v; nface_old := nface_old x; sender := sender x;
     skiplinks := skiplinks x |}.
Definition set_nface_old (v : Z) (x : t) : t :=
  {| accession := accession x; comps := comps x; ncomps := ncomps x; flags := flags x; key
     := key x; key_size := key_size x; tail_size := tail_size x; sig_offset := sig_offset x;
     faces := faces x; nface_done := nface_done x; nface_old := v; sender := sender x;
     skiplinks := skiplinks x |}.
Definition set_sender (v : option nat) (x : t) : t :=
  {| accession := accession x; comps := comps x; ncomps := ncomps x; flags := flags x; key
     := key x; key_size := key_size x; tail_size := tail_size x; sig_offset := sig_offset x;
     faces := faces x; nface_done := nface_done x; nface_old := nface_old x; sender := v;
     skiplinks := skiplinks x |}.
Definition set_skiplinks (v : option (list Z)) (x : t) : t :=
  {| accession := accession x; comps := comps x; ncomps := ncomps x; flags := flags x; key
     := key x; key_size := key_size x; tail_size := tail_size x; sig_offset := sig_offset x;
     faces := faces x; nface_done := nface_done x; nface_old := nface_old x; sender := sender
     x; skiplinks := v |}.
End Content.

(** [struct interestprefix_entry]. *)
Module Ipe.
Record t : Type := mk {
  ncomp : Z; (* number of name components of the prefix *)
  interested_faceid : option (list Z); (* face ids with demand *)
  counters : option (list Z); (* demand counters, parallel to [interested_faceid] *)
  idle : Z; (* consecutive aging passes without counters *)
  propagating_head : option (list (list byte)); (* the ring of propagating entries, in [next] order from the sentinel; [None] when no sentinel is allocated *)
}.
Definition set_ncomp (v : Z) (x : t) : t :=
  {| ncomp := v; interested_faceid := interested_faceid x; counters := counters x; idle :=
     idle x; propagating_head := propagating_head x |}.
Definition set_interested_faceid (v : option (list Z)) (x : t) : t :=
  {| ncomp := ncomp x; interested_faceid := v; counters := counters x; idle := idle x;
     propagating_head := propagating_head x |}.
Definition set_counters (v : option (list Z)) (x : t) : t :=
  {| ncomp := ncomp x; interested_faceid := interested_faceid x; counters := v; idle :=
     idle x; propagating_head := propagating_head x |}.
Definition set_idle (v : Z) (x : t) : t :=
  {| ncomp := ncomp x; interested_faceid := interested_faceid x; counters := counters x;
     idle := v; propagating_head := propagating_head x |}.
Definition set_propagating_head (v : option (list (list byte))) (x : t) : t :=
  {| ncomp := ncomp x; interested_faceid := interested_faceid x; counters := counters x;
     idle := idle x; propagating_head := v |}.
End Ipe.

(** [struct propagating_entry]. *)
Module Pe.
Record t : Type := mk {
  interest_msg : option (list byte); (* the bytes to forward; [None] once consumed *)
  size : Z; (* length of [interest_msg] *)
  faceid : Z; (* ingress face id *)
  outbound : option (list Z); (* face ids still to be served *)
  next : option (list byte); (* [Some k] when [next]/[prev] are set: the entry is linked into the ring that was created for prefix entry [k] *)
}.
Definition set_interest_msg (v : option (list byte)) (x : t) : t :=
  {| interest_msg := v; size := size x; faceid := faceid x; outbound := outbound x; next
     := next x |}.
Definition set_size (v : Z) (x : t) : t :=
  {| interest_msg := interest_msg x; size := v; faceid := faceid x; outbound := outbound
     x; next := next x |}.
Definition set_faceid (v : Z) (x : t) : t :=
  {| interest_msg := interest_msg x; size := size x; faceid := v; outbound := outbound x;
     next := next x |}.
Definition set_outbound (v : option (list Z)) (x : t) : t :=
  {| interest_msg := interest_msg x; size := size x; faceid := faceid x; outbound := v;
     next := next x |}.
Definition set_next (v : option (list byte)) (x : t) : t :=
  {| interest_msg := interest_msg x; size := size x; faceid := faceid x; outbound :=
     outbound x; next := v |}.
End Pe.

(** [struct ccnd]: the single daemon state. *)
Record ccnd : Type := mk_ccnd {
  face_store : gmap nat Face.t; (* the [struct face] objects held by faces_by_fd and dgram_faces, by address *)
  content_tab : gmap (list byte) Content.t; (* keyed by the bytes before the Content element *)
  interestprefix_tab : gmap (list byte) Ipe.t; (* keyed by the encoded name prefix *)
  propagating_tab : gmap (list byte) Pe.t; (* keyed by the encoded nonce element *)
  skiplinks : list Z; (* head links of the content skiplist *)
  face_gen : Z; (* unsigned *)
  face_rover : Z; (* unsigned *)
  face_limit : Z; (* unsigned *)
  faces_by_faceid : list (option nat); (* [None] is a NULL slot *)
  sched : list scheduled_event; (* events handed to the scheduler, oldest first *)
  age : option nat; (* the aging event, if armed *)
  content_by_accession : list (option (list byte)); (* pointers to entries of [content_tab] *)
  content_by_accession_window : Z; (* unsigned *)
  accession_base : Z; (* ccn_accession_t *)
  accession : Z; (* last accession assigned *)
  seed : Z; (* the 48 bits of unsigned short seed[3] *)
  scratch_charbuf : bool; (* whether the pool holds a byte buffer *)
  scratch_indexbuf : bool; (* whether the pool holds an index buffer *)
  oldformatcontent : Z;
  oldformatcontentgrumble : Z;
  content_dups_recvd : Z;
  content_items_sent : Z;
  interests_accepted : Z;
  interests_dropped : Z;
  interests_sent : Z;
  written : list (nat * list byte); (* bytes handed to do_write, oldest first, with the address of the face *)
}.
Definition set_face_store (v : gmap nat Face.t) (h : ccnd) : ccnd :=
  {| face_store := v; content_tab := content_tab h; interestprefix_tab :=
     interestprefix_tab h; propagating_tab := propagating_tab h; skiplinks := skiplinks h;
     face_gen := face_gen h; face_rover := face_rover h; face_limit := face_limit h;
     faces_by_faceid := faces_by_faceid h; sched := sched h; age := age h;
     content_by_accession := content_by_accession h; content_by_accession_window :=
     content_by_accession_window h; accession_base := accession_base h; accession :=
     accession h; seed := seed h; scratch_charbuf := scratch_charbuf h; scratch_indexbuf :=
     scratch_indexbuf h; oldformatcontent := oldformatcontent h; oldformatcontentgrumble :=
     oldformatcontentgrumble h; content_dups_recvd := content_dups_recvd h;
     content_items_sent := content_items_sent h; interests_accepted := interests_accepted h;
     interests_dropped := interests_dropped h; interests_sent := interests_sent h; written :=
     written h |}.
Definition set_content_tab (v : gmap (list byte) Content.t) (h : ccnd) : ccnd :=
  {| face_store := face_store h; content_tab := v; interestprefix_tab :=
     interestprefix_tab h; propagating_tab := propagating_tab h; skiplinks := skiplinks h;
     face_gen := face_gen h; face_rover := face_rover h; face_limit := face_limit h;
     faces_by_faceid := faces_by_faceid h; sched := sched h; age := age h;
     content_by_accession := content_by_accession h; content_by_accession_window :=
     content_by_accession_window h; accession_base := accession_base h; accession :=
     accession h; seed := seed h; scratch_charbuf := scratch_charbuf h; scratch_indexbuf :=
     scratch_indexbuf h; oldformatcontent := oldformatcontent h; oldformatcontentgrumble :=
     oldformatcontentgrumble h; content_dups_recvd := content_dups_recvd h;
     content_items_sent := content_items_sent h; interests_accepted := interests_accepted h;
     interests_dropped := interests_dropped h; interests_sent := interests_sent h; written :=
     written h |}.
Definition set_interestprefix_tab (v : gmap (list byte) Ipe.t) (h : ccnd) : ccnd :=
  {| face_store := face_store h; content_tab := content_tab h; interestprefix_tab := v;
     propagating_tab := propagating_tab h; skiplinks := skiplinks h; face_gen := face_gen h;
     face_rover := face_rover h; face_limit := face_limit h; faces_by_faceid :=
     faces_by_faceid h; sched := sched h; age := age h; content_by_accession :=
     content_by_accession h; content_by_accession_window := content_by_accession_window h;
     accession_base := accession_base h; accession := accession h; seed := seed h;
     scratch_charbuf := scratch_charbuf h; scratch_indexbuf := scratch_indexbuf h;
     oldformatcontent := oldformatcontent h; oldformatcontentgrumble :=
     oldformatcontentgrumble h; content_dups_recvd := content_dups_recvd h;
     content_items_sent := content_items_sent h; interests_accepted := interests_accepted h;
     interests_dropped := interests_dropped h; interests_sent := interests_sent h; written :=
     written h |}.
Definition set_propagating_tab (v : gmap (list byte) Pe.t) (h : ccnd) : ccnd :=
  {| face_store := face_store h; content_tab := content_tab h; interestprefix_tab :=
     interestprefix_tab h; propagating_tab := v; skiplinks := skiplinks h; face_gen :=
     face_gen h; face_rover := face_rover h; face_limit := face_limit h; faces_by_faceid :=
     faces_by_faceid h; sched := sched h; age := age h; content_by_accession :=
     content_by_accession h; content_by_accession_window := content_by_accession_window h;
     accession_base := accession_base h; accession := accession h; seed := seed h;
     scratch_charbuf := scratch_charbuf h; scratch_indexbuf := scratch_indexbuf h;
     oldformatcontent := oldformatcontent h; oldformatcontentgrumble :=
     oldformatcontentgrumble h; content_dups_recvd := content_dups_recvd h;
     content_items_sent := content_items_sent h; interests_accepted := interests_accepted h;
     interests_dropped := interests_dropped h; interests_sent := interests_sent h; written :=
     written h |}.
Definition set_skiplinks (v : list Z) (h : ccnd) : ccnd :=
  {| face_store := face_store h; content_tab := content_tab h; interestprefix_tab :=
     interestprefix_tab h; propagating_tab := propagating_tab h; skiplinks := v; face_gen :=
     face_gen h; face_rover := face_rover h; face_limit := face_limit h; faces_by_faceid :=
     faces_by_faceid h; sched := sched h; age := age h; content_by_accession :=
     content_by_accession h; content_by_accession_window := content_by_accession_window h;
     accession_base := accession_base h; accession := accession h; seed := seed h;
     scratch_charbuf := scratch_charbuf h; scratch_indexbuf := scratch_indexbuf h;
     oldformatcontent := oldformatcontent h; oldformatcontentgrumble :=
     oldformatcontentgrumble h; content_dups_recvd := content_dups_recvd h;
     content_items_sent := content_items_sent h; interests_accepted := interests_accepted h;
     interests_dropped := interests_dropped h; interests_sent := interests_sent h; written :=
     written h |}.
Definition set_face_gen (v : Z) (h : ccnd) : ccnd :=
  {| face_store := face_store h; content_tab := content_tab h; interestprefix_tab :=
     interestprefix_tab h; propagating_tab := propagating_tab h; skiplinks := skiplinks h;
     face_gen := v; face_rover := face_rover h; face_limit := face_limit h; faces_by_faceid
     := faces_by_faceid h; sched := sched h; age := age h; content_by_accession :=
     content_by_accession h; content_by_accession_window := content_by_accession_window h;
     accession_base := accession_base h; accession := accession h; seed := seed h;
     scratch_charbuf := scratch_charbuf h; scratch_indexbuf := scratch_indexbuf h;
     oldformatcontent := oldformatcontent h; oldformatcontentgrumble :=
     oldformatcontentgrumble h; content_dups_recvd := content_dups_recvd h;
     content_items_sent := content_items_sent h; interests_accepted := interests_accepted h;
     interests_dropped := interests_dropped h; interests_sent := interests_sent h; written :=
     written h |}.
Definition set_face_rover (v : Z) (h : ccnd) : ccnd :=
  {| face_store := face_store h; content_tab := content_tab h; interestprefix_tab :=
     interestprefix_tab h; propagating_tab := propagating_tab h; skiplinks := skiplinks h;
     face_gen := face_gen h; face_rover := v; face_limit := face_limit h; faces_by_faceid :=
     faces_by_faceid h; sched := sched h; age := age h; content_by_accession :=
     content_by_accession h; content_by_accession_window := content_by_accession_window h;
     accession_base := accession_base h; accession := accession h; seed := seed h;
     scratch_charbuf := scratch_charbuf h; scratch_indexbuf := scratch_indexbuf h;
     oldformatcontent := oldformatcontent h; oldformatcontentgrumble :=
     oldformatcontentgrumble h; content_dups_recvd := content_dups_recvd h;
     content_items_sent := content_items_sent h; interests_accepted := interests_accepted h;
     interests_dropped := interests_dropped h; interests_sent := interests_sent h; written :=
     written h |}.
Definition set_face_limit (v : Z) (h : ccnd) : ccnd :=
  {| face_store := face_store h; content_tab := content_tab h; interestprefix_tab :=
     interestprefix_tab h; propagating_tab := propagating_tab h; skiplinks := skiplinks h;
     face_gen := face_gen h; face_rover := face_rover h; face_limit := v; faces_by_faceid :=
     faces_by_faceid h; sched := sched h; age := age h; content_by_accession :=
     content_by_accession h; content_by_accession_window := content_by_accession_window h;
     accession_base := accession_base h; accession := accession h; seed := seed h;
     scratch_charbuf := scratch_charbuf h; scratch_indexbuf := scratch_indexbuf h;
     oldformatcontent := oldformatcontent h; oldformatcontentgrumble :=
     oldformatcontentgrumble h; content_dups_recvd := content_dups_recvd h;
     content_items_sent := content_items_sent h; interests_accepted := interests_accepted h;
     interests_dropped := interests_dropped h; interests_sent := interests_sent h; written :=
     written h |}.
Definition set_faces_by_faceid (v : list (option nat)) (h : ccnd) : ccnd :=
  {| face_store := face_store h; content_tab := content_tab h; interestprefix_tab :=
     interestprefix_tab h; propagating_tab := propagating_tab h; skiplinks := skiplinks h;
     face_gen := face_gen h; face_rover := face_rover h; face_limit := face_limit h;
     faces_by_faceid := v; sched := sched h; age := age h; content_by_accession :=
     content_by_accession h; content_by_accession_window := content_by_accession_window h;
     accession_base := accession_base h; accession := accession h; seed := seed h;
     scratch_charbuf := scratch_charbuf h; scratch_indexbuf := scratch_indexbuf h;
     oldformatcontent := oldformatcontent h; oldformatcontentgrumble :=
     oldformatcontentgrumble h; content_dups_recvd := content_dups_recvd h;
     content_items_sent := content_items_sent h; interests_accepted := interests_accepted h;
     interests_dropped := interests_dropped h; interests_sent := interests_sent h; written :=
     written h |}.
Definition set_sched (v : list scheduled_event) (h : ccnd) : ccnd :=
  {| face_store := face_store h; content_tab := content_tab h; interestprefix_tab :=
     interestprefix_tab h; propagating_tab := propagating_tab h; skiplinks := skiplinks h;
     face_gen := face_gen h; face_rover := face_rover h; face_limit := face_limit h;
     faces_by_faceid := faces_by_faceid h; sched := v; age := age h; content_by_accession :=
     content_by_accession h; content_by_accession_window := content_by_accession_window h;
     accession_base := accession_base h; accession := accession h; seed := seed h;
     scratch_charbuf := scratch_charbuf h; scratch_indexbuf := scratch_indexbuf h;
     oldformatcontent := oldformatcontent h; oldformatcontentgrumble :=
     oldformatcontentgrumble h; content_dups_recvd := content_dups_recvd h;
     content_items_sent := content_items_sent h; interests_accepted := interests_accepted h;
     interests_dropped := interests_dropped h; interests_sent := interests_sent h; written :=
     written h |}.
Definition set_age (v : option nat) (h : ccnd) : ccnd :=
  {| face_store := face_store h; content_tab := content_tab h; interestprefix_tab :=
     interestprefix_tab h; propagating_tab := propagating_tab h; skiplinks := skiplinks h;
     face_gen := face_gen h; face_rover := face_rover h; face_limit := face_limit h;
     faces_by_faceid := faces_by_faceid h; sched := sched h; age := v; content_by_accession
     := content_by_accession h; content_by_accession_window := content_by_accession_window h;
     accession_base := accession_base h; accession := accession h; seed := seed h;
     scratch_charbuf := scratch_charbuf h; scratch_indexbuf := scratch_indexbuf h;
     oldformatcontent := oldformatcontent h; oldformatcontentgrumble :=
     oldformatcontentgrumble h; content_dups_recvd := content_dups_recvd h;
     content_items_sent := content_items_sent h; interests_accepted := interests_accepted h;
     interests_dropped := interests_dropped h; interests_sent := interests_sent h; written :=
     written h |}.
Definition set_content_by_accession (v : list (option (list byte))) (h : ccnd) : ccnd :=
  {| face_store := face_store h; content_tab := content_tab h; interestprefix_tab :=
     interestprefix_tab h; propagating_tab := propagating_tab h; skiplinks := skiplinks h;
     face_gen := face_gen h; face_rover := face_rover h; face_limit := face_limit h;
     faces_by_faceid := faces_by_faceid h; sched := sched h; age := age h;
     content_by_accession := v; content_by_accession_window := content_by_accession_window h;
     accession_base := accession_base h; accession := accession h; seed := seed h;
     scratch_charbuf := scratch_charbuf h; scratch_indexbuf := scratch_indexbuf h;
     oldformatcontent := oldformatcontent h; oldformatcontentgrumble :=
     oldformatcontentgrumble h; content_dups_recvd := content_dups_recvd h;
     content_items_sent := content_items_sent h; interests_accepted := interests_accepted h;
     interests_dropped := interests_dropped h; interests_sent := interests_sent h; written :=
     written h |}.
Definition set_content_by_accession_window (v : Z) (h : ccnd) : ccnd :=
  {| face_store := face_store h; content_tab := content_tab h; interestprefix_tab :=
     interestprefix_tab h; propagating_tab := propagating_tab h; skiplinks := skiplinks h;
     face_gen := face_gen h; face_rover := face_rover h; face_limit := face_limit h;
     faces_by_faceid := faces_by_faceid h; sched := sched h; age := age h;
     content_by_accession := content_by_accession h; content_by_accession_window := v;
     accession_base := accession_base h; accession := accession h; seed := seed h;
     scratch_charbuf := scratch_charbuf h; scratch_indexbuf := scratch_indexbuf h;
     oldformatcontent := oldformatcontent h; oldformatcontentgrumble :=
     oldformatcontentgrumble h; content_dups_recvd := content_dups_recvd h;
     content_items_sent := content_items_sent h; interests_accepted := interests_accepted h;
     interests_dropped := interests_dropped h; interests_sent := interests_sent h; written :=
     written h |}.
Definition set_accession_base (v : Z) (h : ccnd) : ccnd :=
  {| face_store := face_store h; content_tab := content_tab h; interestprefix_tab :=
     interestprefix_tab h; propagating_tab := propagating_tab h; skiplinks := skiplinks h;
     face_gen := face_gen h; face_rover := face_rover h; face_limit := face_limit h;
     faces_by_faceid := faces_by_faceid h; sched := sched h; age := age h;
     content_by_accession := content_by_accession h; content_by_accession_window :=
     content_by_accession_window h; accession_base := v; accession := accession h; seed :=
     seed h; scratch_charbuf := scratch_charbuf h; scratch_indexbuf := scratch_indexbuf h;
     oldformatcontent := oldformatcontent h; oldformatcontentgrumble :=
     oldformatcontentgrumble h; content_dups_recvd := content_dups_recvd h;
     content_items_sent := content_items_sent h; interests_accepted := interests_accepted h;
     interests_dropped := interests_dropped h; interests_sent := interests_sent h; written :=
     written h |}.
Definition set_accession (v : Z) (h : ccnd) : ccnd :=
  {| face_store := face_store h; content_tab := content_tab h; interestprefix_tab :=
     interestprefix_tab h; propagating_tab := propagating_tab h; skiplinks := skiplinks h;
     face_gen := face_gen h; face_rover := face_rover h; face_limit := face_limit h;
     faces_by_faceid := faces_by_faceid h; sched := sched h; age := age h;
     content_by_accession := content_by_accession h; content_by_accession_window :=
     content_by_accession_window h; accession_base := accession_base h; accession := v; seed
     := seed h; scratch_charbuf := scratch_charbuf h; scratch_indexbuf := scratch_indexbuf h;
     oldformatcontent := oldformatcontent h; oldformatcontentgrumble :=
     oldformatcontentgrumble h; content_dups_recvd := content_dups_recvd h;
     content_items_sent := content_items_sent h; interests_accepted := interests_accepted h;
     interests_dropped := interests_dropped h; interests_sent := interests_sent h; written :=
     written h |}.
Definition set_seed (v : Z) (h : ccnd) : ccnd :=
  {| face_store := face_store h; content_tab := content_tab h; interestprefix_tab :=
     interestprefix_tab h; propagating_tab := propagating_tab h; skiplinks := skiplinks h;
     face_gen := face_gen h; face_rover := face_rover h; face_limit := face_limit h;
     faces_by_faceid := faces_by_faceid h; sched := sched h; age := age h;
     content_by_accession := content_by_accession h; content_by_accession_window :=
     content_by_accession_window h; accession_base := accession_base h; accession :=
     accession h; seed := v; scratch_charbuf := scratch_charbuf h; scratch_indexbuf :=
     scratch_indexbuf h; oldformatcontent := oldformatcontent h; oldformatcontentgrumble :=
     oldformatcontentgrumble h; content_dups_recvd := content_dups_recvd h;
     content_items_sent := content_items_sent h; interests_accepted := interests_accepted h;
     interests_dropped := interests_dropped h; interests_sent := interests_sent h; written :=
     written h |}.
Definition set_scratch_charbuf (v : bool) (h : ccnd) : ccnd :=
  {| face_store := face_store h; content_tab := content_tab h; interestprefix_tab :=
     interestprefix_tab h; propagating_tab := propagating_tab h; skiplinks := skiplinks h;
     face_gen := face_gen h; face_rover := face_rover h; face_limit := face_limit h;
     faces_by_faceid := faces_by_faceid h; sched := sched h; age := age h;
     content_by_accession := content_by_accession h; content_by_accession_window :=
     content_by_accession_window h; accession_base := accession_base h; accession :=
     accession h; seed := seed h; scratch_charbuf := v; scratch_indexbuf := scratch_indexbuf
     h; oldformatcontent := oldformatcontent h; oldformatcontentgrumble :=
     oldformatcontentgrumble h; content_dups_recvd := content_dups_recvd h;
     content_items_sent := content_items_sent h; interests_accepted := interests_accepted h;
     interests_dropped := interests_dropped h; interests_sent := interests_sent h; written :=
     written h |}.
Definition set_scratch_indexbuf (v : bool) (h : ccnd) : ccnd :=
  {| face_store := face_store h; content_tab := content_tab h; interestprefix_tab :=
     interestprefix_tab h; propagating_tab := propagating_tab h; skiplinks := skiplinks h;
     face_gen := face_gen h; face_rover := face_rover h; face_limit := face_limit h;
     faces_by_faceid := faces_by_faceid h; sched := sched h; age := age h;
     content_by_accession := content_by_accession h; content_by_accession_window :=
     content_by_accession_window h; accession_base := accession_base h; accession :=
     accession h; seed := seed h; scratch_charbuf := scratch_charbuf h; scratch_indexbuf :=
     v; oldformatcontent := oldformatcontent h; oldformatcontentgrumble :=
     oldformatcontentgrumble h; content_dups_recvd := content_dups_recvd h;
     content_items_sent := content_items_sent h; interests_accepted := interests_accepted h;
     interests_dropped := interests_dropped h; interests_sent := interests_sent h; written :=
     written h |}.
Definition set_oldformatcontent (v : Z) (h : ccnd) : ccnd :=
  {| face_store := face_store h; content_tab := content_tab h; interestprefix_tab :=
     interestprefix_tab h; propagating_tab := propagating_tab h; skiplinks := skiplinks h;
     face_gen := face_gen h; face_rover := face_rover h; face_limit := face_limit h;
     faces_by_faceid := faces_by_faceid h; sched := sched h; age := age h;
     content_by_accession := content_by_accession h; content_by_accession_window :=
     content_by_accession_window h; accession_base := accession_base h; accession :=
     accession h; seed := seed h; scratch_charbuf := scratch_charbuf h; scratch_indexbuf :=
     scratch_indexbuf h; oldformatcontent := v; oldformatcontentgrumble :=
     oldformatcontentgrumble h; content_dups_recvd := content_dups_recvd h;
     content_items_sent := content_items_sent h; interests_accepted := interests_accepted h;
     interests_dropped := interests_dropped h; interests_sent := interests_sent h; written :=
     written h |}.
Definition set_oldformatcontentgrumble (v : Z) (h : ccnd) : ccnd :=
  {| face_store := face_store h; content_tab := content_tab h; interestprefix_tab :=
     interestprefix_tab h; propagating_tab := propagating_tab h; skiplinks := skiplinks h;
     face_gen := face_gen h; face_rover := face_rover h; face_limit := face_limit h;
     faces_by_faceid := faces_by_faceid h; sched := sched h; age := age h;
     content_by_accession := content_by_accession h; content_by_accession_window :=
     content_by_accession_window h; accession_base := accession_base h; accession :=
     accession h; seed := seed h; scratch_charbuf := scratch_charbuf h; scratch_indexbuf :=
     scratch_indexbuf h; oldformatcontent := oldformatcontent h; oldformatcontentgrumble :=
     v; content_dups_recvd := content_dups_recvd h; content_items_sent := content_items_sent
     h; interests_accepted := interests_accepted h; interests_dropped := interests_dropped h;
     interests_sent := interests_sent h; written := written h |}.
Definition set_content_dups_recvd (v : Z) (h : ccnd) : ccnd :=
  {| face_store := face_store h; content_tab := content_tab h; interestprefix_tab :=
     interestprefix_tab h; propagating_tab := propagating_tab h; skiplinks := skiplinks h;
     face_gen := face_gen h; face_rover := face_rover h; face_limit := face_limit h;
     faces_by_faceid := faces_by_faceid h; sched := sched h; age := age h;
     content_by_accession := content_by_accession h; content_by_accession_window :=
     content_by_accession_window h; accession_base := accession_base h; accession :=
     accession h; seed := seed h; scratch_charbuf := scratch_charbuf h; scratch_indexbuf :=
     scratch_indexbuf h; oldformatcontent := oldformatcontent h; oldformatcontentgrumble :=
     oldformatcontentgrumble h; content_dups_recvd := v; content_items_sent :=
     content_items_sent h; interests_accepted := interests_accepted h; interests_dropped :=
     interests_dropped h; interests_sent := interests_sent h; written := written h |}.
Definition set_content_items_sent (v : Z) (h : ccnd) : ccnd :=
  {| face_store := face_store h; content_tab := content_tab h; interestprefix_tab :=
     interestprefix_tab h; propagating_tab := propagating_tab h; skiplinks := skiplinks h;
     face_gen := face_gen h; face_rover := face_rover h; face_limit := face_limit h;
     faces_by_faceid := faces_by_faceid h; sched := sched h; age := age h;
     content_by_accession := content_by_accession h; content_by_accession_window :=
     content_by_accession_window h; accession_base := accession_base h; accession :=
     accession h; seed := seed h; scratch_charbuf := scratch_charbuf h; scratch_indexbuf :=
     scratch_indexbuf h; oldformatcontent := oldformatcontent h; oldformatcontentgrumble :=
     oldformatcontentgrumble h; content_dups_recvd := content_dups_recvd h;
     content_items_sent := v; interests_accepted := interests_accepted h; interests_dropped
     := interests_dropped h; interests_sent := interests_sent h; written := written h |}.
Definition set_interests_accepted (v : Z) (h : ccnd) : ccnd :=
  {| face_store := face_store h; content_tab := content_tab h; interestprefix_tab :=
     interestprefix_tab h; propagating_tab := propagating_tab h; skiplinks := skiplinks h;
     face_gen := face_gen h; face_rover := face_rover h; face_limit := face_limit h;
     faces_by_faceid := faces_by_faceid h; sched := sched h; age := age h;
     content_by_accession := content_by_accession h; content_by_accession_window :=
     content_by_accession_window h; accession_base := accession_base h; accession :=
     accession h; seed := seed h; scratch_charbuf := scratch_charbuf h; scratch_indexbuf :=
     scratch_indexbuf h; oldformatcontent := oldformatcontent h; oldformatcontentgrumble :=
     oldformatcontentgrumble h; content_dups_recvd := content_dups_recvd h;
     content_items_sent := content_items_sent h; interests_accepted := v; interests_dropped
     := interests_dropped h; interests_sent := interests_sent h; written := written h |}.
Definition set_interests_dropped (v : Z) (h : ccnd) : ccnd :=
  {| face_store := face_store h; content_tab := content_tab h; interestprefix_tab :=
     interestprefix_tab h; propagating_tab := propagating_tab h; skiplinks := skiplinks h;
     face_gen := face_gen h; face_rover := face_rover h; face_limit := face_limit h;
     faces_by_faceid := faces_by_faceid h; sched := sched h; age := age h;
     content_by_accession := content_by_accession h; content_by_accession_window :=
     content_by_accession_window h; accession_base := accession_base h; accession :=
     accession h; seed := seed h; scratch_charbuf := scratch_charbuf h; scratch_indexbuf :=
     scratch_indexbuf h; oldformatcontent := oldformatcontent h; oldformatcontentgrumble :=
     oldformatcontentgrumble h; content_dups_recvd := content_dups_recvd h;
     content_items_sent := content_items_sent h; interests_accepted := interests_accepted h;
     interests_dropped := v; interests_sent := interests_sent h; written := written h |}.
Definition set_interests_sent (v : Z) (h : ccnd) : ccnd :=
  {| face_store := face_store h; content_tab := content_tab h; interestprefix_tab :=
     interestprefix_tab h; propagating_tab := propagating_tab h; skiplinks := skiplinks h;
     face_gen := face_gen h; face_rover := face_rover h; face_limit := face_limit h;
     faces_by_faceid := faces_by_faceid h; sched := sched h; age := age h;
     content_by_accession := content_by_accession h; content_by_accession_window :=
     content_by_accession_window h; accession_base := accession_base h; accession :=
     accession h; seed := seed h; scratch_charbuf := scratch_charbuf h; scratch_indexbuf :=
     scratch_indexbuf h; oldformatcontent := oldformatcontent h; oldformatcontentgrumble :=
     oldformatcontentgrumble h; content_dups_recvd := content_dups_recvd h;
     content_items_sent := content_items_sent h; interests_accepted := interests_accepted h;
     interests_dropped := interests_dropped h; interests_sent := v; written := written h |}.
Definition set_written (v : list (nat * list byte)) (h : ccnd) : ccnd :=
  {| face_store := face_store h; content_tab := content_tab h; interestprefix_tab :=
     interestprefix_tab h; propagating_tab := propagating_tab h; skiplinks := skiplinks h;
     face_gen := face_gen h; face_rover := face_rover h; face_limit := face_limit h;
     faces_by_faceid := faces_by_faceid h; sched := sched h; age := age h;
     content_by_accession := content_by_accession h; content_by_accession_window :=
     content_by_accession_window h; accession_base := accession_base h; accession :=
     accession h; seed := seed h; scratch_charbuf := scratch_charbuf h; scratch_indexbuf :=
     scratch_indexbuf h; oldformatcontent := oldformatcontent h; oldformatcontentgrumble :=
     oldformatcontentgrumble h; content_dups_recvd := content_dups_recvd h;
     content_items_sent := content_items_sent h; interests_accepted := interests_accepted h;
     interests_dropped := interests_dropped h; interests_sent := interests_sent h; written :=
     v |}.

(** ** The face table (ccnd.c, lines 146-207) *)

Section FaceTable.
Context `{P : ccnd_private}.

(** [face_from_faceid]: the face stored at slot [faceid & MAXFACES], provided
    its own [faceid] field is the one asked for. *)
Definition face_from_faceid (h : ccnd) (faceid : Z) : option nat :=
  let slot := Z.land faceid MAXFACES in
  if slot <? face_limit h then
    match zlookup (faces_by_faceid h) slot with
    | Some (Some face) =>
        match face_store h !! face with
        | Some f => if Face.faceid f =? faceid then Some face else None
        | None => None
        end
    | _ => None
    end
  else None.

(** The two scans of [enroll_face]: the first [i] with [lo <= i < lo + cnt]
    and [a[i] == NULL]. *)
Fixpoint find_null (a : list (option nat)) (lo : nat) (cnt : nat) : option nat :=
  match cnt with
  | O => None
  | S cnt' =>
      match a !! lo with
      | Some None => Some lo
      | _ => find_null a (S lo) cnt'
      end
  end.

(** The label [use_i] of [enroll_face]. *)
Definition enroll_use_i (h : ccnd) (i : Z) (face : nat) : ccnd * Z :=
  let faceid := u32 (Z.lor i (face_gen h)) in
  let h := set_faces_by_faceid (zupdate (faces_by_faceid h) i (Some face)) h in
  let h := set_face_rover (u32 (i + 1)) h in
  let h := set_face_store (alter (Face.set_faceid faceid) face (face_store h)) h in
  (h, int_of_unsigned faceid).

(** [realloc] of the slot array to [i] slots, followed by the loop that
    clears the new slots above [n]; slot [n] is written by [use_i]. *)
Definition grow_faces (a : list (option nat)) (i : Z) : list (option nat) :=
  a ++ replicate (Z.to_nat i - length a) None.

(** [enroll_face]: returns the new state and the C return value (the face id,
    or -1 when the table cannot grow). *)
Definition enroll_face (h : ccnd) (face : nat) : ccnd * Z :=
  let n := face_limit h in
  let a := faces_by_faceid h in
  match find_null a (Z.to_nat (face_rover h)) (Z.to_nat (n - face_rover h)) with
  | Some i => enroll_use_i h (Z.of_nat i) face
  | None =>
      match find_null a 0 (Z.to_nat n) with
      | Some i =>
          (* bump gen only if second pass succeeds *)
          enroll_use_i (set_face_gen (u32 (face_gen h + (MAXFACES + 1))) h)
                       (Z.of_nat i) face
      | None =>
          let i := u32 (u32 (n + 1) * 3) / 2 in
          let i := if MAXFACES <? i then MAXFACES else i in
          if i <=? n then (h, -1) (* overflow *)
          else
            let h := set_face_limit i h in
            let h := set_faces_by_faceid (grow_faces a i) h in
            enroll_use_i h n face
      end
  end.

(** [finalize_face]: clears the slot of a face that is about to be freed. *)
Definition finalize_face (h : ccnd) (face : nat) : option ccnd :=
  f ← face_store h !! face;
  let i := Z.land (Face.faceid f) MAXFACES in
  if (i <? face_limit h) && bool_decide (zlookup (faces_by_faceid h) i = Some (Some face))
  then Some (set_faces_by_faceid (zupdate (faces_by_faceid h) i None) h)
  else Some h (* orphaned face *).

(** [hashtb_delete] on a face entry of faces_by_fd or dgram_faces, as in
    [shutdown_client_fd] and [check_dgram_faces]: the finalizer runs, then the
    entry is freed. *)
Definition release_face (h : ccnd) (face : nat) : option ccnd :=
  h ← finalize_face h face;
  Some (set_face_store (delete face (face_store h)) h).

(** A new entry of faces_by_fd or dgram_faces: [hashtb_seek] returns zeroed
    storage at an address not in use, and the caller sets [fd] and [flags]. *)
Definition new_face (h : ccnd) (face : nat) (fd flags : Z) : ccnd :=
  set_face_store (<[face := Face.mk fd flags 0 0 0]> (face_store h)) h.

(** [accept_new_client], and the first datagram of a peer in
    [get_dgram_source]: a new face is created and enrolled.  The result of
    [enroll_face] is only logged. *)
Definition accept_face (h : ccnd) (face : nat) (fd flags : Z) : ccnd :=
  fst (enroll_face (new_face h face fd flags) face).

(** [face->flags |= ...]: [process_input_message] marks a face that sends
    protocol data units with CCN_FACE_LINK. *)
Definition face_set_flags (h : ccnd) (face : nat) (flags : Z) : ccnd :=
  set_face_store
    (alter (fun f => Face.set_flags (Z.lor (Face.flags f) flags) f) face (face_store h)) h.

(** The face table after [ccnd_create]: ten NULL slots. *)
Definition face_limit_init : Z := 10.

(** [get_outbound_faces] (lines 1031-1049): the loop over the slots. *)
Definition get_outbound_faces (h : ccnd) (from : nat) (pi : ccn_parsed_interest)
  : option (list Z) :=
  if pi_scope pi =? 0 then Some []
  else
    let blockmask := if pi_scope pi =? 1 then CCN_FACE_LINK else 0 in
    foldl (fun acc i =>
             x ← acc;
             ai ← faces_by_faceid h !! i;
             match ai with
             | None => Some x
             | Some p =>
                 if bool_decide (p = from) then Some x
                 else
                   f ← face_store h !! p;
                   if Z.land (Face.flags f) blockmask =? 0
                   then Some (x ++ [Face.faceid f])
                   else Some x
             end)
          (Some []) (seq 0 (Z.to_nat (face_limit h))).

End FaceTable.

(** ** The daemon after start-up (ccnd_create, lines 1789-1868)

    The state built by [ccnd_create], before any socket is registered:
    empty tables, ten NULL face slots, an empty skiplist head. *)
Definition ccnd_create (seed0 : Z) : ccnd :=
  {| face_store := ∅; content_tab := ∅; interestprefix_tab := ∅;
     propagating_tab := ∅; skiplinks := [];
     face_gen := 0; face_rover := 0; face_limit := 10;
     faces_by_faceid := replicate 10 None;
     sched := []; age := None;
     content_by_accession := []; content_by_accession_window := 0;
     accession_base := 0; accession := 0; seed := seed0;
     scratch_charbuf := false; scratch_indexbuf := false;
     oldformatcontent := 0; oldformatcontentgrumble := 1;
     content_dups_recvd := 0; content_items_sent := 0;
     interests_accepted := 0; interests_dropped := 0; interests_sent := 0;
     written := [] |}.

(** Sample values for the constants of ccnd_private.h, used to run the model
    on concrete inputs. *)
Definition sample_private : ccnd_private :=
  {| MAXFACES := 2 ^ 11 - 1;
     CCN_FACE_LINK := 1;
     CCN_FACE_DGRAM := 2;
     CCN_CONTENT_ENTRY_SLOWSEND := 1;
     CCN_UNIT_INTEREST := 5;
     CCN_INTEREST_HALFLIFE_MICROSEC := 4000000 |}.

(** ** Index buffers (lines 615-641, 1051-1073) *)

(** [indexbuf_unordered_set_insert]: the buffer afterwards and the index at
    which [val] was found or added; -1 on a NULL buffer. *)
Definition indexbuf_unordered_set_insert (x : option (list Z)) (val : Z)
  : option (list Z) * Z :=
  match x with
  | None => (None, -1)
  | Some l =>
      match list_find (fun v => v = val) l with
      | Some (i, _) => (Some l, Z.of_nat i)
      | None => (Some (l ++ [val]), zlength l)
      end
  end.

(** The loop of [indexbuf_member], from index [n - 1] down to 0. *)
Fixpoint indexbuf_member_below (l : list Z) (val : Z) (n : nat) : Z :=
  match n with
  | O => -1
  | S n' => if bool_decide (l !! n' = Some val) then Z.of_nat n'
            else indexbuf_member_below l val n'
  end.

Definition indexbuf_member (x : option (list Z)) (val : Z) : Z :=
  match x with
  | None => -1
  | Some l => indexbuf_member_below l val (length l)
  end.

(** [indexbuf_remove_element]: the last occurrence is overwritten by the
    last element, and the buffer shrinks by one. *)
Definition indexbuf_remove_element (x : option (list Z)) (val : Z) : option (list Z) :=
  match x with
  | None => None
  | Some l =>
      let i := indexbuf_member_below l val (length l) in
      if i <? 0 then Some l
      else match last l with
           | Some e => Some (take (length l - 1) (zupdate l i e))
           | None => Some l
           end
  end.

Section ContentStore.
Context `{P : ccnd_private} `{L : ccn_library}.

(** ** The accession index (lines 209-268) *)

(** [content_from_accession].  The array holds pointers into content_tab;
    a pointer is the key of the entry. *)
Definition content_from_accession (h : ccnd) (accession : Z) : option (list byte) :=
  if (accession_base h <=? accession) &&
     (accession <? u64 (accession_base h + content_by_accession_window h))
  then
    match zlookup (content_by_accession h) (accession - accession_base h) with
    | Some (Some ans) =>
        match content_tab h !! ans with
        | Some c => if Content.accession c =? accession then Some ans else None
        | None => None
        end
    | _ => None
    end
  else None.

(** The number of leading NULL slots, as counted by the first loop of
    [enroll_content]. *)
Fixpoint leading_nulls {A} (a : list (option A)) : nat :=
  match a with
  | None :: a' => S (leading_nulls a')
  | _ => O
  end.

(** [enroll_content]: slides and grows the window when the accession lies
    beyond it, then stores the pointer. *)
Definition enroll_content (h : ccnd) (content : list byte) : option ccnd :=
  c ← content_tab h !! content;
  let h :=
    if u64 (accession_base h + content_by_accession_window h) <=? Content.accession c
    then
      let new_window := u32 (u32 (content_by_accession_window h + 20) * 3) / 2 in
      let old_array := take (Z.to_nat (content_by_accession_window h))
                            (content_by_accession h) in
      let i := leading_nulls old_array in
      let kept := drop i old_array in
      let new_array := kept ++ replicate (Z.to_nat new_window - length kept) None in
      set_content_by_accession_window new_window
        (set_content_by_accession new_array
           (set_accession_base (u64 (accession_base h + Z.of_nat i)) h))
    else h in
  let slot := Content.accession c - accession_base h in
  if (0 <=? slot) && (slot <? zlength (content_by_accession h))
  then Some (set_content_by_accession
               (zupdate (content_by_accession h) slot (Some content)) h)
  else None.

(** ** The name-ordered skiplist (lines 270-335, 412-418) *)

Definition CCN_SKIPLIST_MAX_DEPTH : Z := 30.

(** A [struct ccn_indexbuf *] that points to a vector of skiplist links:
    the head's, or a content entry's. *)
Inductive skipnode : Type :=
  | skip_head
  | skip_content (content : list byte).

#[global] Instance skipnode_eq_dec : EqDecision skipnode.
Proof. solve_decision. Defined.

Definition skipnode_links (h : ccnd) (c : skipnode) : option (list Z) :=
  match c with
  | skip_head => Some (skiplinks h)
  | skip_content k => c ← content_tab h !! k; Content.skiplinks c
  end.

Definition skipnode_set_link (h : ccnd) (c : skipnode) (i : nat) (v : Z) : option ccnd :=
  match c with
  | skip_head =>
      if bool_decide (i < length (skiplinks h))%nat
      then Some (set_skiplinks (<[i := v]> (skiplinks h)) h) else None
  | skip_content k =>
      e ← content_tab h !! k;
      l ← Content.skiplinks e;
      if bool_decide (i < length l)%nat
      then Some (set_content_tab
                   (<[k := Content.set_skiplinks (Some (<[i := v]> l)) e]>
                      (content_tab h)) h)
      else None
  end.

(** The inner [for (;;)] of [content_skiplist_findbefore] at level [i],
    entered at node [c].  Each turn that does not leave the loop moves to
    another stored entry; a walk that takes more turns than there are
    entries has met one of them twice and never ends, which is the result
    [None] as well. *)
Fixpoint findbefore_level (fuel : nat) (h : ccnd) (key : list byte) (i : nat)
    (c : skipnode) : option skipnode :=
  match fuel with
  | O => None
  | S fuel' =>
      links ← skipnode_links h c;
      nxt ← links !! i;
      if nxt =? 0 then Some c
      else
        content ← content_from_accession h nxt;
        e ← content_tab h !! content;
        let order :=
          ccn_compare_names (bytes_at (Content.key e) 0 (Content.key_size e)) key in
        if 0 <=? order then Some c
        else
          match Content.skiplinks e with
          | None => None
          | Some l =>
              if bool_decide (length l <= i)%nat then None
              else findbefore_level fuel' h key i (skip_content content)
          end
  end.

(** The outer loop, from level [n - 1] down to 0; the answer lists
    [ans[0], ..., ans[n-1]]. *)
Fixpoint findbefore_levels (h : ccnd) (key : list byte) (n : nat) (c : skipnode)
  : option (list skipnode) :=
  match n with
  | O => Some []
  | S i =>
      c' ← findbefore_level (S (size (content_tab h))) h key i c;
      ans ← findbefore_levels h key i c';
      Some (ans ++ [c'])
  end.

(** [content_skiplist_findbefore]: the value returned ([n]) is the length of
    the answer. *)
Definition content_skiplist_findbefore (h : ccnd) (key : list byte)
  : option (list skipnode) :=
  findbefore_levels h key (length (skiplinks h)) skip_head.

(** The loop [for (d = 1; d < CCN_SKIPLIST_MAX_DEPTH - 1; d++)] of
    [content_skiplist_insert], with [n] tests of the loop condition left:
    the depth and the seed when the loop is left. *)
Fixpoint skiplist_choose_depth (n : nat) (d : Z) (seed : Z) : Z * Z :=
  match n with
  | O => (d, seed)
  | S n' =>
      let '(r, seed') := nrand48 seed in
      if negb (Z.land r 3 =? 0) then (d, seed')
      else skiplist_choose_depth n' (d + 1) seed'
  end.

(** The last loop of [content_skiplist_insert], for levels [i .. d-1]. *)
Fixpoint skiplist_link_levels (h : ccnd) (content : list byte) (accession : Z)
    (pred : list skipnode) (i : nat) (cnt : nat) : option ccnd :=
  match cnt with
  | O => Some h
  | S cnt' =>
      p ← pred !! i;
      links ← skipnode_links h p;
      nxt ← links !! i;
      e ← content_tab h !! content;
      l ← Content.skiplinks e;
      let h := set_content_tab
                 (<[content := Content.set_skiplinks (Some (l ++ [nxt])) e]>
                    (content_tab h)) h in
      h ← skipnode_set_link h p i accession;
      skiplist_link_levels h content accession pred (S i) cnt'
  end.

(** [content_skiplist_insert]. *)
Definition content_skiplist_insert (h : ccnd) (content : list byte) : option ccnd :=
  e ← content_tab h !! content;
  if bool_decide (is_Some (Content.skiplinks e)) then None (* abort *)
  else
    let '(d, seed') :=
      skiplist_choose_depth (Z.to_nat (CCN_SKIPLIST_MAX_DEPTH - 1 - 1)) 1 (seed h) in
    let h := set_seed seed' h in
    let h := set_skiplinks
               (skiplinks h ++ replicate (Z.to_nat d - length (skiplinks h)) 0) h in
    pred ← content_skiplist_findbefore h (bytes_at (Content.key e) 0 (Content.key_size e));
    let i := zlength pred in
    let d := if i <? d then i else d (* just in case *) in
    let h := set_content_tab
               (<[content := Content.set_skiplinks (Some []) e]> (content_tab h)) h in
    skiplist_link_levels h content (Content.accession e) pred 0 (Z.to_nat d).

(** The loop of [content_skiplist_remove], for levels [i .. d-1]. *)
Fixpoint skiplist_unlink_levels (h : ccnd) (links : list Z)
    (pred : list skipnode) (i : nat) (cnt : nat) : option ccnd :=
  match cnt with
  | O => Some h
  | S cnt' =>
      p ← pred !! i;
      nxt ← links !! i;
      h ← skipnode_set_link h p i nxt;
      skiplist_unlink_levels h links pred (S i) cnt'
  end.

(** [content_skiplist_remove]. *)
Definition content_skiplist_remove (h : ccnd) (content : list byte) : option ccnd :=
  e ← content_tab h !! content;
  links ← Content.skiplinks e; (* abort when NULL *)
  pred ← content_skiplist_findbefore h (bytes_at (Content.key e) 0 (Content.key_size e));
  let d := if zlength links <? zlength pred then zlength links else zlength pred in
  h ← skiplist_unlink_levels h links pred 0 (Z.to_nat d);
  e ← content_tab h !! content;
  Some (set_content_tab
          (<[content := Content.set_skiplinks None e]> (content_tab h)) h).

(** [content_skiplist_next]. *)
Definition content_skiplist_next (h : ccnd) (content : option (list byte)) : Z :=
  match content with
  | None => 0
  | Some k =>
      match content_tab h !! k with
      | Some e =>
          match Content.skiplinks e with
          | Some (a :: _) => a
          | _ => 0
          end
      | None => 0
      end
  end.

(** [find_first_match_candidate]. *)
Definition find_first_match_candidate (h : ccnd) (interest_msg : list byte)
    (pi : ccn_parsed_interest) : option (option (list byte)) :=
  pred ← content_skiplist_findbefore h (bytes_at interest_msg 0 (CCN_PI_E_Name pi));
  match pred with
  | [] => Some None
  | p :: _ =>
      links ← skipnode_links h p;
      nxt ← links !! 0%nat;
      Some (content_from_accession h nxt)
  end.

(** [finalize_content]: what the hashtable runs before it frees an entry. *)
Definition finalize_content (h : ccnd) (content : list byte) : option ccnd :=
  e ← content_tab h !! content;
  let i := u32 (Content.accession e - accession_base h) in
  if (i <? content_by_accession_window h) &&
     bool_decide (zlookup (content_by_accession h) i = Some (Some content))
  then
    h ← content_skiplist_remove h content;
    (* the sender, if any, is cancelled with the scheduler *)
    e ← content_tab h !! content;
    let e := Content.set_faces None (Content.set_sender None e) in
    Some (set_content_by_accession (zupdate (content_by_accession h) i None)
            (set_content_tab (<[content := e]> (content_tab h)) h))
  else Some h (* orphaned content *).

(** ** Prefix match (lines 362-392) *)

(** [content_matches_interest_prefix]; the argument [h] is not used by the C
    function and is left out.  The differences are compared as [size_t]. *)
Definition content_matches_interest_prefix (content : Content.t)
    (interest_msg : list byte) (comps : list Z) (prefix_comps : Z) : option bool :=
  if (prefix_comps <? 0) || (zlength comps <=? prefix_comps) then None (* abort *)
  else
    (* First verify the prefix match. *)
    stripped ←
      (if Content.ncomps content <? prefix_comps + 1 then
         if (Content.ncomps content =? prefix_comps) && (0 <? prefix_comps) then
           hi ← zlookup comps prefix_comps;
           lo ← zlookup comps (prefix_comps - 1);
           if u64 (hi - lo) =? 1 + 2 + 32 + 1
           then Some (Some (prefix_comps - 1)) (* could be a digest component *)
           else Some None
         else Some None
       else Some (Some prefix_comps));
    match stripped with
    | None => Some false
    | Some prefix_comps =>
        i_end ← zlookup comps prefix_comps;
        i_0 ← zlookup comps 0;
        c_end ← zlookup (Content.comps content) prefix_comps;
        c_0 ← zlookup (Content.comps content) 0;
        let prefixlen := u64 (i_end - i_0) in
        if negb (u64 (c_end - c_0) =? prefixlen) then Some false
        else if (c_0 + prefixlen <=? zlength (Content.key content)) &&
                (i_0 + prefixlen <=? zlength interest_msg) &&
                (0 <=? c_0) && (0 <=? i_0)
        then Some (bool_decide (bytes_at (Content.key content) c_0 prefixlen
                                = bytes_at interest_msg i_0 prefixlen))
        else None (* memcmp outside a buffer *)
    end.

End ContentStore.

Section Forwarder.
Context `{P : ccnd_private} `{L : ccn_library}.

(** ** Scratch buffers and output (lines 104-144, 550-563, 1629-1660) *)

(** [charbuf_obtain] empties the pool; [charbuf_release] leaves a buffer in
    it.  The buffers carry no contents between uses. *)
Definition charbuf_obtain (h : ccnd) : ccnd := set_scratch_charbuf false h.
Definition charbuf_release (h : ccnd) : ccnd := set_scratch_charbuf true h.
Definition indexbuf_obtain (h : ccnd) : ccnd := set_scratch_indexbuf false h.
Definition indexbuf_release (h : ccnd) : ccnd := set_scratch_indexbuf true h.

(** [do_write]: the bytes are sent on, or queued for, the face.  The socket
    layer is outside the model; the daemon state records what was written. *)
Definition do_write (h : ccnd) (face : nat) (data : list byte) : ccnd :=
  set_written (written h ++ [(face, data)]) h.

(** [send_content]. *)
Definition send_content (h : ccnd) (face : nat) (content : list byte) : option ccnd :=
  f ← face_store h !! face;
  e ← content_tab h !! content;
  let link := negb (Z.land (Face.flags f) CCN_FACE_LINK =? 0) in
  let h := charbuf_obtain h in
  let c := (if link then ccn_charbuf_append_tt CCN_DTAG_CCNProtocolDataUnit CCN_DTAG
            else [])
           ++ bytes_at (Content.key e) 0 (Content.key_size e + Content.tail_size e)
           ++ (if link then [CCN_CLOSE] else []) in
  let h := do_write h face c in
  let h := set_content_items_sent (content_items_sent h + 1) h in
  Some (charbuf_release h).

(** ** Delivery of content (lines 565-653) *)

Definition CCN_DATA_PAUSE : Z := 16 * 1024.

(** [choose_content_delay]: the delay in microseconds; the seed advances
    when a number is drawn. *)
Definition choose_content_delay (h : ccnd) (faceid : Z) (content_flags : Z) : ccnd * Z :=
  let shift := if negb (Z.land content_flags CCN_CONTENT_ENTRY_SLOWSEND =? 0)
               then 2 else 0 in
  match face_from_faceid h faceid ≫= (fun face => face_store h !! face) with
  | None => (h, 1) (* Going nowhere, get it over with *)
  | Some f =>
      if negb (Z.land (Face.flags f) CCN_FACE_DGRAM =? 0)
      then (h, 100) (* localhost udp, delay just a little *)
      else if negb (Z.land (Face.flags f) CCN_FACE_LINK =? 0)
      then (* udplink or such, delay more *)
        let '(r, seed') := nrand48 (seed h) in
        (set_seed seed' h,
         Z.shiftl (Z.rem r CCN_DATA_PAUSE + CCN_DATA_PAUSE / 2) shift)
      else (h, 10) (* local stream, answer quickly *)
  end.

Definition content_set_sender (h : ccnd) (content : list byte) (s : option nat) : ccnd :=
  set_content_tab (alter (Content.set_sender s) content (content_tab h)) h.

(** The [while] loop of [content_sender]; [rest] is [faces[nface_done..]]. *)
Fixpoint content_sender_loop (h : ccnd) (content : list byte) (rest : list Z)
  : option (ccnd * Z) :=
  match rest with
  | [] => Some (content_set_sender h content None, 0)
  | faceid :: rest' =>
      e ← content_tab h !! content;
      let h := set_content_tab
                 (<[content := Content.set_nface_done (Content.nface_done e + 1) e]>
                    (content_tab h)) h in
      match face_from_faceid h (u32 faceid) with
      | Some face =>
          h ← send_content h face content;
          match rest' with
          | nxt :: _ => Some (choose_content_delay h (u32 nxt) (Content.flags e))
          | [] => Some (content_set_sender h content None, 0)
          end
      | None => content_sender_loop h content rest'
      end
  end.

(** [content_sender], the scheduled action; [content] is [ev->evdata] and
    [cancel] tells whether [flags] has CCN_SCHEDULE_CANCEL.  The value
    returned is the delay until the next run, 0 for none. *)
Definition content_sender (h : ccnd) (content : option (list byte)) (cancel : bool)
  : option (ccnd * Z) :=
  match content with
  | None => Some (h, 0)
  | Some k =>
      e ← content_tab h !! k;
      if negb (bool_decide (content_from_accession h (Content.accession e) = Some k))
      then Some (h, 0) (* bogon *)
      else
        match Content.faces e with
        | Some fs =>
            if cancel then Some (content_set_sender h k None, 0)
            else content_sender_loop h k (drop (Z.to_nat (Content.nface_done e)) fs)
        | None => Some (content_set_sender h k None, 0)
        end
  end.

(** [content_faces_set_insert]: the index of [faceid] in the face set. *)
Definition content_faces_set_insert (h : ccnd) (content : list byte) (faceid : Z)
  : option (ccnd * Z) :=
  e ← content_tab h !! content;
  let e := match Content.faces e with
           | None => Content.set_nface_done 0 (Content.set_faces (Some []) e)
           | Some _ => e
           end in
  let '(x, i) := indexbuf_unordered_set_insert (Content.faces e) faceid in
  Some (set_content_tab (<[content := Content.set_faces x e]> (content_tab h)) h, i).

(** [ccn_schedule_event]: the new state and the handle. *)
Definition ccn_schedule_event (h : ccnd) (delay : Z) (action : sched_action) (evint : Z)
  : ccnd * nat :=
  (set_sched (sched h ++ [Build_scheduled_event delay action evint]) h,
   length (sched h)).

(** [schedule_content_delivery]. *)
Definition schedule_content_delivery (h : ccnd) (content : list byte) : option ccnd :=
  e ← content_tab h !! content;
  match Content.sender e, Content.faces e with
  | None, Some fs =>
      if Content.nface_done e <? zlength fs then
        nxt ← zlookup fs (Content.nface_done e);
        let '(h, delay) := choose_content_delay h (u32 nxt) (Content.flags e) in
        let '(h, ev) := ccn_schedule_event h delay (ev_content_sender content) 0 in
        Some (content_set_sender h content (Some ev))
      else Some h
  | _, _ => Some h
  end.

(** ** Propagating interests (lines 420-468, 655-675) *)

(** [finished_propagating]: the message and the outbound set are released
    and the entry leaves its ring. *)
Definition finished_propagating (h : ccnd) (pe : list byte) : option ccnd :=
  e ← propagating_tab h !! pe;
  let h :=
    match Pe.next e with
    | Some k =>
        set_interestprefix_tab
          (alter (fun ipe =>
                    Ipe.set_propagating_head
                      (filter (fun p => p ≠ pe) <$> Ipe.propagating_head ipe) ipe)
                 k (interestprefix_tab h)) h
    | None => h
    end in
  Some (set_propagating_tab
          (<[pe := Pe.mk None (Pe.size e) (Pe.faceid e) None None]>
             (propagating_tab h)) h).

(** [link_propagating_interest_to_interest_entry]: [pe] goes in front of the
    sentinel, that is, last in the ring. *)
Definition link_propagating_interest_to_interest_entry (h : ccnd)
    (pe : list byte) (ipe : list byte) : option ccnd :=
  i ← interestprefix_tab h !! ipe;
  e ← propagating_tab h !! pe;
  let ring := default [] (Ipe.propagating_head i) ++ [pe] in
  Some (set_propagating_tab
          (<[pe := Pe.set_next (Some ipe) e]> (propagating_tab h))
          (set_interestprefix_tab
             (<[ipe := Ipe.set_propagating_head (Some ring) i]>
                (interestprefix_tab h)) h)).

(** The loop of [cancel_one_propagating_interest] over the ring, from
    [head->next] on. *)
Fixpoint ring_find_faceid (h : ccnd) (ring : list (list byte)) (faceid : Z)
  : option (option (list byte)) :=
  match ring with
  | [] => Some None
  | p :: ring' =>
      e ← propagating_tab h !! p;
      if Pe.faceid e =? faceid then Some (Some p)
      else ring_find_faceid h ring' faceid
  end.

(** [cancel_one_propagating_interest]: the first entry of the ring that came
    in on [faceid] is finished. *)
Definition cancel_one_propagating_interest (h : ccnd) (ipe : list byte) (faceid : Z)
  : option ccnd :=
  i ← interestprefix_tab h !! ipe;
  match Ipe.propagating_head i with
  | None => Some h
  | Some ring =>
      found ← ring_find_faceid h ring faceid;
      match found with
      | Some p => finished_propagating h p
      | None => Some h
      end
  end.

(** ** Matching content against pending interests (lines 677-777) *)

(** A [size_t] read as [intptr_t]. *)
Definition intptr_of_size (x : Z) : Z := if x <? 2 ^ 63 then x else x - 2 ^ 64.

Definition ipe_set_counter (h : ccnd) (ipe : list byte) (i : Z) (count : Z) : ccnd :=
  set_interestprefix_tab
    (alter (fun e => Ipe.set_counters
                       ((fun c => zupdate c i (u64 count)) <$> Ipe.counters e) e)
           ipe (interestprefix_tab h)) h.

(** One turn of the inner loop of [match_interests], at index [i] of the
    counters of [ipe]; the number of matches is threaded through. *)
Definition match_interests_at (content : list byte) (ipe : list byte)
    (st : ccnd * Z) (i : nat) : option (ccnd * Z) :=
  let '(h, n_matched) := st in
  e ← interestprefix_tab h !! ipe;
  cs ← Ipe.counters e;
  c ← cs !! i;
  let count := intptr_of_size c in
  if 0 <? count then
    fs ← Ipe.interested_faceid e;
    f ← fs !! i;
    let faceid := u32 f in
    match face_from_faceid h faceid with
    | Some _ =>
        '(h, k) ← content_faces_set_insert h content faceid;
        ce ← content_tab h !! content;
        if Content.nface_done ce <=? k then
          let count := count - CCN_UNIT_INTEREST in
          let count := if count <? 0 then 0 else count in
          h ← cancel_one_propagating_interest h ipe faceid;
          Some (ipe_set_counter h ipe (Z.of_nat i) count, n_matched + 1)
        else Some (ipe_set_counter h ipe (Z.of_nat i) count, n_matched)
    | None => Some (ipe_set_counter h ipe (Z.of_nat i) 0, n_matched)
    end
  else Some (h, n_matched).

(** The key of the prefix of [ci] components of a stored name, for
    [c0 = content->comps[0]]. *)
Definition content_prefix_key (e : Content.t) (c0 : Z) (ci : Z) : option (list byte) :=
  c ← zlookup (Content.comps e) ci;
  Some (bytes_at (Content.key e) c0 (c - c0)).

(** One turn of the outer loop of [match_interests], for the prefix of [ci]
    components. *)
Definition match_interests_prefix (content : list byte) (c0 : Z)
    (st : ccnd * Z) (ci : nat) : option (ccnd * Z) :=
  let '(h, n_matched) := st in
  e ← content_tab h !! content;
  key ← content_prefix_key e c0 (Z.of_nat ci);
  match interestprefix_tab h !! key with
  | None => Some st
  | Some ipe =>
      let n := match Ipe.counters ipe with None => O | Some cs => length cs end in
      foldl (fun acc i => st ← acc; match_interests_at content key st i)
            (Some st) (seq 0 n)
  end.

(** [match_interests]: adds the faces with demand for [content] to its face
    set, consumes their interests and schedules the sender.  Returns the
    number of matches. *)
Definition match_interests (h : ccnd) (content : list byte) : option (ccnd * Z) :=
  e ← content_tab h !! content;
  c0 ← zlookup (Content.comps e) 0;
  '(h, n_matched) ←
    foldl (fun acc ci => st ← acc; match_interests_prefix content c0 st ci)
          (Some (h, 0)) (reverse (seq 0 (Z.to_nat (Content.ncomps e))));
  if negb (n_matched =? 0) then
    h ← schedule_content_delivery h content; Some (h, n_matched)
  else Some (h, n_matched).

(** The inner loop of [match_interest_for_faceid] over the interested faces
    [fs[i..]]: it stops at the first index that holds [faceid]. *)
Fixpoint match_interest_for_faceid_at (content : list byte) (ipe : list byte)
    (faceid : Z) (st : ccnd * Z) (i : nat) (cnt : nat) : option (ccnd * Z) :=
  match cnt with
  | O => Some st
  | S cnt' =>
      let '(h, n_matched) := st in
      e ← interestprefix_tab h !! ipe;
      fs ← Ipe.interested_faceid e;
      f ← fs !! i;
      if faceid =? f then
        cs ← Ipe.counters e;
        c ← cs !! i;
        let count := intptr_of_size c in
        if count =? 0 then Some st
        else
          match face_from_faceid h faceid with
          | Some _ =>
              '(h, k) ← content_faces_set_insert h content faceid;
              ce ← content_tab h !! content;
              if Content.nface_done ce <=? k then
                let count := count - CCN_UNIT_INTEREST in
                let count := if count <? 0 then 0 else count in
                Some (ipe_set_counter h ipe (Z.of_nat i) count, n_matched + 1)
              else Some (ipe_set_counter h ipe (Z.of_nat i) count, n_matched)
          | None => Some (ipe_set_counter h ipe (Z.of_nat i) 0, n_matched)
          end
      else match_interest_for_faceid_at content ipe faceid st (S i) cnt'
  end.

Definition match_interest_for_faceid_prefix (content : list byte) (c0 : Z)
    (faceid : Z) (st : ccnd * Z) (ci : nat) : option (ccnd * Z) :=
  let '(h, n_matched) := st in
  e ← content_tab h !! content;
  key ← content_prefix_key e c0 (Z.of_nat ci);
  match interestprefix_tab h !! key with
  | None => Some st
  | Some ipe =>
      let n := match Ipe.counters ipe with None => O | Some cs => length cs end in
      match_interest_for_faceid_at content key faceid st 0 n
  end.

(** [match_interest_for_faceid]. *)
Definition match_interest_for_faceid (h : ccnd) (content : list byte) (faceid : Z)
  : option (ccnd * Z) :=
  e ← content_tab h !! content;
  c0 ← zlookup (Content.comps e) 0;
  '(h, n_matched) ←
    foldl (fun acc ci =>
             st ← acc; match_interest_for_faceid_prefix content c0 faceid st ci)
          (Some (h, 0)) (reverse (seq 0 (Z.to_nat (Content.ncomps e))));
  h ← schedule_content_delivery h content;
  Some (h, n_matched).

End Forwarder.

Section Processing.
Context `{P : ccnd_private} `{L : ccn_library}.

(** ** Aging of the demand counters (lines 779-826, 941-967) *)

(** The loop [for (i = 0; i < n; i++)] of [age_interests] over the counters
    of one entry.  Every turn either advances [i] or removes a counter, so
    [m], the distance [n - i], goes down by one each time; [n] is the
    length of [cnts]. *)
Fixpoint age_counters (m : nat) (i : Z) (fids : option (list Z)) (cnts : list Z)
  : option (option (list Z) * list Z) :=
  match m with
  | O => Some (fids, cnts)
  | S m' =>
      count ← zlookup cnts i;
      if CCN_UNIT_INTEREST <? count then
        (* factor of approximately the fourth root of 1/2 *)
        age_counters m' (i + 1) fids (zupdate cnts i (u64 (count * 5 + 3) / 6))
      else if 0 <? count then
        age_counters m' (i + 1) fids (zupdate cnts i (u64 (count - 1)))
      else
        (* count was 0, remove this counter *)
        let n := zlength cnts in
        fs ← fids;
        flast ← zlookup fs (n - 1);
        clast ← zlookup cnts (n - 1);
        if bool_decide (Z.to_nat (n - 1) <= length fs)%nat then
          age_counters m' i
            (Some (take (Z.to_nat (n - 1)) (zupdate fs i flast)))
            (take (Z.to_nat (n - 1)) (zupdate cnts i clast))
        else None
  end.

(** The body of the enumeration in [age_interests] for one entry: [None]
    inside when the entry is deleted, with the number of counters left. *)
Definition age_interest_entry (ipe : Ipe.t) : option (option Ipe.t * Z) :=
  cnts ← Ipe.counters ipe;
  let n := zlength cnts in
  if 0 <? n then
    '(fids, cnts) ← age_counters (length cnts) 0 (Ipe.interested_faceid ipe) cnts;
    Some (Some (Ipe.set_counters (Some cnts)
                  (Ipe.set_interested_faceid fids (Ipe.set_idle 0 ipe))),
          zlength cnts)
  else if 8 <? Ipe.idle ipe + 1 then Some (None, 0)
  else Some (Some (Ipe.set_idle (Ipe.idle ipe + 1) ipe), 0).

(** [age_interests]: every entry of interestprefix_tab is aged; the entries
    are independent of each other, so the order of enumeration does not
    show.  Returns the number of counters still active. *)
Definition age_interests (h : ccnd) : option (ccnd * Z) :=
  if bool_decide (map_Forall (fun _ ipe => is_Some (age_interest_entry ipe))
                             (interestprefix_tab h))
  then
    Some (set_interestprefix_tab
            (omap (fun ipe => age_interest_entry ipe ≫= fst) (interestprefix_tab h)) h,
          map_fold (fun _ ipe n_active =>
                      n_active + default 0 (snd <$> age_interest_entry ipe))
                   0 (interestprefix_tab h))
  else None.

Definition CCN_INTEREST_AGING_MICROSEC : Z := CCN_INTEREST_HALFLIFE_MICROSEC / 4.

(** [aging_needed]. *)
Definition aging_needed (h : ccnd) : ccnd :=
  match age h with
  | None =>
      let period := CCN_INTEREST_AGING_MICROSEC in
      let '(h, ev) := ccn_schedule_event h period ev_aging_deamon period in
      set_age (Some ev) h
  | Some _ => h
  end.

(** ** Propagation of interests (lines 1105-1198) *)

(** The six bytes of a synthesized nonce: [s[i] = nrand48(h->seed) >> i]. *)
Fixpoint nonce_bytes (cnt : nat) (i : Z) (seed : Z) : list byte * Z :=
  match cnt with
  | O => ([], seed)
  | S cnt' =>
      let '(r, seed') := nrand48 seed in
      let b := default x00 (Byte.of_N (Z.to_N (Z.shiftr r i mod 256))) in
      let '(bs, seed'') := nonce_bytes cnt' (i + 1) seed' in
      (b :: bs, seed'')
  end.

(** [propagate_interest]: the new state and the value returned. *)
Definition propagate_interest (h : ccnd) (face : nat) (msg : list byte)
    (pi : ccn_parsed_interest) (ipe : list byte) : option (ccnd * Z) :=
  outbound ← get_outbound_faces h face pi;
  if bool_decide (outbound = []) then Some (h, 0)
  else
    let '(h, pkey, msg_out, cb) :=
      if CCN_PI_B_Nonce pi =? CCN_PI_E_Nonce pi then
        (* This interest has no nonce; add one before going on *)
        let noncebytes := 6 in
        let h := charbuf_obtain h in
        let '(s, seed') := nonce_bytes (Z.to_nat noncebytes) 0 (seed h) in
        let h := set_seed seed' h in
        let nonce := ccn_charbuf_append_tt CCN_DTAG_Nonce CCN_DTAG
                     ++ ccn_charbuf_append_tt noncebytes CCN_BLOB
                     ++ s ++ [CCN_CLOSE] in
        (h, nonce,
         bytes_at msg 0 (CCN_PI_B_Nonce pi) ++ nonce
         ++ bytes_at msg (CCN_PI_B_OTHER pi) (u64 (zlength msg - CCN_PI_B_OTHER pi)),
         true)
      else
        (h, bytes_at msg (CCN_PI_B_Nonce pi)
                     (u64 (CCN_PI_E_Nonce pi - CCN_PI_B_Nonce pi)),
         msg, false) in
    f ← face_store h !! face;
    '(h, res) ←
      match propagating_tab h !! pkey with
      | None => (* HT_NEW_ENTRY *)
          let pe := Pe.mk (Some msg_out) (zlength msg_out) (Face.faceid f)
                          (Some outbound) None in
          let h := set_propagating_tab (<[pkey := pe]> (propagating_tab h)) h in
          h ← link_propagating_interest_to_interest_entry h pkey ipe;
          let '(r, seed') := nrand48 (seed h) in
          let h := set_seed seed' h in
          let '(h, _) := ccn_schedule_event h (Z.rem r 8192) (ev_do_propagate pkey) 0 in
          Some (h, 0)
      | Some pe => (* HT_OLD_ENTRY *)
          let pe := Pe.set_outbound
                      (indexbuf_remove_element (Pe.outbound pe) (Face.faceid f)) pe in
          (* We've seen this already, do not propagate *)
          Some (set_propagating_tab (<[pkey := pe]> (propagating_tab h)) h, -1)
      end;
    Some (if cb : bool then charbuf_release h else h, res).

(** [is_duplicate_flooded]. *)
Definition is_duplicate_flooded (h : ccnd) (msg : list byte) (pi : ccn_parsed_interest)
  : bool :=
  let nonce_start := CCN_PI_B_Nonce pi in
  let nonce_size := u64 (CCN_PI_E_Nonce pi - nonce_start) in
  if nonce_size =? 0 then false
  else bool_decide (is_Some (propagating_tab h !! bytes_at msg nonce_start nonce_size)).

(** ** Answering interests from the store (lines 1200-1351) *)

Definition use_short_term_blocking_state : Z := 0.

(** [content_is_unblocked]; a face that was served before and asks again
    has its slot in the done partition overwritten by [~0]. *)
Definition content_is_unblocked (h : ccnd) (content : list byte)
    (pi : ccn_parsed_interest) (msg : list byte) (faceid : Z) : option (ccnd * bool) :=
  e ← content_tab h !! content;
  let f :=
    if CCN_PI_B_OTHER pi <? CCN_PI_E_OTHER pi
    then response_filter (bytes_at msg (CCN_PI_B_OTHER pi)
                                   (CCN_PI_E_OTHER pi - CCN_PI_B_OTHER pi))
    else None in
  if bool_decide (is_Some f) || (use_short_term_blocking_state =? 0) then
    if match f with
       | Some filt => (0 <? Content.sig_offset e) &&
                      ccn_bloom_match_wire filt
                        (bytes_at (Content.key e) (Content.sig_offset e) 32)
       | None => false
       end
    then Some (h, false)
    else
      (* Not in filter, so send even if we have sent before. *)
      let k := indexbuf_member (Content.faces e) faceid in
      if (0 <=? k) && (k <? Content.nface_done e) then
        let e := Content.set_faces
                   ((fun fs => zupdate fs k (2 ^ 64 - 1)) <$> Content.faces e) e in
        Some (set_content_tab (<[content := e]> (content_tab h)) h, true)
      else
        (* Say no if we are already planning to send anyway *)
        Some (h, k =? -1)
  else Some (h, indexbuf_member (Content.faces e) faceid =? -1).

(** [content_matches_interest_qualifiers]. *)
Definition content_matches_interest_qualifiers (e : Content.t) (interest_msg : list byte)
    (pi : ccn_parsed_interest) : bool :=
  ccn_content_matches_interest
    (bytes_at (Content.key e) 0 (Content.key_size e + Content.tail_size e))
    (bytes_at interest_msg 0 (CCN_PI_E pi)) pi.

(** A candidate is kept only while its name has the prefix of the interest. *)
Definition keep_if_prefix_matches (h : ccnd) (content : option (list byte))
    (msg : list byte) (comps : list Z) (pi : ccn_parsed_interest)
  : option (option (list byte)) :=
  match content with
  | None => Some None
  | Some k =>
      e ← content_tab h !! k;
      m ← content_matches_interest_prefix e msg comps (pi_prefix_comps pi);
      Some (if m : bool then Some k else None)
  end.

(** The loop [while (content != NULL)] of [process_incoming_interest]: the
    state, the candidate on which the loop was left and [last_match].  The
    walk follows the links of level 0, so the bound on its length is that
    of [findbefore_level]. *)
Fixpoint interest_match_loop (fuel : nat) (h : ccnd) (faceid : Z) (msg : list byte)
    (comps : list Z) (pi : ccn_parsed_interest)
    (content last_match : option (list byte))
  : option (ccnd * option (list byte) * option (list byte)) :=
  match content with
  | None => Some (h, None, last_match)
  | Some k =>
      match fuel with
      | O => None
      | S fuel' =>
          '(h, unblocked) ← content_is_unblocked h k pi msg faceid;
          e ← content_tab h !! k;
          let hit := unblocked && content_matches_interest_qualifiers e msg pi in
          if hit && negb (pi_orderpref pi =? 5) then Some (h, Some k, last_match)
          else
            let last_match := if hit then Some k else last_match in
            nxt ← keep_if_prefix_matches h
                    (content_from_accession h (content_skiplist_next h (Some k)))
                    msg comps pi;
            interest_match_loop fuel' h faceid msg comps pi nxt last_match
      end
  end.

Definition face_set_cached_accession (h : ccnd) (face : nat) (a : Z) : ccnd :=
  set_face_store (alter (Face.set_cached_accession a) face (face_store h)) h.

(** The part of [process_incoming_interest] under [if (ipe != NULL)]: demand
    is recorded and the store is searched.  Returns the state and
    [matched]. *)
Definition interest_lookup (h : ccnd) (face : nat) (msg : list byte)
    (pi : ccn_parsed_interest) (comps : list Z) (ipe : list byte)
  : option (ccnd * bool) :=
  f ← face_store h !! face;
  i ← interestprefix_tab h !! ipe;
  let '(fids, res) := indexbuf_unordered_set_insert (Ipe.interested_faceid i)
                                                    (Face.faceid f) in
  cnts ← Ipe.counters i;
  _ ← fids;
  let cnts := cnts ++ replicate (Z.to_nat (res + 1) - length cnts) 0 in
  c ← zlookup cnts res;
  let cnts := zupdate cnts res (u64 (c + CCN_UNIT_INTEREST)) in
  let i := Ipe.set_counters (Some cnts) (Ipe.set_interested_faceid fids i) in
  let h := set_interestprefix_tab (<[ipe := i]> (interestprefix_tab h)) h in
  '(h, content) ←
    (if negb (Face.cached_accession f =? 0) then
       (* some help for old clients that are expecting suppression state *)
       let content := content_from_accession h (Face.cached_accession f) in
       let h := face_set_cached_accession h face 0 in
       content ←
         match content with
         | Some k =>
             e ← content_tab h !! k;
             m ← content_matches_interest_prefix e msg comps (pi_prefix_comps pi);
             Some (if m : bool then content_from_accession h (content_skiplist_next h (Some k))
                   else Some k)
         | None => Some None
         end;
       content ← keep_if_prefix_matches h content msg comps pi;
       Some (h, content)
     else Some (h, None));
  content ←
    match content with
    | Some k => Some (Some k)
    | None =>
        content ← find_first_match_candidate h msg pi;
        keep_if_prefix_matches h content msg comps pi
    end;
  '(h, content, last_match) ←
    interest_match_loop (S (size (content_tab h))) h (Face.faceid f) msg comps pi
                        content None;
  let content := match last_match with Some k => Some k | None => content end in
  match content with
  | Some k =>
      '(h, _) ← match_interest_for_faceid h k (Face.faceid f);
      e ← content_tab h !! k;
      Some (face_set_cached_accession h face (Content.accession e), true)
  | None => Some (h, false)
  end.

(** [process_incoming_interest].  [parsed] is what
    [ccn_parse_interest(msg, size, pi, comps)] produced: [None] for a
    negative result, else the parsed interest and the component offsets. *)
Definition process_incoming_interest (h : ccnd) (face : nat) (msg : list byte)
    (parsed : option (ccn_parsed_interest * list Z)) : option ccnd :=
  let h := indexbuf_obtain h in
  h ←
    match (if 65535 <? zlength msg then None else parsed) with
    | None => Some h (* error parsing Interest *)
    | Some (pi, comps) =>
        f ← face_store h !! face;
        if (0 <? pi_scope pi) && (pi_scope pi <? 2) &&
           negb (Z.land (Face.flags f) CCN_FACE_LINK =? 0)
        then Some h (* Interest out of scope - discarded *)
        else if is_duplicate_flooded h msg pi
        then Some (set_interests_dropped (interests_dropped h + 1) h)
        else
          let h :=
            if (1 <? pi_orderpref pi) ||
               negb (pi_prefix_comps pi =? zlength comps - 1)
            then face_set_cached_accession h face 0 else h in
          c_end ← zlookup comps (pi_prefix_comps pi);
          c_0 ← zlookup comps 0;
          let namesize := u64 (c_end - c_0) in
          let h := set_interests_accepted (interests_accepted h + 1) h in
          let ipe := bytes_at msg c_0 namesize in
          let h :=
            match interestprefix_tab h !! ipe with
            | Some _ => h (* HT_OLD_ENTRY *)
            | None => (* HT_NEW_ENTRY *)
                set_interestprefix_tab
                  (<[ipe := Ipe.mk (zlength comps - 1) (Some []) (Some []) 0 None]>
                     (interestprefix_tab h)) h
            end in
          '(h, matched) ← interest_lookup h face msg pi comps ipe;
          let h := aging_needed h in
          if negb matched && negb (pi_scope pi =? 0) then
            '(h, _) ← propagate_interest h face msg pi ipe; Some h
          else Some h
    end;
  Some (indexbuf_release h).

(** ** Incoming content (lines 1353-1481) *)

(** [get_signature_offset]. *)
Definition get_signature_offset (pco : ccn_parsed_ContentObject) (msg : list byte) : Z :=
  let start := CCN_PCO_B_Signature pco in
  let stop := CCN_PCO_E_Signature pco in
  if start <? stop then
    match signature_blob_index (bytes_at msg start (stop - start)) with
    | Some index => start + index
    | None => 0
    end
  else 0.

Definition content_update (h : ccnd) (content : list byte) (g : Content.t -> Content.t)
  : ccnd :=
  set_content_tab (alter g content (content_tab h)) h.

(** The branch [res == HT_OLD_ENTRY] with equal tails: the arrival face is
    noted as knowing the content. *)
Definition note_duplicate_content (h : ccnd) (content : list byte) (faceid : Z)
  : option ccnd :=
  let h := set_content_dups_recvd (content_dups_recvd h + 1) h in
  (* Make note that this face knows about this content *)
  '(h, i) ← content_faces_set_insert h content faceid;
  e ← content_tab h !! content;
  fs ← Content.faces e;
  if Content.nface_done e <=? i then
    moved ← zlookup fs (Content.nface_done e);
    let fs := zupdate fs i moved in
    let fs := zupdate fs (Content.nface_done e) faceid in
    let e := Content.set_nface_done (Content.nface_done e + 1)
               (Content.set_faces (Some fs) e) in
    Some (set_content_tab (<[content := e]> (content_tab h)) h)
  else Some h.

(** The branch [res == HT_NEW_ENTRY] up to the call of
    [content_skiplist_insert]: the new entry of content_tab is filled in and
    enrolled by accession. *)
Definition store_new_content (h : ccnd) (f : Face.t) (msg : list byte)
    (obj : ccn_parsed_ContentObject) (comps : list Z) : option ccnd :=
  let keysize := CCN_PCO_B_Content obj in
  let tailsize := u64 (zlength msg - keysize) in
  let key := bytes_at msg 0 keysize in
  let h := set_accession (u64 (accession h + 1)) h in
  let e :=
    {| Content.accession := accession h;
       Content.comps := comps;
       Content.ncomps := zlength comps;
       Content.flags := 0;
       Content.key := bytes_at msg 0 (keysize + tailsize);
       Content.key_size := keysize;
       Content.tail_size := tailsize;
       Content.sig_offset := get_signature_offset obj msg;
       Content.faces := Some [Face.faceid f];
       Content.nface_done := 1;
       Content.nface_old := 0;
       Content.sender := None;
       Content.skiplinks := None |} in
  let h := set_content_tab (<[key := e]> (content_tab h)) h in
  enroll_content h key.

(** [process_incoming_content].  [parsed] is what
    [ccn_parse_ContentObject(msg, size, &obj, comps)] produced. *)
Definition process_incoming_content (h : ccnd) (face : nat) (msg : list byte)
    (parsed : option (ccn_parsed_ContentObject * list Z)) : option ccnd :=
  let h := indexbuf_obtain h in
  '(h, content, is_new) ←
    match parsed with
    | None => Some (h, None, false) (* error parsing ContentObject *)
    | Some (obj, comps) =>
        if (zlength comps <? 1) ||
           (65535 <? default 0 (zlookup comps (zlength comps - 1)))
        then Some (h, None, false) (* ContentObject discarded *)
        else
          f ← face_store h !! face;
          let h :=
            if negb (pco_magic obj =? 20080711) then
              let h := set_oldformatcontent (oldformatcontent h + 1) h in
              if oldformatcontent h =? oldformatcontentgrumble h
              then set_oldformatcontentgrumble (oldformatcontentgrumble h * 10) h
              else h
            else h in
          let keysize := CCN_PCO_B_Content obj in
          let tailsize := u64 (zlength msg - keysize) in
          let key := bytes_at msg 0 keysize in
          match content_tab h !! key with
          | Some e => (* HT_OLD_ENTRY *)
              if negb (tailsize =? Content.tail_size e) ||
                 negb (bool_decide (bytes_at msg keysize tailsize
                                    = bytes_at (Content.key e) keysize tailsize))
              then
                (* ContentObject name collision: throw away both of them *)
                h ← finalize_content h key;
                Some (set_content_tab (delete key (content_tab h)) h, None, false)
              else
                h ← note_duplicate_content h key (Face.faceid f);
                Some (h, Some key, false)
          | None => (* HT_NEW_ENTRY *)
              h ← store_new_content h f msg obj comps;
              h ← content_skiplist_insert h key;
              Some (h, Some key, true)
          end
    end;
  let h := indexbuf_release h in
  match content with
  | Some k =>
      '(h, n_matches) ← match_interests h k;
      if (is_new : bool) && (n_matches =? 0) then
        Some (content_update h k
                (fun e => Content.set_flags
                            (Z.lor (Content.flags e) CCN_CONTENT_ENTRY_SLOWSEND) e))
      else Some h
  | None => Some h
  end.

End Processing.
Section Housekeeping.
Context `{P : ccnd_private} `{L : ccn_library}.

(** ** Scheduled actions (lines 828-848, 875-900, 941-1018, 1075-1103)

    The handles [h->reaper] and [h->clean] are not part of the daemon
    state: where an action arms the reaper, the call of [reap_needed] is
    reported with its result. *)

(** [do_write_BFI]: a message for a link face is wrapped into a protocol
    data unit. *)
Definition do_write_BFI (h : ccnd) (face : nat) (data : list byte) : option ccnd :=
  f ← face_store h !! face;
  if negb (Z.land (Face.flags f) CCN_FACE_LINK =? 0) then
    let h := charbuf_obtain h in
    let c := ccn_charbuf_append_tt CCN_DTAG_CCNProtocolDataUnit CCN_DTAG
             ++ data ++ [CCN_CLOSE] in
    let h := do_write h face c in
    Some (charbuf_release h)
  else Some (do_write h face data).

Definition pe_set_outbound (h : ccnd) (pe : list byte) (x : option (list Z)) : ccnd :=
  set_propagating_tab (alter (Pe.set_outbound x) pe (propagating_tab h)) h.

(** [do_propagate], the scheduled action; [pe] is [ev->evdata] and [cancel]
    tells whether [flags] has CCN_SCHEDULE_CANCEL.  The result is the new
    state, whether [reap_needed(h, 0)] was called, and the delay until the
    next run (0 for none). *)
Definition do_propagate (h : ccnd) (pe : list byte) (cancel : bool)
  : option (ccnd * bool * Z) :=
  e ← propagating_tab h !! pe;
  match Pe.outbound e, Pe.interest_msg e with
  | Some out, Some msg =>
      let out := if cancel then [] else out in
      '(h, out) ←
        match last out with
        | Some f =>
            let out := take (length out - 1) out in
            let faceid := u32 f in
            match face_from_faceid h faceid with
            | Some face =>
                h ← do_write_BFI h face (bytes_at msg 0 (Pe.size e));
                Some (set_interests_sent (interests_sent h + 1) h, out)
            | None => Some (h, out)
            end
        | None => Some (h, out)
        end;
      let h := pe_set_outbound h pe (Some out) in
      if bool_decide (out = []) then
        h ← finished_propagating h pe;
        Some (h, true, 0)
      else
        let '(r, seed') := nrand48 (seed h) in
        Some (set_seed seed' h, false, Z.rem r 8192 + 500)
  | _, _ => Some (h, false, 0)
  end.

(** [hashtb_delete] on an entry of propagating_tab: the finalizer
    [finalize_propagating] runs, then the entry is freed. *)
Definition release_propagating (h : ccnd) (pe : list byte) : option ccnd :=
  h ← finished_propagating h pe;
  Some (set_propagating_tab (delete pe (propagating_tab h)) h).

(** The body of the loop of [check_propagating] for the entry at [pe]; the
    count of the entries deleted is threaded through. *)
Definition check_propagating_entry (st : ccnd * Z) (pe : list byte)
  : option (ccnd * Z) :=
  let '(h, count) := st in
  e ← propagating_tab h !! pe;
  match Pe.interest_msg e with
  | None =>
      if Pe.size e =? 0 then
        h ← release_propagating h pe;
        Some (h, count + 1)
      else
        (* go around twice *)
        let e := Pe.set_size (if 1 <? Pe.size e then 1 else 0) e in
        Some (set_propagating_tab (<[pe := e]> (propagating_tab h)) h, count)
  | Some _ => Some st
  end.

(** [check_propagating]: the enumeration visits every entry of
    propagating_tab once, here in the order of the keys of the table.
    Returns the number of entries that have gone away. *)
Definition check_propagating (h : ccnd) : option (ccnd * Z) :=
  foldl (fun acc pe => st ← acc; check_propagating_entry st pe)
        (Some (h, 0)) (map_to_list (propagating_tab h)).*1.

(** [aging_deamon], the scheduled action; [evint] is [ev->evint]. *)
Definition aging_deamon (h : ccnd) (evint : Z) (cancel : bool) : option (ccnd * Z) :=
  if cancel then Some (set_age None h, 0)
  else
    '(h, _) ← age_interests h;
    if negb (bool_decide (size (interestprefix_tab h) = 0%nat)) then Some (h, evint)
    else
      (* nothing on the horizon, so go away *)
      Some (set_age None h, 0).

(** The loop [for (j = 0, k = 0, d = 0; j < content->faces->n; j++)] of
    [clean_deamon] over [faces[j..]]: the ids kept so far, in reverse, and
    the count [d] are threaded through. *)
Fixpoint clean_faces (h : ccnd) (nface_old nface_done : Z) (j : Z) (rest : list Z)
    (kept : list Z) (d : Z) : list Z * Z :=
  match rest with
  | [] => (reverse kept, d)
  | faceid :: rest' =>
      match face_from_faceid h (u32 faceid) ≫= (fun face => face_store h !! face) with
      | Some f =>
          if (j <? nface_old) && negb (Z.land (Face.flags f) CCN_FACE_LINK =? 0)
          then clean_faces h nface_old nface_done (j + 1) rest' kept d
          else clean_faces h nface_old nface_done (j + 1) rest'
                 (u32 faceid :: kept) (if j <? nface_done then d + 1 else d)
      | None => clean_faces h nface_old nface_done (j + 1) rest' kept d
      end
  end.

(** The body of the outer loop of [clean_deamon] for one stored entry.  The
    ids kept are written back from the front of the buffer, as [unsigned]
    values; the buffer is cut and [nface_done] is set when one was left
    out. *)
Definition clean_content_entry (h : ccnd) (e : Content.t) : Content.t :=
  match Content.faces e with
  | Some fs =>
      let '(kept, d) :=
        clean_faces h (Content.nface_old e) (Content.nface_done e) 0 fs [] 0 in
      let e' := Content.set_faces (Some kept) e in
      let e' := if zlength kept <? zlength fs then Content.set_nface_done d e' else e' in
      Content.set_nface_old d e'
  | None => e
  end.

(** [clean_deamon]: weeds expired face ids out of the content table.  The
    result is the new state and the delay until the next run. *)
Definition clean_deamon (h : ccnd) (cancel : bool) : option (ccnd * Z) :=
  if cancel then Some (h, 0)
  else
    let n := u32 (accession h - accession_base h + 1) in
    let n := if content_by_accession_window h <? n
             then content_by_accession_window h else n in
    h ← foldl (fun acc i =>
                 h ← acc;
                 slot ← content_by_accession h !! i;
                 match slot with
                 | Some content =>
                     e ← content_tab h !! content;
                     Some (set_content_tab
                             (<[content := clean_content_entry h e]> (content_tab h)) h)
                 | None => Some h
                 end)
              (Some h) (seq 0 (Z.to_nat n));
    Some (h, 15000000).

End Housekeeping.

(** ** A library instance for running the model

    [nrand48] is the generator of POSIX; the headers of the wire format
    follow ccn_charbuf_append_tt; names are compared bytewise, and interests
    carry neither qualifiers nor response filters. *)

(** X' = (0x5DEECE66D * X + 0xB) mod 2^48; the value is the high 31 bits. *)
Definition posix_nrand48 (seed : Z) : Z * Z :=
  let x := (25214903917 * seed + 11) mod 2 ^ 48 in
  (Z.shiftr x 17, x).

(** The bytes before the last one of a header, most significant first. *)
Fixpoint tt_high_bytes (fuel : nat) (val : Z) (acc : list byte) : list byte :=
  match fuel with
  | O => acc
  | S fuel' =>
      if val =? 0 then acc
      else tt_high_bytes fuel' (Z.shiftr val 7)
             (default x00 (Byte.of_N (Z.to_N (Z.land val 127))) :: acc)
  end.

Definition sample_append_tt (val tt : Z) : list byte :=
  let last := Z.lor 128 (Z.lor (Z.shiftl (Z.land val 15) 3) (Z.land tt 7)) in
  tt_high_bytes 10 (Z.shiftr val 4) [default x00 (Byte.of_N (Z.to_N last))].

Fixpoint compare_bytes (a b : list byte) : Z :=
  match a, b with
  | [], [] => 0
  | [], _ :: _ => -1
  | _ :: _, [] => 1
  | x :: a', y :: b' =>
      match N.compare (Byte.to_N x) (Byte.to_N y) with
      | Lt => -1
      | Gt => 1
      | Eq => compare_bytes a' b'
      end
  end.

Definition sample_library : ccn_library :=
  {| nrand48 := posix_nrand48;
     ccn_compare_names := compare_bytes;
     ccn_content_matches_interest := fun _ _ _ => true;
     response_filter := fun _ => None;
     ccn_bloom_match_wire := fun _ _ => false;
     signature_blob_index := fun _ => None;
     ccn_charbuf_append_tt := sample_append_tt;
     CCN_DTAG_Nonce := 41;
     CCN_DTAG_CCNProtocolDataUnit := 17702112;
     CCN_DTAG := 2;
     CCN_BLOB := 5;
     CCN_CLOSE := x00 |}.

(** A random stream whose draws all have the same value. *)
Definition constant_stream (r : Z) : ccn_library :=
  {| nrand48 := fun seed => (r, seed);
     ccn_compare_names := compare_bytes;
     ccn_content_matches_interest := fun _ _ _ => true;
     response_filter := fun _ => None;
     ccn_bloom_match_wire := fun _ _ => false;
     signature_blob_index := fun _ => None;
     ccn_charbuf_append_tt := sample_append_tt;
     CCN_DTAG_Nonce := 41;
     CCN_DTAG_CCNProtocolDataUnit := 17702112;
     CCN_DTAG := 2;
     CCN_BLOB := 5;
     CCN_CLOSE := x00 |}.

(** A library whose name order looks at the first [n] bytes only, so that
    different names can compare equal. *)
Definition prefix_library (n : nat) : ccn_library :=
  {| nrand48 := posix_nrand48;
     ccn_compare_names := fun a b => compare_bytes (take n a) (take n b);
     ccn_content_matches_interest := fun _ _ _ => true;
     response_filter := fun _ => None;
     ccn_bloom_match_wire := fun _ _ => false;
     signature_blob_index := fun _ => None;
     ccn_charbuf_append_tt := sample_append_tt;
     CCN_DTAG_Nonce := 41;
     CCN_DTAG_CCNProtocolDataUnit := 17702112;
     CCN_DTAG := 2;
     CCN_BLOB := 5;
     CCN_CLOSE := x00 |}.

(** * Notions used to state the properties

    Reachability of face tables, well-formedness of the tables, the
    quantities that the statements below speak about, and the sample
    states on which the statements are run. *)

Section FaceTableProofsDefs.
Context `{P : ccnd_private}.

(** The operations that create and destroy faces. *)
Inductive face_step (h : ccnd) : ccnd -> Prop :=
  | face_step_accept face fd flags :
      face_store h !! face = None ->
      face_step h (accept_face h face fd flags)
  | face_step_new face fd flags :
      face_store h !! face = None ->
      face_step h (new_face h face fd flags)
  | face_step_release face h' :
      release_face h face = Some h' ->
      face_step h h'
  | face_step_flags face flags :
      face_step h (face_set_flags h face flags).

(** The face table as [ccnd_create] leaves it. *)
Definition face_table_initial (h : ccnd) : Prop :=
  face_store h = ∅ /\ face_limit h = face_limit_init /\
  faces_by_faceid h = replicate (Z.to_nat face_limit_init) None /\
  face_gen h = 0 /\ face_rover h = 0.

Record face_table_ok (h : ccnd) : Prop := {
  fto_length : zlength (faces_by_faceid h) = face_limit h;
  fto_limit : face_limit h <= MAXFACES;
  fto_gen_range : 0 <= face_gen h < 2 ^ 32;
  fto_gen : Z.land (face_gen h) MAXFACES = 0;
  fto_slots : forall (i : nat) p,
    faces_by_faceid h !! i = Some (Some p) ->
    exists f, face_store h !! p = Some f /\
              Z.land (Face.faceid f) MAXFACES = Z.of_nat i
}.

(** A step that does not wrap the 32-bit generation counter around. *)
Definition face_step_steady (h h' : ccnd) : Prop :=
  face_step h h' /\ face_gen h <= face_gen h'.




End FaceTableProofsDefs.

Section FaceTableRunDefs.
#[local] Existing Instance sample_private.



End FaceTableRunDefs.

Section OutboundFacesDefs.
Context `{P : ccnd_private}.

(** What one slot contributes to the outbound set. *)
Definition outbound_of_slot (h : ccnd) (from : nat) (blockmask : Z)
    (slot : option nat) : option Z :=
  p ← slot;
  if bool_decide (p = from) then None
  else
    f ← face_store h !! p;
    if Z.land (Face.flags f) blockmask =? 0 then Some (Face.faceid f) else None.

End OutboundFacesDefs.

Section OutboundRunDefs.
#[local] Existing Instance sample_private.

(** Three faces: a local client, a link-framed stream face and a datagram
    peer. *)
Definition three_faces : ccnd :=
  face_set_flags
    (accept_face
       (accept_face
          (accept_face (ccnd_create 0) 101 3 0) 102 4 0)
       103 5 (CCN_FACE_DGRAM))
    102 (CCN_FACE_LINK).

Definition scope_one : ccn_parsed_interest :=
  {| pi_prefix_comps := 1; pi_scope := 1; pi_orderpref := 0;
     CCN_PI_E_Name := 0; CCN_PI_B_Nonce := 0; CCN_PI_E_Nonce := 0;
     CCN_PI_B_OTHER := 0; CCN_PI_E_OTHER := 0; CCN_PI_E := 0 |}.

End OutboundRunDefs.

Section ContentDelayDefs.
Context `{P : ccnd_private} `{L : ccn_library}.

(** The face that [faceid] resolves to, as [choose_content_delay] sees it. *)
Definition resolved_face (h : ccnd) (faceid : Z) : option Face.t :=
  face_from_faceid h faceid ≫= (fun face => face_store h !! face).

Definition slow_send_shift (content_flags : Z) : Z :=
  if Z.land content_flags CCN_CONTENT_ENTRY_SLOWSEND =? 0 then 0 else 2.

End ContentDelayDefs.

Section ContentDelayRunDefs.
#[local] Existing Instance sample_private.
#[local] Existing Instance sample_library.

(** A datagram peer that sent a protocol data unit: face id 2 of
    [three_faces], marked link-framed as well. *)
Definition dgram_link_face : ccnd := face_set_flags three_faces 103 CCN_FACE_LINK.

End ContentDelayRunDefs.

(** Component offsets as a parser records them: inside the buffer and
    non-decreasing. *)
Fixpoint offsets_sorted (lo : Z) (offs : list Z) : bool :=
  match offs with
  | [] => true
  | o :: offs' => (lo <=? o) && offsets_sorted o offs'
  end.

Definition offsets_ok (buf : list byte) (offs : list Z) : bool :=
  offsets_sorted 0 offs && forallb (fun o => o <=? zlength buf) offs &&
  (zlength buf <? 2 ^ 64).

(** The bytes of the first [p] components of a name: from the first
    boundary to boundary [p]. *)
Definition name_span (buf : list byte) (offs : list Z) (p : Z) : option (list byte) :=
  o_0 ← zlookup offs 0;
  o_p ← zlookup offs p;
  Some (bytes_at buf o_0 (o_p - o_0)).

(** The encoded length of component [j] (counted from 0). *)
Definition component_length (offs : list Z) (j : Z) : option Z :=
  hi ← zlookup offs (j + 1);
  lo ← zlookup offs j;
  Some (hi - lo).

(** The bytes of component [j]. *)
Definition component_bytes (buf : list byte) (offs : list Z) (j : Z)
  : option (list byte) :=
  lo ← zlookup offs j;
  hi ← zlookup offs (j + 1);
  Some (bytes_at buf lo (hi - lo)).

(** A decoder reads the element at the front of a byte string and tells its
    length; what it tells depends on the bytes of that element only. *)
Definition element_length_local (element_length : list byte -> option Z) : Prop :=
  forall a b n, element_length a = Some n ->
    take (Z.to_nat n) b = take (Z.to_nat n) a -> element_length b = Some n.

(** Offsets that the decoder produced from the bytes: each component is one
    element. *)
Definition offsets_decoded (element_length : list byte -> option Z)
    (buf : list byte) (offs : list Z) : Prop :=
  forall (j : nat) lo hi, offs !! j = Some lo -> offs !! S j = Some hi ->
    element_length (drop (Z.to_nat lo) buf) = Some (hi - lo).

(** A stored object named by three components of two bytes each, and an
    interest that names it with a fourth component of 36 bytes in the place
    of the digest. *)
Definition stored_xy1 : Content.t :=
  {| Content.accession := 1; Content.comps := [0; 2; 4; 6]; Content.ncomps := 4;
     Content.flags := 0;
     Content.key := [x01; x02; x03; x04; x05; x06; x07; x07];
     Content.key_size := 6; Content.tail_size := 2; Content.sig_offset := 0;
     Content.faces := Some [0]; Content.nface_done := 1; Content.nface_old := 0;
     Content.sender := None; Content.skiplinks := Some [0] |}.

Definition interest_xy1_digest : list byte :=
  [x01; x02; x03; x04; x05; x06] ++ replicate 36 xaa.

(** A decoder for these samples: an element that starts with [0xaa] is 36
    bytes long, any other is 2 bytes long. *)
Definition sample_element_length (a : list byte) : option Z :=
  match a with
  | [] => None
  | x :: _ => if bool_decide (x = xaa) then Some 36 else Some 2
  end.

Section AgingDefs.
Context `{P : ccnd_private}.

(** What one pass makes of a counter that is not 0. *)
Definition aged_counter (c : Z) : Z :=
  if CCN_UNIT_INTEREST <? c then (c * 5 + 3) / 6 else c - 1.

(** What one pass makes of the pairs (face id, counter) of an entry: the
    pairs with counter 0 go, the others are aged. *)
Definition aged_pairs (l : list (Z * Z)) : list (Z * Z) :=
  (fun p => (p.1, aged_counter p.2)) <$> filter (fun p => p.2 ≠ 0) l.

(** A counter that the arithmetic of the pass does not overflow. *)
Definition counter_ok (c : Z) : bool := (0 <=? c) && (c * 5 + 3 <? 2 ^ 64).

(** An entry with both vectors, of the same length. *)
Definition ipe_wf (ipe : Ipe.t) : bool :=
  match Ipe.interested_faceid ipe, Ipe.counters ipe with
  | Some fs, Some cs => bool_decide (length fs = length cs) && forallb counter_ok cs
  | _, _ => false
  end.

End AgingDefs.

Section AgingPassesDefs.
Context `{P : ccnd_private}.

(** Consecutive passes with no interest arriving in between. *)
Fixpoint age_passes (n : nat) (h : ccnd) : option ccnd :=
  match n with
  | O => Some h
  | S n' => h' ← age_interests h; age_passes n' h'.1
  end.

Definition interest_table_wf (h : ccnd) : Prop :=
  map_Forall (fun _ ipe => ipe_wf ipe = true) (interestprefix_tab h).

End AgingPassesDefs.

Section AgingRunDefs.
#[local] Existing Instance sample_private.

(** A table with a busy prefix and an idle one. *)
Definition aging_sample : ccnd :=
  set_interestprefix_tab
    (<[ [x01; x02] := Ipe.mk 1 (Some [1; 2; 3; 4]) (Some [12; 5; 0; 3]) 3 None ]>
       (<[ [x09] := Ipe.mk 1 (Some []) (Some []) 0 None ]> ∅))
    (ccnd_create 0).

End AgingRunDefs.

Section NowhereRunDefs.
#[local] Existing Instance sample_private.
#[local] Existing Instance sample_library.

(** One client, alone on the daemon. *)
Definition one_face : ccnd := accept_face (ccnd_create 12345) 1 5 0.

(** An interest for a name of two components of two bytes, with a nonce of
    two bytes after the name. *)
Definition interest_xy : list byte := [x01; x02; x03; x04; x09; x09].

Definition interest_xy_parsed (scope : Z) : ccn_parsed_interest :=
  {| pi_prefix_comps := 2; pi_scope := scope; pi_orderpref := 0;
     CCN_PI_E_Name := 4; CCN_PI_B_Nonce := 4; CCN_PI_E_Nonce := 6;
     CCN_PI_B_OTHER := 6; CCN_PI_E_OTHER := 6; CCN_PI_E := 6 |}.

End NowhereRunDefs.

Section DuplicateRunDefs.
#[local] Existing Instance sample_private.
#[local] Existing Instance sample_library.

(** The interest of [interest_xy] has been seen on face 101 of
    [three_faces] and is on its way to the two other faces. *)
Definition nonce_pending : ccnd :=
  default three_faces
    (process_incoming_interest three_faces 101 interest_xy
       (Some (interest_xy_parsed (-1), [0; 2; 4]))).

End DuplicateRunDefs.

Section ContentSenderDefs.
Context `{P : ccnd_private} `{L : ccn_library}.

(** Runs of the scheduled sender of one content entry, with nothing else
    happening to the daemon in between. *)
Fixpoint content_sender_runs (n : nat) (h : ccnd) (content : list byte) : option ccnd :=
  match n with
  | O => Some h
  | S n' => r ← content_sender h (Some content) false;
            content_sender_runs n' r.1 content
  end.

(** The writes [sent] went to faces whose ids are [ids], in this order. *)
Definition sent_to (h : ccnd) (sent : list (nat * list byte)) (ids : list Z) : Prop :=
  Forall2 (fun w id => exists f, face_store h !! w.1 = Some f /\ Face.faceid f = id)
          sent ids.

(** What a run leaves untouched, and what it does to the entry. *)
Record sender_effect (content : list byte) (h h' : ccnd) (e e' : Content.t)
    (advance : Z) : Prop := {
  se_entry : content_tab h' !! content = Some e';
  se_faces : Content.faces e' = Content.faces e;
  se_flags : Content.flags e' = Content.flags e;
  se_accession : Content.accession e' = Content.accession e;
  se_done : Content.nface_done e' = Content.nface_done e + advance;
  se_store : face_store h' = face_store h;
  se_slots : faces_by_faceid h' = faces_by_faceid h;
  se_limit : face_limit h' = face_limit h
}.

End ContentSenderDefs.

Section ContentSenderRunDefs.
#[local] Existing Instance sample_private.
#[local] Existing Instance sample_library.

(** A content object named by three components of two bytes, with a tail of
    two bytes. *)
Definition content_xy1 : list byte := [x01; x02; x03; x04; x05; x06; x07; x07].

Definition content_xy1_parsed : ccn_parsed_ContentObject :=
  {| pco_magic := 20080711; CCN_PCO_B_Signature := 0; CCN_PCO_E_Signature := 0;
     CCN_PCO_B_Content := 6 |}.

(** The content arrives on face 103 while the interest of face 101 is
    pending. *)
Definition content_arrived : ccnd :=
  default nonce_pending
    (process_incoming_content nonce_pending 103 content_xy1
       (Some (content_xy1_parsed, [0; 2; 4; 6]))).

Definition content_arrived_entry : Content.t :=
  {| Content.accession := 1; Content.comps := [0; 2; 4; 6]; Content.ncomps := 4;
     Content.flags := 0; Content.key := content_xy1;
     Content.key_size := 6; Content.tail_size := 2; Content.sig_offset := 0;
     Content.faces := Some [2; 0]; Content.nface_done := 1; Content.nface_old := 0;
     Content.sender := Some 2%nat; Content.skiplinks := Some [0] |}.

End ContentSenderRunDefs.

Section DuplicateContentDefs.
Context `{P : ccnd_private} `{L : ccn_library}.

(** An interest-prefix entry with both vectors, of the same length, and a
    ring whose members are entries of propagating_tab. *)
Definition ipe_linked_ok (h : ccnd) (ipe : Ipe.t) : bool :=
  match Ipe.interested_faceid ipe, Ipe.counters ipe with
  | Some fs, Some cs => bool_decide (length fs = length cs)
  | _, _ => false
  end &&
  match Ipe.propagating_head ipe with
  | None => true
  | Some ring => forallb (fun p => bool_decide (is_Some (propagating_tab h !! p))) ring
  end.

Definition interest_tables_ok (h : ccnd) : Prop :=
  map_Forall (fun _ ipe => ipe_linked_ok h ipe = true) (interestprefix_tab h).

(** A stored entry whose [ncomps] counts its offsets. *)
Definition content_entry_ok (e : Content.t) : bool :=
  (1 <=? Content.ncomps e) && (Content.ncomps e =? zlength (Content.comps e)) &&
  (0 <=? Content.nface_done e).


(** The fields of an entry that matching does not touch. *)
Definition static_view (e : Content.t) :=
  (Content.accession e, Content.comps e, Content.ncomps e, Content.flags e,
   Content.key e, Content.key_size e, Content.tail_size e, Content.sig_offset e,
   Content.nface_done e, Content.nface_old e, Content.skiplinks e).

(** The part of the daemon state that matching [content] against the pending
    interests does not touch. *)
Definition content_frame (content : list byte) (h : ccnd) :=
  (face_store h, faces_by_faceid h, face_limit h, written h, accession h,
   content_by_accession h, content_by_accession_window h, accession_base h,
   skiplinks h, content_dups_recvd h, delete content (content_tab h),
   static_view <$> content_tab h !! content).

Record dup_inv (content : list byte)
    (fr : gmap nat Face.t * list (option nat) * Z * list (nat * list byte) * Z *
          list (option (list byte)) * Z * Z * list Z * Z *
          gmap (list byte) Content.t *
          option (Z * list Z * Z * Z * list byte * Z * Z * Z * Z * Z * option (list Z)))
    (fs0 : list Z) (h : ccnd) : Prop := {
  di_frame : content_frame content h = fr;
  di_faces : exists e extra, content_tab h !! content = Some e /\
                             Content.faces e = Some (fs0 ++ extra);
  di_wf : interest_tables_ok h
}.

(** The interest-prefix entries of [h] are still there in [h'], with
    vectors of the same lengths. *)
Definition same_vectors (h h' : ccnd) : Prop :=
  forall key e, interestprefix_tab h !! key = Some e ->
    exists e', interestprefix_tab h' !! key = Some e' /\
               Ipe.interested_faceid e' = Ipe.interested_faceid e /\
               length <$> Ipe.counters e' = length <$> Ipe.counters e.

End DuplicateContentDefs.

Section DuplicateContentRunDefs.
#[local] Existing Instance sample_private.
#[local] Existing Instance sample_library.


End DuplicateContentRunDefs.

Section SkiplistDepthDefs.
Context `{P : ccnd_private} `{L : ccn_library}.

(** The first [n] numbers drawn from a seed, and the seed afterwards. *)
Fixpoint draws (n : nat) (seed : Z) : list Z :=
  match n with
  | O => []
  | S n' => (nrand48 seed).1 :: draws n' (nrand48 seed).2
  end.

Fixpoint seed_after (n : nat) (seed : Z) : Z :=
  match n with
  | O => seed
  | S n' => seed_after n' (nrand48 seed).2
  end.

(** The number of draws at the front of [rs] whose two low bits are 0. *)
Fixpoint leading_low_zero (rs : list Z) : nat :=
  match rs with
  | r :: rs' => if Z.land r 3 =? 0 then S (leading_low_zero rs') else O
  | [] => O
  end.

(** The depth that [content_skiplist_insert] chooses from a seed: one more
    than the number of leading draws with low bits 0, among at most
    [CCN_SKIPLIST_MAX_DEPTH - 2] draws. *)
Definition chosen_depth (seed : Z) : Z :=
  1 + Z.of_nat (leading_low_zero (draws (Z.to_nat (CCN_SKIPLIST_MAX_DEPTH - 2)) seed)).

End SkiplistDepthDefs.

Section SkiplistWalkDefs.
Context `{P : ccnd_private} `{L : ccn_library}.

(** The number of levels of a node. *)
Definition node_depth (h : ccnd) (c : skipnode) : option nat :=
  length <$> skipnode_links h c.

Definition node_rank (h : ccnd) (rank : Z -> nat) (c : skipnode) : nat :=
  match c with
  | skip_head => size (content_tab h)
  | skip_content k =>
      match content_tab h !! k with
      | Some e => rank (Content.accession e)
      | None => O
      end
  end.

(** A skiplist whose links lead to stored entries that have the level of
    the link, and go down in some ranking of the entries: no walk along the
    links meets an entry twice. *)
Record skiplist_wf (h : ccnd) (rank : Z -> nat) : Prop := {
  sw_bound : forall k e, content_tab h !! k = Some e ->
    (rank (Content.accession e) < size (content_tab h))%nat;
  sw_link : forall c (i : nat) links a,
    skipnode_links h c = Some links -> links !! i = Some a -> a <> 0 ->
    exists k depth,
      content_from_accession h a = Some k /\
      node_depth h (skip_content k) = Some depth /\ (i < depth)%nat /\
      (rank a < node_rank h rank c)%nat
}.

End SkiplistWalkDefs.

Section SkiplistSortedDefs.
Context `{P : ccnd_private} `{L : ccn_library}.

(** [ccn_compare_names] as an order on names. *)
Definition name_lt (a b : list byte) : Prop := ccn_compare_names a b < 0.

#[global] Instance name_lt_dec a b : Decision (name_lt a b).
Proof. unfold name_lt. apply _. Defined.

(** What the skiplist needs of [ccn_compare_names]: a strict weak order -
    different names may compare equal - whose sign is the same whichever
    name comes first. *)
Record name_order_ok : Prop := {
  no_irrefl : forall a, ~ name_lt a a;
  no_trans : forall a b c, name_lt a b -> name_lt b c -> name_lt a c;
  no_weak : forall a b c, name_lt a b -> name_lt a c \/ name_lt c b;
  no_swap : forall a b, 0 < ccn_compare_names a b -> name_lt b a;
  no_zero : forall a b, ccn_compare_names a b = 0 -> ~ name_lt b a
}.

(** The order of the entries in the skiplist: by name, and among entries
    whose names compare equal the one stored later comes first.  An entry
    is given by its name and its accession. *)
Definition entry_lt (x y : list byte * Z) : Prop :=
  name_lt x.1 y.1 \/ (~ name_lt x.1 y.1 /\ ~ name_lt y.1 x.1 /\ y.2 < x.2).

#[global] Instance entry_lt_dec x y : Decision (entry_lt x y).
Proof. unfold entry_lt. apply _. Defined.

(** The entry to be linked in is newer than every entry that is linked. *)
Definition newest (h : ccnd) (content : list byte) (e : Content.t) : Prop :=
  forall k e', k <> content -> content_tab h !! k = Some e' ->
    is_Some (Content.skiplinks e') -> Content.accession e' < Content.accession e.

(** The name under which an entry is compared: the first [key_size] bytes
    of its key. *)
Definition entry_name (e : Content.t) : list byte :=
  bytes_at (Content.key e) 0 (Content.key_size e).

(** Every entry of content_tab is stored under its name and enrolled by
    accession. *)
Definition content_keys_ok (h : ccnd) : Prop :=
  forall k e, content_tab h !! k = Some e ->
    entry_name e = k /\ content_from_accession h (Content.accession e) = Some k.

(** The links lead to stored entries that have the level of the link, and
    from an entry always to one that is greater in the order of entries. *)
Definition skiplist_sorted (h : ccnd) : Prop :=
  forall c links (i : nat) a,
    skipnode_links h c = Some links -> links !! i = Some a -> a <> 0 ->
    exists k depth,
      content_from_accession h a = Some k /\
      node_depth h (skip_content k) = Some depth /\ (i < depth)%nat /\
      forall kc ec, c = skip_content kc -> content_tab h !! kc = Some ec ->
        entry_lt (kc, Content.accession ec) (k, a).

(** The number of stored entries above [x]. *)
Definition entries_above (h : ccnd) (x : list byte * Z) : nat :=
  length (filter (fun y => entry_lt x y)
            ((fun p => (p.1, Content.accession p.2)) <$> map_to_list (content_tab h))).

(** The rank of an accession in a sorted skiplist. *)
Definition rank_of (h : ccnd) (a : Z) : nat :=
  match content_from_accession h a with
  | Some k => entries_above h (k, a)
  | None => O
  end.

(** The node [c] is the head or has a name below [key]. *)
Definition before_key (key : list byte) (c : skipnode) : Prop :=
  forall kc, c = skip_content kc -> name_lt kc key.

(** The link of [c] at level [i] is NULL or leads to an entry whose name is
    not below [key]. *)
Definition stops_at (h : ccnd) (key : list byte) (i : nat) (c : skipnode) : Prop :=
  exists links nxt,
    skipnode_links h c = Some links /\ links !! i = Some nxt /\
    (nxt = 0 \/
     exists k e, content_from_accession h nxt = Some k /\ content_tab h !! k = Some e /\
                 0 <= ccn_compare_names (entry_name e) key).

(** The accession index and the names are the same in both states. *)
Definition same_index (h h' : ccnd) : Prop :=
  content_by_accession h' = content_by_accession h /\
  accession_base h' = accession_base h /\
  content_by_accession_window h' = content_by_accession_window h /\
  forall k, (fun e => (Content.accession e, entry_name e)) <$> content_tab h' !! k
            = (fun e => (Content.accession e, entry_name e)) <$> content_tab h !! k.

End SkiplistSortedDefs.

Section SkiplistCheckDefs.
Context `{P : ccnd_private} `{L : ccn_library}.

(** One link at level [i] of node [c]: NULL, or the accession of a stored
    entry that has level [i] and, when [c] is an entry, comes after it. *)
Definition link_okb (h : ccnd) (c : skipnode) (i : nat) (a : Z) : bool :=
  (a =? 0) ||
  match content_from_accession h a with
  | Some k =>
      match node_depth h (skip_content k) with
      | Some depth =>
          bool_decide (i < depth)%nat &&
          match c with
          | skip_head => true
          | skip_content kc =>
              match content_tab h !! kc with
              | Some ec => bool_decide (entry_lt (kc, Content.accession ec) (k, a))
              | None => true
              end
          end
      | None => false
      end
  | None => false
  end.

Definition links_okb (h : ccnd) (c : skipnode) (links : list Z) : bool :=
  forallb (fun p => link_okb h c p.1 p.2) (imap pair links).

Definition skiplist_sortedb (h : ccnd) : bool :=
  links_okb h skip_head (skiplinks h) &&
  forallb (fun p => match Content.skiplinks p.2 with
                    | Some l => links_okb h (skip_content p.1) l
                    | None => true
                    end)
          (map_to_list (content_tab h)).

End SkiplistCheckDefs.

Section SkiplistRunDefs.
#[local] Existing Instance sample_private.
#[local] Existing Instance sample_library.

Definition content_xy2 : list byte := [x01; x02; x03; x04; x05; x07; x07; x07].

Definition content_xy0 : list byte := [x01; x02; x03; x04; x05; x05; x07; x07].

(** A daemon with one face and an empty content store. *)
Definition store_empty : ccnd := accept_face (ccnd_create 59) 1 5 0.

Definition the_face : Face.t :=
  {| Face.fd := 5; Face.flags := 0; Face.faceid := 0; Face.recvcount := 0;
     Face.cached_accession := 0 |}.

(** The first content object is stored and not yet linked. *)
Definition first_stored : ccnd :=
  default store_empty
    (store_new_content store_empty the_face content_xy1 content_xy1_parsed [0; 2; 4; 6]).

(** Two content objects have arrived. *)
Definition arrive (h : ccnd) (msg : list byte) : option ccnd :=
  process_incoming_content h 1 msg (Some (content_xy1_parsed, [0; 2; 4; 6])).

Definition two_arrived : ccnd :=
  default store_empty (h ← arrive store_empty content_xy1; arrive h content_xy2).

(** A third one, whose name sorts before the two, is stored and not yet
    linked. *)
Definition third_stored : ccnd :=
  default two_arrived
    (store_new_content two_arrived the_face content_xy0 content_xy1_parsed [0; 2; 4; 6]).

Definition third_stored_entry : Content.t :=
  {| Content.accession := 3; Content.comps := [0; 2; 4; 6]; Content.ncomps := 4;
     Content.flags := 0; Content.key := content_xy0;
     Content.key_size := 6; Content.tail_size := 2; Content.sig_offset := 0;
     Content.faces := Some [0]; Content.nface_done := 1; Content.nface_old := 0;
     Content.sender := None; Content.skiplinks := None |}.

End SkiplistRunDefs.

Section TiedNamesDefs.
#[local] Existing Instance sample_private.

(** Three objects whose names agree on the bytes that the order looks at
    arrive one after the other. *)
Definition tied_arrivals : option ccnd :=
  h ← process_incoming_content (L := prefix_library 5) store_empty 1 content_xy1
         (Some (content_xy1_parsed, [0; 2; 4; 6]));
  h ← process_incoming_content (L := prefix_library 5) h 1 content_xy2
         (Some (content_xy1_parsed, [0; 2; 4; 6]));
  process_incoming_content (L := prefix_library 5) h 1 content_xy0
    (Some (content_xy1_parsed, [0; 2; 4; 6])).

End TiedNamesDefs.

Section AccessionIndexDefs.

(** The window as the code keeps it: the array has one slot for each of the
    [content_by_accession_window] accessions from [accession_base] on. *)
Definition accession_index_ok (h : ccnd) : Prop :=
  zlength (content_by_accession h) = content_by_accession_window h /\
  0 <= accession_base h.

(** No number wraps around when the window slides and grows. *)
Definition accession_index_fits (h : ccnd) : Prop :=
  (content_by_accession_window h + 20) * 3 < 2 ^ 32 /\
  accession_base h + (content_by_accession_window h + 20) * 3 < 2 ^ 64.

(** The accessions handed out so far reach from [accession_base] to the end
    of the window at most. *)
Definition accession_counter_ok (h : ccnd) : Prop :=
  accession_base h <= accession h + 1 /\
  accession h <= accession_base h + content_by_accession_window h.

(** The array and the base after the slide of [enroll_content]. *)
Definition slid_window (h : ccnd) : ccnd :=
  let new_window := u32 (u32 (content_by_accession_window h + 20) * 3) / 2 in
  let old_array := take (Z.to_nat (content_by_accession_window h))
                        (content_by_accession h) in
  let i := leading_nulls old_array in
  let kept := drop i old_array in
  let new_array := kept ++ replicate (Z.to_nat new_window - length kept) None in
  set_content_by_accession_window new_window
    (set_content_by_accession new_array
       (set_accession_base (u64 (accession_base h + Z.of_nat i)) h)).

End AccessionIndexDefs.

Section PropagationDefs.
Context `{P : ccnd_private} `{L : ccn_library}.



(** The state after [propagate_interest] has recorded the message [out_msg]
    under the new key [pkey]; [h1] is the state in which the table is
    looked up. *)
Definition propagation_recorded (h1 : ccnd) (f : Face.t) (pkey out_msg : list byte)
    (outbound : list Z) (ipe : list byte) (i : Ipe.t) : ccnd :=
  let pe := Pe.mk (Some out_msg) (zlength out_msg) (Face.faceid f)
                  (Some outbound) (Some ipe) in
  let ring := default [] (Ipe.propagating_head i) ++ [pkey] in
  let h2 :=
    set_propagating_tab (<[pkey := pe]> (propagating_tab h1))
      (set_interestprefix_tab
         (<[ipe := Ipe.set_propagating_head (Some ring) i]> (interestprefix_tab h1))
         h1) in
  let '(r, seed') := nrand48 (seed h1) in
  set_sched (sched h1 ++ [Build_scheduled_event (Z.rem r 8192) (ev_do_propagate pkey) 0])
    (set_seed seed' h2).

End PropagationDefs.

Section PropagationRunDefs.
#[local] Existing Instance sample_private.
#[local] Existing Instance sample_library.

(** The prefix entry of the name of [interest_xy] has just been created. *)
Definition prefix_xy_new : Ipe.t := Ipe.mk 2 (Some []) (Some []) 0 None.

Definition interest_expected : ccnd :=
  set_interestprefix_tab
    (<[[x01; x02; x03; x04] := prefix_xy_new]> (interestprefix_tab three_faces))
    three_faces.




End PropagationRunDefs.

Section DoPropagateDefs.
Context `{P : ccnd_private} `{L : ccn_library}.

(** [n] runs of [do_propagate] for the same entry, as the scheduler makes
    them while the action asks to be run again. *)
Fixpoint do_propagate_runs (n : nat) (h : ccnd) (pe : list byte) : option ccnd :=
  match n with
  | O => Some h
  | S n' => '(h, _, _) ← do_propagate h pe false; do_propagate_runs n' h pe
  end.

(** What [do_write_BFI] hands to [do_write] for the face with id [id], if
    there is one: the message, wrapped into a protocol data unit for a link
    face. *)
Definition interest_sent_to (h : ccnd) (msg : list byte) (id : Z)
  : list (nat * list byte) :=
  match face_from_faceid h (u32 id) ≫= (fun face => (face,.) <$> face_store h !! face) with
  | Some (face, f) =>
      [(face,
        if negb (Z.land (Face.flags f) CCN_FACE_LINK =? 0)
        then ccn_charbuf_append_tt CCN_DTAG_CCNProtocolDataUnit CCN_DTAG
             ++ msg ++ [CCN_CLOSE]
        else msg)]
  | None => []
  end.

(** The face table, which [do_propagate] only reads. *)
Definition face_view (h : ccnd) :=
  (face_store h, faces_by_faceid h, face_limit h).

(** An entry that is released: no message, no outbound set, in no ring. *)
Definition pe_finished (e : Pe.t) : Pe.t :=
  Pe.mk None (Pe.size e) (Pe.faceid e) None None.

(** The ring of the prefix entry that [e] is linked to, without [pe]. *)
Definition ring_without (h : ccnd) (pe : list byte) (e : Pe.t)
  : gmap (list byte) Ipe.t :=
  match Pe.next e with
  | Some k =>
      alter (fun ipe =>
               Ipe.set_propagating_head
                 (filter (fun p => p <> pe) <$> Ipe.propagating_head ipe) ipe)
            k (interestprefix_tab h)
  | None => interestprefix_tab h
  end.

(** The end of [do_propagate], from the store of the new length of the
    outbound set on. *)
Definition do_propagate_tail (h : ccnd) (pe : list byte) (out : list Z)
  : option (ccnd * bool * Z) :=
  let h := pe_set_outbound h pe (Some out) in
  if bool_decide (out = []) then
    h ← finished_propagating h pe;
    Some (h, true, 0)
  else
    let '(r, seed') := nrand48 (seed h) in
    Some (set_seed seed' h, false, Z.rem r 8192 + 500).

End DoPropagateDefs.

Section DoPropagateRunDefs.
#[local] Existing Instance sample_private.
#[local] Existing Instance sample_library.

(** The entry that [nonce_pending] holds for the interest of face 101. *)
Definition nonce_pending_entry : Pe.t :=
  {| Pe.interest_msg := Some interest_xy; Pe.size := 6; Pe.faceid := 0;
     Pe.outbound := Some [1; 2]; Pe.next := Some [x01; x02; x03; x04] |}.

End DoPropagateRunDefs.

Section CheckPropagatingDefs.
Context `{P : ccnd_private} `{L : ccn_library}.

(** An entry that [check_propagating] deletes: released, with the size
    counted down to 0. *)
Definition pe_expired (e : Pe.t) : bool :=
  bool_decide (Pe.interest_msg e = None) && (Pe.size e =? 0).

(** What a pass of [check_propagating] makes of an entry: an entry that
    still holds its message is left alone; a released one has its size, used
    as a counter from then on, set to 1 and then to 0, and is deleted when
    it is found at 0. *)
Definition pe_checked (e : Pe.t) : option Pe.t :=
  match Pe.interest_msg e with
  | Some _ => Some e
  | None =>
      if Pe.size e =? 0 then None
      else Some (Pe.set_size (if 1 <? Pe.size e then 1 else 0) e)
  end.

(** [n] passes of [check_propagating]. *)
Fixpoint check_propagating_passes (n : nat) (h : ccnd) : option ccnd :=
  match n with
  | O => Some h
  | S n' => '(h, _) ← check_propagating h; check_propagating_passes n' h
  end.

End CheckPropagatingDefs.

Section CheckPropagatingRunDefs.
#[local] Existing Instance sample_private.
#[local] Existing Instance sample_library.

(** The propagation of [nonce_pending] has been cancelled. *)
Definition nonce_released : ccnd :=
  default nonce_pending
    ((fun r => r.1.1) <$> do_propagate nonce_pending [x09; x09] true).

End CheckPropagatingRunDefs.

Section CancelRunDefs.
#[local] Existing Instance sample_private.
#[local] Existing Instance sample_library.

(** A second interest in the same name, with another nonce, has come in on
    face 101. *)
Definition two_pending : ccnd :=
  default nonce_pending
    (process_incoming_interest nonce_pending 101 [x01; x02; x03; x04; x0a; x0a]
       (Some (interest_xy_parsed (-1), [0; 2; 4]))).

Definition two_pending_prefix : Ipe.t :=
  {| Ipe.ncomp := 2; Ipe.interested_faceid := Some [0]; Ipe.counters := Some [10];
     Ipe.idle := 0; Ipe.propagating_head := Some [[x09; x09]; [x0a; x0a]] |}.

End CancelRunDefs.

Section SkiplistFrameDefs.
Context `{P : ccnd_private} `{L : ccn_library}.

(** An entry without regard to its skiplist links. *)
Definition unlinked (e : Content.t) : Content.t := Content.set_skiplinks None e.

(** The entry that [process_incoming_content] makes for a new key. *)
Definition new_content_entry (h : ccnd) (f : Face.t) (msg : list byte)
    (obj : ccn_parsed_ContentObject) (comps : list Z) : Content.t :=
  {| Content.accession := u64 (accession h + 1);
     Content.comps := comps;
     Content.ncomps := zlength comps;
     Content.flags := 0;
     Content.key := bytes_at msg 0 (CCN_PCO_B_Content obj
                                    + u64 (zlength msg - CCN_PCO_B_Content obj));
     Content.key_size := CCN_PCO_B_Content obj;
     Content.tail_size := u64 (zlength msg - CCN_PCO_B_Content obj);
     Content.sig_offset := get_signature_offset obj msg;
     Content.faces := Some [Face.faceid f];
     Content.nface_done := 1;
     Content.nface_old := 0;
     Content.sender := None;
     Content.skiplinks := None |}.

End SkiplistFrameDefs.

Section StoreInvariantDefs.
Context `{P : ccnd_private} `{L : ccn_library}.

(** The content store as the daemon keeps it: every entry is stored under
    its name and enrolled under its accession, the skiplist is sorted, the
    accession array has one slot for each accession of the window, and no
    entry has an accession that was not handed out yet. *)
Record content_store_ok (h : ccnd) : Prop := {
  cs_keys : content_keys_ok h;
  cs_sorted : skiplist_sorted h;
  cs_index : accession_index_ok h;
  cs_counter : accession_counter_ok h;
  cs_issued : forall k e, content_tab h !! k = Some e -> Content.accession e <= accession h
}.

(** Two states with the same content store, up to the fields of the entries
    that the store does not look at. *)
Definition same_store (h h' : ccnd) : Prop :=
  same_index h h' /\
  accession h' = accession h /\
  skiplinks h' = skiplinks h /\
  forall k, Content.skiplinks <$> content_tab h' !! k
            = Content.skiplinks <$> content_tab h !! k.

(** A checkable form of [content_store_ok]. *)
Definition content_store_okb (h : ccnd) : bool :=
  bool_decide (map_Forall (fun k e => entry_name e = k /\
                                      content_from_accession h (Content.accession e) = Some k /\
                                      Content.accession e <= accession h)
                          (content_tab h)) &&
  skiplist_sortedb h &&
  bool_decide (zlength (content_by_accession h) = content_by_accession_window h) &&
  (0 <=? accession_base h) &&
  (accession_base h <=? accession h + 1) &&
  (accession h <=? accession_base h + content_by_accession_window h).

End StoreInvariantDefs.

Section NewContentArrivalDefs.
Context `{P : ccnd_private} `{L : ccn_library}.

(** The count of ContentObjects in the old format, as kept by
    [process_incoming_content]. *)
Definition oldformat_counted (h : ccnd) (obj : ccn_parsed_ContentObject) : ccnd :=
  if negb (pco_magic obj =? 20080711) then
    let h := set_oldformatcontent (oldformatcontent h + 1) h in
    if oldformatcontent h =? oldformatcontentgrumble h
    then set_oldformatcontentgrumble (oldformatcontentgrumble h * 10) h
    else h
  else h.

(** The flag that marks content nobody has asked for. *)
Definition slow_send (e : Content.t) : Content.t :=
  Content.set_flags (Z.lor (Content.flags e) CCN_CONTENT_ENTRY_SLOWSEND) e.

(** No interest is pending for any prefix of the name of an entry. *)
Definition no_pending_prefix (h : ccnd) (e : Content.t) : Prop :=
  forall ci c0 c, zlookup (Content.comps e) 0 = Some c0 ->
                  zlookup (Content.comps e) ci = Some c ->
                  interestprefix_tab h !! bytes_at (Content.key e) c0 (c - c0) = None.

End NewContentArrivalDefs.

Section NewContentRunDefs.
#[local] Existing Instance sample_private.
#[local] Existing Instance sample_library.

(** The first content object arrives at a daemon that has seen no interest. *)
Definition first_arrived : ccnd :=
  default store_empty
    (process_incoming_content store_empty 1 content_xy1
       (Some (content_xy1_parsed, [0; 2; 4; 6]))).

End NewContentRunDefs.

Section ScheduleRunDefs.
#[local] Existing Instance sample_private.
#[local] Existing Instance sample_library.

(** The content that has arrived is due to face 101, and its sender event
    is gone. *)
Definition sender_gone : ccnd :=
  content_update content_arrived (bytes_at content_xy1 0 6) (Content.set_sender None).

End ScheduleRunDefs.

Section CleanDeamonDefs.
Context `{P : ccnd_private} `{L : ccn_library}.

(** The face that an id of a face set stands for, if it is still there. *)
Definition live_face (h : ccnd) (id : Z) : option Face.t :=
  face_from_faceid h (u32 id) ≫= (fun face => face_store h !! face).

Definition is_link (f : Face.t) : bool :=
  negb (Z.land (Face.flags f) CCN_FACE_LINK =? 0).

(** Whether [clean_deamon] keeps the id at place [j]: the face is there, and
    it is not a link face at a place below [nface_old]. *)
Definition face_kept (h : ccnd) (nface_old : Z) (j : Z) (id : Z) : bool :=
  match live_face h id with
  | Some f => negb ((j <? nface_old) && is_link f)
  | None => false
  end.

(** The ids kept of [rest], which starts at place [j]. *)
Fixpoint kept_from (h : ccnd) (nface_old : Z) (j : Z) (rest : list Z) : list Z :=
  match rest with
  | [] => []
  | id :: rest' =>
      if face_kept h nface_old j id
      then id :: kept_from h nface_old (j + 1) rest'
      else kept_from h nface_old (j + 1) rest'
  end.

(** The number of ids kept of [rest] at places below [nface_done]. *)
Fixpoint kept_done (h : ccnd) (nface_old nface_done : Z) (j : Z) (rest : list Z) : Z :=
  match rest with
  | [] => 0
  | id :: rest' =>
      (if face_kept h nface_old j id && (j <? nface_done) then 1 else 0)
      + kept_done h nface_old nface_done (j + 1) rest'
  end.

(** A face that is there and is not a link face. *)
Definition live_local (h : ccnd) (id : Z) : bool :=
  match live_face h id with
  | Some f => negb (is_link f)
  | None => false
  end.

(** The entries whose pointers are in the first [n] slots of the accession
    index. *)
Definition enrolled_below (h : ccnd) (n : nat) : list (list byte) :=
  omap id (take n (content_by_accession h)).

(** The number of slots that [clean_deamon] visits. *)
Definition slots_cleaned (h : ccnd) : nat :=
  let n := u32 (accession h - accession_base h + 1) in
  Z.to_nat (if content_by_accession_window h <? n
            then content_by_accession_window h else n).

End CleanDeamonDefs.

Section CleanRunDefs.
#[local] Existing Instance sample_private.
#[local] Existing Instance sample_library.

(** The stored content has been sent to the link face 102 (id 1) long ago,
    to face 103 (id 2) and to a face that is gone since (id 9); it is still
    due to face 101 (id 0). *)
Definition weeding_due_entry : Content.t :=
  Content.set_faces (Some [1; 2; 9; 0])
    (Content.set_nface_done 3 (Content.set_nface_old 1 content_arrived_entry)).

Definition weeding_due : ccnd :=
  set_content_tab (<[bytes_at content_xy1 0 6 := weeding_due_entry]> (content_tab content_arrived))
    content_arrived.

End CleanRunDefs.

Section SkiplistChainDefs.
Context `{P : ccnd_private} `{L : ccn_library}.

(** The link of node [c] at level [i]. *)
Definition next_at (h : ccnd) (i : nat) (c : skipnode) : option Z :=
  links ← skipnode_links h c; links !! i.

(** One step along the links of level [i]. *)
Definition step_at (h : ccnd) (i : nat) (c c' : skipnode) : Prop :=
  exists a k, next_at h i c = Some a /\ a <> 0 /\
              content_from_accession h a = Some k /\ c' = skip_content k.

Definition reach_at (h : ccnd) (i : nat) : relation skipnode := rtc (step_at h i).

(** Every stored entry is linked in: it has links, at least those of level
    0, and at each of its levels the chain that starts at the head leads to
    it.  No entry has the accession 0, which stands for NULL in a link. *)
Record skiplist_complete (h : ccnd) : Prop := {
  sc_linked : forall k e, content_tab h !! k = Some e ->
    exists l, Content.skiplinks e = Some l /\ l <> [] /\
              forall i, (i < length l)%nat -> reach_at h i skip_head (skip_content k);
  sc_positive : forall k e, content_tab h !! k = Some e -> Content.accession e <> 0
}.

(** The order of the nodes: the head comes before every stored entry. *)
Definition node_lt (h : ccnd) (c c' : skipnode) : Prop :=
  match c' with
  | skip_head => False
  | skip_content k =>
      exists e, content_tab h !! k = Some e /\
        match c with
        | skip_head => True
        | skip_content kc =>
            exists ec, content_tab h !! kc = Some ec /\
                       entry_lt (kc, Content.accession ec) (k, Content.accession e)
        end
  end.

(** A checkable form of [skiplist_complete]: the chain of level [i] that
    starts at [c], [fuel] entries of it at most. *)
Fixpoint chain_from (fuel : nat) (h : ccnd) (i : nat) (c : skipnode) : list (list byte) :=
  match fuel with
  | O => []
  | S fuel' =>
      match next_at h i c with
      | Some a =>
          if a =? 0 then []
          else match content_from_accession h a with
               | Some k => k :: chain_from fuel' h i (skip_content k)
               | None => []
               end
      | None => []
      end
  end.

Definition skiplist_completeb (h : ccnd) : bool :=
  forallb (fun kv =>
             negb (Content.accession kv.2 =? 0) &&
             match Content.skiplinks kv.2 with
             | Some l =>
                 negb (bool_decide (l = [])) &&
                 forallb (fun i => bool_decide
                                     (kv.1 ∈ chain_from (S (size (content_tab h))) h i
                                                        skip_head))
                         (seq 0 (length l))
             | None => false
             end)
          (map_to_list (content_tab h)).

End SkiplistChainDefs.

Section SkiplistRemoveDefs.
Context `{P : ccnd_private} `{L : ccn_library}.

(** No stored entry whose name compares equal to that of [e] is newer. *)
Definition newest_tied (h : ccnd) (k : list byte) (e : Content.t) : Prop :=
  forall k' e', content_tab h !! k' = Some e' -> k' <> k ->
    ~ name_lt k' k -> ~ name_lt k k' -> Content.accession e' < Content.accession e.

(** The state after an entry has been taken out of the skiplist. *)
Definition entry_unlinked (h h' : ccnd) (k : list byte) (e : Content.t) : Prop :=
  content_tab h' !! k = Some (unlinked e) /\
  unlinked <$> content_tab h' = unlinked <$> content_tab h /\
  (content_by_accession h' = content_by_accession h /\
   accession_base h' = accession_base h /\
   content_by_accession_window h' = content_by_accession_window h) /\
  (forall c, c <> skip_content k -> node_depth h' c = node_depth h c) /\
  (forall c j, c <> skip_content k -> next_at h j c = Some (Content.accession e) ->
               next_at h' j c = next_at h j (skip_content k)) /\
  (forall c j, c <> skip_content k -> next_at h j c <> Some (Content.accession e) ->
               next_at h' j c = next_at h j c).

End SkiplistRemoveDefs.

Section RemoveRunDefs.
#[local] Existing Instance sample_private.
#[local] Existing Instance sample_library.

(** The first of the two stored entries, as it is linked in. *)
Definition first_of_two : Content.t :=
  default third_stored_entry (content_tab two_arrived !! bytes_at content_xy1 0 6).

End RemoveRunDefs.

Section ContentDeleteDefs.
Context `{P : ccnd_private} `{L : ccn_library}.


End ContentDeleteDefs.

Section CollisionRunDefs.
#[local] Existing Instance sample_private.
#[local] Existing Instance sample_library.


End CollisionRunDefs.

Section SkiplistLinkDefs.
Context `{P : ccnd_private} `{L : ccn_library}.

(** Every stored entry but [k] is linked in. *)
Definition linked_but (h : ccnd) (k : list byte) : Prop :=
  (forall k' e', k' <> k -> content_tab h !! k' = Some e' ->
     exists l, Content.skiplinks e' = Some l /\ l <> [] /\
               forall i, (i < length l)%nat -> reach_at h i skip_head (skip_content k')) /\
  (forall k' e', content_tab h !! k' = Some e' -> Content.accession e' <> 0).

End SkiplistLinkDefs.

Section FoundRunDefs.
#[local] Existing Instance sample_private.
#[local] Existing Instance sample_library.

(** An interest whose name is the name of the third content object. *)
Definition interest_xy0 : list byte := [x01; x02; x03; x04; x05; x05; x09; x09].

Definition interest_xy0_parsed : ccn_parsed_interest :=
  {| pi_prefix_comps := 3; pi_scope := -1; pi_orderpref := 0;
     CCN_PI_E_Name := 6; CCN_PI_B_Nonce := 6; CCN_PI_E_Nonce := 8;
     CCN_PI_B_OTHER := 8; CCN_PI_E_OTHER := 8; CCN_PI_E := 8 |}.

End FoundRunDefs.

(** * Properties *)

(** ** Arithmetic of face ids *)

Section FaceIdArith.

Lemma u32_range x : 0 <= u32 x < 2 ^ 32.
Proof. unfold u32. apply Z.mod_pos_bound. lia. Qed.

Lemma u32_small x : 0 <= x < 2 ^ 32 -> u32 x = x.
Proof. intros. unfold u32. by apply Z.mod_small. Qed.

Lemma land_ones_mask k x : 0 <= k -> Z.land x (2 ^ k - 1) = x mod 2 ^ k.
Proof.
  intros. replace (2 ^ k - 1) with (Z.ones k) by (rewrite Z.ones_equiv; lia).
  by apply Z.land_ones.
Qed.

(** A generation is a multiple of [2^k]; or-ing a slot below [2^k] into it is
    an addition. *)
Lemma lor_slot_gen k i g :
  0 <= k -> 0 <= i < 2 ^ k -> g mod 2 ^ k = 0 -> Z.lor i g = i + g.
Proof.
  intros Hk Hi Hg.
  assert (Z.land i g = 0) as Hdisj.
  { apply Z.bits_inj'. intros n Hn. rewrite Z.land_spec, Z.bits_0.
    destruct (Z.lt_ge_cases n k) as [Hlt|Hge].
    - rewrite <- (Z.mod_pow2_bits_low g k n) by lia. rewrite Hg, Z.bits_0.
      apply andb_false_r.
    - assert (Z.testbit i n = false) as ->; [|done].
      destruct (Z.eq_dec i 0) as [->|]; [apply Z.bits_0|].
      apply Z.bits_above_log2; [lia|].
      apply Z.lt_le_trans with k; [|done].
      apply Z.log2_lt_pow2; lia. }
  rewrite <- Z.lxor_lor by done. symmetry. by apply Z.add_nocarry_lxor.
Qed.

Lemma u32_mod_pow2 k x : 0 <= k <= 32 -> u32 x mod 2 ^ k = x mod 2 ^ k.
Proof.
  intros Hk. unfold u32. apply Z.mod_mod_divide.
  exists (2 ^ (32 - k)). rewrite <- Z.pow_add_r by lia. f_equal. lia.
Qed.

End FaceIdArith.

(** ** The face table: lookups resolve exactly the live ids *)

Section FaceTableProofs.

Context `{P : ccnd_private}.

Lemma find_null_Some a lo cnt i :
  find_null a lo cnt = Some i ->
  (lo <= i < lo + cnt)%nat /\ a !! i = Some None.
Proof.
  revert lo. induction cnt as [|cnt IH]; intros lo; simpl; [done|].
  destruct (a !! lo) as [[p|]|] eqn:E.
  - intros H. apply IH in H as [? ?]. split; [lia|done].
  - intros [= <-]. split; [lia|done].
  - intros H. apply IH in H as [? ?]. split; [lia|done].
Qed.

Lemma find_null_None a lo cnt i :
  find_null a lo cnt = None -> (lo <= i < lo + cnt)%nat -> a !! i <> Some None.
Proof.
  revert lo. induction cnt as [|cnt IH]; intros lo; simpl; [lia|].
  destruct (a !! lo) as [[p|]|] eqn:E; try done.
  - intros H Hi. destruct (decide (i = lo)) as [->|]; [congruence|].
    apply (IH (S lo)); [done|lia].
  - intros H Hi. destruct (decide (i = lo)) as [->|]; [congruence|].
    apply (IH (S lo)); [done|lia].
Qed.

Section WithMask.

Variable k : Z.

Hypothesis Hk : 4 <= k <= 31.

Hypothesis HM : MAXFACES = 2 ^ k - 1.

Lemma MAXFACES_bounds : 15 <= MAXFACES < 2 ^ 31.
Proof using Hk HM.
  rewrite HM. split.
  - assert (2 ^ 4 <= 2 ^ k) by (apply Z.pow_le_mono_r; lia). lia.
  - assert (2 ^ k <= 2 ^ 31) by (apply Z.pow_le_mono_r; lia). lia.
Qed.

Lemma land_MAXFACES x : Z.land x MAXFACES = x mod 2 ^ k.
Proof using Hk HM. rewrite HM. apply land_ones_mask. lia. Qed.

Lemma pow2k_pos : 0 < 2 ^ k.
Proof using Hk. apply Z.pow_pos_nonneg; lia. Qed.

(** The id minted for slot [i] in generation [g] has slot bits [i]. *)
Lemma minted_id_slot i g :
  0 <= i < MAXFACES -> 0 <= g < 2 ^ 32 -> Z.land g MAXFACES = 0 ->
  u32 (Z.lor i g) = i + g /\ Z.land (u32 (Z.lor i g)) MAXFACES = i.
Proof using Hk HM.
  intros Hi Hg Hg0. rewrite land_MAXFACES in Hg0.
  pose proof pow2k_pos as Hpos.
  assert (Z.lor i g = i + g) as Hlor.
  { apply (lor_slot_gen k); [lia| |done]. rewrite HM in Hi. lia. }
  assert (0 <= i + g < 2 ^ 32) as Hr.
  { split; [lia|].
    (* g is a multiple of 2^k below 2^32, so g <= 2^32 - 2^k *)
    assert (g = 2 ^ k * (g / 2 ^ k)) as Hdiv.
    { pose proof (Z.div_mod g (2 ^ k)). lia. }
    assert (2 ^ 32 = 2 ^ k * 2 ^ (32 - k)) as H32.
    { rewrite <- Z.pow_add_r by lia. f_equal. lia. }
    assert (g / 2 ^ k < 2 ^ (32 - k)).
    { apply Z.div_lt_upper_bound; [lia|]. rewrite <- H32. lia. }
    rewrite HM in Hi. nia. }
  rewrite Hlor, u32_small by done. split; [done|].
  rewrite land_MAXFACES.
  rewrite <- Zplus_mod_idemp_r, Hg0, Z.add_0_r.
  apply Z.mod_small. rewrite HM in Hi. lia.
Qed.

Lemma gen_bump_ok g :
  0 <= g < 2 ^ 32 -> Z.land g MAXFACES = 0 ->
  Z.land (u32 (g + (MAXFACES + 1))) MAXFACES = 0 /\
  u32 (g + (MAXFACES + 1)) <> g.
Proof using Hk HM.
  intros Hg Hg0. rewrite land_MAXFACES in *.
  pose proof pow2k_pos as Hpos. split.
  - rewrite u32_mod_pow2 by lia. rewrite HM.
    replace (g + (2 ^ k - 1 + 1)) with (g + 1 * 2 ^ k) by lia.
    by rewrite Z.mod_add by lia.
  - unfold u32. rewrite HM.
    assert (2 ^ k <= 2 ^ 31) by (apply Z.pow_le_mono_r; lia).
    destruct (Z.lt_ge_cases (g + (2 ^ k - 1 + 1)) (2 ^ 32)).
    + rewrite Z.mod_small by lia. lia.
    + replace (g + (2 ^ k - 1 + 1)) with ((g + 2 ^ k - 2 ^ 32) + 1 * 2 ^ 32) by lia.
      rewrite Z.mod_add by lia. rewrite Z.mod_small by lia. lia.
Qed.

Lemma face_table_initial_ok h : face_table_initial h -> face_table_ok h.
Proof using Hk HM.
  intros (Hs & Hl & Ha & Hg & Hr). pose proof MAXFACES_bounds.
  split.
  - rewrite Ha, Hl. unfold zlength. rewrite length_replicate. done.
  - rewrite Hl. unfold face_limit_init. lia.
  - rewrite Hg. lia.
  - rewrite Hg. apply Z.land_0_l.
  - intros i p. rewrite Ha. intros [? _]%lookup_replicate. done.
Qed.

Lemma not_enrolled_fresh h face :
  face_table_ok h -> face_store h !! face = None ->
  forall i : nat, faces_by_faceid h !! i <> Some (Some face).
Proof.
  intros Hok Hnone i Hi. destruct (fto_slots _ Hok _ _ Hi) as (f & Hf & _).
  congruence.
Qed.

(** What [use_i] does to a table whose slot [i] is in range, for a face that
    is stored and sits in no slot. *)
Lemma enroll_use_i_ok h i face f :
  face_table_ok h -> 0 <= i < face_limit h ->
  face_store h !! face = Some f ->
  (forall j : nat, faces_by_faceid h !! j <> Some (Some face)) ->
  let h' := fst (enroll_use_i h i face) in
  face_table_ok h' /\
  face_gen h' = face_gen h /\
  faces_by_faceid h' = <[Z.to_nat i := Some face]> (faces_by_faceid h) /\
  face_store h' = <[face := Face.set_faceid (i + face_gen h) f]> (face_store h).
Proof using Hk HM.
  intros Hok Hi Hf Hnot h'. subst h'.
  destruct Hok as [Hlen Hlim Hgr Hg Hslots].
  destruct (minted_id_slot i (face_gen h)) as [Hid Hslot]; [lia|done|done|].
  unfold enroll_use_i. simpl. unfold zupdate.
  assert ((i <? 0) = false) as -> by lia.
  rewrite Hid.
  assert (alter (Face.set_faceid (i + face_gen h)) face (face_store h)
          = <[face := Face.set_faceid (i + face_gen h) f]> (face_store h)) as Halt.
  { apply map_eq. intros p. destruct (decide (p = face)) as [->|Hne].
    - rewrite lookup_alter_eq, lookup_insert_eq, Hf. done.
    - rewrite lookup_alter_ne, lookup_insert_ne by done. done. }
  rewrite Halt. split_and!; try done.
  split; simpl.
  - unfold zlength in *. rewrite length_insert. done.
  - done.
  - done.
  - done.
  - intros j p Hj.
    destruct (decide (j = Z.to_nat i)) as [->|Hne].
    + rewrite list_lookup_insert_eq in Hj by (unfold zlength in Hlen; lia).
      injection Hj as <-. rewrite lookup_insert_eq. eexists. split; [done|].
      simpl. rewrite <- Hid, Hslot. lia.
    + rewrite list_lookup_insert_ne in Hj by done.
      assert (p <> face) by (intros ->; by eapply Hnot).
      rewrite lookup_insert_ne by done. by apply Hslots.
Qed.

Lemma new_face_ok h face fd flags :
  face_table_ok h -> face_store h !! face = None ->
  face_table_ok (new_face h face fd flags).
Proof.
  intros Hok Hnone. pose proof (not_enrolled_fresh _ _ Hok Hnone) as Hnot.
  destruct Hok as [Hlen Hlim Hgr Hg Hslots].
  split; simpl; try done.
  intros i p Hi. assert (p <> face) by (intros ->; by eapply Hnot).
  rewrite lookup_insert_ne by done. by apply Hslots.
Qed.

(** The enrolment of a stored face that sits in no slot: the three exits of
    [enroll_face]. *)
Lemma enroll_face_ok h face f :
  face_table_ok h -> face_store h !! face = Some f ->
  (forall j : nat, faces_by_faceid h !! j <> Some (Some face)) ->
  let h' := fst (enroll_face h face) in
  face_table_ok h' /\
  (face_gen h' <> face_gen h ->
   forall i : nat, faces_by_faceid h' !! i = Some (Some face) ->
   exists f', face_store h' !! face = Some f' /\
              Face.faceid f' = Z.of_nat i + face_gen h').
Proof using Hk HM.
  intros Hok Hf Hnot h'. subst h'. unfold enroll_face.
  pose proof Hok as [Hlen Hlim Hgr Hg Hslots].
  pose proof MAXFACES_bounds as HMb.
  assert (0 <= face_limit h) as Hl0 by (rewrite <- Hlen; unfold zlength; lia).
  destruct (find_null _ (Z.to_nat (face_rover h)) _) as [i|] eqn:E1.
  { apply find_null_Some in E1 as [Hi Hnull].
    apply lookup_lt_Some in Hnull. unfold zlength in Hlen.
    destruct (enroll_use_i_ok h (Z.of_nat i) face f) as (H1 & H2 & _);
      [done|lia|done|done|]. split; [done|]. intros Hne. by destruct Hne. }
  destruct (find_null _ 0%nat _) as [i|] eqn:E2.
  { apply find_null_Some in E2 as [Hi Hnull].
    apply lookup_lt_Some in Hnull. unfold zlength in Hlen.
    destruct (gen_bump_ok (face_gen h)) as [Hb1 Hb2]; [done..|].
    set (h1 := set_face_gen (u32 (face_gen h + (MAXFACES + 1))) h).
    assert (face_table_ok h1) as Hok1.
    { split; simpl; try done. apply u32_range. }
    destruct (enroll_use_i_ok h1 (Z.of_nat i) face f) as (H1 & H2 & H3 & H4);
      [done|simpl; lia|done|done|].
    split; [done|]. intros _ j Hj. rewrite H3 in Hj. simpl in Hj.
    destruct (decide (j = Z.to_nat (Z.of_nat i))) as [->|Hne].
    - rewrite H4, H2, lookup_insert_eq. eexists. split; [done|]. simpl. lia.
    - rewrite list_lookup_insert_ne in Hj by done. by destruct (Hnot j). }
  set (i := u32 (u32 (face_limit h + 1) * 3) / 2).
  set (i' := if MAXFACES <? i then MAXFACES else i).
  destruct (i' <=? face_limit h) eqn:Ecmp.
  { simpl. split; [done|]. intros Hne. by destruct Hne. }
  assert (face_limit h < i' <= MAXFACES) as Hi'.
  { split; [lia|]. subst i'. destruct (MAXFACES <? i) eqn:?; lia. }
  set (h1 := set_faces_by_faceid (grow_faces (faces_by_faceid h) i')
               (set_face_limit i' h)).
  assert (face_table_ok h1) as Hok1.
  { split; simpl; try done; try lia.
    - unfold zlength, grow_faces in *. rewrite length_app, length_replicate. lia.
    - intros j p. unfold grow_faces. intros Hj.
      apply lookup_app_Some in Hj as [Hj|[_ Hj]]; [by apply Hslots|].
      apply lookup_replicate in Hj as [? _]. done. }
  assert (forall j : nat, faces_by_faceid h1 !! j <> Some (Some face)) as Hnot1.
  { intros j. simpl. unfold grow_faces. intros Hj.
    apply lookup_app_Some in Hj as [Hj|[_ Hj]]; [by destruct (Hnot j)|].
    apply lookup_replicate in Hj as [? _]. done. }
  destruct (enroll_use_i_ok h1 (face_limit h) face f) as (H1 & H2 & H3 & H4);
    [done|simpl; lia|done|done|].
  split; [done|]. intros Hne. rewrite H2 in Hne. by destruct Hne.
Qed.

Lemma accept_face_ok h face fd flags :
  face_table_ok h -> face_store h !! face = None ->
  face_table_ok (accept_face h face fd flags).
Proof using Hk HM.
  intros Hok Hnone. unfold accept_face.
  pose proof (new_face_ok h face fd flags Hok Hnone) as Hok1.
  eapply (enroll_face_ok (new_face h face fd flags)); [done| |].
  - simpl. apply lookup_insert_eq.
  - simpl. by apply not_enrolled_fresh.
Qed.

Lemma release_face_ok h face h' :
  face_table_ok h -> release_face h face = Some h' -> face_table_ok h'.
Proof.
  intros Hok. unfold release_face, finalize_face.
  destruct (face_store h !! face) as [f|] eqn:Hf; simpl; [|done].
  pose proof Hok as [Hlen Hlim Hgr Hg Hslots].
  destruct (_ && _) eqn:Ec; simpl; intros [= <-].
  - apply andb_prop in Ec as [Hlt Hat]. apply bool_decide_eq_true in Hat.
    unfold zlookup, zupdate in *.
    destruct (Z.land (Face.faceid f) MAXFACES <? 0) eqn:Eneg; [done|].
    split; simpl; try done.
    + unfold zlength in *. by rewrite length_insert.
    + intros i p Hi.
      destruct (decide (i = Z.to_nat (Z.land (Face.faceid f) MAXFACES))) as [->|Hne].
      * apply list_lookup_insert_Some in Hi as [(_ & ? & _)|(? & _)]; done.
      * rewrite list_lookup_insert_ne in Hi by done.
        destruct (Hslots _ _ Hi) as (f' & Hf' & Hs).
        assert (p <> face).
        { intros ->. rewrite Hf in Hf'. injection Hf' as <-.
          apply Hne. rewrite Hs. lia. }
        rewrite lookup_delete_ne by done. eauto.
  - split; simpl; try done.
    intros i p Hi. destruct (Hslots _ _ Hi) as (f' & Hf' & Hs).
    assert (p <> face).
    { intros ->. rewrite Hf in Hf'. injection Hf' as <-.
      apply andb_false_iff in Ec as [Hc|Hc].
      - apply lookup_lt_Some in Hi. unfold zlength in Hlen. lia.
      - apply bool_decide_eq_false in Hc. apply Hc. unfold zlookup.
        rewrite Hs. assert ((Z.of_nat i <? 0) = false) as -> by lia.
        by rewrite Nat2Z.id. }
    rewrite lookup_delete_ne by done. eauto.
Qed.

Lemma face_set_flags_ok h face flags :
  face_table_ok h -> face_table_ok (face_set_flags h face flags).
Proof.
  intros [Hlen Hlim Hgr Hg Hslots]. split; simpl; try done.
  intros i p Hi. destruct (Hslots _ _ Hi) as (f & Hf & Hs).
  destruct (decide (p = face)) as [->|Hne].
  - rewrite lookup_alter_eq, Hf. simpl. eauto.
  - rewrite lookup_alter_ne by done. eauto.
Qed.

Lemma face_step_ok h h' : face_table_ok h -> face_step h h' -> face_table_ok h'.
Proof using Hk HM.
  intros Hok [face fd flags Hnone|face fd flags Hnone|face h'' Hrel|face flags].
  - by apply accept_face_ok.
  - by apply new_face_ok.
  - by eapply release_face_ok.
  - by apply face_set_flags_ok.
Qed.

Lemma face_table_reachable_ok h0 h :
  face_table_initial h0 -> rtc face_step h0 h -> face_table_ok h.
Proof using Hk HM.
  intros Hinit Hsteps. apply face_table_initial_ok in Hinit.
  induction Hsteps as [|h1 h2 h3 Hstep _ IH]; [done|].
  apply IH. by eapply face_step_ok.
Qed.

(** *** Ids are not minted twice *)




Lemma face_step_steady_rtc h h' :
  rtc face_step_steady h h' -> rtc face_step h h'.
Proof.
  induction 1 as [|h1 h2 h3 [Hstep _] _ IH]; [done|]. by eapply rtc_l.
Qed.



End WithMask.

End FaceTableProofs.


Section FaceTableRun.

#[local] Existing Instance sample_private.




End FaceTableRun.

(** ** The outbound faces of an interest *)

Section OutboundFaces.

Context `{P : ccnd_private}.

Lemma get_outbound_faces_loop h from blockmask (m : nat) :
  (m <= length (faces_by_faceid h))%nat ->
  (forall (i : nat) p, faces_by_faceid h !! i = Some (Some p) ->
                       is_Some (face_store h !! p)) ->
  foldl (fun acc i =>
           x ← acc;
           ai ← faces_by_faceid h !! i;
           match ai with
           | None => Some x
           | Some p =>
               if bool_decide (p = from) then Some x
               else
                 f ← face_store h !! p;
                 if Z.land (Face.flags f) blockmask =? 0
                 then Some (x ++ [Face.faceid f])
                 else Some x
           end)
        (Some []) (seq 0 m)
  = Some (omap (outbound_of_slot h from blockmask) (take m (faces_by_faceid h))).
Proof.
  intros Hm Hstore. induction m as [|m IH]; [done|].
  rewrite seq_S, foldl_app, IH by lia. simpl.
  destruct (lookup_lt_is_Some_2 (faces_by_faceid h) m) as [slot Hslot]; [lia|].
  rewrite Hslot. simpl. rewrite (take_S_r _ _ _ Hslot), omap_app. simpl.
  destruct slot as [p|]; simpl.
  - unfold outbound_of_slot at 2. simpl.
    destruct (bool_decide (p = from)); [by rewrite app_nil_r|].
    destruct (Hstore _ _ Hslot) as [f Hf]. rewrite Hf. simpl.
    destruct (Z.land _ _ =? 0); [done|by rewrite app_nil_r].
  - by rewrite app_nil_r.
Qed.

End OutboundFaces.

(** C3. On a well-formed face table, [get_outbound_faces] for an interest of
    scope [s] that came in on face [from] returns: nothing when [s = 0];
    otherwise each id once, and exactly the ids of the enrolled faces other
    than [from], without those that carry CCN_FACE_LINK when [s = 1]. *)
Theorem get_outbound_faces_spec `{P : ccnd_private} (k : Z) (h : ccnd)
    (from : nat) (pi : ccn_parsed_interest) :
  4 <= k <= 31 -> MAXFACES = 2 ^ k - 1 -> face_table_ok h ->
  exists x, get_outbound_faces h from pi = Some x /\
    (pi_scope pi = 0 -> x = []) /\
    (pi_scope pi <> 0 ->
       NoDup x /\
       forall id, id ∈ x <->
         exists (i : nat) face f,
           faces_by_faceid h !! i = Some (Some face) /\
           face_store h !! face = Some f /\ Face.faceid f = id /\
           face <> from /\
           (pi_scope pi = 1 -> Z.land (Face.flags f) CCN_FACE_LINK = 0)).
Proof.
  intros Hk HM Hok. unfold get_outbound_faces.
  destruct (pi_scope pi =? 0) eqn:Hscope.
  { exists []. split; [done|]. split; [done|]. lia. }
  pose proof (fto_length _ Hok) as Hlen. unfold zlength in Hlen.
  rewrite get_outbound_faces_loop.
  2:{ lia. }
  2:{ intros i p Hi. destruct (fto_slots _ Hok _ _ Hi) as (f & Hf & _). eauto. }
  eexists. split; [done|]. split; [lia|]. intros _.
  rewrite take_ge by lia.
  set (blockmask := if pi_scope pi =? 1 then CCN_FACE_LINK else 0).
  split.
  - (* the ids of distinct slots differ in their slot bits *)
    apply NoDup_alt. intros i j id Hi Hj.
    assert (forall (n : nat),
              omap (outbound_of_slot h from blockmask) (faces_by_faceid h) !! n = Some id ->
              exists (s : nat) p f, faces_by_faceid h !! s = Some (Some p) /\
                face_store h !! p = Some f /\ Face.faceid f = id) as Hsrc.
    { intros n Hn. apply list_elem_of_lookup_2 in Hn.
      apply list_elem_of_omap in Hn as (slot & Hin & Hout).
      apply list_elem_of_lookup in Hin as [s Hs].
      unfold outbound_of_slot in Hout. destruct slot as [p|]; [|done]. simpl in Hout.
      destruct (bool_decide (p = from)); [done|].
      destruct (face_store h !! p) as [f|] eqn:Hf; [|done]. simpl in Hout.
      destruct (Z.land _ _ =? 0); [|done]. injection Hout as <-. eauto 10. }
    (* positions in the result are increasing in the slot, so equal ids
       mean equal positions *)
    revert i j Hi Hj.
    generalize (faces_by_faceid h) (fto_slots _ Hok). clear Hsrc Hlen.
    intros a Hslots.
    assert (forall (a1 : list (option nat)) (off : nat),
              (forall (i : nat) p, a1 !! i = Some (Some p) ->
                 exists f, face_store h !! p = Some f /\
                           Z.land (Face.faceid f) MAXFACES = Z.of_nat (off + i)) ->
              forall i j, omap (outbound_of_slot h from blockmask) a1 !! i = Some id ->
                          omap (outbound_of_slot h from blockmask) a1 !! j = Some id ->
                          i = j) as Hgen.
    { clear a Hslots. intros a1. induction a1 as [|slot a1 IH]; intros off Hs i j; [done|].
      assert (forall (i : nat) p, a1 !! i = Some (Some p) ->
                exists f, face_store h !! p = Some f /\
                  Z.land (Face.faceid f) MAXFACES = Z.of_nat (S off + i)) as Hs'.
      { intros n p Hn. destruct (Hs (S n) p Hn) as (f & Hf & Hb).
        exists f. split; [done|]. rewrite Hb. lia. }
      simpl. destruct (outbound_of_slot h from blockmask slot) as [id0|] eqn:Hout;
        [|by apply (IH (S off))].
      assert (forall n, omap (outbound_of_slot h from blockmask) a1 !! n = Some id ->
                id0 <> id) as Hfresh.
      { intros n Hn ->. apply list_elem_of_lookup_2 in Hn.
        apply list_elem_of_omap in Hn as (slot' & Hin & Hout').
        apply list_elem_of_lookup in Hin as [s Hs1].
        unfold outbound_of_slot in Hout, Hout'.
        destruct slot as [p|]; [|done]. destruct slot' as [p'|]; [|done].
        simpl in Hout, Hout'.
        destruct (bool_decide (p = from)); [done|].
        destruct (bool_decide (p' = from)); [done|].
        destruct (Hs 0%nat p eq_refl) as (f & Hf & Hb).
        destruct (Hs' s p' Hs1) as (f' & Hf' & Hb').
        rewrite Hf in Hout. rewrite Hf' in Hout'. simpl in Hout, Hout'.
        destruct (Z.land (Face.flags f) blockmask =? 0); [|done].
        destruct (Z.land (Face.flags f') blockmask =? 0); [|done].
        injection Hout as Hid. injection Hout' as Hid'.
        rewrite Hid in Hb. rewrite Hid' in Hb'. lia. }
      destruct i as [|i], j as [|j]; simpl; intros Hi Hj.
      - done.
      - injection Hi as ->. by destruct (Hfresh j Hj).
      - injection Hj as ->. by destruct (Hfresh i Hi).
      - f_equal. by apply (IH (S off)). }
    apply (Hgen a 0%nat). intros n p Hn. by apply Hslots.
  - intros id. rewrite list_elem_of_omap. split.
    + intros (slot & Hin & Hout). apply list_elem_of_lookup in Hin as [i Hi].
      unfold outbound_of_slot in Hout. destruct slot as [p|]; [|done]. simpl in Hout.
      destruct (bool_decide (p = from)) eqn:Hfrom; [done|].
      apply bool_decide_eq_false in Hfrom.
      destruct (face_store h !! p) as [f|] eqn:Hf; [|done]. simpl in Hout.
      destruct (Z.land (Face.flags f) blockmask =? 0) eqn:Hmask; [|done].
      injection Hout as <-. exists i, p, f. split_and!; try done.
      intros Hone. subst blockmask. rewrite Hone in Hmask. simpl in Hmask. lia.
    + intros (i & p & f & Hi & Hf & Hid & Hfrom & Hlink).
      exists (Some p). split; [by eapply list_elem_of_lookup_2|].
      unfold outbound_of_slot. simpl. rewrite bool_decide_eq_false_2 by done.
      rewrite Hf. simpl.
      assert ((Z.land (Face.flags f) blockmask =? 0) = true) as ->; [|by rewrite Hid].
      subst blockmask. destruct (pi_scope pi =? 1) eqn:Hone.
      * apply Z.eqb_eq. apply Hlink. lia.
      * by rewrite Z.land_0_r.
Qed.

Section OutboundRun.

#[local] Existing Instance sample_private.

Lemma three_faces_reachable :
  rtc (face_step) (ccnd_create 0) three_faces.
Proof.
  unfold three_faces.
  eapply rtc_r; [|apply face_step_flags].
  do 3 (eapply rtc_r; [|apply face_step_accept; vm_compute; reflexivity]).
  apply rtc_refl.
Qed.

Lemma three_faces_ok : face_table_ok three_faces.
Proof.
  apply (face_table_reachable_ok 11) with (ccnd_create 0).
  - lia.
  - reflexivity.
  - repeat split; reflexivity.
  - apply three_faces_reachable.
Qed.

Example get_outbound_faces_scope_one :
  get_outbound_faces three_faces 101 scope_one = Some [2].
Proof. vm_compute. reflexivity. Qed.

Lemma get_outbound_faces_spec_witness :
  4 <= 11 <= 31 /\
  MAXFACES = 2 ^ 11 - 1 /\
  face_table_ok three_faces /\
  exists x,
    get_outbound_faces three_faces 101 scope_one = Some x /\
    (pi_scope scope_one = 0 -> x = []) /\
    (pi_scope scope_one <> 0 ->
       NoDup x /\
       forall id, id ∈ x <->
         exists (i : nat) face f,
           faces_by_faceid three_faces !! i = Some (Some face) /\
           face_store three_faces !! face = Some f /\ Face.faceid f = id /\
           face <> 101%nat /\
           (pi_scope scope_one = 1 ->
            Z.land (Face.flags f) (CCN_FACE_LINK) = 0)).
Proof.
  assert (4 <= 11 <= 31) as Hk by lia.
  assert (MAXFACES = 2 ^ 11 - 1) as HM
    by reflexivity.
  split; [exact Hk|]. split; [exact HM|]. split; [exact three_faces_ok|].
  exact (get_outbound_faces_spec 11 three_faces 101
           scope_one Hk HM three_faces_ok).
Defined.

End OutboundRun.

(** ** The delay before content is sent to a face *)

Section ContentDelay.

Context `{P : ccnd_private} `{L : ccn_library}.

End ContentDelay.

(** C7, as amended.  With [nrand48] drawing from [0, 2^31):
    [choose_content_delay] returns 1 when the face id does not resolve; 100
    for every datagram face, link-framed or not; for a link-framed face that
    is not a datagram face, [(r mod CCN_DATA_PAUSE + CCN_DATA_PAUSE/2)]
    shifted left by 2 when the content is flagged slow-send, [r] being the
    number drawn, so that before the shift each value of
    [[CCN_DATA_PAUSE/2, CCN_DATA_PAUSE*3/2)] is produced by exactly one
    residue of [r]; and 10 for a face with neither flag.  Only the last but
    one case touches the state, by advancing the seed. *)
Theorem choose_content_delay_cases `{P : ccnd_private} `{L : ccn_library}
    (h : ccnd) (faceid content_flags : Z) :
  (forall s, 0 <= (nrand48 s).1 < 2 ^ 31) ->
  let res := choose_content_delay h faceid content_flags in
  match resolved_face h faceid with
  | None => res = (h, 1)
  | Some f =>
      if negb (Z.land (Face.flags f) CCN_FACE_DGRAM =? 0) then res = (h, 100)
      else if negb (Z.land (Face.flags f) CCN_FACE_LINK =? 0) then
        let r := (nrand48 (seed h)).1 in
        let shift := slow_send_shift content_flags in
        res = (set_seed (nrand48 (seed h)).2 h,
               (r mod CCN_DATA_PAUSE + CCN_DATA_PAUSE / 2) * 2 ^ shift) /\
        CCN_DATA_PAUSE / 2 * 2 ^ shift <= res.2 < CCN_DATA_PAUSE * 3 / 2 * 2 ^ shift /\
        (forall v, CCN_DATA_PAUSE / 2 <= v < CCN_DATA_PAUSE * 3 / 2 ->
                   (res.2 = v * 2 ^ shift <-> r mod CCN_DATA_PAUSE = v - CCN_DATA_PAUSE / 2))
      else res = (h, 10)
  end.
Proof.
  intros Hrand res. subst res. unfold choose_content_delay, resolved_face.
  destruct (face_from_faceid h faceid ≫= _) as [f|]; [|done].
  destruct (negb (Z.land (Face.flags f) CCN_FACE_DGRAM =? 0)); [done|].
  destruct (negb (Z.land (Face.flags f) CCN_FACE_LINK =? 0)); [|done].
  specialize (Hrand (seed h)). destruct (nrand48 (seed h)) as [r seed'].
  simpl in *. unfold slow_send_shift, CCN_DATA_PAUSE.
  rewrite Z.rem_mod_nonneg by lia.
  pose proof (Z.mod_pos_bound r (16 * 1024) ltac:(lia)) as Hm.
  change (16 * 1024 / 2) with 8192. change (16 * 1024 * 3 / 2) with 24576.
  destruct (Z.land content_flags CCN_CONTENT_ENTRY_SLOWSEND =? 0); simpl negb; cbv iota.
  - rewrite Z.shiftl_0_r. change (2 ^ 0) with 1.
    split; [f_equal; lia|]. simpl. split; [lia|]. intros v Hv. lia.
  - rewrite Z.shiftl_mul_pow2 by lia. change (2 ^ 2) with 4.
    split; [done|]. simpl. split; [lia|]. intros v Hv. lia.
Qed.

Section ContentDelayRun.

#[local] Existing Instance sample_private.

#[local] Existing Instance sample_library.

Lemma posix_nrand48_range s : 0 <= (posix_nrand48 s).1 < 2 ^ 31.
Proof.
  unfold posix_nrand48. simpl.
  pose proof (Z.mod_pos_bound (25214903917 * s + 11) (2 ^ 48) ltac:(lia)) as Hm.
  rewrite Z.shiftr_div_pow2 by lia. split.
  - apply Z.div_pos; lia.
  - apply Z.div_lt_upper_bound; lia.
Qed.

(** C7 as stated fails: the datagram test comes first, so a link-framed
    datagram face gets 100 microseconds, which is outside
    [[CCN_DATA_PAUSE/2, CCN_DATA_PAUSE*3/2)]. *)
Lemma choose_content_delay_link_framed_counterexample :
  (exists f, resolved_face dgram_link_face 2 = Some f /\
             Z.land (Face.flags f) CCN_FACE_LINK <> 0) /\
  (choose_content_delay dgram_link_face 2 0).2 = 100 /\
  ~ (CCN_DATA_PAUSE / 2 <= (choose_content_delay dgram_link_face 2 0).2
     < CCN_DATA_PAUSE * 3 / 2).
Proof.
  split; [|split].
  - eexists. split; [vm_compute; reflexivity|]. vm_compute. discriminate.
  - vm_compute. reflexivity.
  - vm_compute. intros [H _]. by apply H.
Qed.

Lemma choose_content_delay_cases_witness :
  (forall s, 0 <= (nrand48 s).1 < 2 ^ 31) /\
  (let res := choose_content_delay three_faces 1 1 in
   let r := (nrand48 (seed three_faces)).1 in
   let shift := slow_send_shift 1 in
   res = (set_seed (nrand48 (seed three_faces)).2 three_faces,
          (r mod CCN_DATA_PAUSE + CCN_DATA_PAUSE / 2) * 2 ^ shift) /\
   CCN_DATA_PAUSE / 2 * 2 ^ shift <= res.2 < CCN_DATA_PAUSE * 3 / 2 * 2 ^ shift /\
   (forall v, CCN_DATA_PAUSE / 2 <= v < CCN_DATA_PAUSE * 3 / 2 ->
              (res.2 = v * 2 ^ shift <-> r mod CCN_DATA_PAUSE = v - CCN_DATA_PAUSE / 2))).
Proof.
  split; [exact posix_nrand48_range|].
  exact (choose_content_delay_cases three_faces 1 1 posix_nrand48_range).
Defined.

End ContentDelayRun.

(** ** Prefix match of a stored name against an interest *)

Lemma offsets_sorted_lookup lo offs (i j : nat) a b :
  offsets_sorted lo offs = true ->
  offs !! i = Some a -> offs !! j = Some b -> (i <= j)%nat ->
  lo <= a /\ a <= b.
Proof.
  revert lo i j a b. induction offs as [|o offs IH]; intros lo i j a b; [done|].
  simpl. intros [Hlo Hs]%andb_prop Hi Hj Hij.
  destruct i as [|i]; simpl in Hi.
  - injection Hi as ->. destruct j as [|j]; simpl in Hj.
    + injection Hj as ->. lia.
    + destruct (IH a j j b b Hs Hj Hj) as [? _]; lia.
  - destruct j as [|j]; [lia|]. simpl in Hj.
    destruct (IH o i j a b Hs Hi Hj) as [? ?]; lia.
Qed.

Lemma offsets_ok_lookup buf offs (i j : Z) a b :
  offsets_ok buf offs = true ->
  zlookup offs i = Some a -> zlookup offs j = Some b -> i <= j ->
  0 <= a /\ a <= b /\ b <= zlength buf /\ zlength buf < 2 ^ 64.
Proof.
  unfold offsets_ok, zlookup.
  intros [[Hs Hb]%andb_prop Hlen]%andb_prop.
  destruct (i <? 0) eqn:Hi0; [done|]. destruct (j <? 0) eqn:Hj0; [done|].
  intros Hi Hj Hij.
  destruct (offsets_sorted_lookup 0 offs (Z.to_nat i) (Z.to_nat j) a b) as [? ?];
    [done..|lia|].
  rewrite forallb_forall in Hb.
  assert (b <= zlength buf).
  { apply list_elem_of_lookup_2, list_elem_of_In in Hj. apply Hb in Hj. lia. }
  lia.
Qed.

Lemma zlookup_is_Some {A} (l : list A) i :
  0 <= i < zlength l -> is_Some (zlookup l i).
Proof.
  intros Hi. unfold zlookup, zlength in *.
  assert ((i <? 0) = false) as -> by lia.
  apply lookup_lt_is_Some. lia.
Qed.

Lemma zlookup_of_nat {A} (l : list A) (j : nat) : zlookup l (Z.of_nat j) = l !! j.
Proof.
  unfold zlookup. rewrite (proj2 (Z.ltb_ge _ _)) by lia.
  by rewrite Nat2Z.id.
Qed.


Lemma u64_small x : 0 <= x < 2 ^ 64 -> u64 x = x.
Proof. intros. unfold u64. by apply Z.mod_small. Qed.

Lemma bytes_at_length buf o n :
  0 <= o -> 0 <= n -> o + n <= zlength buf -> zlength (bytes_at buf o n) = n.
Proof.
  intros. unfold bytes_at, zlength in *. rewrite length_take, length_drop. lia.
Qed.

Lemma bytes_at_sub buf o len d n :
  0 <= o -> 0 <= d -> 0 <= n -> d + n <= len ->
  bytes_at (bytes_at buf o len) d n = bytes_at buf (o + d) n.
Proof.
  intros. unfold bytes_at.
  rewrite Z2Nat.inj_add by lia. rewrite <- drop_drop.
  set (x := drop (Z.to_nat o) buf).
  rewrite (take_drop_commute (take (Z.to_nat len) x)), (take_drop_commute x), take_take.
  do 2 f_equal. lia.
Qed.

Lemma bytes_at_inside buf o len d o' n :
  0 <= o -> 0 <= d -> 0 <= n -> d + n <= len -> o' = o + d ->
  bytes_at buf o' n = bytes_at (bytes_at buf o len) d n.
Proof. intros ? ? ? ? ->. by rewrite bytes_at_sub. Qed.

Lemma bytes_at_app buf o n m :
  0 <= o -> 0 <= n -> 0 <= m ->
  bytes_at buf o (n + m) = bytes_at buf o n ++ bytes_at buf (o + n) m.
Proof.
  intros. unfold bytes_at.
  rewrite !Z2Nat.inj_add by lia. by rewrite <- drop_drop, take_take_drop.
Qed.

(** Two names with the same span of bytes, both cut by the decoder, are cut
    at the same places. *)
Lemma decoded_offsets_agree element_length ibuf ioffs cbuf coffs (p : nat)
    i0 c0 ip cp :
  element_length_local element_length ->
  offsets_ok ibuf ioffs = true -> offsets_ok cbuf coffs = true ->
  offsets_decoded element_length ibuf ioffs ->
  offsets_decoded element_length cbuf coffs ->
  ioffs !! 0%nat = Some i0 -> coffs !! 0%nat = Some c0 ->
  ioffs !! p = Some ip -> coffs !! p = Some cp ->
  bytes_at ibuf i0 (ip - i0) = bytes_at cbuf c0 (cp - c0) ->
  forall j : nat, (j <= p)%nat ->
    exists ij cj, ioffs !! j = Some ij /\ coffs !! j = Some cj /\ ij - i0 = cj - c0.
Proof.
  intros Hloc Hi Hc Hdi Hdc Hi0 Hc0 Hip Hcp Hspan.
  assert (forall buf offs (a b : nat) x y, offsets_ok buf offs = true ->
            offs !! a = Some x -> offs !! b = Some y -> (a <= b)%nat ->
            0 <= x /\ x <= y /\ y <= zlength buf) as Hord.
  { intros buf offs a b x y Hok Ha Hb Hab.
    destruct (offsets_ok_lookup buf offs (Z.of_nat a) (Z.of_nat b) x y) as (? & ? & ? & _);
      [done|by rewrite zlookup_of_nat|by rewrite zlookup_of_nat|lia|done]. }
  destruct (Hord _ _ 0%nat p _ _ Hi Hi0 Hip) as (? & ? & ?); [lia|].
  destruct (Hord _ _ 0%nat p _ _ Hc Hc0 Hcp) as (? & ? & ?); [lia|].
  assert (ip - i0 = cp - c0) as Hlen.
  { apply (f_equal zlength) in Hspan. rewrite !bytes_at_length in Hspan by lia. done. }
  induction j as [|j IH]; intros Hj.
  { exists i0, c0. split_and!; try done. lia. }
  destruct IH as (ij & cj & Hij & Hcj & Hrel); [lia|].
  destruct (lookup_lt_is_Some_2 ioffs (S j)) as [ij' Hij'].
  { apply lookup_lt_Some in Hip. lia. }
  destruct (lookup_lt_is_Some_2 coffs (S j)) as [cj' Hcj'].
  { apply lookup_lt_Some in Hcp. lia. }
  exists ij', cj'. split_and!; try done.
  destruct (Hord _ _ 0%nat j _ _ Hi Hi0 Hij) as (? & ? & ?); [lia|].
  destruct (Hord _ _ j (S j) _ _ Hi Hij Hij') as (? & ? & ?); [lia|].
  destruct (Hord _ _ (S j) p _ _ Hi Hij' Hip) as (? & ? & ?); [lia|].
  destruct (Hord _ _ 0%nat j _ _ Hc Hc0 Hcj) as (? & ? & ?); [lia|].
  destruct (Hord _ _ j (S j) _ _ Hc Hcj Hcj') as (? & ? & ?); [lia|].
  pose proof (Hdi j ij ij' Hij Hij') as Hei.
  pose proof (Hdc j cj cj' Hcj Hcj') as Hec.
  assert (element_length (drop (Z.to_nat cj) cbuf) = Some (ij' - ij)) as Hec'.
  { apply (Hloc _ _ _ Hei).
    change (bytes_at cbuf cj (ij' - ij) = bytes_at ibuf ij (ij' - ij)).
    rewrite (bytes_at_inside cbuf c0 (cp - c0) (ij - i0) cj) by lia.
    rewrite (bytes_at_inside ibuf i0 (ip - i0) (ij - i0) ij) by lia.
    by rewrite Hspan. }
  rewrite Hec in Hec'. injection Hec' as Hec'. lia.
Qed.

(** With offsets from the decoder, equal spans are equal component by
    component. *)
Lemma name_span_components element_length ibuf ioffs cbuf coffs (p : Z) span :
  element_length_local element_length ->
  offsets_ok ibuf ioffs = true -> offsets_ok cbuf coffs = true ->
  offsets_decoded element_length ibuf ioffs ->
  offsets_decoded element_length cbuf coffs ->
  name_span ibuf ioffs p = Some span -> name_span cbuf coffs p = Some span ->
  forall j, 0 <= j < p ->
    exists seg, component_bytes ibuf ioffs j = Some seg /\
                component_bytes cbuf coffs j = Some seg.
Proof.
  intros Hloc Hi Hc Hdi Hdc Hsi Hsc j Hj. unfold name_span in *.
  destruct (zlookup ioffs 0) as [i0|] eqn:Hi0; [|done].
  destruct (zlookup ioffs p) as [ip|] eqn:Hip; [|done].
  destruct (zlookup coffs 0) as [c0|] eqn:Hc0; [|done].
  destruct (zlookup coffs p) as [cp|] eqn:Hcp; [|done].
  simpl in Hsi, Hsc. injection Hsi as Hsi. injection Hsc as Hsc.
  replace p with (Z.of_nat (Z.to_nat p)) in Hip, Hcp by lia.
  rewrite zlookup_of_nat in Hip, Hcp.
  change 0 with (Z.of_nat 0) in Hi0, Hc0. rewrite zlookup_of_nat in Hi0, Hc0.
  assert (bytes_at ibuf i0 (ip - i0) = bytes_at cbuf c0 (cp - c0)) as Hspan by congruence.
  pose proof (decoded_offsets_agree element_length ibuf ioffs cbuf coffs (Z.to_nat p)
                i0 c0 ip cp Hloc Hi Hc Hdi Hdc Hi0 Hc0 Hip Hcp Hspan) as Hagree.
  destruct (Hagree (Z.to_nat j)) as (ij & cj & Hij & Hcj & Hrel); [lia|].
  destruct (Hagree (S (Z.to_nat j))) as (ij' & cj' & Hij' & Hcj' & Hrel'); [lia|].
  assert (forall buf offs (a b : nat) x y, offsets_ok buf offs = true ->
            offs !! a = Some x -> offs !! b = Some y -> (a <= b)%nat ->
            0 <= x /\ x <= y /\ y <= zlength buf) as Hord.
  { intros buf offs a b x y Hok Ha Hb Hab.
    destruct (offsets_ok_lookup buf offs (Z.of_nat a) (Z.of_nat b) x y) as (? & ? & ? & _);
      [done|by rewrite zlookup_of_nat|by rewrite zlookup_of_nat|lia|done]. }
  destruct (Hord _ _ 0%nat (Z.to_nat j) _ _ Hi Hi0 Hij) as (? & ? & ?); [lia|].
  destruct (Hord _ _ (Z.to_nat j) (S (Z.to_nat j)) _ _ Hi Hij Hij') as (? & ? & ?); [lia|].
  destruct (Hord _ _ (S (Z.to_nat j)) (Z.to_nat p) _ _ Hi Hij' Hip) as (? & ? & ?); [lia|].
  destruct (Hord _ _ 0%nat (Z.to_nat j) _ _ Hc Hc0 Hcj) as (? & ? & ?); [lia|].
  destruct (Hord _ _ 0%nat (Z.to_nat p) _ _ Hc Hc0 Hcp) as (? & ? & ?); [lia|].
  assert (ip - i0 = cp - c0) as Hlen.
  { apply (f_equal zlength) in Hspan. rewrite !bytes_at_length in Hspan by lia. done. }
  unfold component_bytes.
  replace j with (Z.of_nat (Z.to_nat j)) by lia.
  replace (Z.of_nat (Z.to_nat j) + 1) with (Z.of_nat (S (Z.to_nat j))) by lia.
  rewrite !zlookup_of_nat, Hij, Hij', Hcj, Hcj'. simpl.
  eexists. split; [done|]. f_equal.
  replace (cj' - cj) with (ij' - ij) by lia.
  rewrite (bytes_at_inside cbuf c0 (cp - c0) (ij - i0) cj) by lia.
  rewrite (bytes_at_inside ibuf i0 (ip - i0) (ij - i0) ij) by lia.
  by rewrite Hspan.
Qed.

(** Names that are equal component by component have equal spans. *)
Lemma components_name_span ibuf ioffs cbuf coffs (p : nat) :
  offsets_ok ibuf ioffs = true -> offsets_ok cbuf coffs = true ->
  is_Some (ioffs !! p) -> is_Some (coffs !! p) ->
  (forall j, 0 <= j < Z.of_nat p ->
     exists seg, component_bytes ibuf ioffs j = Some seg /\
                 component_bytes cbuf coffs j = Some seg) ->
  exists span, name_span ibuf ioffs (Z.of_nat p) = Some span /\
               name_span cbuf coffs (Z.of_nat p) = Some span.
Proof.
  intros Hi Hc.
  assert (forall buf offs (a b : nat) x y, offsets_ok buf offs = true ->
            offs !! a = Some x -> offs !! b = Some y -> (a <= b)%nat ->
            0 <= x /\ x <= y /\ y <= zlength buf) as Hord.
  { intros buf offs a b x y Hok Ha Hb Hab.
    destruct (offsets_ok_lookup buf offs (Z.of_nat a) (Z.of_nat b) x y) as (? & ? & ? & _);
      [done|by rewrite zlookup_of_nat|by rewrite zlookup_of_nat|lia|done]. }
  induction p as [|p IH]; intros [ip Hip] [cp Hcp] Hcomps.
  - unfold name_span. change (Z.of_nat 0) with 0.
    change 0 with (Z.of_nat 0). rewrite !zlookup_of_nat, Hip, Hcp. simpl.
    rewrite !Z.sub_diag. by exists [].
  - destruct (lookup_lt_is_Some_2 ioffs p) as [iq Hiq].
    { apply lookup_lt_Some in Hip. lia. }
    destruct (lookup_lt_is_Some_2 coffs p) as [cq Hcq].
    { apply lookup_lt_Some in Hcp. lia. }
    destruct IH as (span & Hsi & Hsc); [by eexists|by eexists| |].
    { intros j Hj. apply Hcomps. lia. }
    destruct (Hcomps (Z.of_nat p)) as (seg & Hgi & Hgc); [lia|].
    unfold component_bytes in Hgi, Hgc.
    replace (Z.of_nat p + 1) with (Z.of_nat (S p)) in Hgi, Hgc by lia.
    rewrite !zlookup_of_nat in Hgi, Hgc.
    rewrite Hiq, Hip in Hgi. rewrite Hcq, Hcp in Hgc. simpl in Hgi, Hgc.
    injection Hgi as Hgi. injection Hgc as Hgc.
    unfold name_span in *. rewrite !zlookup_of_nat in *.
    rewrite Hiq in Hsi. rewrite Hcq in Hsc. rewrite Hip. rewrite Hcp.
    change 0 with (Z.of_nat 0) in *. rewrite !zlookup_of_nat in *.
    destruct (ioffs !! 0%nat) as [i0|] eqn:Hi0; [|done].
    destruct (coffs !! 0%nat) as [c0|] eqn:Hc0; [|done].
    simpl in *. injection Hsi as Hsi. injection Hsc as Hsc.
    destruct (Hord _ _ 0%nat p _ _ Hi Hi0 Hiq) as (? & ? & ?); [lia|].
    destruct (Hord _ _ p (S p) _ _ Hi Hiq Hip) as (? & ? & ?); [lia|].
    destruct (Hord _ _ 0%nat p _ _ Hc Hc0 Hcq) as (? & ? & ?); [lia|].
    destruct (Hord _ _ p (S p) _ _ Hc Hcq Hcp) as (? & ? & ?); [lia|].
    exists (span ++ seg).
    replace (ip - i0) with ((iq - i0) + (ip - iq)) by lia.
    replace (cp - c0) with ((cq - c0) + (cp - cq)) by lia.
    rewrite !bytes_at_app by lia.
    replace (i0 + (iq - i0)) with iq by lia.
    replace (c0 + (cq - c0)) with cq by lia.
    by rewrite Hsi, Hsc, Hgi, Hgc.
Qed.

(** The prefix match in terms of spans of bytes. *)
Lemma content_matches_interest_prefix_span (content : Content.t)
    (interest_msg : list byte) (comps : list Z) (p : Z) :
  0 <= p < zlength comps ->
  offsets_ok interest_msg comps = true ->
  offsets_ok (Content.key content) (Content.comps content) = true ->
  Content.ncomps content = zlength (Content.comps content) ->
  exists b,
    content_matches_interest_prefix content interest_msg comps p = Some b /\
    (b = true <->
     exists p' span,
       (p + 1 <= Content.ncomps content /\ p' = p \/
        Content.ncomps content = p /\ 0 < p /\
        component_length comps (p - 1) = Some (1 + 2 + 32 + 1) /\ p' = p - 1) /\
       name_span interest_msg comps p' = Some span /\
       name_span (Content.key content) (Content.comps content) p' = Some span).
Proof.
  intros Hp Hi Hc Hn. unfold content_matches_interest_prefix.
  assert (((p <? 0) || (zlength comps <=? p)) = false) as -> by lia.
  destruct (zlookup_is_Some comps p) as [i_p Hi_p]; [lia|].
  destruct (zlookup_is_Some comps 0) as [i_0 Hi_0]; [lia|].
  (* the last part of the function, once the prefix count q is settled *)
  assert (forall q, 0 <= q <= p -> q < Content.ncomps content ->
            exists b,
              (i_end ← zlookup comps q;
               i_0 ← zlookup comps 0;
               c_end ← zlookup (Content.comps content) q;
               c_0 ← zlookup (Content.comps content) 0;
               let prefixlen := u64 (i_end - i_0) in
               if negb (u64 (c_end - c_0) =? prefixlen) then Some false
               else if (c_0 + prefixlen <=? zlength (Content.key content)) &&
                       (i_0 + prefixlen <=? zlength interest_msg) &&
                       (0 <=? c_0) && (0 <=? i_0)
               then Some (bool_decide (bytes_at (Content.key content) c_0 prefixlen
                                       = bytes_at interest_msg i_0 prefixlen))
               else None) = Some b /\
              (b = true <-> exists span,
                 name_span interest_msg comps q = Some span /\
                 name_span (Content.key content) (Content.comps content) q = Some span))
    as Htail.
  { intros q Hq Hqn.
    destruct (zlookup_is_Some comps q) as [i_q Hi_q]; [lia|].
    destruct (zlookup_is_Some (Content.comps content) q) as [c_q Hc_q]; [lia|].
    destruct (zlookup_is_Some (Content.comps content) 0) as [c_0 Hc_0]; [lia|].
    rewrite Hi_q, Hi_0, Hc_q, Hc_0. simpl.
    destruct (offsets_ok_lookup _ _ 0 q _ _ Hi Hi_0 Hi_q) as (? & ? & ? & ?); [lia|].
    destruct (offsets_ok_lookup _ _ 0 q _ _ Hc Hc_0 Hc_q) as (? & ? & ? & ?); [lia|].
    rewrite !u64_small by lia.
    unfold name_span. rewrite Hi_q, Hi_0, Hc_q, Hc_0. simpl.
    destruct (c_q - c_0 =? i_q - i_0) eqn:Hlen; simpl.
    - assert (((c_0 + (i_q - i_0) <=? zlength (Content.key content)) &&
               (i_0 + (i_q - i_0) <=? zlength interest_msg) &&
               (0 <=? c_0) && (0 <=? i_0)) = true) as ->.
      { repeat (apply andb_true_intro; split); lia. }
      eexists. split; [done|]. rewrite bool_decide_eq_true.
      assert (c_q - c_0 = i_q - i_0) as -> by lia.
      split; [intros ->; eauto|]. intros (span & [= <-] & [= Heq]). done.
    - exists false. split; [done|]. split; [done|].
      intros (span & [= <-] & [= Heq]).
      (* equal spans have equal lengths *)
      apply (f_equal length) in Heq. unfold bytes_at in Heq.
      rewrite !length_take, !length_drop in Heq. unfold zlength in *. lia. }
  destruct (Content.ncomps content <? p + 1) eqn:Hlt.
  - destruct ((Content.ncomps content =? p) && (0 <? p)) eqn:Hstrip.
    + apply andb_prop in Hstrip as [Heq Hpos].
      destruct (zlookup_is_Some comps (p - 1)) as [i_l Hi_l]; [lia|].
      rewrite Hi_p, Hi_l. simpl.
      destruct (offsets_ok_lookup _ _ (p - 1) p _ _ Hi Hi_l Hi_p) as (? & ? & ? & ?);
        [lia|].
      rewrite u64_small by lia.
      assert (component_length comps (p - 1) = Some (i_p - i_l)) as Hcl.
      { unfold component_length. replace (p - 1 + 1) with p by lia.
        by rewrite Hi_p, Hi_l. }
      destruct (i_p - i_l =? 1 + 2 + 32 + 1) eqn:Hdig; simpl.
      * destruct (Htail (p - 1)) as (b & Hb & Hiff); [lia|lia|].
        exists b. split; [done|]. rewrite Hiff. split.
        -- intros (span & Hsi & Hsc). exists (p - 1), span. split; [|done].
           right. split_and!; try lia. rewrite Hcl. f_equal. lia.
        -- intros (p' & span & [[? ->]|(_ & _ & _ & ->)] & Hsi & Hsc); [lia|eauto].
      * exists false. split; [done|]. split; [done|].
        intros (p' & span & [[? ->]|(_ & _ & Hcl' & ->)] & _); [lia|].
        rewrite Hcl in Hcl'. injection Hcl' as Hcl'. lia.
    + simpl. exists false. split; [done|]. split; [done|].
      intros (p' & span & [[? ->]|(? & ? & _ & ->)] & _); lia.
  - simpl. destruct (Htail p) as (b & Hb & Hiff); [lia|lia|].
    exists b. split; [done|]. rewrite Hiff. split.
    + intros (span & Hsi & Hsc). exists p, span. split; [|done]. left. lia.
    + intros (p' & span & [[? ->]|(? & _ & _ & ->)] & Hsi & Hsc); [eauto|lia].
Qed.

(** C5. For a prefix count [p] in range, offsets as a parser records them
    and a stored entry whose [ncomps] is the number of its offsets:
    [content_matches_interest_prefix] returns true exactly when either
    [ncomps >= p + 1], or [ncomps = p], [p > 0] and the last prefix
    component is [1 + 2 + 32 + 1] bytes long, in which case it is stripped;
    and the bytes of the first [p] components (after stripping) of the
    interest name are those of the first components of the content name.
    The function compares the two spans of bytes as a whole; where the
    offsets of both names come from one decoder, this is the same as the
    components being equal one by one. *)
Theorem content_matches_interest_prefix_iff (content : Content.t)
    (interest_msg : list byte) (comps : list Z) (p : Z) :
  0 <= p < zlength comps ->
  offsets_ok interest_msg comps = true ->
  offsets_ok (Content.key content) (Content.comps content) = true ->
  Content.ncomps content = zlength (Content.comps content) ->
  exists b,
    content_matches_interest_prefix content interest_msg comps p = Some b /\
    (b = true <->
     exists p' span,
       (p + 1 <= Content.ncomps content /\ p' = p \/
        Content.ncomps content = p /\ 0 < p /\
        component_length comps (p - 1) = Some (1 + 2 + 32 + 1) /\ p' = p - 1) /\
       name_span interest_msg comps p' = Some span /\
       name_span (Content.key content) (Content.comps content) p' = Some span) /\
    (forall element_length,
       element_length_local element_length ->
       offsets_decoded element_length interest_msg comps ->
       offsets_decoded element_length (Content.key content) (Content.comps content) ->
       (b = true <->
        exists p',
          (p + 1 <= Content.ncomps content /\ p' = p \/
           Content.ncomps content = p /\ 0 < p /\
           component_length comps (p - 1) = Some (1 + 2 + 32 + 1) /\ p' = p - 1) /\
          forall j, 0 <= j < p' ->
            exists seg,
              component_bytes interest_msg comps j = Some seg /\
              component_bytes (Content.key content) (Content.comps content) j
              = Some seg)).
Proof.
  intros Hp Hi Hc Hn.
  destruct (content_matches_interest_prefix_span content interest_msg comps p Hp Hi Hc Hn)
    as (b & Hb & Hiff).
  exists b. split; [done|]. split; [done|].
  intros element_length Hloc Hdi Hdc. rewrite Hiff. split.
  - intros (p' & span & Hcase & Hsi & Hsc). exists p'. split; [done|].
    by apply (name_span_components element_length _ _ _ _ p' span).
  - intros (p' & Hcase & Hcomps).
    assert (0 <= p' < zlength comps /\ p' < zlength (Content.comps content)) as [Hp1 Hp2]
      by (destruct Hcase as [[? ->]|(? & ? & _ & ->)]; lia).
    destruct (components_name_span interest_msg comps (Content.key content)
                (Content.comps content) (Z.to_nat p') Hi Hc) as (span & Hsi & Hsc).
    + apply lookup_lt_is_Some_2. unfold zlength in *. lia.
    + apply lookup_lt_is_Some_2. unfold zlength in *. lia.
    + intros j Hj. apply Hcomps. lia.
    + rewrite Z2Nat.id in Hsi, Hsc by lia. by exists p', span.
Qed.

Example sample_offsets_decoded :
  element_length_local sample_element_length /\
  offsets_decoded sample_element_length interest_xy1_digest [0; 2; 4; 6; 42] /\
  offsets_decoded sample_element_length (Content.key stored_xy1) (Content.comps stored_xy1).
Proof.
  split_and!.
  - intros [|x a] b n Ha Ht; [done|]. simpl in Ha.
    destruct b as [|y b].
    + destruct (bool_decide (x = xaa)); injection Ha as <-; simpl in Ht; discriminate.
    + destruct (bool_decide (x = xaa)) eqn:Hx; injection Ha as <-;
        simpl in Ht; injection Ht as -> _; simpl; by rewrite Hx.
  - intros j lo hi Hj Hj'.
    do 5 (destruct j as [|j]; [simpl in Hj, Hj'; simplify_eq; reflexivity|]).
    done.
  - intros j lo hi Hj Hj'.
    do 4 (destruct j as [|j]; [simpl in Hj, Hj'; simplify_eq; try reflexivity|]).
    done.
Qed.

(** The function looks at the span as a whole: with offsets that no
    decoder would give, names whose first components differ still match. *)
Example span_is_compared_as_a_whole :
  content_matches_interest_prefix (Content.set_comps [0; 1; 4; 6] stored_xy1)
    interest_xy1_digest [0; 2; 4; 6; 42] 2 = Some true /\
  component_bytes interest_xy1_digest [0; 2; 4; 6; 42] 0 = Some [x01; x02] /\
  component_bytes (Content.key stored_xy1) [0; 1; 4; 6] 0 = Some [x01].
Proof. split_and!; vm_compute; reflexivity. Qed.

Example digest_component_is_stripped :
  content_matches_interest_prefix stored_xy1 interest_xy1_digest [0; 2; 4; 6; 42] 4
  = Some true.
Proof. vm_compute. reflexivity. Qed.

Example strict_prefix_required :
  content_matches_interest_prefix stored_xy1 interest_xy1_digest [0; 2; 4; 6; 42] 3
  = Some true /\
  content_matches_interest_prefix stored_xy1
    [x01; x02; x03; x04; x05; x06; x08; x08] [0; 2; 4; 6; 8] 4
  = Some false.
Proof. split; vm_compute; reflexivity. Qed.

Lemma content_matches_interest_prefix_iff_witness :
  0 <= 4 < zlength [0; 2; 4; 6; 42] /\
  offsets_ok interest_xy1_digest [0; 2; 4; 6; 42] = true /\
  offsets_ok (Content.key stored_xy1) (Content.comps stored_xy1) = true /\
  Content.ncomps stored_xy1 = zlength (Content.comps stored_xy1) /\
  exists b,
    content_matches_interest_prefix stored_xy1 interest_xy1_digest [0; 2; 4; 6; 42] 4
    = Some b /\
    (b = true <->
     exists p' span,
       (4 + 1 <= Content.ncomps stored_xy1 /\ p' = 4 \/
        Content.ncomps stored_xy1 = 4 /\ 0 < 4 /\
        component_length [0; 2; 4; 6; 42] (4 - 1) = Some (1 + 2 + 32 + 1) /\
        p' = 4 - 1) /\
       name_span interest_xy1_digest [0; 2; 4; 6; 42] p' = Some span /\
       name_span (Content.key stored_xy1) (Content.comps stored_xy1) p' = Some span) /\
    (forall element_length,
       element_length_local element_length ->
       offsets_decoded element_length interest_xy1_digest [0; 2; 4; 6; 42] ->
       offsets_decoded element_length (Content.key stored_xy1) (Content.comps stored_xy1) ->
       (b = true <->
        exists p',
          (4 + 1 <= Content.ncomps stored_xy1 /\ p' = 4 \/
           Content.ncomps stored_xy1 = 4 /\ 0 < 4 /\
           component_length [0; 2; 4; 6; 42] (4 - 1) = Some (1 + 2 + 32 + 1) /\
           p' = 4 - 1) /\
          forall j, 0 <= j < p' ->
            exists seg,
              component_bytes interest_xy1_digest [0; 2; 4; 6; 42] j = Some seg /\
              component_bytes (Content.key stored_xy1) (Content.comps stored_xy1) j
              = Some seg)).
Proof.
  assert (0 <= 4 < zlength [0; 2; 4; 6; 42]) as H0 by (vm_compute; split; congruence).
  assert (offsets_ok interest_xy1_digest [0; 2; 4; 6; 42] = true) as Hi
    by (vm_compute; reflexivity).
  assert (offsets_ok (Content.key stored_xy1) (Content.comps stored_xy1) = true) as Hc
    by (vm_compute; reflexivity).
  assert (Content.ncomps stored_xy1 = zlength (Content.comps stored_xy1)) as Hn
    by reflexivity.
  split; [exact H0|]. split; [exact Hi|]. split; [exact Hc|]. split; [exact Hn|].
  exact (content_matches_interest_prefix_iff stored_xy1 interest_xy1_digest
           [0; 2; 4; 6; 42] 4 H0 Hi Hc Hn).
Defined.

(** ** Aging of the interest counters *)

Section Aging.

Context `{P : ccnd_private}.

Lemma aged_pairs_cons_nonzero f c l :
  c <> 0 -> aged_pairs ((f, c) :: l) = (f, aged_counter c) :: aged_pairs l.
Proof. intros Hc. unfold aged_pairs. rewrite filter_cons_True by done. done. Qed.

Lemma aged_pairs_cons_zero f l : aged_pairs ((f, 0) :: l) = aged_pairs l.
Proof. unfold aged_pairs. rewrite filter_cons_False; [done|]. simpl. lia. Qed.

Lemma aged_pairs_app l1 l2 : aged_pairs (l1 ++ l2) = aged_pairs l1 ++ aged_pairs l2.
Proof. unfold aged_pairs. by rewrite filter_app, fmap_app. Qed.

(** Removal by swap-with-last, on the pairs: the pair at [i] has counter 0,
    the last pair is written over it and the list loses its last place. *)
Lemma swap_with_last_pairs (l : list (Z * Z)) (i : nat) f y :
  l !! i = Some (f, 0) -> last l = Some y ->
  let l2 := take (length l - 1) (<[i := y]> l) in
  take i l2 = take i l /\ aged_pairs (drop i l2) ≡ₚ aged_pairs (drop i l).
Proof.
  intros Hi Hlast l2. subst l2.
  pose proof (lookup_lt_Some _ _ _ Hi) as Hlt.
  assert (exists A R, l = A ++ (f, 0) :: R /\ length A = i) as (A & R & -> & HlenA).
  { exists (take i l), (drop (S i) l). split.
    - symmetry. by apply take_drop_middle.
    - rewrite length_take. lia. }
  clear Hi Hlt.
  replace (<[i:=y]> (A ++ (f, 0) :: R)) with (A ++ y :: R).
  2:{ rewrite insert_app_r_alt by lia. rewrite HlenA, Nat.sub_diag. done. }
  rewrite length_app. simpl.
  destruct R as [|r R0 _] using rev_ind.
  - (* the pair removed was the last one *)
    simpl in *. replace (length A + 1 - 1)%nat with (length A + 0)%nat by lia.
    rewrite take_app_add. simpl. rewrite app_nil_r. split.
    + subst i. rewrite take_app_length. by rewrite take_ge by lia.
    + subst i. rewrite drop_ge by lia.
      rewrite drop_app_length. by rewrite aged_pairs_cons_zero.
  - rewrite last_app in Hlast. simpl in Hlast.
    rewrite last_cons, last_snoc in Hlast. injection Hlast as <-.
    rewrite length_app. simpl.
    replace (length A + S (length R0 + 1) - 1)%nat
      with (length A + S (length R0))%nat by lia.
    rewrite take_app_add. simpl. rewrite take_app_length. split.
    + subst i. rewrite !take_app_length. done.
    + subst i. rewrite !drop_app_length.
      rewrite aged_pairs_cons_zero, aged_pairs_app.
      change (r :: R0) with ([r] ++ R0). rewrite aged_pairs_app.
      apply Permutation_app_comm.
Qed.

Lemma counter_ok_spec c : counter_ok c = true <-> 0 <= c /\ c * 5 + 3 < 2 ^ 64.
Proof. unfold counter_ok. rewrite andb_true_iff. lia. Qed.

Lemma aged_counter_ok c :
  0 < CCN_UNIT_INTEREST -> counter_ok c = true -> c <> 0 ->
  counter_ok (aged_counter c) = true /\ 0 <= aged_counter c <= c.
Proof.
  rewrite !counter_ok_spec. unfold aged_counter. intros HU [H0 H1] Hc.
  destruct (CCN_UNIT_INTEREST <? c) eqn:E.
  - assert (0 <= (c * 5 + 3) / 6 <= c).
    { split; [apply Z.div_pos; lia|].
      assert ((c * 5 + 3) / 6 < c + 1) by (apply Z.div_lt_upper_bound; lia). lia. }
    lia.
  - lia.
Qed.

Lemma forallb_insert {A} (p : A -> bool) (l : list A) (i : nat) x :
  forallb p l = true -> p x = true -> forallb p (<[i := x]> l) = true.
Proof.
  rewrite !forallb_forall. intros Hl Hx y Hy.
  apply list_elem_of_In, list_elem_of_lookup in Hy as [j Hj].
  apply list_lookup_insert_Some in Hj as [(-> & <- & _)|(_ & Hj)]; [done|].
  apply Hl, list_elem_of_In. by eapply list_elem_of_lookup_2.
Qed.

Lemma forallb_take {A} (p : A -> bool) (l : list A) (n : nat) :
  forallb p l = true -> forallb p (take n l) = true.
Proof.
  rewrite !forallb_forall. intros Hl y Hy. apply Hl.
  apply list_elem_of_In. apply list_elem_of_In in Hy.
  by eapply subseteq_take.
Qed.

(** The loop over the counters of one entry: it ends, and leaves the pairs
    before [i] as they are and the aged pairs of the rest, in some order. *)
Lemma age_counters_spec (m i : nat) (fs cs : list Z) :
  0 < CCN_UNIT_INTEREST ->
  length fs = length cs -> (i + m = length cs)%nat ->
  forallb counter_ok cs = true ->
  exists fs' cs',
    age_counters m (Z.of_nat i) (Some fs) cs = Some (Some fs', cs') /\
    length fs' = length cs' /\ forallb counter_ok cs' = true /\
    zip fs' cs' ≡ₚ take i (zip fs cs) ++ aged_pairs (drop i (zip fs cs)).
Proof.
  intros HU. revert i fs cs.
  induction m as [|m IH]; intros i fs cs Hlen Him Hok.
  { exists fs, cs. split; [done|]. split; [done|]. split; [done|].
    rewrite drop_ge, take_ge by (rewrite length_zip_with; lia).
    by rewrite app_nil_r. }
  simpl.
  destruct (lookup_lt_is_Some_2 cs i) as [c Hc]; [lia|].
  destruct (lookup_lt_is_Some_2 fs i) as [f Hf]; [lia|].
  assert (zlookup cs (Z.of_nat i) = Some c) as ->.
  { unfold zlookup. assert ((Z.of_nat i <? 0) = false) as -> by lia.
    by rewrite Nat2Z.id. }
  simpl.
  assert (counter_ok c = true) as Hcok.
  { rewrite forallb_forall in Hok. apply Hok, list_elem_of_In.
    by eapply list_elem_of_lookup_2. }
  pose proof Hcok as [Hc0 Hc1]%counter_ok_spec.
  assert (zip fs cs !! i = Some (f, c)) as Hp.
  { rewrite lookup_zip_with, Hf, Hc. done. }
  assert (forall a, zip fs (<[i := a]> cs) = <[i := (f, a)]> (zip fs cs)) as Hzip.
  { intros a. rewrite <- (list_insert_id fs i f Hf) at 1.
    by rewrite insert_zip_with. }
  assert (forall a, counter_ok a = true -> c <> 0 -> a = aged_counter c ->
            exists fs' cs',
              age_counters m (Z.of_nat i + 1) (Some fs) (zupdate cs (Z.of_nat i) a)
              = Some (Some fs', cs') /\
              length fs' = length cs' /\ forallb counter_ok cs' = true /\
              zip fs' cs' ≡ₚ take i (zip fs cs) ++ aged_pairs (drop i (zip fs cs)))
    as Hstep.
  { intros a Ha Hcne ->. unfold zupdate.
    assert ((Z.of_nat i <? 0) = false) as -> by lia. rewrite Nat2Z.id.
    replace (Z.of_nat i + 1) with (Z.of_nat (S i)) by lia.
    destruct (IH (S i) fs (<[i := aged_counter c]> cs)) as (fs' & cs' & H1 & H2 & H3 & H4).
    { by rewrite length_insert. }
    { rewrite length_insert. lia. }
    { by apply forallb_insert. }
    exists fs', cs'. split_and!; try done.
    rewrite H4, Hzip.
    rewrite (take_S_r _ _ (f, aged_counter c)).
    2:{ apply list_lookup_insert_eq. by eapply lookup_lt_Some. }
    rewrite take_insert_ge by lia. rewrite drop_insert_lt by lia.
    rewrite (drop_S _ _ _ Hp).
    rewrite aged_pairs_cons_nonzero by done. by rewrite <- app_assoc. }
  destruct (CCN_UNIT_INTEREST <? c) eqn:Hgt.
  { rewrite u64_small by lia.
    apply Hstep; [|lia|].
    - apply aged_counter_ok in Hcok as [Hcok _]; [|done|lia].
      unfold aged_counter in Hcok. by rewrite Hgt in Hcok.
    - unfold aged_counter. by rewrite Hgt. }
  destruct (0 <? c) eqn:Hpos.
  { rewrite u64_small by lia.
    apply Hstep; [|lia|].
    - apply aged_counter_ok in Hcok as [Hcok _]; [|done|lia].
      unfold aged_counter in Hcok. by rewrite Hgt in Hcok.
    - unfold aged_counter. by rewrite Hgt. }
  (* count was 0: the last pair takes its place *)
  assert (c = 0) as -> by lia.
  remember (length cs) as n eqn:Hn.
  assert (zlength cs - 1 = Z.of_nat (n - 1)) as Hn1 by (unfold zlength; lia).
  rewrite Hn1.
  destruct (lookup_lt_is_Some_2 cs (n - 1)) as [clast Hclast]; [lia|].
  destruct (lookup_lt_is_Some_2 fs (n - 1)) as [flast Hflast]; [lia|].
  rewrite !zlookup_of_nat, Hflast, Hclast. simpl.
  rewrite Nat2Z.id. rewrite bool_decide_eq_true_2 by lia.
  unfold zupdate. assert ((Z.of_nat i <? 0) = false) as -> by lia. rewrite Nat2Z.id.
  destruct (IH i (take (n - 1) (<[i := flast]> fs)) (take (n - 1) (<[i := clast]> cs)))
    as (fs' & cs' & H1 & H2 & H3 & H4).
  { rewrite !length_take, !length_insert. lia. }
  { rewrite length_take, length_insert. lia. }
  { apply forallb_take, forallb_insert; [done|].
    rewrite forallb_forall in Hok. apply Hok, list_elem_of_In.
    by eapply list_elem_of_lookup_2. }
  exists fs', cs'. split_and!; try done.
  rewrite H4.
  assert (zip (take (n - 1) (<[i:=flast]> fs)) (take (n - 1) (<[i:=clast]> cs))
          = take (length (zip fs cs) - 1) (<[i := (flast, clast)]> (zip fs cs))) as ->.
  { rewrite <- zip_with_take, insert_zip_with.
    rewrite length_zip_with. by replace (length fs `min` length cs)%nat with n by lia. }
  destruct (swap_with_last_pairs (zip fs cs) i f (flast, clast)) as [Ht Hd].
  { done. }
  { rewrite last_lookup. rewrite length_zip_with, lookup_zip_with.
    replace (Init.Nat.pred (length fs `min` length cs)) with (n - 1)%nat by lia.
    by rewrite Hflast, Hclast. }
  simpl in Ht, Hd. by rewrite Ht, Hd.
Qed.

(** One entry in one pass. *)
Lemma age_interest_entry_spec (ipe : Ipe.t) (fs cs : list Z) :
  0 < CCN_UNIT_INTEREST -> ipe_wf ipe = true ->
  Ipe.interested_faceid ipe = Some fs -> Ipe.counters ipe = Some cs ->
  match cs with
  | [] =>
      age_interest_entry ipe
      = Some (if 8 <? Ipe.idle ipe + 1 then None
              else Some (Ipe.set_idle (Ipe.idle ipe + 1) ipe), 0)
  | _ :: _ =>
      exists fs' cs',
        age_interest_entry ipe
        = Some (Some (Ipe.set_counters (Some cs')
                        (Ipe.set_interested_faceid (Some fs') (Ipe.set_idle 0 ipe))),
                zlength cs') /\
        length fs' = length cs' /\ forallb counter_ok cs' = true /\
        zip fs' cs' ≡ₚ aged_pairs (zip fs cs)
  end.
Proof.
  intros HU Hwf Hfs Hcs. unfold ipe_wf in Hwf. rewrite Hfs, Hcs in Hwf.
  apply andb_prop in Hwf as [Hlen%bool_decide_eq_true Hok].
  unfold age_interest_entry. rewrite Hcs. simpl.
  destruct cs as [|c cs0].
  - simpl. by destruct (8 <? Ipe.idle ipe + 1).
  - assert ((0 <? zlength (c :: cs0)) = true) as ->.
    { apply Z.ltb_lt. unfold zlength. change (length (c :: cs0)) with (S (length cs0)).
      lia. }
    rewrite Hfs.
    destruct (age_counters_spec (length (c :: cs0)) 0 fs (c :: cs0))
      as (fs' & cs' & H1 & H2 & H3 & H4); [done|done|simpl; lia|done|].
    change (Z.of_nat 0) with 0 in H1. rewrite H1. simpl.
    exists fs', cs'. split_and!; try done.
Qed.

Lemma age_interest_entry_wf (ipe ipe' : Ipe.t) n :
  0 < CCN_UNIT_INTEREST -> ipe_wf ipe = true ->
  age_interest_entry ipe = Some (Some ipe', n) -> ipe_wf ipe' = true.
Proof.
  intros HU Hwf. pose proof Hwf as Hwf0. unfold ipe_wf in Hwf0.
  destruct (Ipe.interested_faceid ipe) as [fs|] eqn:Hfs; [|done].
  destruct (Ipe.counters ipe) as [cs|] eqn:Hcs; [|done].
  pose proof (age_interest_entry_spec ipe fs cs HU Hwf Hfs Hcs) as Hspec.
  destruct cs as [|c cs0].
  - rewrite Hspec. destruct (8 <? Ipe.idle ipe + 1); [done|].
    intros [= <- _]. unfold ipe_wf. simpl. by rewrite Hfs, Hcs.
  - destruct Hspec as (fs' & cs' & -> & Hl & Hok & _).
    intros [= <- _]. unfold ipe_wf. simpl.
    by rewrite bool_decide_eq_true_2, Hok.
Qed.

End Aging.

Section AgingPasses.

Context `{P : ccnd_private}.

Lemma ipe_wf_aged ipe :
  0 < CCN_UNIT_INTEREST -> ipe_wf ipe = true -> is_Some (age_interest_entry ipe).
Proof.
  intros HU Hwf. pose proof Hwf as Hwf0. unfold ipe_wf in Hwf0.
  destruct (Ipe.interested_faceid ipe) as [fs|] eqn:Hfs; [|done].
  destruct (Ipe.counters ipe) as [cs|] eqn:Hcs; [|done].
  pose proof (age_interest_entry_spec ipe fs cs HU Hwf Hfs Hcs) as Hspec.
  destruct cs; [by rewrite Hspec|].
  destruct Hspec as (? & ? & -> & _). done.
Qed.

Lemma age_interests_table h :
  0 < CCN_UNIT_INTEREST -> interest_table_wf h ->
  exists n_active,
    age_interests h
    = Some (set_interestprefix_tab
              (omap (fun ipe => age_interest_entry ipe ≫= fst) (interestprefix_tab h)) h,
            n_active) /\
    interest_table_wf
      (set_interestprefix_tab
         (omap (fun ipe => age_interest_entry ipe ≫= fst) (interestprefix_tab h)) h).
Proof.
  intros HU Hwf. unfold age_interests. rewrite bool_decide_eq_true_2.
  2:{ intros key ipe Hk. apply ipe_wf_aged; [done|]. by apply (Hwf key). }
  eexists. split; [done|].
  intros key ipe'. simpl. rewrite lookup_omap.
  destruct (interestprefix_tab h !! key) as [ipe|] eqn:Hk; [|done]. simpl.
  destruct (age_interest_entry ipe) as [[[ipe''|] n]|] eqn:Ha; try done.
  simpl. intros [= <-]. eapply age_interest_entry_wf; [done| |done]. by apply (Hwf key).
Qed.

(** An entry without counters: [k] passes raise [idle] by [k] while it
    stays at most 8. *)
Lemma age_passes_idle (k : nat) h key ipe :
  0 < CCN_UNIT_INTEREST -> interest_table_wf h ->
  interestprefix_tab h !! key = Some ipe -> Ipe.counters ipe = Some [] ->
  0 <= Ipe.idle ipe -> Ipe.idle ipe + Z.of_nat k <= 8 ->
  exists h', age_passes k h = Some h' /\ interest_table_wf h' /\
    interestprefix_tab h' !! key
    = Some (Ipe.set_idle (Ipe.idle ipe + Z.of_nat k) ipe).
Proof.
  intros HU. revert h ipe. induction k as [|k IH]; intros h ipe Hwf Hk Hc Hi0 Hi.
  { exists h. split; [done|]. split; [done|]. rewrite Hk. f_equal.
    replace (Ipe.idle ipe + Z.of_nat 0) with (Ipe.idle ipe) by lia. by destruct ipe. }
  simpl. destruct (age_interests_table h HU Hwf) as (n & -> & Hwf'). simpl.
  set (h1 := set_interestprefix_tab _ h) in *.
  assert (interestprefix_tab h1 !! key = Some (Ipe.set_idle (Ipe.idle ipe + 1) ipe)) as Hk1.
  { subst h1. simpl. rewrite lookup_omap, Hk. simpl.
    unfold age_interest_entry. rewrite Hc. simpl.
    assert ((8 <? Ipe.idle ipe + 1) = false) as -> by lia. done. }
  destruct (IH h1 (Ipe.set_idle (Ipe.idle ipe + 1) ipe)) as (h' & Hp & Hwf'' & Hk');
    [done|done|done|simpl; lia|simpl; lia|].
  exists h'. split; [done|]. split; [done|]. rewrite Hk'. simpl.
  replace (Ipe.idle ipe + 1 + Z.of_nat k) with (Ipe.idle ipe + Z.of_nat (S k)) by lia.
  by destruct ipe.
Qed.

End AgingPasses.

(** C6. With a positive CCN_UNIT_INTEREST and counters that the arithmetic
    does not overflow, one pass of [age_interests] changes nothing but the
    interest-prefix table, and for each entry: a counter above
    CCN_UNIT_INTEREST becomes [(c * 5 + 3) / 6], which is [c * 5/6] rounded
    to the nearest integer; a counter equal to CCN_UNIT_INTEREST loses 1;
    the pairs with counter 0 are gone (the loop writes the last pair of both
    vectors over such a pair and shortens both by one); an entry with
    counters has [idle] reset to 0; an entry without counters has [idle]
    raised by 1 and is deleted when that exceeds 8, which in consecutive
    passes from [idle = 0] happens in the ninth and not before. *)
Theorem age_interests_pass `{P : ccnd_private} (h : ccnd) :
  0 < CCN_UNIT_INTEREST -> interest_table_wf h ->
  (* the rule for one counter *)
  (forall c, CCN_UNIT_INTEREST < c ->
     aged_counter c = (c * 5 + 3) / 6 /\
     c * 5 - 2 <= 6 * aged_counter c <= c * 5 + 3) /\
  aged_counter CCN_UNIT_INTEREST = CCN_UNIT_INTEREST - 1 /\
  (* one pass over the table *)
  (exists tab' n_active,
     age_interests h = Some (set_interestprefix_tab tab' h, n_active) /\
     forall key,
       match interestprefix_tab h !! key with
       | None => tab' !! key = None
       | Some ipe =>
           exists fs cs,
             Ipe.interested_faceid ipe = Some fs /\ Ipe.counters ipe = Some cs /\
             match cs with
             | [] =>
                 tab' !! key
                 = if 8 <? Ipe.idle ipe + 1 then None
                   else Some (Ipe.set_idle (Ipe.idle ipe + 1) ipe)
             | _ :: _ =>
                 exists fs' cs',
                   tab' !! key
                   = Some (Ipe.set_counters (Some cs')
                             (Ipe.set_interested_faceid (Some fs')
                                (Ipe.set_idle 0 ipe))) /\
                   length fs' = length cs' /\
                   zip fs' cs' ≡ₚ aged_pairs (zip fs cs)
             end
       end) /\
  (* the removal of a counter that is 0 *)
  (forall (m : nat) (i : Z) (fs cs : list Z) flast clast,
     zlookup cs i = Some 0 ->
     zlookup fs (zlength cs - 1) = Some flast ->
     zlookup cs (zlength cs - 1) = Some clast ->
     age_counters (S m) i (Some fs) cs
     = age_counters m i
         (Some (take (Z.to_nat (zlength cs - 1)) (zupdate fs i flast)))
         (take (Z.to_nat (zlength cs - 1)) (zupdate cs i clast))) /\
  (* nine passes over an entry without counters *)
  (forall key ipe,
     interestprefix_tab h !! key = Some ipe ->
     Ipe.counters ipe = Some [] -> Ipe.idle ipe = 0 ->
     (forall k : nat, (k <= 8)%nat ->
        exists h', age_passes k h = Some h' /\
                   interestprefix_tab h' !! key = Some (Ipe.set_idle (Z.of_nat k) ipe)) /\
     (exists h', age_passes 9 h = Some h' /\ interestprefix_tab h' !! key = None)).
Proof.
  intros HU Hwf. split_and!.
  - intros c Hc. unfold aged_counter.
    assert ((CCN_UNIT_INTEREST <? c) = true) as -> by lia. split; [done|].
    pose proof (Z.div_mod (c * 5 + 3) 6 ltac:(lia)) as Hdm.
    pose proof (Z.mod_pos_bound (c * 5 + 3) 6 ltac:(lia)) as Hmb. lia.
  - unfold aged_counter.
    assert ((CCN_UNIT_INTEREST <? CCN_UNIT_INTEREST) = false) as -> by lia. done.
  - destruct (age_interests_table h HU Hwf) as (n & Hage & _).
    eexists _, n. split; [exact Hage|]. intros key. rewrite lookup_omap.
    destruct (interestprefix_tab h !! key) as [ipe|] eqn:Hk; [|done]. simpl.
    pose proof (Hwf key ipe Hk) as Hipe. simpl in Hipe. pose proof Hipe as Hipe0.
    unfold ipe_wf in Hipe0.
    destruct (Ipe.interested_faceid ipe) as [fs|] eqn:Hfs; [|done].
    destruct (Ipe.counters ipe) as [cs|] eqn:Hcs; [|done].
    exists fs, cs. split; [done|]. split; [done|].
    pose proof (age_interest_entry_spec ipe fs cs HU Hipe Hfs Hcs) as Hspec.
    destruct cs as [|c cs0].
    + rewrite Hspec. simpl. done.
    + destruct Hspec as (fs' & cs' & -> & Hl & _ & Hperm). simpl.
      exists fs', cs'. done.
  - intros m i fs cs flast clast Hi Hfl Hcl. simpl. rewrite Hi. simpl.
    assert ((CCN_UNIT_INTEREST <? 0) = false) as -> by lia.
    simpl. rewrite Hfl, Hcl. simpl.
    rewrite bool_decide_eq_true_2; [done|].
    unfold zlookup in Hfl. destruct (zlength cs - 1 <? 0); [done|].
    apply lookup_lt_Some in Hfl. lia.
  - intros key ipe Hk Hc Hidle. split.
    + intros k Hk8.
      destruct (age_passes_idle k h key ipe) as (h' & Hp & _ & Hk'); try done; try lia.
      exists h'. split; [done|]. rewrite Hk', Hidle. done.
    + destruct (age_passes_idle 8 h key ipe) as (h8 & Hp & Hwf8 & Hk8); try done; try lia.
      destruct (age_interests_table h8 HU Hwf8) as (n & Hage & _).
      eexists. split.
      * change 9%nat with (8 + 1)%nat.
        assert (forall a b x, age_passes (a + b) x = x' ← age_passes a x; age_passes b x')
          as Hadd.
        { induction a as [|a IHa]; intros b x; simpl; [done|].
          destruct (age_interests x) as [[x1 ?]|]; simpl; [apply IHa|done]. }
        rewrite Hadd, Hp. simpl. rewrite Hage. simpl. done.
      * simpl. rewrite lookup_omap, Hk8. simpl.
        unfold age_interest_entry. simpl. rewrite Hc. simpl. rewrite Hidle. done.
Qed.

Section AgingRun.

#[local] Existing Instance sample_private.

Example aging_sample_pass :
  (fun r => (map_to_list (interestprefix_tab r.1), r.2)) <$> age_interests aging_sample
  = Some ([([x01; x02], Ipe.mk 1 (Some [1; 2; 4]) (Some [10; 4; 2]) 0 None);
           ([x09], Ipe.mk 1 (Some []) (Some []) 1 None)], 3).
Proof. vm_compute. reflexivity. Qed.

Lemma aging_sample_wf : interest_table_wf aging_sample.
Proof.
  unfold interest_table_wf. apply (bool_decide_unpack _). vm_compute. exact I.
Qed.

Lemma age_interests_pass_witness :
  0 < CCN_UNIT_INTEREST /\ interest_table_wf aging_sample /\
  (exists tab' n_active,
     age_interests aging_sample = Some (set_interestprefix_tab tab' aging_sample, n_active) /\
     forall key,
       match interestprefix_tab aging_sample !! key with
       | None => tab' !! key = None
       | Some ipe =>
           exists fs cs,
             Ipe.interested_faceid ipe = Some fs /\ Ipe.counters ipe = Some cs /\
             match cs with
             | [] =>
                 tab' !! key
                 = if 8 <? Ipe.idle ipe + 1 then None
                   else Some (Ipe.set_idle (Ipe.idle ipe + 1) ipe)
             | _ :: _ =>
                 exists fs' cs',
                   tab' !! key
                   = Some (Ipe.set_counters (Some cs')
                             (Ipe.set_interested_faceid (Some fs')
                                (Ipe.set_idle 0 ipe))) /\
                   length fs' = length cs' /\
                   zip fs' cs' ≡ₚ aged_pairs (zip fs cs)
             end
       end) /\
  (exists h', age_passes 9 aging_sample = Some h' /\
              interestprefix_tab h' !! [x09] = None).
Proof.
  assert (0 < CCN_UNIT_INTEREST) as HU by (vm_compute; reflexivity).
  split; [exact HU|]. split; [exact aging_sample_wf|].
  destruct (age_interests_pass aging_sample HU aging_sample_wf)
    as (_ & _ & Hpass & _ & Hnine).
  split; [exact Hpass|].
  destruct (Hnine [x09] (Ipe.mk 1 (Some []) (Some []) 0 None)) as [_ H9];
    [vm_compute; reflexivity|reflexivity|reflexivity|].
  exact H9.
Defined.

End AgingRun.

(** ** Interests that have nowhere to go *)

(** C10. When [get_outbound_faces] yields no face, [propagate_interest]
    returns 0 and leaves the daemon state as it is: no propagating entry, no
    nonce, nothing else.  So [is_duplicate_flooded] answers every later
    interest as it would have before.  The outbound set is empty for scope
    0, and when no slot holds a face other than the ingress face. *)
Theorem propagate_interest_nowhere `{P : ccnd_private} `{L : ccn_library}
    (h : ccnd) (face : nat) (msg : list byte) (pi : ccn_parsed_interest)
    (ipe : list byte) :
  get_outbound_faces h face pi = Some [] ->
  propagate_interest h face msg pi ipe = Some (h, 0) /\
  (forall h' res, propagate_interest h face msg pi ipe = Some (h', res) ->
     propagating_tab h' = propagating_tab h /\
     forall msg' pi', is_duplicate_flooded h' msg' pi' = is_duplicate_flooded h msg' pi').
Proof.
  intros Hout. unfold propagate_interest. rewrite Hout. simpl.
  split; [done|]. intros h' res [= <- <-]. done.
Qed.

Section NowhereToGo.

Context `{P : ccnd_private}.

Lemma get_outbound_faces_scope_0 (h : ccnd) (from : nat) (pi : ccn_parsed_interest) :
  pi_scope pi = 0 -> get_outbound_faces h from pi = Some [].
Proof. intros Hs. unfold get_outbound_faces. by rewrite Hs. Qed.

(** The ingress face is the only face enrolled. *)
Lemma get_outbound_faces_alone (h : ccnd) (from : nat) (pi : ccn_parsed_interest) :
  zlength (faces_by_faceid h) = face_limit h ->
  (forall (i : nat) p, faces_by_faceid h !! i = Some (Some p) -> p = from) ->
  get_outbound_faces h from pi = Some [].
Proof.
  intros Hlen Honly. unfold get_outbound_faces.
  destruct (pi_scope pi =? 0); [done|].
  unfold zlength in Hlen.
  assert (forall m : nat, (m <= length (faces_by_faceid h))%nat ->
            foldl (fun acc i =>
                     x ← acc;
                     ai ← faces_by_faceid h !! i;
                     match ai with
                     | None => Some x
                     | Some p =>
                         if bool_decide (p = from) then Some x
                         else
                           f ← face_store h !! p;
                           if Z.land (Face.flags f)
                                (if pi_scope pi =? 1 then CCN_FACE_LINK else 0) =? 0
                           then Some (x ++ [Face.faceid f])
                           else Some x
                     end)
                  (Some []) (seq 0 m) = Some []) as Hloop.
  { induction m as [|m IH]; intros Hm; [done|].
    rewrite seq_S, foldl_app, IH by lia. simpl.
    destruct (lookup_lt_is_Some_2 (faces_by_faceid h) m) as [slot Hslot]; [lia|].
    rewrite Hslot. simpl. destruct slot as [p|]; [|done].
    by rewrite (Honly _ _ Hslot), bool_decide_eq_true_2. }
  apply Hloop. lia.
Qed.

End NowhereToGo.

Section NowhereRun.

#[local] Existing Instance sample_private.

#[local] Existing Instance sample_library.

Lemma propagate_interest_nowhere_witness :
  get_outbound_faces one_face 1 (interest_xy_parsed (-1)) = Some [] /\
  propagate_interest one_face 1 interest_xy (interest_xy_parsed (-1)) [x01; x02; x03; x04]
  = Some (one_face, 0) /\
  (forall h' res,
     propagate_interest one_face 1 interest_xy (interest_xy_parsed (-1))
       [x01; x02; x03; x04] = Some (h', res) ->
     propagating_tab h' = propagating_tab one_face /\
     forall msg' pi', is_duplicate_flooded h' msg' pi'
                      = is_duplicate_flooded one_face msg' pi').
Proof.
  assert (get_outbound_faces one_face 1 (interest_xy_parsed (-1)) = Some []) as Hout
    by (vm_compute; reflexivity).
  split; [exact Hout|].
  exact (propagate_interest_nowhere one_face 1 interest_xy (interest_xy_parsed (-1))
           [x01; x02; x03; x04] Hout).
Defined.

(** The whole arrival: the interest is accepted, nothing is written, no
    propagating entry is made, and the same interest arriving again is
    accepted again rather than dropped. *)
Example lone_interest_twice :
  (h1 ← process_incoming_interest one_face 1 interest_xy
          (Some (interest_xy_parsed (-1), [0; 2; 4]));
   h2 ← process_incoming_interest h1 1 interest_xy
          (Some (interest_xy_parsed (-1), [0; 2; 4]));
   Some (map_to_list (propagating_tab h1), written h1,
         interests_accepted h2, interests_dropped h2))
  = Some ([], [], 2, 0).
Proof. vm_compute. reflexivity. Qed.

End NowhereRun.

(** ** Duplicate nonces *)

(** C2, as amended.  An interest of at most 65535 bytes that parses, does
    not carry scope 1 on a link-framed face, and whose non-empty nonce is a
    key of propagating_tab is dropped: [interests_dropped] goes up by one
    and, apart from the scratch index buffer being back in its pool, nothing
    else changes - nothing is written, and the propagating and
    interest-prefix tables are as before. *)
Theorem process_incoming_interest_duplicate `{P : ccnd_private} `{L : ccn_library}
    (h : ccnd) (face : nat) (f : Face.t) (msg : list byte)
    (pi : ccn_parsed_interest) (comps : list Z) :
  zlength msg <= 65535 ->
  face_store h !! face = Some f ->
  ~ (pi_scope pi = 1 /\ Z.land (Face.flags f) CCN_FACE_LINK <> 0) ->
  u64 (CCN_PI_E_Nonce pi - CCN_PI_B_Nonce pi) <> 0 ->
  is_Some (propagating_tab h !!
             bytes_at msg (CCN_PI_B_Nonce pi)
                      (u64 (CCN_PI_E_Nonce pi - CCN_PI_B_Nonce pi))) ->
  exists h',
    process_incoming_interest h face msg (Some (pi, comps)) = Some h' /\
    h' = set_scratch_indexbuf true (set_interests_dropped (interests_dropped h + 1) h) /\
    interests_dropped h' = interests_dropped h + 1 /\
    written h' = written h /\
    propagating_tab h' = propagating_tab h /\
    interestprefix_tab h' = interestprefix_tab h /\
    sched h' = sched h.
Proof.
  intros Hsize Hf Hscope Hnonce Hdup. unfold process_incoming_interest.
  assert ((65535 <? zlength msg) = false) as -> by lia.
  simpl. rewrite Hf. simpl.
  assert (((0 <? pi_scope pi) && (pi_scope pi <? 2) &&
           negb (Z.land (Face.flags f) CCN_FACE_LINK =? 0)) = false) as ->.
  { destruct (Z.land (Face.flags f) CCN_FACE_LINK =? 0) eqn:Hl;
      [by rewrite andb_false_r|].
    rewrite andb_true_r. apply andb_false_iff.
    destruct (decide (pi_scope pi = 1)) as [H1|H1]; [|lia].
    destruct Hscope. split; [done|lia]. }
  unfold is_duplicate_flooded. simpl.
  assert ((u64 (CCN_PI_E_Nonce pi - CCN_PI_B_Nonce pi) =? 0) = false) as -> by lia.
  rewrite bool_decide_eq_true_2 by done. simpl.
  eexists. split; [done|]. done.
Qed.

Section DuplicateRun.

#[local] Existing Instance sample_private.

#[local] Existing Instance sample_library.

Example nonce_pending_table :
  (fun kv => (kv.1, Pe.outbound kv.2)) <$> map_to_list (propagating_tab nonce_pending)
  = [([x09; x09], Some [1; 2])].
Proof. vm_compute. reflexivity. Qed.

(** C2 as stated fails: the same nonce in an interest of scope 1 that comes
    in on the link-framed face 102 is discarded by the scope test, which
    comes first, and [interests_dropped] stays as it was. *)
Lemma duplicate_nonce_out_of_scope_counterexample :
  is_duplicate_flooded nonce_pending interest_xy (interest_xy_parsed 1) = true /\
  exists h',
    process_incoming_interest nonce_pending 102 interest_xy
      (Some (interest_xy_parsed 1, [0; 2; 4])) = Some h' /\
    interests_dropped h' = interests_dropped nonce_pending /\
    interests_dropped h' <> interests_dropped nonce_pending + 1.
Proof.
  split; [vm_compute; reflexivity|].
  eexists. split; [vm_compute; reflexivity|].
  split; [vm_compute; reflexivity|]. vm_compute. discriminate.
Qed.

Lemma process_incoming_interest_duplicate_witness :
  zlength interest_xy <= 65535 /\
  face_store nonce_pending !! 103%nat = Some (Face.mk 5 2 2 0 0) /\
  ~ (pi_scope (interest_xy_parsed (-1)) = 1 /\
     Z.land (Face.flags (Face.mk 5 2 2 0 0)) CCN_FACE_LINK <> 0) /\
  u64 (CCN_PI_E_Nonce (interest_xy_parsed (-1))
       - CCN_PI_B_Nonce (interest_xy_parsed (-1))) <> 0 /\
  is_Some (propagating_tab nonce_pending !!
             bytes_at interest_xy (CCN_PI_B_Nonce (interest_xy_parsed (-1)))
               (u64 (CCN_PI_E_Nonce (interest_xy_parsed (-1))
                     - CCN_PI_B_Nonce (interest_xy_parsed (-1))))) /\
  exists h',
    process_incoming_interest nonce_pending 103 interest_xy
      (Some (interest_xy_parsed (-1), [0; 2; 4])) = Some h' /\
    h' = set_scratch_indexbuf true
           (set_interests_dropped (interests_dropped nonce_pending + 1) nonce_pending) /\
    interests_dropped h' = interests_dropped nonce_pending + 1 /\
    written h' = written nonce_pending /\
    propagating_tab h' = propagating_tab nonce_pending /\
    interestprefix_tab h' = interestprefix_tab nonce_pending /\
    sched h' = sched nonce_pending.
Proof.
  assert (zlength interest_xy <= 65535) as H1 by (vm_compute; discriminate).
  assert (face_store nonce_pending !! 103%nat = Some (Face.mk 5 2 2 0 0)) as H2
    by (vm_compute; reflexivity).
  assert (~ (pi_scope (interest_xy_parsed (-1)) = 1 /\
             Z.land (Face.flags (Face.mk 5 2 2 0 0)) CCN_FACE_LINK <> 0)) as H3
    by (intros [H _]; vm_compute in H; discriminate).
  assert (u64 (CCN_PI_E_Nonce (interest_xy_parsed (-1))
               - CCN_PI_B_Nonce (interest_xy_parsed (-1))) <> 0) as H4
    by (vm_compute; discriminate).
  assert (is_Some (propagating_tab nonce_pending !!
             bytes_at interest_xy (CCN_PI_B_Nonce (interest_xy_parsed (-1)))
               (u64 (CCN_PI_E_Nonce (interest_xy_parsed (-1))
                     - CCN_PI_B_Nonce (interest_xy_parsed (-1)))))) as H5
    by (vm_compute; eexists; reflexivity).
  split; [exact H1|]. split; [exact H2|]. split; [exact H3|]. split; [exact H4|].
  split; [exact H5|].
  exact (process_incoming_interest_duplicate nonce_pending 103 (Face.mk 5 2 2 0 0)
           interest_xy (interest_xy_parsed (-1)) [0; 2; 4] H1 H2 H3 H4 H5).
Defined.

End DuplicateRun.

(** ** Content is sent to a face at most once per burst *)

Section ContentSender.

Context `{P : ccnd_private} `{L : ccn_library}.

Lemma face_from_faceid_Some h id face :
  face_from_faceid h id = Some face ->
  exists f, face_store h !! face = Some f /\ Face.faceid f = id.
Proof.
  unfold face_from_faceid. destruct (_ <? face_limit h); [|done].
  destruct (zlookup _ _) as [[p|]|]; try done.
  destruct (face_store h !! p) as [f|] eqn:Hf; [|done].
  destruct (Face.faceid f =? id) eqn:Hid; [|done].
  intros [= <-]. exists f. split; [done|lia].
Qed.

Lemma face_from_faceid_frame h h' id :
  face_store h' = face_store h -> faces_by_faceid h' = faces_by_faceid h ->
  face_limit h' = face_limit h ->
  face_from_faceid h' id = face_from_faceid h id.
Proof. intros H1 H2 H3. unfold face_from_faceid. by rewrite H1, H2, H3. Qed.

Lemma choose_content_delay_frame h id flags :
  let h' := (choose_content_delay h id flags).1 in
  content_tab h' = content_tab h /\ face_store h' = face_store h /\
  faces_by_faceid h' = faces_by_faceid h /\ face_limit h' = face_limit h /\
  written h' = written h.
Proof.
  unfold choose_content_delay.
  destruct (face_from_faceid h id ≫= _) as [f|]; [|done].
  destruct (negb (Z.land (Face.flags f) CCN_FACE_DGRAM =? 0)); [done|].
  destruct (negb (Z.land (Face.flags f) CCN_FACE_LINK =? 0)); [|done].
  by destruct (nrand48 (seed h)).
Qed.

Ltac sender_effect_tac H :=
  split; simpl; try done; try lia;
  rewrite ?H, ?lookup_alter_eq, ?lookup_insert_eq, ?H; simpl; try done; try lia.

(** The loop of one run over [rest = faces[nface_done..]]: it visits a
    prefix of [rest], writes to the faces of that prefix that are alive, and
    moves [nface_done] past it. *)
Lemma content_sender_loop_spec (content : list byte) (rest : list Z) :
  forall h e,
    content_tab h !! content = Some e ->
    exists h' delay e' (m : nat) sent ids,
      content_sender_loop h content rest = Some (h', delay) /\
      (m <= length rest)%nat /\
      sender_effect content h h' e e' (Z.of_nat m) /\
      written h' = written h ++ sent /\
      sent_to h sent ids /\
      ids `sublist_of` (u32 <$> take m rest).
Proof.
  induction rest as [|faceid rest IH]; intros h e He.
  { exists (content_set_sender h content None), 0, (Content.set_sender None e), 0%nat, [], [].
    split; [done|]. split; [done|]. split.
    - sender_effect_tac He.
    - split; [by rewrite app_nil_r|]. split; [constructor|done]. }
  simpl. rewrite He. simpl.
  set (e1 := Content.set_nface_done (Content.nface_done e + 1) e).
  set (h1 := set_content_tab (<[content := e1]> (content_tab h)) h).
  assert (content_tab h1 !! content = Some e1) as He1 by apply lookup_insert_eq.
  rewrite (face_from_faceid_frame h h1) by done.
  destruct (face_from_faceid h (u32 faceid)) as [face|] eqn:Hface.
  - destruct (face_from_faceid_Some _ _ _ Hface) as (f & Hf & Hid).
    unfold send_content. simpl. rewrite Hf, lookup_insert_eq. simpl.
    set (data := _ ++ _ ++ _).
    set (h2 := charbuf_release _).
    assert (content_tab h2 !! content = Some e1) as He2 by apply lookup_insert_eq.
    destruct rest as [|nxt rest'].
    + exists (content_set_sender h2 content None), 0, (Content.set_sender None e1),
        1%nat, [(face, data)], [u32 faceid].
      split; [done|]. split; [simpl; lia|]. split.
      * sender_effect_tac He.
      * split; [done|]. split; [|done].
        constructor; [|constructor]. simpl. eauto.
    + pose proof (choose_content_delay_frame h2 (u32 nxt) (Content.flags e))
        as (Hc1 & Hc2 & Hc3 & Hc4 & Hc5).
      destruct (choose_content_delay h2 (u32 nxt) (Content.flags e)) as [h3 delay] eqn:Hd.
      simpl in *.
      exists h3, delay, e1, 1%nat, [(face, data)], [u32 faceid].
      split; [done|]. split; [simpl; lia|]. split.
      * sender_effect_tac Hc1.
      * split; [by rewrite Hc5|]. split.
        -- constructor; [|constructor]. simpl. eauto.
        -- simpl. by apply sublist_skip.
  - destruct (IH h1 e1 He1) as (h' & delay & e' & m & sent & ids & Hrun & Hm & Heff & Hw & Hs & Hsub).
    exists h', delay, e', (S m), sent, ids.
    split; [done|]. split; [simpl; lia|]. split.
    + destruct Heff. split; try done. rewrite se_done0. simpl. lia.
    + split; [done|]. split; [done|]. simpl. by apply sublist_cons.
Qed.

(** One run of [content_sender]. *)
Lemma content_sender_run_spec (content : list byte) h e fs :
  content_tab h !! content = Some e -> Content.faces e = Some fs ->
  exists h' delay e' (m : nat) sent ids,
    content_sender h (Some content) false = Some (h', delay) /\
    (m <= length (drop (Z.to_nat (Content.nface_done e)) fs))%nat /\
    sender_effect content h h' e e' (Z.of_nat m) /\
    written h' = written h ++ sent /\
    sent_to h sent ids /\
    ids `sublist_of` (u32 <$> take m (drop (Z.to_nat (Content.nface_done e)) fs)).
Proof.
  intros He Hfs. unfold content_sender. rewrite He. simpl.
  destruct (negb (bool_decide _)).
  { exists h, 0, e, 0%nat, [], []. split; [done|]. split; [lia|]. split.
    - sender_effect_tac He.
    - split; [by rewrite app_nil_r|]. split; [constructor|done]. }
  rewrite Hfs. by apply content_sender_loop_spec.
Qed.

Lemma sent_to_frame h h' sent ids :
  face_store h' = face_store h -> sent_to h' sent ids -> sent_to h sent ids.
Proof. intros Hs. unfold sent_to. by rewrite Hs. Qed.

Lemma content_sender_runs_spec (n : nat) (content : list byte) :
  forall h e fs,
    content_tab h !! content = Some e -> Content.faces e = Some fs ->
    0 <= Content.nface_done e ->
    exists h' e' (m : nat) sent ids,
      content_sender_runs n h content = Some h' /\
      (m <= length (drop (Z.to_nat (Content.nface_done e)) fs))%nat /\
      sender_effect content h h' e e' (Z.of_nat m) /\
      written h' = written h ++ sent /\
      sent_to h sent ids /\
      ids `sublist_of` (u32 <$> take m (drop (Z.to_nat (Content.nface_done e)) fs)).
Proof.
  induction n as [|n IH]; intros h e fs He Hfs Hd.
  { exists h, e, 0%nat, [], []. split; [done|]. split; [lia|]. split.
    - sender_effect_tac He.
    - split; [by rewrite app_nil_r|]. split; [constructor|done]. }
  cbn [content_sender_runs].
  destruct (content_sender_run_spec content h e fs He Hfs)
    as (h1 & delay & e1 & m1 & sent1 & ids1 & -> & Hm1 & Heff1 & Hw1 & Hs1 & Hsub1).
  cbn [mbind option_bind fst]. destruct Heff1.
  destruct (IH h1 e1 fs) as (h2 & e2 & m2 & sent2 & ids2 & Hrun & Hm2 & Heff2 & Hw2 & Hs2 & Hsub2);
    [done|congruence|lia|].
  destruct Heff2.
  rewrite se_done0 in Hm2, Hsub2.
  replace (Z.to_nat (Content.nface_done e + Z.of_nat m1))
    with (Z.to_nat (Content.nface_done e) + m1)%nat in Hm2, Hsub2 by lia.
  rewrite <- drop_drop in Hm2, Hsub2.
  exists h2, e2, (m1 + m2)%nat, (sent1 ++ sent2), (ids1 ++ ids2).
  split; [done|]. split.
  { rewrite length_drop in Hm2. lia. }
  split.
  { split; try congruence. rewrite se_done1, se_done0. lia. }
  split; [by rewrite Hw2, Hw1, app_assoc|]. split.
  { apply Forall2_app; [done|]. by eapply sent_to_frame. }
  rewrite <- take_take_drop, fmap_app. by apply sublist_app.
Qed.

End ContentSender.

(** C9. Over any number of consecutive runs of [content_sender] on a content
    entry - no arrival touching its face set in between - the writes go to
    faces whose ids are read, in order and each place at most once, from
    the places of the face set between the old and the new [nface_done];
    the face set itself is not changed and [nface_done] only grows.  So a
    place below [nface_done] is never visited, and where the ids waiting
    are distinct, as [content_faces_set_insert] keeps them, no face id is
    sent the content twice. *)
Theorem content_sender_at_most_once `{P : ccnd_private} `{L : ccn_library}
    (n : nat) (h : ccnd) (content : list byte) (e : Content.t) (fs : list Z) :
  content_tab h !! content = Some e -> Content.faces e = Some fs ->
  0 <= Content.nface_done e ->
  let d := Z.to_nat (Content.nface_done e) in
  exists h' e' (m : nat) sent ids,
    content_sender_runs n h content = Some h' /\
    content_tab h' !! content = Some e' /\
    Content.faces e' = Some fs /\
    Content.nface_done e' = Content.nface_done e + Z.of_nat m /\
    (d + m <= Nat.max d (length fs))%nat /\
    written h' = written h ++ sent /\
    sent_to h sent ids /\
    ids `sublist_of` (u32 <$> take m (drop d fs)) /\
    (NoDup (u32 <$> drop d fs) -> NoDup ids) /\
    (NoDup (u32 <$> fs) -> forall id, id ∈ (u32 <$> take d fs) -> id ∉ ids).
Proof.
  intros He Hfs Hd d.
  destruct (content_sender_runs_spec n content h e fs He Hfs Hd)
    as (h' & e' & m & sent & ids & Hrun & Hm & Heff & Hw & Hs & Hsub).
  destruct Heff. fold d in Hm, Hsub.
  exists h', e', m, sent, ids. split_and!; try done.
  - congruence.
  - rewrite length_drop in Hm. lia.
  - intros Hnd. eapply sublist_NoDup; [|exact Hsub].
    eapply sublist_NoDup; [exact Hnd|].
    rewrite fmap_take. apply sublist_take.
  - intros Hnd id Hin Hin'.
    rewrite <- (take_drop d fs), fmap_app in Hnd.
    apply NoDup_app in Hnd as (_ & Hdisj & _).
    apply (Hdisj id Hin).
    apply (sublist_subseteq _ _ Hsub) in Hin'.
    rewrite fmap_take in Hin'. by apply subseteq_take in Hin'.
Qed.

(** The face set stays free of duplicates under [content_faces_set_insert]. *)
Lemma indexbuf_unordered_set_insert_NoDup (l : list Z) (val : Z) :
  NoDup l ->
  exists l' (i : nat),
    indexbuf_unordered_set_insert (Some l) val = (Some l', Z.of_nat i) /\
    NoDup l' /\ l' !! i = Some val /\ (l' = l \/ l' = l ++ [val]).
Proof.
  intros Hnd. unfold indexbuf_unordered_set_insert.
  destruct (list_find (fun v => v = val) l) as [[i v]|] eqn:Hfind.
  - apply list_find_Some in Hfind as (Hi & -> & _).
    exists l, i. split_and!; try done. by left.
  - apply list_find_None in Hfind.
    exists (l ++ [val]), (length l). split_and!; try done.
    + apply NoDup_app. split_and!; [done| |apply NoDup_singleton].
      intros x Hx ->%list_elem_of_singleton.
      rewrite Forall_forall in Hfind. by apply (Hfind val).
    + by rewrite lookup_app_r, Nat.sub_diag.
    + by right.
Qed.

Section ContentSenderRun.

#[local] Existing Instance sample_private.

#[local] Existing Instance sample_library.

Example content_arrived_sent_once :
  (fun h => (written h, Content.nface_done <$> content_tab h !! bytes_at content_xy1 0 6))
    <$> content_sender_runs 3 content_arrived (bytes_at content_xy1 0 6)
  = Some ([(101%nat, content_xy1)], Some 2).
Proof. vm_compute. reflexivity. Qed.

Lemma content_sender_at_most_once_witness :
  content_tab content_arrived !! bytes_at content_xy1 0 6 = Some content_arrived_entry /\
  Content.faces content_arrived_entry = Some [2; 0] /\
  0 <= Content.nface_done content_arrived_entry /\
  let d := Z.to_nat (Content.nface_done content_arrived_entry) in
  exists h' e' (m : nat) sent ids,
    content_sender_runs 3 content_arrived (bytes_at content_xy1 0 6) = Some h' /\
    content_tab h' !! bytes_at content_xy1 0 6 = Some e' /\
    Content.faces e' = Some [2; 0] /\
    Content.nface_done e' = Content.nface_done content_arrived_entry + Z.of_nat m /\
    (d + m <= Nat.max d (length [2; 0]))%nat /\
    written h' = written content_arrived ++ sent /\
    sent_to content_arrived sent ids /\
    ids `sublist_of` (u32 <$> take m (drop d [2; 0])) /\
    (NoDup (u32 <$> drop d [2; 0]) -> NoDup ids) /\
    (NoDup (u32 <$> [2; 0]) -> forall id, id ∈ (u32 <$> take d [2; 0]) -> id ∉ ids).
Proof.
  assert (content_tab content_arrived !! bytes_at content_xy1 0 6
          = Some content_arrived_entry) as H1 by (vm_compute; reflexivity).
  assert (Content.faces content_arrived_entry = Some [2; 0]) as H2 by reflexivity.
  assert (0 <= Content.nface_done content_arrived_entry) as H3
    by (vm_compute; discriminate).
  split; [exact H1|]. split; [exact H2|]. split; [exact H3|].
  exact (content_sender_at_most_once 3 content_arrived (bytes_at content_xy1 0 6)
           content_arrived_entry [2; 0] H1 H2 H3).
Defined.

End ContentSenderRun.

(** ** A ContentObject that is already stored *)

Section DuplicateContent.

Context `{P : ccnd_private} `{L : ccn_library}.

Lemma same_vectors_refl h : same_vectors h h.
Proof. intros key e He. eauto. Qed.

Lemma same_vectors_trans h1 h2 h3 :
  same_vectors h1 h2 -> same_vectors h2 h3 -> same_vectors h1 h3.
Proof.
  intros H12 H23 key e He. destruct (H12 key e He) as (e2 & He2 & Hf2 & Hc2).
  destruct (H23 key e2 He2) as (e3 & He3 & Hf3 & Hc3).
  exists e3. split; [done|]. split; congruence.
Qed.

Lemma content_faces_set_insert_inv content fr fs0 h faceid :
  dup_inv content fr fs0 h ->
  exists h' e' k,
    content_faces_set_insert h content faceid = Some (h', k) /\
    dup_inv content fr fs0 h' /\
    content_tab h' !! content = Some e' /\
    interestprefix_tab h' = interestprefix_tab h /\
    propagating_tab h' = propagating_tab h.
Proof.
  intros [Hfr (e & extra & He & Hfs) Hwf].
  unfold content_faces_set_insert. rewrite He. simpl. rewrite Hfs. simpl. rewrite Hfs.
  destruct (indexbuf_unordered_set_insert (Some (fs0 ++ extra)) faceid) as [x k] eqn:Hins.
  assert (exists extra', x = Some (fs0 ++ extra')) as [extra' ->].
  { unfold indexbuf_unordered_set_insert in Hins.
    destruct (list_find _ _) as [[i v]|]; injection Hins as <- <-.
    - by exists extra.
    - exists (extra ++ [faceid]). by rewrite app_assoc. }
  eexists _, _, k. split; [done|]. split; [|split; [apply lookup_insert_eq|done]].
  split.
  - rewrite <- Hfr. unfold content_frame. simpl.
    rewrite delete_insert_eq, lookup_insert_eq, He. done.
  - eexists _, extra'. split; [apply lookup_insert_eq|done].
  - done.
Qed.

Lemma ipe_linked_ok_frame h h' ipe :
  (forall p, is_Some (propagating_tab h !! p) -> is_Some (propagating_tab h' !! p)) ->
  ipe_linked_ok h ipe = true -> ipe_linked_ok h' ipe = true.
Proof.
  intros Hp. unfold ipe_linked_ok. intros [H1 H2]%andb_prop.
  rewrite H1. simpl. destruct (Ipe.propagating_head ipe) as [ring|]; [|done].
  rewrite forallb_forall in H2 |- *. intros p Hin.
  apply bool_decide_eq_true_2. apply Hp. apply (bool_decide_eq_true_1 _). by apply H2.
Qed.

Lemma ipe_set_counter_inv content fr fs0 h ipe i count :
  dup_inv content fr fs0 h -> dup_inv content fr fs0 (ipe_set_counter h ipe i count).
Proof.
  intros [Hfr Hfs Hwf]. split; [done|done|].
  intros key e. simpl. intros He.
  destruct (decide (key = ipe)) as [->|Hne].
  - rewrite lookup_alter_eq in He.
    destruct (interestprefix_tab h !! ipe) as [e0|] eqn:He0; [|done].
    simpl in He. injection He as <-.
    pose proof (Hwf ipe e0 He0) as Hok. simpl in Hok.
    unfold ipe_linked_ok in *. simpl.
    destruct (Ipe.interested_faceid e0) as [fs|]; [|done].
    destruct (Ipe.counters e0) as [cs|]; [|done]. simpl.
    apply andb_prop in Hok as [Hl Hr]. apply bool_decide_eq_true in Hl.
    rewrite bool_decide_eq_true_2; [done|].
    unfold zupdate. destruct (i <? 0); [done|]. by rewrite length_insert.
  - rewrite lookup_alter_ne in He by done. by apply (Hwf key).
Qed.

Lemma ring_find_faceid_total h ring faceid :
  forallb (fun p => bool_decide (is_Some (propagating_tab h !! p))) ring = true ->
  exists found, ring_find_faceid h ring faceid = Some found /\
    match found with
    | Some p => is_Some (propagating_tab h !! p)
    | None => True
    end.
Proof.
  induction ring as [|p ring IH]; simpl; [by exists None|].
  intros [Hp Hr]%andb_prop. apply bool_decide_eq_true in Hp.
  destruct Hp as [e He]. rewrite He. simpl.
  destruct (Pe.faceid e =? faceid); [|by apply IH].
  exists (Some p). split; [done|]. by rewrite He.
Qed.

Lemma finished_propagating_inv content fr fs0 h pe :
  dup_inv content fr fs0 h -> is_Some (propagating_tab h !! pe) ->
  exists h', finished_propagating h pe = Some h' /\ dup_inv content fr fs0 h'.
Proof.
  intros [Hfr Hfs Hwf] [e He]. unfold finished_propagating. rewrite He. simpl.
  eexists. split; [done|].
  assert (forall p h1, propagating_tab h1 = propagating_tab h ->
            is_Some (propagating_tab h !! p) ->
            is_Some (<[pe := Pe.mk None (Pe.size e) (Pe.faceid e) None None]>
                       (propagating_tab h1) !! p)) as Hkeep.
  { intros p h1 -> Hp. destruct (decide (p = pe)) as [->|Hne].
    - rewrite lookup_insert_eq. eauto.
    - by rewrite lookup_insert_ne. }
  destruct (Pe.next e) as [k|].
  - split; [by destruct Hfs as (? & ? & ? & ?)|done|].
    intros key ipe. simpl. intros Hipe.
    destruct (decide (key = k)) as [->|Hne].
    + rewrite lookup_alter_eq in Hipe.
      destruct (interestprefix_tab h !! k) as [ipe0|] eqn:Hk; [|done].
      simpl in Hipe. injection Hipe as <-.
      pose proof (Hwf k ipe0 Hk) as Hok. simpl in Hok.
      unfold ipe_linked_ok in *. simpl.
      apply andb_prop in Hok as [Hl Hr]. rewrite Hl. simpl.
      destruct (Ipe.propagating_head ipe0) as [ring|]; [|done]. simpl.
      rewrite forallb_forall in Hr |- *. intros p Hin.
      apply list_elem_of_In, list_elem_of_filter in Hin as [_ Hin].
      apply bool_decide_eq_true_2. apply (Hkeep p h); [done|].
      apply (bool_decide_eq_true_1 _). by apply Hr, list_elem_of_In.
    + rewrite lookup_alter_ne in Hipe by done.
      eapply ipe_linked_ok_frame; [|by apply (Hwf key)].
      intros p Hp. simpl. by apply (Hkeep p h).
  - split; [done|done|].
    intros key ipe Hipe. simpl in Hipe.
    eapply ipe_linked_ok_frame; [|by apply (Hwf key)].
    intros p Hp. simpl. by apply (Hkeep p h).
Qed.

Lemma cancel_one_propagating_interest_inv content fr fs0 h ipe faceid :
  dup_inv content fr fs0 h -> is_Some (interestprefix_tab h !! ipe) ->
  exists h', cancel_one_propagating_interest h ipe faceid = Some h' /\
             dup_inv content fr fs0 h' /\ same_vectors h h'.
Proof.
  intros Hinv [e He]. unfold cancel_one_propagating_interest. rewrite He. simpl.
  destruct (Ipe.propagating_head e) as [ring|] eqn:Hring;
    [|exists h; split_and!; [done|done|apply same_vectors_refl]].
  pose proof (di_wf _ _ _ _ Hinv ipe e He) as Hok. simpl in Hok.
  unfold ipe_linked_ok in Hok. rewrite Hring in Hok.
  apply andb_prop in Hok as [_ Hr].
  destruct (ring_find_faceid_total h ring faceid Hr) as (found & -> & Hfound). simpl.
  destruct found as [p|]; [|exists h; split_and!; [done|done|apply same_vectors_refl]].
  destruct (finished_propagating_inv content fr fs0 h p Hinv Hfound) as (h' & Hfin & Hinv').
  exists h'. split; [done|]. split; [done|].
  intros key ipe0 Hk. unfold finished_propagating in Hfin.
  destruct (propagating_tab h !! p) as [pe|]; [|done]. simpl in Hfin.
  injection Hfin as <-. simpl.
  destruct (Pe.next pe) as [k|]; simpl; [|by exists ipe0].
  destruct (decide (key = k)) as [->|Hne].
  - rewrite lookup_alter_eq, Hk. simpl. eauto.
  - rewrite lookup_alter_ne, Hk by done. eauto.
Qed.

Lemma ipe_set_counter_same_vectors h ipe i count :
  same_vectors h (ipe_set_counter h ipe i count).
Proof.
  intros key e He. simpl. destruct (decide (key = ipe)) as [->|Hne].
  - rewrite lookup_alter_eq, He. simpl. eexists. split; [done|]. simpl.
    split; [done|]. destruct (Ipe.counters e) as [cs|]; [|done]. simpl.
    unfold zupdate. destruct (i <? 0); [done|]. by rewrite length_insert.
  - rewrite lookup_alter_ne by done. eauto.
Qed.

(** [choose_content_delay] changes the seed at most. *)
Lemma choose_content_delay_seed h id flags :
  exists s, (choose_content_delay h id flags).1 = set_seed s h.
Proof.
  unfold choose_content_delay.
  destruct (face_from_faceid h id ≫= _) as [f|]; [|by exists (seed h); destruct h].
  destruct (negb (Z.land (Face.flags f) CCN_FACE_DGRAM =? 0));
    [by exists (seed h); destruct h|].
  destruct (negb (Z.land (Face.flags f) CCN_FACE_LINK =? 0));
    [|by exists (seed h); destruct h].
  destruct (nrand48 (seed h)) as [r s']. by exists s'.
Qed.

Lemma schedule_content_delivery_inv content fr fs0 h :
  dup_inv content fr fs0 h ->
  (forall e, content_tab h !! content = Some e -> 0 <= Content.nface_done e) ->
  exists h', schedule_content_delivery h content = Some h' /\
             dup_inv content fr fs0 h'.
Proof.
  intros Hinv Hdone. pose proof Hinv as [Hfr (e & extra & He & Hfs) Hwf].
  unfold schedule_content_delivery. rewrite He. simpl.
  destruct (Content.sender e); [by exists h|]. rewrite Hfs.
  destruct (Content.nface_done e <? zlength (fs0 ++ extra)) eqn:Hlt; [|by exists h].
  destruct (zlookup_is_Some (fs0 ++ extra) (Content.nface_done e)) as [nxt ->].
  { split; [by apply Hdone|lia]. }
  simpl.
  destruct (choose_content_delay_seed h (u32 nxt) (Content.flags e)) as [s Hs].
  destruct (choose_content_delay h (u32 nxt) (Content.flags e)) as [h1 delay].
  simpl in Hs. subst h1. simpl.
  eexists. split; [done|]. split.
  - rewrite <- Hfr. unfold content_frame. simpl.
    rewrite lookup_alter_eq, He. simpl. f_equal.
    f_equal. apply map_eq. intros k. destruct (decide (k = content)) as [->|Hne].
    + by rewrite !lookup_delete_eq.
    + by rewrite !lookup_delete_ne, lookup_alter_ne by done.
  - exists (Content.set_sender (Some (length (sched h))) e), extra. simpl.
    by rewrite lookup_alter_eq, He.
  - done.
Qed.

(** One turn of the inner loop of [match_interests]. *)
Lemma match_interests_at_inv content fr fs0 ipe h n_matched (i : nat) e cs :
  dup_inv content fr fs0 h ->
  interestprefix_tab h !! ipe = Some e -> Ipe.counters e = Some cs ->
  (i < length cs)%nat ->
  exists h' n', match_interests_at content ipe (h, n_matched) i = Some (h', n') /\
                dup_inv content fr fs0 h' /\ same_vectors h h'.
Proof.
  intros Hinv He Hcs Hi. unfold match_interests_at. rewrite He. simpl. rewrite Hcs. simpl.
  destruct (lookup_lt_is_Some_2 cs i Hi) as [c ->]. simpl.
  destruct (0 <? intptr_of_size c);
    [|exists h, n_matched; split_and!; [done|done|apply same_vectors_refl]].
  pose proof (di_wf _ _ _ _ Hinv ipe e He) as Hok. simpl in Hok.
  unfold ipe_linked_ok in Hok. rewrite Hcs in Hok.
  destruct (Ipe.interested_faceid e) as [fs|]; [|done].
  apply andb_prop in Hok as [Hlen%bool_decide_eq_true _].
  simpl. destruct (lookup_lt_is_Some_2 fs i) as [f ->]; [lia|]. simpl.
  destruct (face_from_faceid h (u32 f)).
  2:{ eexists _, _. split; [done|]. split; [by apply ipe_set_counter_inv|].
      apply ipe_set_counter_same_vectors. }
  destruct (content_faces_set_insert_inv content fr fs0 h (u32 f) Hinv)
    as (h1 & e1 & k & -> & Hinv1 & He1 & Hi1 & Hp1).
  simpl. rewrite He1. simpl.
  destruct (Content.nface_done e1 <=? k).
  - destruct (cancel_one_propagating_interest_inv content fr fs0 h1 ipe (u32 f) Hinv1)
      as (h2 & -> & Hinv2 & Hsv2).
    { rewrite Hi1, He. eauto. }
    simpl. eexists _, _. split; [done|]. split; [by apply ipe_set_counter_inv|].
    eapply same_vectors_trans; [|apply ipe_set_counter_same_vectors].
    eapply same_vectors_trans; [|exact Hsv2].
    intros key e0 Hk. rewrite Hi1. eauto.
  - eexists _, _. split; [done|]. split; [by apply ipe_set_counter_inv|].
    eapply same_vectors_trans; [|apply ipe_set_counter_same_vectors].
    intros key e0 Hk. rewrite Hi1. eauto.
Qed.

Lemma dup_inv_static content fr fs0 h h' e e' :
  dup_inv content fr fs0 h -> dup_inv content fr fs0 h' ->
  content_tab h !! content = Some e -> content_tab h' !! content = Some e' ->
  static_view e' = static_view e.
Proof.
  intros [Hfr _ _] [Hfr' _ _] He He'. rewrite <- Hfr' in Hfr.
  unfold content_frame in Hfr. rewrite He, He' in Hfr.
  apply (f_equal snd) in Hfr. simpl in Hfr. congruence.
Qed.

(** The inner loop of [match_interests] over the counters of one entry. *)
Lemma match_interests_inner_inv content fr fs0 ipe (n : nat) (idxs : list nat) :
  forall h n_matched,
    dup_inv content fr fs0 h ->
    (exists e cs, interestprefix_tab h !! ipe = Some e /\
                  Ipe.counters e = Some cs /\ length cs = n) ->
    Forall (fun i => i < n)%nat idxs ->
    exists h' n',
      foldl (fun acc i => st ← acc; match_interests_at content ipe st i)
            (Some (h, n_matched)) idxs = Some (h', n') /\
      dup_inv content fr fs0 h'.
Proof.
  induction idxs as [|i idxs IH]; intros h n_matched Hinv (e & cs & He & Hcs & Hn) Hall.
  { by exists h, n_matched. }
  apply Forall_cons in Hall as [Hi Hall]. cbn [foldl mbind option_bind].
  destruct (match_interests_at_inv content fr fs0 ipe h n_matched i e cs)
    as (h1 & n1 & -> & Hinv1 & Hsv1); [done|done|done|lia|].
  apply IH; [done| |done].
  destruct (Hsv1 ipe e He) as (e1 & He1 & _ & Hc1). rewrite Hcs in Hc1. simpl in Hc1.
  destruct (Ipe.counters e1) as [cs1|] eqn:Hcs1; [|done].
  exists e1, cs1. split; [done|]. split; [done|]. simpl in Hc1. congruence.
Qed.

Lemma match_interests_prefix_inv content fr fs0 c0 h n_matched (ci : nat) e :
  dup_inv content fr fs0 h ->
  content_tab h !! content = Some e ->
  Z.of_nat ci < zlength (Content.comps e) ->
  exists h' n',
    match_interests_prefix content c0 (h, n_matched) ci = Some (h', n') /\
    dup_inv content fr fs0 h'.
Proof.
  intros Hinv He Hci. unfold match_interests_prefix. rewrite He. simpl.
  unfold content_prefix_key.
  destruct (zlookup_is_Some (Content.comps e) (Z.of_nat ci)) as [c ->]; [lia|].
  simpl. set (key := bytes_at _ _ _).
  destruct (interestprefix_tab h !! key) as [ipe|] eqn:Hipe; [|by exists h, n_matched].
  destruct (Ipe.counters ipe) as [cs|] eqn:Hcs; [|by exists h, n_matched].
  apply (match_interests_inner_inv content fr fs0 key (length cs)); [done| |].
  - by exists ipe, cs.
  - apply Forall_forall. intros i Hin%elem_of_seq. lia.
Qed.

Lemma match_interests_outer_inv content fr fs0 c0 (cis : list nat) :
  forall h n_matched e,
    dup_inv content fr fs0 h ->
    content_tab h !! content = Some e ->
    Forall (fun ci => Z.of_nat ci < zlength (Content.comps e)) cis ->
    exists h' n',
      foldl (fun acc ci => st ← acc; match_interests_prefix content c0 st ci)
            (Some (h, n_matched)) cis = Some (h', n') /\
      dup_inv content fr fs0 h'.
Proof.
  induction cis as [|ci cis IH]; intros h n_matched e Hinv He Hall.
  { by exists h, n_matched. }
  apply Forall_cons in Hall as [Hci Hall]. cbn [foldl mbind option_bind].
  destruct (match_interests_prefix_inv content fr fs0 c0 h n_matched ci e)
    as (h1 & n1 & -> & Hinv1); [done..|].
  pose proof (di_faces _ _ _ _ Hinv1) as (e1 & _ & He1 & _).
  apply (IH h1 n1 e1); [done|done|].
  pose proof (dup_inv_static _ _ _ _ _ _ _ Hinv Hinv1 He He1) as Hst.
  unfold static_view in Hst.
  assert (Content.comps e1 = Content.comps e) as -> by congruence. done.
Qed.

(** [match_interests] on an entry that is stored: it returns, and keeps
    the frame and the face set up to what it appends. *)
Lemma match_interests_inv content fr fs0 h e :
  dup_inv content fr fs0 h ->
  content_tab h !! content = Some e -> content_entry_ok e = true ->
  exists h' n, match_interests h content = Some (h', n) /\ dup_inv content fr fs0 h'.
Proof.
  intros Hinv He Hok. unfold content_entry_ok in Hok.
  apply andb_prop in Hok as [[Hn1 Hn]%andb_prop Hd].
  unfold match_interests. rewrite He. simpl.
  destruct (zlookup_is_Some (Content.comps e) 0) as [c0 ->]; [lia|]. simpl.
  destruct (match_interests_outer_inv content fr fs0 c0
              (reverse (seq 0 (Z.to_nat (Content.ncomps e)))) h 0 e)
    as (h1 & n1 & -> & Hinv1); [done|done| |].
  { apply Forall_forall. intros ci Hin%elem_of_reverse%elem_of_seq. lia. }
  simpl. destruct (negb (n1 =? 0)); [|by exists h1, n1].
  destruct (schedule_content_delivery_inv content fr fs0 h1 Hinv1) as (h2 & -> & Hinv2).
  { intros e1 He1.
    pose proof (dup_inv_static _ _ _ _ _ _ _ Hinv Hinv1 He He1) as Hst.
    unfold static_view in Hst.
    assert (Content.nface_done e1 = Content.nface_done e) as -> by congruence. lia. }
  by exists h2, n1.
Qed.


End DuplicateContent.


Section DuplicateContentRun.

#[local] Existing Instance sample_private.

#[local] Existing Instance sample_library.



Example duplicate_from_other_face :
  (h' ← process_incoming_content content_arrived 102 content_xy1
          (Some (content_xy1_parsed, [0; 2; 4; 6]));
   e' ← content_tab h' !! bytes_at content_xy1 0 6;
   Some (Content.faces e', Content.nface_done e'))
  = Some (Some [2; 1; 0], 2).
Proof. vm_compute. reflexivity. Qed.

End DuplicateContentRun.

(** ** The depth of a new skiplist entry *)

Section SkiplistDepth.

Context `{P : ccnd_private} `{L : ccn_library}.

Lemma leading_low_zero_le rs : (leading_low_zero rs <= length rs)%nat.
Proof.
  induction rs as [|r rs IH]; simpl; [lia|].
  destruct (Z.land r 3 =? 0); simpl; lia.
Qed.

Lemma length_draws n seed : length (draws n seed) = n.
Proof. revert seed. induction n as [|n IH]; intros seed; simpl; [done|]. by rewrite IH. Qed.

Lemma skiplist_choose_depth_spec (n : nat) (d seed : Z) :
  let k := leading_low_zero (draws n seed) in
  skiplist_choose_depth n d seed
  = (d + Z.of_nat k, seed_after (if bool_decide (k < n)%nat then S k else k) seed).
Proof.
  revert d seed. induction n as [|n IH]; intros d seed; simpl.
  { f_equal. lia. }
  destruct (nrand48 seed) as [r seed'] eqn:Hr. simpl.
  destruct (Z.land r 3 =? 0) eqn:Hlow; simpl.
  - rewrite IH. simpl. f_equal; [lia|].
    set (k := leading_low_zero (draws n seed')).
    destruct (bool_decide (k < n)%nat) eqn:Hk.
    + apply bool_decide_eq_true in Hk. rewrite bool_decide_eq_true_2 by lia.
      simpl. by rewrite Hr.
    + apply bool_decide_eq_false in Hk. rewrite bool_decide_eq_false_2 by lia.
      simpl. by rewrite Hr.
  - f_equal; [lia|]. simpl. by rewrite Hr.
Qed.

Lemma chosen_depth_range seed : 1 <= chosen_depth seed <= 29.
Proof.
  unfold chosen_depth.
  pose proof (leading_low_zero_le (draws (Z.to_nat (CCN_SKIPLIST_MAX_DEPTH - 2)) seed)) as H.
  rewrite length_draws in H. unfold CCN_SKIPLIST_MAX_DEPTH in *. lia.
Qed.

(** Of the four values of the two low bits of a draw, one lets the depth
    grow and three end the loop. *)
Lemma depth_grows_on_one_residue_of_four (r : Z) :
  (Z.land r 3 =? 0) = true <-> r mod 4 = 0.
Proof.
  change 3 with (Z.ones 2). rewrite Z.land_ones by lia.
  change (2 ^ 2) with 4. lia.
Qed.

End SkiplistDepth.

Section SkiplistWalk.

Context `{P : ccnd_private} `{L : ccn_library}.

Lemma content_from_accession_Some h a k :
  content_from_accession h a = Some k ->
  exists e, content_tab h !! k = Some e /\ Content.accession e = a.
Proof.
  unfold content_from_accession. destruct (_ && _); [|done].
  destruct (zlookup _ _) as [[ans|]|]; try done.
  destruct (content_tab h !! ans) as [e|] eqn:He; [|done].
  destruct (Content.accession e =? a) eqn:Ha; [|done].
  intros [= <-]. exists e. split; [done|lia].
Qed.

Lemma node_rank_bound h rank c :
  skiplist_wf h rank -> (node_rank h rank c < S (size (content_tab h)))%nat.
Proof.
  intros Hwf. destruct c as [|k]; simpl; [lia|].
  destruct (content_tab h !! k) as [e|] eqn:He; [|lia].
  pose proof (sw_bound _ _ Hwf k e He). lia.
Qed.

(** The walk at one level ends, on a node that has that level. *)
Lemma findbefore_level_total h rank key (i : nat) (fuel : nat) :
  skiplist_wf h rank ->
  forall c depth,
    node_depth h c = Some depth -> (i < depth)%nat ->
    (node_rank h rank c < fuel)%nat ->
    exists c' depth',
      findbefore_level fuel h key i c = Some c' /\
      node_depth h c' = Some depth' /\ (i < depth')%nat.
Proof.
  intros Hwf. induction fuel as [|fuel IH]; intros c depth Hd Hi Hfuel; [lia|].
  simpl. unfold node_depth in Hd.
  destruct (skipnode_links h c) as [links|] eqn:Hlinks; [|done].
  simpl in Hd. injection Hd as <-. simpl.
  destruct (lookup_lt_is_Some_2 links i Hi) as [nxt Hnxt]. rewrite Hnxt. simpl.
  destruct (nxt =? 0) eqn:Hz.
  { exists c, (length links). unfold node_depth. by rewrite Hlinks. }
  destruct (sw_link _ _ Hwf c i links nxt Hlinks Hnxt) as (k & depth & Hk & Hkd & Hik & Hrank);
    [lia|].
  rewrite Hk. simpl.
  destruct (content_from_accession_Some _ _ _ Hk) as (e & He & Hacc).
  rewrite He. simpl.
  destruct (0 <=? ccn_compare_names _ _).
  { exists c, (length links). unfold node_depth. by rewrite Hlinks. }
  unfold node_depth in Hkd. simpl in Hkd. rewrite He in Hkd. simpl in Hkd.
  destruct (Content.skiplinks e) as [l|] eqn:Hl; [|done].
  simpl in Hkd. injection Hkd as <-.
  rewrite bool_decide_eq_false_2 by lia.
  apply (IH (skip_content k) (length l)).
  - unfold node_depth. cbn [skipnode_links]. rewrite He. cbn [mbind option_bind].
    by rewrite Hl.
  - done.
  - simpl. rewrite He, Hacc. lia.
Qed.

(** The search ends, with one predecessor per level of the head. *)
Lemma findbefore_levels_total h rank key (n : nat) :
  skiplist_wf h rank ->
  forall c depth,
    node_depth h c = Some depth -> (n <= depth)%nat ->
    exists pred,
      findbefore_levels h key n c = Some pred /\ length pred = n /\
      forall i, (i < n)%nat ->
        exists p depth', pred !! i = Some p /\
                         node_depth h p = Some depth' /\ (i < depth')%nat.
Proof.
  intros Hwf. induction n as [|n IH]; intros c depth Hd Hn.
  { exists []. split; [done|]. split; [done|]. intros i Hi. lia. }
  cbn [findbefore_levels].
  destruct (findbefore_level_total h rank key n (S (size (content_tab h))) Hwf c depth)
    as (c' & depth' & -> & Hd' & Hn'); [done|lia|by apply node_rank_bound|].
  cbn [mbind option_bind]. destruct (IH c' depth') as (pred & -> & Hlen & Hpred); [done|lia|].
  cbn [mbind option_bind]. exists (pred ++ [c']). split; [done|]. split.
  { rewrite length_app. simpl. lia. }
  intros i Hi. destruct (decide (i = n)) as [->|Hne].
  - exists c', depth'. split; [|done].
    rewrite lookup_app_r by lia. by rewrite Hlen, Nat.sub_diag.
  - destruct (Hpred i) as (p & dp & Hp & Hdp & Hidp); [lia|].
    exists p, dp. split; [|done]. by apply lookup_app_l_Some.
Qed.

End SkiplistWalk.

(** ** The skiplist is sorted by name *)

Section SkiplistSorted.

Context `{P : ccnd_private} `{L : ccn_library}.

Lemma entry_lt_irrefl x : name_order_ok -> ~ entry_lt x x.
Proof.
  intros Hord [Hlt|(_ & _ & Hacc)]; [by apply (no_irrefl Hord) in Hlt|lia].
Qed.

Lemma entry_lt_trans x y z :
  name_order_ok -> entry_lt x y -> entry_lt y z -> entry_lt x z.
Proof.
  intros Hord [Hxy|(Hxy & Hyx & Ha)] [Hyz|(Hyz & Hzy & Hb)].
  - left. by apply (no_trans Hord _ y.1).
  - left. destruct (no_weak Hord _ _ z.1 Hxy) as [?|?]; done.
  - left. destruct (no_weak Hord _ _ x.1 Hyz) as [?|?]; done.
  - right. split_and!; [| |lia].
    + intros Hxz. destruct (no_weak Hord _ _ y.1 Hxz) as [?|?]; done.
    + intros Hzx. destruct (no_weak Hord _ _ y.1 Hzx) as [?|?]; done.
Qed.

Lemma filter_length_lt {A} (Pf Qf : A -> Prop) `{!forall x, Decision (Pf x)}
    `{!forall x, Decision (Qf x)} (l : list A) y :
  (forall x, Pf x -> Qf x) -> y ∈ l -> Qf y -> ~ Pf y ->
  (length (filter Pf l) < length (filter Qf l))%nat.
Proof.
  intros Hsub Hy HQ HP.
  assert (forall l', (length (filter Pf l') <= length (filter Qf l'))%nat) as Hle.
  { induction l' as [|x l' IH]; [done|].
    rewrite !filter_cons. destruct (decide (Pf x)) as [Hp|Hp].
    - rewrite decide_True by auto. simpl. lia.
    - destruct (decide (Qf x)); simpl; lia. }
  induction l as [|x l IH]; [by apply elem_of_nil in Hy|].
  rewrite !filter_cons. apply elem_of_cons in Hy as [<-|Hy].
  - rewrite decide_False, decide_True by done. simpl. specialize (Hle l). lia.
  - specialize (IH Hy). destruct (decide (Pf x)) as [Hp|Hp].
    + rewrite decide_True by auto. simpl. lia.
    + destruct (decide (Qf x)); simpl; lia.
Qed.

Lemma filter_length_lt_all {A} (Pf : A -> Prop) `{!forall x, Decision (Pf x)}
    (l : list A) y :
  y ∈ l -> ~ Pf y -> (length (filter Pf l) < length l)%nat.
Proof.
  intros Hy HP. induction l as [|x l IH]; [by apply elem_of_nil in Hy|].
  rewrite filter_cons. pose proof (length_filter Pf l) as Hle.
  apply elem_of_cons in Hy as [<-|Hy].
  - rewrite decide_False by done. simpl. lia.
  - specialize (IH Hy). destruct (decide (Pf x)); simpl; lia.
Qed.

Lemma entries_above_bound h k e :
  name_order_ok -> content_tab h !! k = Some e ->
  (entries_above h (k, Content.accession e) < size (content_tab h))%nat.
Proof.
  intros Hord He. unfold entries_above.
  rewrite <- (length_map_to_list (content_tab h)).
  rewrite <- (length_fmap (fun p => (p.1, Content.accession p.2))
                (map_to_list (content_tab h))).
  apply (filter_length_lt_all _ _ (k, Content.accession e)).
  - apply list_elem_of_fmap. exists (k, e). split; [done|].
    by apply elem_of_map_to_list.
  - by apply entry_lt_irrefl.
Qed.

Lemma entries_above_lt h x k e :
  name_order_ok -> content_tab h !! k = Some e ->
  entry_lt x (k, Content.accession e) ->
  (entries_above h (k, Content.accession e) < entries_above h x)%nat.
Proof.
  intros Hord He Hlt. unfold entries_above.
  apply (filter_length_lt _ _ _ (k, Content.accession e)).
  - intros y Hy. by apply (entry_lt_trans x (k, Content.accession e) y).
  - apply list_elem_of_fmap. exists (k, e). split; [done|].
    by apply elem_of_map_to_list.
  - done.
  - by apply entry_lt_irrefl.
Qed.

(** A sorted skiplist is well formed: along a link the number of entries
    above goes down. *)
Lemma skiplist_sorted_wf h :
  name_order_ok -> content_keys_ok h -> skiplist_sorted h ->
  skiplist_wf h (rank_of h).
Proof.
  intros Hord Hkeys Hsorted. split.
  - intros k e He. unfold rank_of.
    destruct (Hkeys k e He) as [_ ->]. by eapply entries_above_bound.
  - intros c i links a Hlinks Ha Hne.
    destruct (Hsorted c links i a Hlinks Ha Hne) as (k & depth & Hk & Hd & Hi & Hlt).
    exists k, depth. split_and!; try done.
    destruct (content_from_accession_Some _ _ _ Hk) as (e & He & Hacc).
    unfold rank_of at 1. rewrite Hk. rewrite <- Hacc.
    destruct c as [|kc]; simpl.
    + by eapply entries_above_bound.
    + simpl in Hlinks. destruct (content_tab h !! kc) as [ec|] eqn:Hec; [|done].
      unfold rank_of. destruct (Hkeys kc ec Hec) as [_ ->].
      eapply entries_above_lt; [done..|]. rewrite Hacc. by apply (Hlt kc ec).
Qed.

(** *** What a search finds *)

Lemma findbefore_level_post h key (i : nat) (fuel : nat) :
  content_keys_ok h ->
  forall c c', before_key key c ->
    findbefore_level fuel h key i c = Some c' ->
    before_key key c' /\ stops_at h key i c'.
Proof.
  intros Hkeys. induction fuel as [|fuel IH]; intros c c' Hc; [done|].
  simpl. destruct (skipnode_links h c) as [links|] eqn:Hlinks; [|done]. simpl.
  destruct (links !! i) as [nxt|] eqn:Hnxt; [|done]. simpl.
  destruct (nxt =? 0) eqn:Hz.
  { intros [= <-]. split; [done|]. exists links, nxt. split_and!; try done. left. lia. }
  destruct (content_from_accession h nxt) as [k|] eqn:Hk; [|done]. simpl.
  destruct (content_tab h !! k) as [e|] eqn:He; [|done]. simpl.
  fold (entry_name e).
  destruct (0 <=? ccn_compare_names (entry_name e) key) eqn:Hcmp.
  { intros [= <-]. split; [done|]. exists links, nxt. split_and!; try done.
    right. exists k, e. split_and!; try done. lia. }
  destruct (Content.skiplinks e) as [l|]; [|done].
  destruct (bool_decide _); [done|].
  apply IH. intros kc [= <-]. destruct (Hkeys k e He) as [<- _].
  unfold name_lt. lia.
Qed.

Lemma findbefore_levels_length h key (n : nat) c pred :
  findbefore_levels h key n c = Some pred -> length pred = n.
Proof.
  revert c pred. induction n as [|n IH]; intros c pred; cbn [findbefore_levels].
  { by intros [= <-]. }
  destruct (findbefore_level (S (size (content_tab h))) h key n c) as [c'|]; [|done].
  cbn [mbind option_bind].
  destruct (findbefore_levels h key n c') as [ans|] eqn:Hans; [|done].
  cbn [mbind option_bind].
  intros [= <-]. rewrite length_app. simpl. rewrite (IH _ _ Hans). lia.
Qed.

Lemma findbefore_levels_post h key (n : nat) :
  content_keys_ok h ->
  forall c pred, before_key key c ->
    findbefore_levels h key n c = Some pred ->
    forall (i : nat) p, pred !! i = Some p -> before_key key p /\ stops_at h key i p.
Proof.
  intros Hkeys. induction n as [|n IH]; intros c pred Hc; cbn [findbefore_levels].
  { intros [= <-] i p Hp. done. }
  destruct (findbefore_level (S (size (content_tab h))) h key n c) as [c'|] eqn:Hlevel;
    [|done].
  cbn [mbind option_bind].
  destruct (findbefore_levels h key n c') as [ans|] eqn:Hans; [|done].
  cbn [mbind option_bind].
  intros [= <-] i p Hp.
  destruct (findbefore_level_post h key n _ Hkeys c c' Hc Hlevel) as [Hc' Hstop].
  pose proof (findbefore_levels_length _ _ _ _ _ Hans) as Hlen.
  apply lookup_app_Some in Hp as [Hp|[Hge Hp]].
  - by apply (IH c' ans Hc' Hans).
  - rewrite Hlen in Hp, Hge.
    destruct (i - n)%nat as [|m] eqn:Hm; [|done]. simpl in Hp. injection Hp as <-.
    assert (i = n) as -> by lia. done.
Qed.

(** *** Linking an entry in keeps the skiplist sorted *)

Lemma same_index_refl h : same_index h h.
Proof. done. Qed.

Lemma same_index_trans h1 h2 h3 :
  same_index h1 h2 -> same_index h2 h3 -> same_index h1 h3.
Proof.
  intros (A1 & B1 & C1 & D1) (A2 & B2 & C2 & D2).
  split_and!; [congruence|congruence|congruence|]. intros k. by rewrite D2, D1.
Qed.

Lemma same_index_entry h h' k e :
  same_index h h' -> content_tab h !! k = Some e ->
  exists e', content_tab h' !! k = Some e' /\
             Content.accession e' = Content.accession e /\ entry_name e' = entry_name e.
Proof.
  intros (_ & _ & _ & Htab) He. specialize (Htab k). rewrite He in Htab.
  destruct (content_tab h' !! k) as [e'|]; [|done].
  simpl in Htab. injection Htab as ? ?. by exists e'.
Qed.

Lemma same_index_sym h h' : same_index h h' -> same_index h' h.
Proof.
  intros (A & B & C & D). split_and!; [congruence|congruence|congruence|].
  intros k. by rewrite D.
Qed.

Lemma same_index_accession h h' a :
  same_index h h' -> content_from_accession h' a = content_from_accession h a.
Proof.
  intros Hidx. pose proof Hidx as (A & B & C & D).
  unfold content_from_accession. rewrite A, B, C.
  destruct (_ && _); [|done].
  destruct (zlookup _ _) as [[k|]|]; try done.
  specialize (D k).
  destruct (content_tab h !! k) as [e|], (content_tab h' !! k) as [e'|]; try done.
  simpl in D. injection D as -> _. done.
Qed.

Lemma same_index_keys_ok h h' :
  same_index h h' -> content_keys_ok h -> content_keys_ok h'.
Proof.
  intros Hidx Hkeys k e' He'.
  destruct (same_index_entry h' h k e' (same_index_sym _ _ Hidx) He')
    as (e & He & Hacc & Hname).
  destruct (Hkeys k e He) as [Hn Ha].
  rewrite (same_index_accession h h') by done. split; congruence.
Qed.

Lemma same_index_stops_at h h' key (i : nat) c links :
  same_index h h' -> stops_at h key i c ->
  skipnode_links h' c = Some links ->
  (forall ls, skipnode_links h c = Some ls -> links !! i = ls !! i) ->
  stops_at h' key i c.
Proof.
  intros Hidx (ls & nxt & Hls & Hnxt & Hstop) Hlinks Hsame.
  exists links, nxt. split; [done|]. split; [by rewrite (Hsame ls Hls)|].
  destruct Hstop as [->|(k & e & Hk & He & Hcmp)]; [by left|]. right.
  destruct (same_index_entry h h' k e Hidx He) as (e' & He' & _ & Hname).
  exists k, e'. rewrite (same_index_accession h h') by done.
  split_and!; try done. by rewrite Hname.
Qed.

(** One turn of the last loop of [content_skiplist_insert]: the entry gets
    the link of its predecessor at level [i], and the predecessor is linked
    to the entry. *)
Lemma link_one_level h content e l p (i : nat) links nxt :
  name_order_ok -> newest h content e ->
  content_tab h !! content = Some e -> Content.skiplinks e = Some l -> length l = i ->
  content_keys_ok h -> skiplist_sorted h ->
  p <> skip_content content ->
  skipnode_links h p = Some links -> links !! i = Some nxt ->
  before_key content p -> stops_at h content i p ->
  let e1 := Content.set_skiplinks (Some (l ++ [nxt])) e in
  let h1 := set_content_tab (<[content := e1]> (content_tab h)) h in
  exists h2,
    skipnode_set_link h1 p i (Content.accession e) = Some h2 /\
    content_tab h2 !! content = Some e1 /\
    same_index h h2 /\ skiplist_sorted h2 /\
    node_depth h2 skip_head = node_depth h skip_head /\
    (forall c, c <> skip_content content -> node_depth h2 c = node_depth h c) /\
    (forall c ls (j : nat), c <> skip_content content -> j <> i ->
       skipnode_links h c = Some ls ->
       exists ls', skipnode_links h2 c = Some ls' /\ ls' !! j = ls !! j).
Proof.
  intros Hord Hnew He Hl Hlen Hkeys Hsorted Hpx Hlinks Hnxt Hbefore Hstop e1 h1.
  pose proof (lookup_lt_Some _ _ _ Hnxt) as Hilt.
  (* the state after the turn, node by node *)
  assert (exists h2,
            skipnode_set_link h1 p i (Content.accession e) = Some h2 /\
            same_index h h2 /\
            skipnode_links h2 (skip_content content) = Some (l ++ [nxt]) /\
            content_tab h2 !! content = Some e1 /\
            skipnode_links h2 p = Some (<[i := Content.accession e]> links) /\
            (forall c, c <> skip_content content -> c <> p ->
                       skipnode_links h2 c = skipnode_links h c))
    as (h2 & Hset & Hidx & Hx2 & He2 & Hp2 & Hother).
  { destruct p as [|kp].
    - simpl in Hlinks. injection Hlinks as <-.
      eexists. split.
      { unfold skipnode_set_link. change (skiplinks h1) with (skiplinks h).
        by rewrite bool_decide_eq_true_2. }
      split.
      { split_and!; try done. intros k. simpl.
        destruct (decide (k = content)) as [->|Hne].
        - by rewrite lookup_insert_eq, He.
        - by rewrite lookup_insert_ne. }
      split; [simpl; by rewrite lookup_insert_eq|].
      split; [simpl; by rewrite lookup_insert_eq|].
      split; [done|].
      intros [|k] Hc1 Hc2; [done|]. simpl.
      rewrite lookup_insert_ne; [done|]. intros ->. by apply Hc1.
    - assert (kp <> content) as Hne by (intros ->; by apply Hpx).
      simpl in Hlinks.
      destruct (content_tab h !! kp) as [ep|] eqn:Hep; [|done]. simpl in Hlinks.
      eexists. split.
      { unfold skipnode_set_link. unfold h1 at 1. simpl.
        rewrite lookup_insert_ne by done. rewrite Hep. simpl. rewrite Hlinks. simpl.
        by rewrite bool_decide_eq_true_2. }
      split.
      { split_and!; try done. intros k. simpl.
        destruct (decide (k = kp)) as [->|Hnp].
        - by rewrite lookup_insert_eq, Hep.
        - rewrite lookup_insert_ne by done.
          destruct (decide (k = content)) as [->|Hnc].
          + by rewrite lookup_insert_eq, He.
          + by rewrite lookup_insert_ne. }
      split; [simpl; by rewrite lookup_insert_ne, lookup_insert_eq|].
      split; [simpl; by rewrite lookup_insert_ne, lookup_insert_eq|].
      split; [simpl; by rewrite lookup_insert_eq|].
      intros [|k] Hc1 Hc2; [done|]. simpl.
      rewrite !lookup_insert_ne; [done| |]; intros ->; [by apply Hc1|by apply Hc2]. }
  assert (forall c, c <> skip_content content -> node_depth h2 c = node_depth h c) as Hdepth.
  { intros c Hc. unfold node_depth. destruct (decide (c = p)) as [->|Hcp].
    - rewrite Hp2, Hlinks. simpl. by rewrite length_insert.
    - by rewrite Hother. }
  assert (node_depth h2 (skip_content content) = Some (S i)) as Hdx.
  { unfold node_depth. rewrite Hx2. simpl. rewrite length_app. simpl. f_equal. lia. }
  assert (node_depth h (skip_content content) = Some i) as Hdx0.
  { unfold node_depth. simpl. rewrite He. simpl. rewrite Hl. simpl. by rewrite Hlen. }
  (* a level that an entry has in [h] it has in [h2] *)
  assert (forall k depth (j : nat),
            node_depth h (skip_content k) = Some depth -> (j < depth)%nat ->
            exists depth', node_depth h2 (skip_content k) = Some depth' /\ (j < depth')%nat)
    as Hgrow.
  { intros k depth j Hd Hj. destruct (decide (k = content)) as [->|Hne].
    - exists (S i). split; [done|]. rewrite Hdx0 in Hd. injection Hd as <-. lia.
    - exists depth. split; [|done]. rewrite Hdepth; [done|]. intros [= ->]. done. }
  (* a link of [h] is a good link of [h2] *)
  assert (forall c ls (j : nat) a,
            skipnode_links h c = Some ls -> ls !! j = Some a -> a <> 0 ->
            exists k depth,
              content_from_accession h2 a = Some k /\
              node_depth h2 (skip_content k) = Some depth /\ (j < depth)%nat /\
              forall kc ec, c = skip_content kc -> content_tab h2 !! kc = Some ec ->
                entry_lt (kc, Content.accession ec) (k, a)) as Hold.
  { intros c ls j a Hls Hj Ha.
    destruct (Hsorted c ls j a Hls Hj Ha) as (k & depth & Hk & Hd & Hjd & Hlt).
    destruct (Hgrow k depth j Hd Hjd) as (depth' & Hd' & Hjd').
    exists k, depth'. rewrite (same_index_accession h h2) by done.
    split_and!; try done. intros kc ec Hc Hec.
    destruct (same_index_entry h2 h kc ec (same_index_sym _ _ Hidx) Hec)
      as (ec0 & Hec0 & Hacc0 & _).
    rewrite <- Hacc0. by apply Hlt. }
  exists h2. split; [done|]. split; [done|]. split; [done|]. split; [|split; [|split]].
  - intros c ls j a Hls Hj Ha.
    destruct (decide (c = skip_content content)) as [->|Hcx].
    { rewrite Hx2 in Hls. injection Hls as <-.
      apply lookup_app_Some in Hj as [Hj|[Hge Hj]].
      - apply (Hold (skip_content content) l j a); [|done|done]. simpl.
        by rewrite He.
      - rewrite Hlen in Hj, Hge.
        destruct (j - i)%nat as [|m] eqn:Hm; [|done]. simpl in Hj. injection Hj as <-.
        assert (j = i) as -> by lia.
        destruct (Hold p links i nxt Hlinks Hnxt Ha) as (k & depth & Hk & Hd & Hjd & _).
        exists k, depth. split_and!; try done. intros kc ec [= <-] Hec.
        rewrite He2 in Hec. injection Hec as <-. simpl.
        destruct Hstop as (ls' & nxt' & Hls' & Hnxt' & Hcase).
        rewrite Hlinks in Hls'. injection Hls' as <-.
        rewrite Hnxt in Hnxt'. injection Hnxt' as <-.
        destruct Hcase as [->|(k' & e' & Hk' & He' & Hcmp)]; [done|].
        rewrite (same_index_accession h h2) in Hk by done.
        rewrite Hk in Hk'. injection Hk' as <-.
        destruct (Hkeys k e' He') as [Hname _]. rewrite Hname in Hcmp.
        destruct (Z.eq_dec (ccn_compare_names k content) 0) as [Hz|Hnz].
        + (* names that compare equal: the successor is the older entry *)
          right. simpl. split_and!.
          * by apply (no_zero Hord).
          * unfold name_lt. lia.
          * destruct (content_from_accession_Some _ _ _ Hk) as (e'' & He'' & Hacc'').
            assert (e'' = e') as -> by congruence. rewrite <- Hacc''.
            apply (Hnew k e'); [|done|].
            -- (* the entry itself has no level [i] yet *)
               intros ->.
               destruct (Hsorted p links i nxt Hlinks Hnxt Ha)
                 as (k0 & d0 & Hk0 & Hd0 & Hi0 & _).
               assert (k0 = content) as -> by congruence.
               rewrite Hdx0 in Hd0. injection Hd0 as <-. lia.
            -- destruct (Hsorted p links i nxt Hlinks Hnxt Ha)
                 as (k0 & d0 & Hk0 & Hd0 & Hi0 & _).
               assert (k0 = k) as -> by congruence.
               unfold node_depth in Hd0. simpl in Hd0. rewrite He' in Hd0.
               simpl in Hd0. by destruct (Content.skiplinks e').
        + left. simpl. apply (no_swap Hord). lia. }
    destruct (decide (c = p)) as [->|Hcp].
    { rewrite Hp2 in Hls. injection Hls as <-.
      destruct (decide (j = i)) as [->|Hji].
      - rewrite list_lookup_insert_eq in Hj by done. injection Hj as <-.
        destruct (Hkeys content e He) as [_ Hacc].
        exists content, (S i). rewrite (same_index_accession h h2) by done.
        split_and!; try done; [lia|].
        intros kc ec -> Hec. left. simpl. by apply Hbefore.
      - rewrite list_lookup_insert_ne in Hj by done.
        by apply (Hold p links j a). }
    rewrite Hother in Hls by done. by apply (Hold c ls j a).
  - by apply Hdepth.
  - done.
  - intros c ls j Hc Hj Hls. destruct (decide (c = p)) as [->|Hcp].
    + rewrite Hlinks in Hls. injection Hls as <-.
      eexists. split; [done|]. by rewrite list_lookup_insert_ne.
    + exists ls. by rewrite Hother.
Qed.

(** The loop that links the new entry in at levels [i .. i + cnt - 1], on a
    sorted skiplist and with the predecessors that the search found. *)
Lemma skiplist_link_levels_sorted (cnt : nat) content pred :
  name_order_ok ->
  forall (i : nat) h e l,
    content_tab h !! content = Some e -> Content.skiplinks e = Some l -> length l = i ->
    newest h content e -> content_keys_ok h -> skiplist_sorted h ->
    (forall j, (i <= j < i + cnt)%nat ->
       exists p depth, pred !! j = Some p /\ p <> skip_content content /\
                       node_depth h p = Some depth /\ (j < depth)%nat /\
                       before_key content p /\ stops_at h content j p) ->
    exists h' e' l',
      skiplist_link_levels h content (Content.accession e) pred i cnt = Some h' /\
      content_tab h' !! content = Some e' /\
      Content.skiplinks e' = Some l' /\ length l' = (i + cnt)%nat /\
      node_depth h' skip_head = node_depth h skip_head /\
      same_index h h' /\ skiplist_sorted h'.
Proof.
  intros Hord. induction cnt as [|cnt IH];
    intros i h e l He Hl Hlen Hnew Hkeys Hsorted Hpred.
  { exists h, e, l. split_and!; try done. lia. }
  cbn [skiplist_link_levels].
  destruct (Hpred i) as (p & depth & Hp & Hpx & Hpd & Hid & Hbefore & Hstop); [lia|].
  rewrite Hp. cbn [mbind option_bind].
  pose proof Hpd as Hpd0. unfold node_depth in Hpd0.
  destruct (skipnode_links h p) as [links|] eqn:Hlinks; [|done].
  simpl in Hpd0. injection Hpd0 as <-. cbn [mbind option_bind].
  destruct (lookup_lt_is_Some_2 links i Hid) as [nxt Hnxt]. rewrite Hnxt.
  cbn [mbind option_bind].
  rewrite He. cbn [mbind option_bind]. rewrite Hl. cbn [mbind option_bind].
  destruct (link_one_level h content e l p i links nxt Hord Hnew He Hl Hlen Hkeys Hsorted
              Hpx Hlinks Hnxt Hbefore Hstop)
    as (h2 & Hset & He2 & Hidx & Hsorted2 & Hhead2 & Hdepth2 & Hframe).
  rewrite Hset. cbn [mbind option_bind].
  set (e1 := Content.set_skiplinks (Some (l ++ [nxt])) e) in *.
  destruct (IH (S i) h2 e1 (l ++ [nxt])) as (h' & e' & l' & Hrun & He' & Hl' & Hlen' & Hhd' & Hidx' & Hs');
    [done|done|rewrite length_app; simpl; lia| |by eapply same_index_keys_ok|done| |].
  { (* the other entries are linked as before, with the same accessions *)
    intros k e2 Hk He2' Hlinked.
    destruct (same_index_entry h2 h k e2 (same_index_sym _ _ Hidx) He2')
      as (e0 & He0 & Hacc0 & _).
    simpl. rewrite <- Hacc0. apply (Hnew k e0); [done|done|].
    specialize (Hdepth2 (skip_content k)). unfold node_depth in Hdepth2.
    simpl in Hdepth2. rewrite He2', He0 in Hdepth2. simpl in Hdepth2.
    destruct Hlinked as [l2 Hl2]. rewrite Hl2 in Hdepth2.
    destruct (Content.skiplinks e0); [done|].
    by specialize (Hdepth2 ltac:(intros [= ->]; done)). }
  { intros j Hj.
    destruct (Hpred j) as (pj & dj & Hpj & Hpjx & Hpjd & Hjd & Hbj & Hsj); [lia|].
    exists pj, dj. split_and!; try done.
    - by rewrite Hdepth2.
    - pose proof Hpjd as Hpjd0. unfold node_depth in Hpjd0.
      destruct (skipnode_links h pj) as [ls|] eqn:Hls; [|done].
      destruct (Hframe pj ls j Hpjx) as (ls' & Hls' & Hsame); [lia|done|].
      apply (same_index_stops_at h h2 content j pj ls'); try done.
      intros ls0 Hls0. assert (ls0 = ls) as -> by congruence. done. }
  exists h', e', l'. split; [exact Hrun|]. split_and!; try done.
  - lia.
  - by rewrite Hhd'.
  - by eapply same_index_trans.
Qed.

(** The skiplist of the daemon after start-up is sorted: it is empty. *)
Lemma ccnd_create_sorted seed0 :
  content_keys_ok (ccnd_create seed0) /\ skiplist_sorted (ccnd_create seed0).
Proof.
  split.
  - intros k e He. simpl in He. by rewrite lookup_empty in He.
  - intros [|k] links i a Hlinks Hi; simpl in Hlinks.
    + injection Hlinks as <-. done.
    + by rewrite lookup_empty in Hlinks.
Qed.

End SkiplistSorted.

Section SkiplistInsert.

Context `{P : ccnd_private} `{L : ccn_library}.

(** Writing the links of [content] leaves the depth of every other node. *)
Lemma node_depth_set_content h content e' c :
  c <> skip_content content ->
  node_depth (set_content_tab (<[content := e']> (content_tab h)) h) c = node_depth h c.
Proof.
  intros Hc. unfold node_depth. destruct c as [|k]; simpl; [done|].
  rewrite lookup_insert_ne; [done|]. intros ->. by apply Hc.
Qed.

(** Writing one link of a node leaves every depth. *)
Lemma skipnode_set_link_depth h p (i : nat) v depth :
  node_depth h p = Some depth -> (i < depth)%nat ->
  exists h', skipnode_set_link h p i v = Some h' /\
             (forall c, node_depth h' c = node_depth h c) /\
             (forall k, k <> match p with skip_content kp => kp | skip_head => k end ->
                        content_tab h' !! k = content_tab h !! k) /\
             (forall k, p = skip_head -> content_tab h' !! k = content_tab h !! k).
Proof.
  unfold node_depth. destruct p as [|kp]; simpl.
  - intros [= <-] Hi. rewrite bool_decide_eq_true_2 by done.
    eexists. split; [done|]. split; [|done].
    intros [|k]; simpl; [|done]. by rewrite length_insert.
  - destruct (content_tab h !! kp) as [e|] eqn:He; [|done]. simpl.
    destruct (Content.skiplinks e) as [l|] eqn:Hl; [|done]. simpl.
    intros [= <-] Hi. rewrite bool_decide_eq_true_2 by done.
    eexists. split; [done|]. split; [|split].
    + intros [|k]; simpl; [done|].
      destruct (decide (k = kp)) as [->|Hne].
      * rewrite lookup_insert_eq, He. simpl. by rewrite Hl, length_insert.
      * by rewrite lookup_insert_ne.
    + intros k Hk. simpl. by rewrite lookup_insert_ne.
    + done.
Qed.

(** The loop that links the new entry in at levels [i .. i + cnt - 1]. *)
Lemma skiplist_link_levels_total (cnt : nat) content accession pred :
  forall (i : nat) h e l,
    content_tab h !! content = Some e -> Content.skiplinks e = Some l -> length l = i ->
    (forall j, (i <= j < i + cnt)%nat ->
       exists p depth, pred !! j = Some p /\ p <> skip_content content /\
                       node_depth h p = Some depth /\ (j < depth)%nat) ->
    exists h' e' l',
      skiplist_link_levels h content accession pred i cnt = Some h' /\
      content_tab h' !! content = Some e' /\
      Content.skiplinks e' = Some l' /\ length l' = (i + cnt)%nat /\
      node_depth h' skip_head = node_depth h skip_head.
Proof.
  induction cnt as [|cnt IH]; intros i h e l He Hl Hlen Hpred.
  { exists h, e, l. split; [done|]. split; [done|]. split; [done|]. split; [lia|done]. }
  cbn [skiplist_link_levels].
  destruct (Hpred i) as (p & depth & Hp & Hpc & Hpd & Hid); [lia|].
  rewrite Hp. cbn [mbind option_bind].
  pose proof Hpd as Hpd0. unfold node_depth in Hpd0.
  destruct (skipnode_links h p) as [links|] eqn:Hlinks; [|done].
  simpl in Hpd0. injection Hpd0 as <-. cbn [mbind option_bind].
  destruct (lookup_lt_is_Some_2 links i Hid) as [nxt ->]. cbn [mbind option_bind].
  rewrite He. cbn [mbind option_bind]. rewrite Hl. cbn [mbind option_bind].
  set (e1 := Content.set_skiplinks (Some (l ++ [nxt])) e).
  set (h1 := set_content_tab (<[content := e1]> (content_tab h)) h).
  destruct (skipnode_set_link_depth h1 p i accession (length links))
    as (h2 & -> & Hdepth2 & Hother2 & Hhead2); [|done|].
  { unfold h1. rewrite node_depth_set_content by done.
    unfold node_depth. by rewrite Hlinks. }
  cbn [mbind option_bind].
  assert (content_tab h2 !! content = Some e1) as He2.
  { destruct p as [|kp].
    - rewrite Hhead2 by done. apply lookup_insert_eq.
    - rewrite Hother2 by (intros ->; by apply Hpc). apply lookup_insert_eq. }
  destruct (IH (S i) h2 e1 (l ++ [nxt])) as (h' & e' & l' & Hrun & He' & Hl' & Hlen' & Hhd');
    [done|done|rewrite length_app; simpl; lia| |].
  { intros j Hj. destruct (Hpred j) as (pj & dj & Hpj & Hpjc & Hpjd & Hjd); [lia|].
    exists pj, dj. split; [done|]. split; [done|]. split; [|done].
    rewrite Hdepth2. unfold h1. by rewrite node_depth_set_content. }
  exists h', e', l'. split; [done|]. split; [done|]. split; [done|]. split; [lia|].
  rewrite Hhd', Hdepth2. unfold h1. by rewrite node_depth_set_content.
Qed.

End SkiplistInsert.

(** On a well-formed skiplist the insertion returns, with the depth chosen
    from the random stream. *)
Lemma content_skiplist_insert_returns `{P : ccnd_private} `{L : ccn_library}
    (h : ccnd) (content : list byte) (e : Content.t) (rank : Z -> nat) :
  content_tab h !! content = Some e -> Content.skiplinks e = None ->
  skiplist_wf h rank ->
  let d := chosen_depth (seed h) in
  1 <= d <= 29 /\
  (forall r, (Z.land r 3 =? 0) = true <-> r mod 4 = 0) /\
  exists h' e' l,
    content_skiplist_insert h content = Some h' /\
    content_tab h' !! content = Some e' /\
    Content.skiplinks e' = Some l /\ zlength l = d /\
    length (skiplinks h') = Nat.max (length (skiplinks h)) (Z.to_nat d).
Proof.
  intros He Hl Hwf d. split; [apply chosen_depth_range|].
  split; [apply depth_grows_on_one_residue_of_four|].
  pose proof (chosen_depth_range (seed h)) as Hd. fold d in Hd.
  unfold content_skiplist_insert. rewrite He. cbn [mbind option_bind].
  rewrite Hl. rewrite bool_decide_eq_false_2 by (intros [? ?]; done).
  pose proof (skiplist_choose_depth_spec (Z.to_nat (CCN_SKIPLIST_MAX_DEPTH - 1 - 1)) 1 (seed h))
    as Hchoose.
  cbv zeta in Hchoose.
  change (CCN_SKIPLIST_MAX_DEPTH - 1 - 1) with (CCN_SKIPLIST_MAX_DEPTH - 2) in *.
  fold (chosen_depth (seed h)) in Hchoose. fold d in Hchoose.
  destruct (skiplist_choose_depth _ 1 (seed h)) as [d0 seed'].
  injection Hchoose as -> Hseed.
  set (h1 := set_skiplinks _ (set_seed seed' h)).
  assert (length (skiplinks h1)
          = Nat.max (length (skiplinks h)) (Z.to_nat d)) as Hlen1.
  { unfold h1. simpl. rewrite length_app, length_replicate. lia. }
  assert (skiplist_wf h1 rank) as Hwf1.
  { split.
    - intros k e0 Hk. by apply (sw_bound _ _ Hwf k e0).
    - intros c i links a Hlinks Ha Hne.
      destruct c as [|k].
      + simpl in Hlinks. injection Hlinks as <-.
        apply lookup_app_Some in Ha as [Ha|[_ Ha]].
        * destruct (sw_link _ _ Hwf skip_head i (skiplinks h) a) as (k & dk & ? & ? & ? & ?);
            [done|done|done|]. by exists k, dk.
        * apply lookup_replicate in Ha as [-> _]. done.
      + destruct (sw_link _ _ Hwf (skip_content k) i links a) as (k' & dk & ? & ? & ? & ?);
          [done|done|done|]. by exists k', dk. }
  destruct (findbefore_levels_total h1 rank
              (bytes_at (Content.key e) 0 (Content.key_size e))
              (length (skiplinks h1)) Hwf1 skip_head (length (skiplinks h1)))
    as (pred & Hfind & Hplen & Hpred); [done|lia|].
  unfold content_skiplist_findbefore. rewrite Hfind. cbn [mbind option_bind].
  assert ((zlength pred <? d) = false) as ->.
  { apply Z.ltb_ge. unfold zlength. rewrite Hplen, Hlen1. lia. }
  set (h2 := set_content_tab _ h1).
  destruct (skiplist_link_levels_total (Z.to_nat d) content (Content.accession e) pred
              0 h2 (Content.set_skiplinks (Some []) e) [])
    as (h' & e' & l' & Hrun & He' & Hl' & Hlen' & Hhd'); [apply lookup_insert_eq|done|done| |].
  { intros j Hj. destruct (Hpred j) as (p & depth & Hp & Hpd & Hjd); [lia|].
    assert (p <> skip_content content) as Hpc.
    { intros ->. unfold node_depth in Hpd. simpl in Hpd.
      rewrite He in Hpd. simpl in Hpd. by rewrite Hl in Hpd. }
    exists p, depth. split; [done|]. split; [done|]. split; [|done].
    unfold h2. by rewrite node_depth_set_content. }
  exists h', e', l'. split; [done|]. split; [done|]. split; [done|]. split.
  - unfold zlength. rewrite Hlen'. lia.
  - unfold node_depth in Hhd'. simpl in Hhd'. injection Hhd' as ->.
    rewrite <- Hlen1. done.
Qed.

(** On a sorted skiplist, the insertion of an entry that is newer than the
    entries linked so far returns and leaves the skiplist sorted. *)
Lemma content_skiplist_insert_sorted `{P : ccnd_private} `{L : ccn_library}
    (h : ccnd) (content : list byte) (e : Content.t) :
  name_order_ok -> newest h content e ->
  content_tab h !! content = Some e -> Content.skiplinks e = None ->
  content_keys_ok h -> skiplist_sorted h ->
  exists h',
    content_skiplist_insert h content = Some h' /\
    content_keys_ok h' /\ skiplist_sorted h'.
Proof.
  intros Hord Hnew He Hl Hkeys Hsorted. set (d := chosen_depth (seed h)).
  pose proof (chosen_depth_range (seed h)) as Hd. fold d in Hd.
  unfold content_skiplist_insert. rewrite He. cbn [mbind option_bind].
  rewrite Hl. rewrite bool_decide_eq_false_2 by (intros [? ?]; done).
  pose proof (skiplist_choose_depth_spec (Z.to_nat (CCN_SKIPLIST_MAX_DEPTH - 1 - 1)) 1 (seed h))
    as Hchoose.
  cbv zeta in Hchoose.
  change (CCN_SKIPLIST_MAX_DEPTH - 1 - 1) with (CCN_SKIPLIST_MAX_DEPTH - 2) in *.
  fold (chosen_depth (seed h)) in Hchoose. fold d in Hchoose.
  destruct (skiplist_choose_depth _ 1 (seed h)) as [d0 seed'].
  injection Hchoose as -> Hseed.
  (* the head is extended to [d] levels *)
  set (h1 := set_skiplinks _ (set_seed seed' h)).
  assert (length (skiplinks h1)
          = Nat.max (length (skiplinks h)) (Z.to_nat d)) as Hlen1.
  { unfold h1. simpl. rewrite length_app, length_replicate. lia. }
  assert (same_index h h1) as Hidx1 by done.
  assert (content_keys_ok h1) as Hkeys1 by (by eapply same_index_keys_ok).
  assert (skiplist_sorted h1) as Hsorted1.
  { intros c links i a Hlinks Ha Hne.
    assert (exists ls, skipnode_links h c = Some ls /\ ls !! i = Some a) as (ls & Hls & Hi).
    { destruct c as [|k]; [|by exists links].
      simpl in Hlinks. injection Hlinks as <-. exists (skiplinks h). split; [done|].
      apply lookup_app_Some in Ha as [Ha|[_ Ha]]; [done|].
      apply lookup_replicate in Ha as [-> _]. done. }
    destruct (Hsorted c ls i a Hls Hi Hne) as (k & depth & Hk & Hdk & Hik & Hlt).
    exists k, depth. rewrite (same_index_accession h h1) by done.
    split_and!; try done; intros kc ec -> Hec; by apply (Hlt kc ec). }
  (* the search *)
  pose proof (skiplist_sorted_wf h1 Hord Hkeys1 Hsorted1) as Hwf1.
  destruct (findbefore_levels_total h1 (rank_of h1) content
              (length (skiplinks h1)) Hwf1 skip_head (length (skiplinks h1)))
    as (pred & Hfind & Hplen & Hpred); [done|lia|].
  destruct (Hkeys content e He) as [Hname Hacc]. unfold entry_name in Hname.
  rewrite Hname.
  unfold content_skiplist_findbefore. rewrite Hfind. cbn [mbind option_bind].
  assert ((zlength pred <? d) = false) as ->.
  { apply Z.ltb_ge. unfold zlength. rewrite Hplen, Hlen1. lia. }
  pose proof (findbefore_levels_post h1 content (length (skiplinks h1)) Hkeys1
                skip_head pred) as Hpost.
  (* the entry gets an empty vector of links *)
  set (e2 := Content.set_skiplinks (Some []) e).
  set (h2 := set_content_tab _ h1).
  assert (same_index h1 h2) as Hidx2.
  { split_and!; try done. intros k. unfold h2. simpl.
    destruct (decide (k = content)) as [->|Hne].
    - by rewrite lookup_insert_eq, He.
    - by rewrite lookup_insert_ne. }
  assert (forall c, c <> skip_content content -> skipnode_links h2 c = skipnode_links h1 c)
    as Hlinks2.
  { intros [|k] Hc; [done|]. unfold h2. simpl.
    rewrite lookup_insert_ne; [done|]. intros ->. by apply Hc. }
  assert (skiplist_sorted h2) as Hsorted2.
  { intros c links i a Hlinks Ha Hne.
    destruct (decide (c = skip_content content)) as [->|Hc].
    { unfold h2 in Hlinks. simpl in Hlinks. rewrite lookup_insert_eq in Hlinks.
      simpl in Hlinks. injection Hlinks as <-. done. }
    rewrite Hlinks2 in Hlinks by done.
    destruct (Hsorted1 c links i a Hlinks Ha Hne) as (k & depth & Hk & Hdk & Hik & Hlt).
    exists k, depth. rewrite (same_index_accession h1 h2) by done.
    split_and!; try done.
    - unfold h2. rewrite node_depth_set_content; [done|].
      intros [= ->]. unfold node_depth in Hdk. simpl in Hdk.
      rewrite He in Hdk. simpl in Hdk. by rewrite Hl in Hdk.
    - intros kc ec -> Hec. apply (Hlt kc ec); [done|].
      unfold h2 in Hec. simpl in Hec. rewrite lookup_insert_ne in Hec; [done|].
      intros <-. by apply Hc. }
  destruct (skiplist_link_levels_sorted (Z.to_nat d) content pred Hord 0 h2 e2 [])
    as (h' & e' & l' & Hrun & He' & Hl' & Hlen' & Hhd' & Hidx' & Hsorted');
    [apply lookup_insert_eq|done|done| |by eapply same_index_keys_ok|done| |].
  { intros k e' Hk He' Hlinked. unfold h2 in He'. simpl in He'.
    rewrite lookup_insert_ne in He' by done. by apply (Hnew k e'). }
  { intros j Hj. destruct (Hpred j) as (p & depth & Hp & Hpd & Hjd); [lia|].
    assert (p <> skip_content content) as Hpc.
    { intros ->. unfold node_depth in Hpd. simpl in Hpd.
      rewrite He in Hpd. simpl in Hpd. by rewrite Hl in Hpd. }
    assert (before_key content skip_head) as Hhead0 by (intros kc; discriminate).
    destruct (Hpost Hhead0 Hfind j p Hp) as [Hbefore Hstop].
    exists p, depth. split_and!; try done.
    - unfold h2. by rewrite node_depth_set_content.
    - pose proof Hpd as Hpd0. unfold node_depth in Hpd0.
      destruct (skipnode_links h1 p) as [ls|] eqn:Hls; [|done].
      apply (same_index_stops_at h1 h2 content j p ls); try done.
      + by rewrite Hlinks2.
      + intros ls0 Hls0. congruence. }
  assert (same_index h h') as Hidx.
  { eapply same_index_trans; [exact Hidx1|].
    eapply same_index_trans; [exact Hidx2|exact Hidx']. }
  exists h'. split; [exact Hrun|]. split; [by eapply same_index_keys_ok|done].
Qed.

(** C4, as amended.  On a well-formed skiplist, [content_skiplist_insert]
    of a stored entry that is not yet linked returns, and the entry gets
    [d] levels, where [d] is one more than the number of draws at the front
    of the random stream whose two low bits are 0 - one value of the four,
    so a flip continues with probability 1/4 - counting at most 28 draws:
    [1 <= d <= 29].  The head of the skiplist is first extended to [d]
    levels, so the test against the number of levels found never lowers [d],
    and one insertion can add several levels.  Where the skiplist is sorted
    - by name, and newer entries first among names that compare equal - and
    the entry is newer than those linked so far, the skiplist is sorted
    afterwards, and well formed again. *)
Theorem content_skiplist_insert_depth `{P : ccnd_private} `{L : ccn_library}
    (h : ccnd) (content : list byte) (e : Content.t) (rank : Z -> nat) :
  content_tab h !! content = Some e -> Content.skiplinks e = None ->
  skiplist_wf h rank ->
  let d := chosen_depth (seed h) in
  1 <= d <= 29 /\
  (forall r, (Z.land r 3 =? 0) = true <-> r mod 4 = 0) /\
  exists h' e' l,
    content_skiplist_insert h content = Some h' /\
    content_tab h' !! content = Some e' /\
    Content.skiplinks e' = Some l /\ zlength l = d /\
    length (skiplinks h') = Nat.max (length (skiplinks h)) (Z.to_nat d) /\
    (name_order_ok -> newest h content e -> content_keys_ok h -> skiplist_sorted h ->
     content_keys_ok h' /\ skiplist_sorted h' /\ skiplist_wf h' (rank_of h')).
Proof.
  intros He Hl Hwf d.
  destruct (content_skiplist_insert_returns h content e rank He Hl Hwf)
    as (Hd & Hres & h' & e' & l & Hrun & He' & Hl' & Hlen & Hhead).
  split; [done|]. split; [done|]. exists h', e', l. split_and!; try done.
  intros Hord Hnew Hkeys Hsorted.
  destruct (content_skiplist_insert_sorted h content e Hord Hnew He Hl Hkeys Hsorted)
    as (h'' & Hrun' & Hkeys' & Hsorted').
  assert (h'' = h') as -> by congruence.
  split_and!; try done. by apply skiplist_sorted_wf.
Qed.

(** ** A checkable form of [skiplist_sorted] *)

Section SkiplistCheck.

Context `{P : ccnd_private} `{L : ccn_library}.

Lemma links_okb_lookup h c links (i : nat) a :
  links_okb h c links = true -> links !! i = Some a -> link_okb h c i a = true.
Proof.
  unfold links_okb. rewrite forallb_forall. intros Hall Hi.
  apply (Hall (i, a)). apply list_elem_of_In.
  apply list_elem_of_lookup. exists i.
  by rewrite list_lookup_imap, Hi.
Qed.

Lemma link_okb_spec h c (i : nat) a :
  link_okb h c i a = true -> a <> 0 ->
  exists k depth,
    content_from_accession h a = Some k /\
    node_depth h (skip_content k) = Some depth /\ (i < depth)%nat /\
    forall kc ec, c = skip_content kc -> content_tab h !! kc = Some ec ->
      entry_lt (kc, Content.accession ec) (k, a).
Proof.
  unfold link_okb. intros Hok Ha.
  apply orb_true_iff in Hok as [Hz|Hok]; [lia|].
  destruct (content_from_accession h a) as [k|]; [|done].
  destruct (node_depth h (skip_content k)) as [depth|] eqn:Hd; [|done].
  apply andb_true_iff in Hok as [Hi Hlt].
  apply bool_decide_eq_true in Hi.
  exists k, depth. split_and!; try done.
  intros kc ec -> Hec. rewrite Hec in Hlt. by apply bool_decide_eq_true in Hlt.
Qed.

Lemma skiplist_sortedb_sound h :
  skiplist_sortedb h = true -> skiplist_sorted h.
Proof.
  unfold skiplist_sortedb. intros [Hhead Hall]%andb_true_iff.
  rewrite forallb_forall in Hall.
  intros c links i a Hlinks Hi Ha. destruct c as [|k]; simpl in Hlinks.
  - injection Hlinks as <-.
    apply (link_okb_spec h skip_head i a); [|done].
    by apply (links_okb_lookup h skip_head (skiplinks h)).
  - destruct (content_tab h !! k) as [e|] eqn:He; [|done]. simpl in Hlinks.
    specialize (Hall (k, e)). simpl in Hall. rewrite Hlinks in Hall.
    apply (link_okb_spec h (skip_content k) i a); [|done].
    apply (links_okb_lookup h (skip_content k) links); [|done].
    apply Hall. apply list_elem_of_In. by apply elem_of_map_to_list.
Qed.

End SkiplistCheck.

(** ** The byte order of the sample library *)

Lemma compare_bytes_refl a : compare_bytes a a = 0.
Proof. induction a as [|x a IH]; simpl; [done|]. by rewrite N.compare_refl. Qed.

Lemma compare_bytes_eq a b : compare_bytes a b = 0 -> a = b.
Proof.
  revert b. induction a as [|x a IH]; intros [|y b]; simpl; try done.
  destruct (N.compare (Byte.to_N x) (Byte.to_N y)) eqn:Hc; try done.
  intros Hab. apply N.compare_eq_iff in Hc.
  assert (x = y) as ->.
  { pose proof (byte_of_to_N x) as Hx. pose proof (byte_of_to_N y) as Hy.
    rewrite Hc in Hx. congruence. }
  f_equal. by apply IH.
Qed.

Lemma compare_bytes_swap a b : 0 < compare_bytes a b -> compare_bytes b a < 0.
Proof.
  revert b. induction a as [|x a IH]; intros [|y b]; simpl; try lia.
  rewrite (N.compare_antisym (Byte.to_N x) (Byte.to_N y)).
  destruct (N.compare (Byte.to_N x) (Byte.to_N y)); simpl; try lia. apply IH.
Qed.

Lemma compare_bytes_trans a b c :
  compare_bytes a b < 0 -> compare_bytes b c < 0 -> compare_bytes a c < 0.
Proof.
  revert b c. induction a as [|x a IH]; intros [|y b] [|z c]; simpl; try lia.
  destruct (N.compare (Byte.to_N x) (Byte.to_N y)) eqn:Hxy;
    destruct (N.compare (Byte.to_N y) (Byte.to_N z)) eqn:Hyz; try lia.
  - apply N.compare_eq_iff in Hxy, Hyz. rewrite Hxy, Hyz, N.compare_refl. apply IH.
  - apply N.compare_eq_iff in Hxy. rewrite Hxy, Hyz. lia.
  - apply N.compare_eq_iff in Hyz. rewrite <- Hyz, Hxy. lia.
  - assert (N.compare (Byte.to_N x) (Byte.to_N z) = Lt) as ->; [|lia].
    exact (N.lt_trans _ _ _ Hxy Hyz).
Qed.

Lemma sample_name_order_ok : name_order_ok (L := sample_library).
Proof.
  split; unfold name_lt; simpl.
  - intros a. rewrite compare_bytes_refl. lia.
  - apply compare_bytes_trans.
  - intros a b c Hab.
    destruct (Z.lt_trichotomy (compare_bytes a c) 0) as [Hac|[Hac|Hac]].
    + by left.
    + apply compare_bytes_eq in Hac. subst c. by right.
    + right. apply compare_bytes_swap in Hac. by apply (compare_bytes_trans c a b).
  - apply compare_bytes_swap.
  - intros a b Hab. apply compare_bytes_eq in Hab. subst b.
    rewrite compare_bytes_refl. lia.
Qed.

(** ** Insertions run on the sample daemon *)

Section SkiplistRun.

#[local] Existing Instance sample_private.

#[local] Existing Instance sample_library.

(** C4 as stated fails.  With draws that all end in the same two bits, the
    loop of [content_skiplist_insert] stops at depth 1 for three of the four
    values of these bits, and runs to the end for the fourth, 0: the depth
    grows on one draw in four.  With the POSIX stream seeded with 59, the
    first insertion, into a skiplist without any level, gives the entry and
    the skiplist four levels at once. *)
Lemma skiplist_depth_counterexample :
  (skiplist_choose_depth (L := constant_stream 1) 28 1 0).1 = 1 /\
  (skiplist_choose_depth (L := constant_stream 2) 28 1 0).1 = 1 /\
  (skiplist_choose_depth (L := constant_stream 3) 28 1 0).1 = 1 /\
  (skiplist_choose_depth (L := constant_stream 0) 28 1 0).1 = 29 /\
  skiplinks first_stored = [] /\
  Content.skiplinks <$> content_tab first_stored !! bytes_at content_xy1 0 6 = Some None /\
  exists h',
    content_skiplist_insert first_stored (bytes_at content_xy1 0 6) = Some h' /\
    skiplinks h' = [1; 1; 1; 1] /\
    Content.skiplinks <$> content_tab h' !! bytes_at content_xy1 0 6
    = Some (Some [0; 0; 0; 0]).
Proof.
  split_and!; try (vm_compute; reflexivity).
  eexists. split_and!; vm_compute; reflexivity.
Qed.

Example third_stored_depth :
  chosen_depth (seed third_stored) = 2 /\
  skiplinks third_stored = [1; 1; 1; 1] /\
  (fun h => skiplinks h) <$> content_skiplist_insert third_stored (bytes_at content_xy0 0 6)
  = Some [3; 3; 1; 1].
Proof. split_and!; vm_compute; reflexivity. Qed.

Lemma third_stored_sorted :
  newest third_stored (bytes_at content_xy0 0 6) third_stored_entry /\
  content_keys_ok third_stored /\ skiplist_sorted third_stored.
Proof.
  split_and!.
  - intros k e' Hk He'. revert Hk. revert k e' He'.
    change (map_Forall
              (fun k e' => k <> bytes_at content_xy0 0 6 ->
                           is_Some (Content.skiplinks e') ->
                           Content.accession e' < Content.accession third_stored_entry)
              (content_tab third_stored)).
    apply (bool_decide_unpack _). vm_compute. exact I.
  - unfold content_keys_ok.
    change (map_Forall
              (fun k e => entry_name e = k /\
                          content_from_accession third_stored (Content.accession e) = Some k)
              (content_tab third_stored)).
    apply (bool_decide_unpack _). vm_compute. exact I.
  - apply skiplist_sortedb_sound. vm_compute. reflexivity.
Qed.

Lemma content_skiplist_insert_depth_witness :
  content_tab third_stored !! bytes_at content_xy0 0 6 = Some third_stored_entry /\
  Content.skiplinks third_stored_entry = None /\
  skiplist_wf third_stored (rank_of third_stored) /\
  1 <= chosen_depth (seed third_stored) <= 29 /\
  (forall r, (Z.land r 3 =? 0) = true <-> r mod 4 = 0) /\
  exists h' e' l,
    content_skiplist_insert third_stored (bytes_at content_xy0 0 6) = Some h' /\
    content_tab h' !! bytes_at content_xy0 0 6 = Some e' /\
    Content.skiplinks e' = Some l /\ zlength l = chosen_depth (seed third_stored) /\
    length (skiplinks h')
    = Nat.max (length (skiplinks third_stored))
              (Z.to_nat (chosen_depth (seed third_stored))) /\
    (name_order_ok -> newest third_stored (bytes_at content_xy0 0 6) third_stored_entry ->
     content_keys_ok third_stored -> skiplist_sorted third_stored ->
     content_keys_ok h' /\ skiplist_sorted h' /\ skiplist_wf h' (rank_of h')).
Proof.
  assert (skiplist_wf third_stored (rank_of third_stored)) as Hwf.
  { apply skiplist_sorted_wf; [exact sample_name_order_ok|apply third_stored_sorted..]. }
  split; [vm_compute; reflexivity|].
  split; [reflexivity|].
  split; [exact Hwf|].
  exact (content_skiplist_insert_depth third_stored (bytes_at content_xy0 0 6)
           third_stored_entry (rank_of third_stored)
           ltac:(vm_compute; reflexivity) eq_refl Hwf).
Defined.

End SkiplistRun.

(** ** Names that compare equal *)

Lemma prefix_name_order_ok (n : nat) : name_order_ok (L := prefix_library n).
Proof.
  destruct sample_name_order_ok as [Hi Ht Hw Hs Hz].
  unfold name_lt in *. simpl in *.
  split; unfold name_lt; simpl.
  - intros a. apply Hi.
  - intros a b c. apply Ht.
  - intros a b c. apply Hw.
  - intros a b. apply Hs.
  - intros a b. apply Hz.
Qed.

Section TiedNames.

#[local] Existing Instance sample_private.

(** The skiplist is sorted, and at the lowest level the newest entry comes
    first: the head leads to accession 3, that to 2, that to 1. *)
Example tied_names_sorted :
  (fun h => (skiplist_sortedb (L := prefix_library 5) h, skiplinks h,
             Content.skiplinks <$> content_tab h !! bytes_at content_xy0 0 6,
             Content.skiplinks <$> content_tab h !! bytes_at content_xy2 0 6,
             Content.skiplinks <$> content_tab h !! bytes_at content_xy1 0 6))
    <$> tied_arrivals
  = Some (true, [3; 3; 1; 1], Some (Some [2; 1]), Some (Some [1]),
          Some (Some [0; 0; 0; 0])).
Proof. vm_compute. reflexivity. Qed.

End TiedNames.

(** * Further properties of the code *)

(** ** Index buffers used as sets (lines 615-631, 1051-1073) *)

Lemma list_find_eq_None (l : list Z) (val : Z) :
  list_find (fun v => v = val) l = None <-> val ∉ l.
Proof.
  rewrite list_find_None, Forall_forall. split.
  - intros H Hin. by apply (H val).
  - intros H x Hin ->. done.
Qed.

Lemma indexbuf_member_below_spec (l : list Z) (val : Z) (n : nat) :
  (indexbuf_member_below l val n = -1 /\
   forall j, (j < n)%nat -> l !! j <> Some val) \/
  (exists i : nat, indexbuf_member_below l val n = Z.of_nat i /\ (i < n)%nat /\
     l !! i = Some val /\ forall j, (i < j < n)%nat -> l !! j <> Some val).
Proof.
  induction n as [|n IH]; simpl.
  - left. split; [done|]. intros j Hj. lia.
  - case_bool_decide as Hn.
    + right. exists n. split_and!; [done|lia|done|]. intros j Hj. lia.
    + destruct IH as [[-> Hall]|(i & -> & Hi & Hv & Hafter)].
      * left. split; [done|]. intros j Hj.
        destruct (decide (j = n)) as [->|]; [done|]. apply Hall. lia.
      * right. exists i. split_and!; [done|lia|done|]. intros j Hj.
        destruct (decide (j = n)) as [->|]; [done|]. apply Hafter. lia.
Qed.

(** X1. [indexbuf_unordered_set_insert] treats the buffer as a set: a value
    that is present is not added again and the buffer is unchanged, a new
    value is appended; the index returned is the first place that holds the
    value, and every earlier element stays where it was. *)
Theorem indexbuf_unordered_set_insert_spec (l : list Z) (val : Z) :
  exists (i : nat) (l' : list Z),
    indexbuf_unordered_set_insert (Some l) val = (Some l', Z.of_nat i) /\
    l' = (if bool_decide (val ∈ l) then l else l ++ [val]) /\
    l' !! i = Some val /\
    (forall j, (j < i)%nat -> l' !! j <> Some val) /\
    (NoDup l -> NoDup l').
Proof.
  unfold indexbuf_unordered_set_insert.
  destruct (list_find (fun v => v = val) l) as [[i v]|] eqn:Hf.
  - apply list_find_Some in Hf as (Hi & -> & Hbefore).
    assert (val ∈ l) as Hin by (by eapply list_elem_of_lookup_2).
    exists i, l. rewrite bool_decide_eq_true_2 by done.
    split_and!; try done.
    intros j Hj Hv. by apply (Hbefore j val).
  - apply list_find_eq_None in Hf.
    exists (length l), (l ++ [val]). rewrite bool_decide_eq_false_2 by done.
    split_and!; try done.
    + rewrite lookup_app_r by lia. by rewrite Nat.sub_diag.
    + intros j Hj. rewrite lookup_app_l by done. intros Hv.
      apply Hf. by eapply list_elem_of_lookup_2.
    + intros Hnd. apply NoDup_app. split_and!; [done| |apply NoDup_singleton].
      intros x Hx ->%list_elem_of_singleton. done.
Qed.

(** X2. [indexbuf_member] answers -1 exactly for a value that is not in the
    buffer (or for a NULL buffer); for a value that is present it answers the
    last place that holds it. *)
Theorem indexbuf_member_spec (l : list Z) (val : Z) :
  indexbuf_member None val = -1 /\
  (indexbuf_member (Some l) val = -1 <-> val ∉ l) /\
  (val ∈ l ->
   exists i : nat, indexbuf_member (Some l) val = Z.of_nat i /\
     l !! i = Some val /\ forall j, (i < j)%nat -> l !! j <> Some val).
Proof.
  split; [done|]. simpl.
  destruct (indexbuf_member_below_spec l val (length l))
    as [[Hm Hall]|(i & Hm & Hi & Hv & Hafter)].
  - assert (val ∉ l) as Hnot.
    { intros (j & Hj)%list_elem_of_lookup. apply (Hall j); [|done].
      by eapply lookup_lt_Some. }
    split; [done|]. intros Hin. done.
  - assert (val ∈ l) as Hin by (by eapply list_elem_of_lookup_2).
    split; [split; [lia|done]|].
    intros _. exists i. split_and!; [done|done|].
    intros j Hj Hvj. apply (Hafter j); [|done].
    split; [done|]. by eapply lookup_lt_Some.
Qed.

(** X3. [indexbuf_remove_element] takes out exactly one occurrence of the
    value: the buffer before is a rearrangement of the value followed by the
    buffer after (the last element moves into the vacant place).  A buffer
    that does not hold the value is unchanged, and a buffer without
    duplicates no longer holds the value afterwards. *)
Theorem indexbuf_remove_element_spec (l : list Z) (val : Z) :
  exists l', indexbuf_remove_element (Some l) val = Some l' /\
    (if bool_decide (val ∈ l) then l ≡ₚ val :: l' else l' = l) /\
    (NoDup l -> NoDup l' /\ indexbuf_member (Some l') val = -1).
Proof.
  assert (exists l', indexbuf_remove_element (Some l) val = Some l' /\
            (if bool_decide (val ∈ l) then l ≡ₚ val :: l' else l' = l))
    as (l' & Hrm & Hspec).
  { unfold indexbuf_remove_element.
    destruct (indexbuf_member_below_spec l val (length l))
      as [[-> Hall]|(i & -> & Hi & Hv & Hafter)].
    - simpl. exists l. split; [done|].
      rewrite bool_decide_eq_false_2; [done|].
      intros (j & Hj)%list_elem_of_lookup. apply (Hall j); [|done].
      by eapply lookup_lt_Some.
    - assert (val ∈ l) as Hin by (by eapply list_elem_of_lookup_2).
      rewrite bool_decide_eq_true_2 by done.
      replace (Z.of_nat i <? 0) with false by (symmetry; apply Z.ltb_ge; lia).
      pose proof (take_drop_middle l i val Hv) as Hsplit.
      set (l1 := take i l) in *. set (l2 := drop (S i) l) in *.
      assert (length l1 = i) as Hl1 by (apply length_take_le; lia).
      destruct (decide (l2 = [])) as [Hnil|Hcons].
      + rewrite Hnil in Hsplit. rewrite <- Hsplit.
        rewrite last_snoc. eexists. split; [done|].
        unfold zupdate.
        replace (Z.of_nat i <? 0) with false by (symmetry; apply Z.ltb_ge; lia).
        rewrite Nat2Z.id, <- Hl1.
        rewrite insert_app_r_alt by lia. rewrite Nat.sub_diag. simpl.
        rewrite length_app. simpl.
        replace (length l1 + 1 - 1)%nat with (length l1) by lia.
        rewrite take_app_length.
        symmetry. apply Permutation_cons_append.
      + destruct (exists_last Hcons) as (l2' & e & Hl2).
        rewrite Hl2 in Hsplit. rewrite <- Hsplit.
        replace (l1 ++ val :: l2' ++ [e]) with ((l1 ++ val :: l2') ++ [e])
          by (by rewrite <- app_assoc).
        rewrite last_snoc. eexists. split; [done|].
        unfold zupdate.
        replace (Z.of_nat i <? 0) with false by (symmetry; apply Z.ltb_ge; lia).
        rewrite Nat2Z.id, <- Hl1.
        rewrite <- app_assoc. simpl.
        rewrite insert_app_r_alt by lia. rewrite Nat.sub_diag. simpl.
        rewrite length_app. simpl. rewrite length_app. simpl.
        replace (length l1 + S (length l2' + 1) - 1)%nat
          with (length (l1 ++ e :: l2')) by (rewrite length_app; simpl; lia).
        replace (l1 ++ e :: l2' ++ [e]) with ((l1 ++ e :: l2') ++ [e])
          by (by rewrite <- app_assoc).
        rewrite take_app_length.
        rewrite <- (Permutation_middle l1 (l2' ++ [e]) val).
        apply Permutation_skip, Permutation_app_head.
        symmetry. apply Permutation_cons_append. }
  exists l'. split; [done|]. split; [done|].
  intros Hnd.
  assert (NoDup l' /\ val ∉ l') as [Hnd' Hnot].
  { case_bool_decide as Hin.
    - rewrite Hspec in Hnd. apply NoDup_cons in Hnd. tauto.
    - subst l'. done. }
  split; [done|]. simpl.
  destruct (indexbuf_member_below_spec l' val (length l'))
    as [[Hm _]|(i & _ & _ & Hv & _)]; [done|].
  exfalso. apply Hnot. by eapply list_elem_of_lookup_2.
Qed.

(** X4. Adding a value that is not in the buffer and removing it again
    gives the buffer back. *)
Theorem indexbuf_insert_remove (l : list Z) (val : Z) :
  val ∉ l ->
  indexbuf_remove_element (fst (indexbuf_unordered_set_insert (Some l) val)) val
  = Some l.
Proof.
  intros Hnot.
  unfold indexbuf_unordered_set_insert.
  apply list_find_eq_None in Hnot as Hf. rewrite Hf. simpl.
  unfold indexbuf_remove_element.
  destruct (indexbuf_member_below_spec (l ++ [val]) val (length (l ++ [val])))
    as [[_ Hall]|(i' & -> & Hi & Hv & _)].
  - exfalso. apply (Hall (length l)).
    + rewrite length_app. simpl. lia.
    + rewrite lookup_app_r by lia. by rewrite Nat.sub_diag.
  - assert (i' = length l) as ->.
    { destruct (decide (i' < length l)%nat) as [Hlt|Hge].
      - rewrite lookup_app_l in Hv by done.
        exfalso. apply Hnot. by eapply list_elem_of_lookup_2.
      - rewrite length_app in Hi. simpl in Hi. lia. }
    replace (Z.of_nat (length l) <? 0) with false by (symmetry; apply Z.ltb_ge; lia).
    rewrite last_snoc. unfold zupdate.
    replace (Z.of_nat (length l) <? 0) with false by (symmetry; apply Z.ltb_ge; lia).
    rewrite Nat2Z.id, insert_app_r_alt by lia. rewrite Nat.sub_diag. simpl.
    rewrite length_app. simpl.
    replace (length l + 1 - 1)%nat with (length l) by lia.
    by rewrite take_app_length.
Qed.

Lemma indexbuf_insert_remove_witness :
  (3 ∉ [5; 7]) /\
  indexbuf_remove_element (fst (indexbuf_unordered_set_insert (Some [5; 7]) 3)) 3
  = Some [5; 7].
Proof.
  assert (3 ∉ [5; 7]) as H by (apply (bool_decide_unpack _); vm_compute; exact I).
  split; [exact H|]. exact (indexbuf_insert_remove [5; 7] 3 H).
Defined.

(** ** The accession index (lines 209-245) *)

Section AccessionIndex.

Lemma leading_nulls_spec {A} (a : list (option A)) :
  (leading_nulls a <= length a)%nat /\
  forall j, (j < leading_nulls a)%nat -> a !! j = Some None.
Proof.
  induction a as [|[x|] a IH]; simpl.
  - split; [lia|]. intros j Hj. lia.
  - split; [lia|]. intros j Hj. lia.
  - destruct IH as [Hle Hall]. split; [lia|].
    intros [|j] Hj; [done|]. simpl. apply Hall. lia.
Qed.

Lemma zlookup_zupdate_eq {A} (l : list A) (i : Z) (v : A) :
  0 <= i < zlength l -> zlookup (zupdate l i v) i = Some v.
Proof.
  unfold zlookup, zupdate, zlength. intros Hi.
  replace (i <? 0) with false by (symmetry; apply Z.ltb_ge; lia).
  apply list_lookup_insert_eq. lia.
Qed.

Lemma zlookup_zupdate_ne {A} (l : list A) (i j : Z) (v : A) :
  i <> j -> zlookup (zupdate l i v) j = zlookup l j.
Proof.
  unfold zlookup, zupdate. intros Hne.
  destruct (j <? 0) eqn:Hj; [done|].
  destruct (i <? 0) eqn:Hi; [done|].
  apply Z.ltb_ge in Hi, Hj. apply list_lookup_insert_ne. lia.
Qed.

Lemma zlength_zupdate {A} (l : list A) (i : Z) (v : A) :
  zlength (zupdate l i v) = zlength l.
Proof.
  unfold zlength, zupdate. destruct (i <? 0); [done|]. by rewrite length_insert.
Qed.

Lemma zlookup_ge_None {A} (l : list A) (i : Z) :
  zlength l <= i -> zlookup l i = None.
Proof.
  unfold zlookup, zlength. intros Hi. destruct (i <? 0); [done|].
  apply lookup_ge_None. lia.
Qed.

Lemma slid_window_spec (h : ccnd) :
  accession_index_ok h -> accession_index_fits h ->
  let h1 := slid_window h in
  accession_index_ok h1 /\
  content_tab h1 = content_tab h /\
  accession h1 = accession h /\
  content_by_accession_window h1 = (content_by_accession_window h + 20) * 3 / 2 /\
  accession_base h <= accession_base h1 <=
    accession_base h + content_by_accession_window h /\
  (forall a, a < accession_base h + content_by_accession_window h ->
     content_from_accession h1 a = content_from_accession h a) /\
  (forall a, accession_base h + content_by_accession_window h <= a ->
     zlookup (content_by_accession h1) (a - accession_base h1) = None \/
     zlookup (content_by_accession h1) (a - accession_base h1) = Some None).
Proof.
  intros [Hlen Hbase] [Hw Hb]. unfold zlength in Hlen.
  set (w := content_by_accession_window h) in *.
  assert (0 <= w) as Hw0 by lia.
  assert (u32 (u32 (w + 20) * 3) / 2 = (w + 20) * 3 / 2) as Hnw.
  { unfold u32. rewrite (Z.mod_small (w + 20)) by lia.
    by rewrite Z.mod_small by lia. }
  assert (w + 30 <= (w + 20) * 3 / 2 /\ 2 * ((w + 20) * 3 / 2) <= (w + 20) * 3)
    as Hgrow by (Z.to_euclidean_division_equations; lia).
  cbv zeta. unfold slid_window. fold w. rewrite Hnw.
  rewrite (take_ge (content_by_accession h)) by lia.
  set (arr := content_by_accession h) in *.
  destruct (leading_nulls_spec arr) as [Hile Hnull].
  set (i := leading_nulls arr) in *.
  assert (u64 (accession_base h + Z.of_nat i) = accession_base h + Z.of_nat i) as Hu.
  { unfold u64. apply Z.mod_small. lia. }
  rewrite Hu.
  assert (length (drop i arr) = (length arr - i)%nat) as Hkept by apply length_drop.
  split_and!; simpl.
  - split; simpl; [|lia]. unfold zlength.
    rewrite length_app, length_replicate, Hkept. lia.
  - done.
  - done.
  - done.
  - lia.
  - lia.
  - intros a Ha. unfold content_from_accession. simpl. fold w. fold arr.
    assert (u64 (accession_base h + w) = accession_base h + w) as ->.
    { unfold u64. apply Z.mod_small. lia. }
    assert (u64 (accession_base h + Z.of_nat i + (w + 20) * 3 / 2)
            = accession_base h + Z.of_nat i + (w + 20) * 3 / 2) as Hu2.
    { unfold u64. apply Z.mod_small. lia. }
    destruct (decide (accession_base h + Z.of_nat i <= a)) as [Hge|Hlt].
    + rewrite Hu2.
      replace (accession_base h + Z.of_nat i <=? a) with true
        by (symmetry; apply Z.leb_le; lia).
      replace (a <? accession_base h + Z.of_nat i + (w + 20) * 3 / 2) with true
        by (symmetry; apply Z.ltb_lt; lia).
      replace (accession_base h <=? a) with true by (symmetry; apply Z.leb_le; lia).
      replace (a <? accession_base h + w) with true by (symmetry; apply Z.ltb_lt; lia).
      simpl.
      assert (zlookup (drop i arr ++ replicate (Z.to_nat ((w + 20) * 3 / 2)
                                                 - length (drop i arr)) None)
                      (a - (accession_base h + Z.of_nat i))
              = zlookup arr (a - accession_base h)) as ->; [|done].
      unfold zlookup.
      replace (a - (accession_base h + Z.of_nat i) <? 0) with false
        by (symmetry; apply Z.ltb_ge; lia).
      replace (a - accession_base h <? 0) with false
        by (symmetry; apply Z.ltb_ge; lia).
      rewrite lookup_app_l by (rewrite Hkept; lia).
      rewrite lookup_drop. f_equal. lia.
    + replace (accession_base h + Z.of_nat i <=? a) with false
        by (symmetry; apply Z.leb_gt; lia).
      simpl.
      destruct (accession_base h <=? a) eqn:Hba; [|done].
      apply Z.leb_le in Hba.
      replace (a <? accession_base h + w) with true by (symmetry; apply Z.ltb_lt; lia).
      simpl. unfold zlookup.
      replace (a - accession_base h <? 0) with false
        by (symmetry; apply Z.ltb_ge; lia).
      rewrite (Hnull (Z.to_nat (a - accession_base h))) by lia. done.
  - intros a Ha. unfold zlookup.
    replace (a - (accession_base h + Z.of_nat i) <? 0) with false
      by (symmetry; apply Z.ltb_ge; lia).
    rewrite lookup_app_r by (rewrite Hkept; lia).
    destruct (replicate _ _ !! _) as [x|] eqn:Hx; [|by left].
    apply lookup_replicate in Hx as [-> _]. by right.
Qed.

Lemma enroll_content_unfold (h : ccnd) (content : list byte) (c : Content.t) :
  content_tab h !! content = Some c ->
  enroll_content h content =
    let h1 := if u64 (accession_base h + content_by_accession_window h)
                 <=? Content.accession c
              then slid_window h else h in
    let slot := Content.accession c - accession_base h1 in
    if (0 <=? slot) && (slot <? zlength (content_by_accession h1))
    then Some (set_content_by_accession
                 (zupdate (content_by_accession h1) slot (Some content)) h1)
    else None.
Proof. intros Hc. unfold enroll_content. rewrite Hc. done. Qed.

(** The store of a pointer in a slot of a window that is in order. *)
Lemma enroll_slot_spec (h1 : ccnd) (content : list byte) (c : Content.t) :
  accession_index_ok h1 ->
  accession_base h1 + content_by_accession_window h1 < 2 ^ 64 ->
  content_tab h1 !! content = Some c ->
  accession_base h1 <= Content.accession c
    < accession_base h1 + content_by_accession_window h1 ->
  let h' := set_content_by_accession
              (zupdate (content_by_accession h1)
                       (Content.accession c - accession_base h1) (Some content)) h1 in
  accession_index_ok h' /\
  content_from_accession h' (Content.accession c) = Some content /\
  (forall a, a <> Content.accession c ->
    content_from_accession h' a = content_from_accession h1 a) /\
  accession_base h' <= Content.accession c
    < accession_base h' + content_by_accession_window h'.
Proof.
  intros [Hlen Hbase] Hfit Hc Hin. cbv zeta.
  assert (u64 (accession_base h1 + content_by_accession_window h1)
          = accession_base h1 + content_by_accession_window h1) as Hu.
  { unfold u64. apply Z.mod_small. unfold zlength in Hlen. lia. }
  split_and!.
  - split; simpl; [|done]. by rewrite zlength_zupdate.
  - unfold content_from_accession. simpl. rewrite Hu.
    replace (accession_base h1 <=? Content.accession c) with true
      by (symmetry; apply Z.leb_le; lia).
    replace (Content.accession c <? accession_base h1 + content_by_accession_window h1)
      with true by (symmetry; apply Z.ltb_lt; lia).
    simpl. rewrite zlookup_zupdate_eq by lia. rewrite Hc.
    by rewrite Z.eqb_refl.
  - intros a Ha. unfold content_from_accession. simpl.
    destruct (_ && _); [|done].
    rewrite zlookup_zupdate_ne by lia. done.
  - apply Hin.
  - apply Hin.
Qed.

Lemma enroll_content_index (h h' : ccnd) (content : list byte) (c : Content.t) :
  accession_index_ok h -> accession_index_fits h ->
  content_tab h !! content = Some c ->
  enroll_content h content = Some h' ->
  accession_index_ok h' /\
  content_tab h' = content_tab h /\
  content_from_accession h' (Content.accession c) = Some content /\
  (forall a, a <> Content.accession c ->
    content_from_accession h' a = content_from_accession h a) /\
  accession h' = accession h /\
  accession_base h' <= Content.accession c
    < accession_base h' + content_by_accession_window h'.
Proof.
  intros Hok Hfits Hc. rewrite (enroll_content_unfold h content c Hc). cbv zeta.
  pose proof Hok as [Hlen Hbase]. pose proof Hfits as [Hw Hb].
  assert (0 <= content_by_accession_window h) as Hw0 by (unfold zlength in Hlen; lia).
  assert (content_by_accession_window h + 30
          <= (content_by_accession_window h + 20) * 3 / 2 /\
          2 * ((content_by_accession_window h + 20) * 3 / 2)
          <= (content_by_accession_window h + 20) * 3)
    as Hgrow by (Z.to_euclidean_division_equations; lia).
  assert (u64 (accession_base h + content_by_accession_window h)
          = accession_base h + content_by_accession_window h) as ->.
  { unfold u64. apply Z.mod_small. lia. }
  destruct (_ <=? Content.accession c) eqn:Hslide.
  - apply Z.leb_le in Hslide.
    destruct (slid_window_spec h Hok Hfits)
      as (Hok1 & Htab1 & Hacc1 & Hw1 & Hb1 & Hold & Hnew).
    set (h1 := slid_window h) in *.
    destruct (_ && _) eqn:Hslot; [|done].
    apply andb_prop in Hslot as [H0%Z.leb_le Hs%Z.ltb_lt].
    intros Heq%(inj Some). subst h'.
    destruct (enroll_slot_spec h1 content c) as (Hok' & Hfound & Hrest & Hin').
    { done. }
    { rewrite Hw1. lia. }
    { by rewrite Htab1. }
    { destruct Hok1 as [Hlen1 _]. rewrite <- Hlen1. lia. }
    refine (conj Hok' (conj Htab1 (conj Hfound (conj _ (conj Hacc1 Hin'))))).
    intros a Ha. rewrite (Hrest a Ha).
    destruct (decide (a < accession_base h + content_by_accession_window h))
      as [Hlt|Hge]; [by apply Hold|].
    transitivity (@None (list byte)).
    + unfold content_from_accession. destruct (_ && _); [|done].
      by destruct (Hnew a ltac:(lia)) as [-> | ->].
    + symmetry. unfold content_from_accession.
      assert (u64 (accession_base h + content_by_accession_window h)
              = accession_base h + content_by_accession_window h) as ->.
      { unfold u64. apply Z.mod_small. lia. }
      replace (a <? accession_base h + content_by_accession_window h) with false
        by (symmetry; apply Z.ltb_ge; lia).
      by rewrite andb_false_r.
  - apply Z.leb_gt in Hslide.
    destruct (_ && _) eqn:Hslot; [|done].
    apply andb_prop in Hslot as [H0%Z.leb_le Hs%Z.ltb_lt].
    intros Heq%(inj Some). subst h'.
    destruct (enroll_slot_spec h content c) as (Hok' & Hfound & Hrest & Hin');
      [done|lia|done|lia|].
    exact (conj Hok' (conj eq_refl (conj Hfound (conj Hrest (conj eq_refl Hin'))))).
Qed.

(** [enroll_content] has a slot for an accession that is at most one past
    the window. *)
Lemma enroll_content_total (h : ccnd) (content : list byte) (c : Content.t) :
  accession_index_ok h -> accession_index_fits h ->
  content_tab h !! content = Some c ->
  accession_base h <= Content.accession c
    <= accession_base h + content_by_accession_window h + 1 ->
  is_Some (enroll_content h content).
Proof.
  intros Hok Hfits Hc Hin. rewrite (enroll_content_unfold h content c Hc). cbv zeta.
  pose proof Hok as [Hlen Hbase]. pose proof Hfits as [Hw Hb].
  assert (0 <= content_by_accession_window h) as Hw0 by (unfold zlength in Hlen; lia).
  assert (content_by_accession_window h + 30
          <= (content_by_accession_window h + 20) * 3 / 2 /\
          2 * ((content_by_accession_window h + 20) * 3 / 2)
          <= (content_by_accession_window h + 20) * 3)
    as Hgrow by (Z.to_euclidean_division_equations; lia).
  assert (u64 (accession_base h + content_by_accession_window h)
          = accession_base h + content_by_accession_window h) as ->.
  { unfold u64. apply Z.mod_small. lia. }
  destruct (_ <=? Content.accession c) eqn:Hslide.
  - apply Z.leb_le in Hslide.
    destruct (slid_window_spec h Hok Hfits) as ([Hlen1 _] & _ & _ & Hw1 & Hb1 & _ & _).
    set (h1 := slid_window h) in *. rewrite Hlen1, Hw1.
    replace (0 <=? _) with true by (symmetry; apply Z.leb_le; lia).
    replace (_ <? _) with true by (symmetry; apply Z.ltb_lt; lia).
    simpl. eauto.
  - apply Z.leb_gt in Hslide. rewrite Hlen.
    replace (0 <=? _) with true by (symmetry; apply Z.leb_le; lia).
    replace (_ <? _) with true by (symmetry; apply Z.ltb_lt; lia).
    simpl. eauto.
Qed.

(** X5. Round trip of the accession index: [enroll_content] has a slot for
    an entry whose accession is at most one past the window, and once it has
    stored the entry, [content_from_accession] finds it under its accession,
    and every other accession resolves as it did before; the slide of the
    window only drops leading empty slots. *)
Theorem enroll_content_from_accession (h : ccnd) (content : list byte)
    (c : Content.t) :
  accession_index_ok h -> accession_index_fits h ->
  content_tab h !! content = Some c ->
  accession_base h <= Content.accession c
    <= accession_base h + content_by_accession_window h + 1 ->
  exists h',
    enroll_content h content = Some h' /\
    accession_index_ok h' /\
    content_tab h' = content_tab h /\
    content_from_accession h' (Content.accession c) = Some content /\
    forall a, a <> Content.accession c ->
      content_from_accession h' a = content_from_accession h a.
Proof.
  intros Hok Hfits Hc Hin.
  destruct (enroll_content_total h content c Hok Hfits Hc Hin) as [h' Hen].
  destruct (enroll_content_index h h' content c Hok Hfits Hc Hen)
    as (H1 & H2 & H3 & H4 & _).
  exists h'. exact (conj Hen (conj H1 (conj H2 (conj H3 H4)))).
Qed.

End AccessionIndex.

Section NewContent.

Context `{L : ccn_library}.

(** X6. The accession index always has room for the next arrival: when the
    accessions handed out so far lie in the window, storing a ContentObject
    under a new key returns, gives the entry the next accession, under which
    [content_from_accession] finds it, and leaves every entry stored before
    reachable under its own accession. *)
Theorem store_new_content_enrolled (h : ccnd) (f : Face.t) (msg : list byte)
    (obj : ccn_parsed_ContentObject) (comps : list Z) :
  accession_index_ok h -> accession_index_fits h -> accession_counter_ok h ->
  accession h + 1 < 2 ^ 64 ->
  content_tab h !! bytes_at msg 0 (CCN_PCO_B_Content obj) = None ->
  exists h' e,
    store_new_content h f msg obj comps = Some h' /\
    accession_index_ok h' /\ accession_counter_ok h' /\
    accession h' = accession h + 1 /\
    content_tab h' = <[bytes_at msg 0 (CCN_PCO_B_Content obj) := e]> (content_tab h) /\
    Content.accession e = accession h + 1 /\
    content_from_accession h' (accession h + 1)
      = Some (bytes_at msg 0 (CCN_PCO_B_Content obj)) /\
    forall a, a <> accession h + 1 ->
              content_from_accession h' a = content_from_accession h a.
Proof.
  intros Hok Hfits [Hc1 Hc2] Hacc Hnew.
  pose proof Hok as [Hlen Hbase]. pose proof Hfits as [Hw Hb].
  assert (0 <= content_by_accession_window h) as Hw0 by (unfold zlength in Hlen; lia).
  assert (content_by_accession_window h + 30
          <= (content_by_accession_window h + 20) * 3 / 2 /\
          2 * ((content_by_accession_window h + 20) * 3 / 2)
          <= (content_by_accession_window h + 20) * 3)
    as Hgrow by (Z.to_euclidean_division_equations; lia).
  unfold store_new_content. cbv zeta.
  set (key := bytes_at msg 0 (CCN_PCO_B_Content obj)) in *.
  assert (u64 (accession h + 1) = accession h + 1) as Hu.
  { unfold u64. apply Z.mod_small. lia. }
  simpl accession. rewrite Hu.
  match goal with
  | |- context [enroll_content ?h0 key] => set (h1 := h0)
  end.
  match goal with
  | h1 := set_content_tab (<[key := ?e0]> _) _ |- _ => set (e := e0) in *
  end.
  assert (content_tab h1 !! key = Some e) as He by apply lookup_insert_eq.
  assert (accession_index_ok h1) as Hok1 by done.
  assert (accession_index_fits h1) as Hfits1 by done.
  destruct (enroll_content_total h1 key e Hok1 Hfits1 He) as [h' Hen].
  { change (Content.accession e) with (accession h + 1).
    change (accession_base h1) with (accession_base h).
    change (content_by_accession_window h1) with (content_by_accession_window h).
    lia. }
  destruct (enroll_content_index h1 h' key e Hok1 Hfits1 He Hen)
    as (Hok' & Htab' & Hfound & Hrest & Hacc' & Hin').
  change (Content.accession e) with (accession h + 1) in Hfound, Hrest, Hin'.
  change (accession h1) with (accession h + 1) in Hacc'.
  exists h', e. split; [done|].
  assert (accession_counter_ok h') as Hcnt'.
  { unfold accession_counter_ok. rewrite Hacc'. lia. }
  split_and!; [done|done|done|done|done|done|].
  intros a Hne. rewrite (Hrest a Hne).
  unfold content_from_accession.
  change (accession_base h1) with (accession_base h).
  change (content_by_accession_window h1) with (content_by_accession_window h).
  change (content_by_accession h1) with (content_by_accession h).
  destruct (_ && _); [|done].
  destruct (zlookup _ _) as [[ans|]|]; [|done|done].
  change (content_tab h1) with (<[key := e]> (content_tab h)).
  destruct (decide (ans = key)) as [->|Hk].
  - rewrite lookup_insert_eq, Hnew.
    change (Content.accession e) with (accession h + 1).
    by replace (accession h + 1 =? a) with false by (symmetry; apply Z.eqb_neq; lia).
  - by rewrite lookup_insert_ne.
Qed.

End NewContent.

Section AccessionRun.

#[local] Existing Instance sample_private.

#[local] Existing Instance sample_library.

Lemma two_arrived_index_ok :
  accession_index_ok two_arrived /\ accession_index_fits two_arrived /\
  accession_counter_ok two_arrived.
Proof.
  unfold accession_index_ok, accession_index_fits, accession_counter_ok.
  replace (zlength (content_by_accession two_arrived)) with 30
    by (vm_compute; reflexivity).
  replace (content_by_accession_window two_arrived) with 30
    by (vm_compute; reflexivity).
  replace (accession_base two_arrived) with 0 by (vm_compute; reflexivity).
  replace (accession two_arrived) with 2 by (vm_compute; reflexivity).
  lia.
Qed.

Lemma enroll_content_from_accession_witness :
  exists h',
    enroll_content two_arrived (bytes_at content_xy1 0 6) = Some h' /\
    content_from_accession h' 1 = Some (bytes_at content_xy1 0 6) /\
    content_from_accession h' 2 = Some (bytes_at content_xy2 0 6).
Proof.
  destruct two_arrived_index_ok as (Hok & Hfits & _).
  set (c := default third_stored_entry
                    (content_tab two_arrived !! bytes_at content_xy1 0 6)).
  destruct (enroll_content_from_accession two_arrived (bytes_at content_xy1 0 6) c
              Hok Hfits)
    as (h' & Hen & _ & _ & Hfound & Hrest).
  - vm_compute. reflexivity.
  - vm_compute. split; discriminate.
  - exists h'. split; [exact Hen|]. split; [exact Hfound|].
    rewrite (Hrest 2) by (vm_compute; discriminate). vm_compute. reflexivity.
Defined.

Lemma store_new_content_enrolled_witness :
  exists h',
    store_new_content two_arrived the_face content_xy0 content_xy1_parsed [0; 2; 4; 6]
      = Some h' /\
    accession h' = 3 /\
    content_from_accession h' 3 = Some (bytes_at content_xy0 0 6) /\
    content_from_accession h' 1 = Some (bytes_at content_xy1 0 6).
Proof.
  destruct two_arrived_index_ok as (Hok & Hfits & Hcnt).
  assert (accession two_arrived = 2) as Hacc by (vm_compute; reflexivity).
  destruct (store_new_content_enrolled two_arrived the_face content_xy0
              content_xy1_parsed [0; 2; 4; 6] Hok Hfits Hcnt)
    as (h' & e & Hst & _ & _ & Ha & _ & _ & Hfound & Hrest).
  { rewrite Hacc. lia. }
  { vm_compute. reflexivity. }
  exists h'. rewrite Hacc in Ha, Hfound, Hrest.
  split; [exact Hst|]. split; [exact Ha|]. split; [exact Hfound|].
  rewrite (Hrest 1) by lia. vm_compute. reflexivity.
Defined.

End AccessionRun.

(** ** Interests on their way (lines 1075-1198) *)

Section Propagation.

Context `{P : ccnd_private} `{L : ccn_library}.

Lemma propagate_interest_new_nonce (h : ccnd) (face : nat) (f : Face.t)
    (msg : list byte) (pi : ccn_parsed_interest) (ipe : list byte) (i : Ipe.t)
    (outbound : list Z) :
  get_outbound_faces h face pi = Some outbound -> outbound <> [] ->
  face_store h !! face = Some f ->
  interestprefix_tab h !! ipe = Some i ->
  (CCN_PI_B_Nonce pi =? CCN_PI_E_Nonce pi) = false ->
  propagating_tab h !! bytes_at msg (CCN_PI_B_Nonce pi)
                         (u64 (CCN_PI_E_Nonce pi - CCN_PI_B_Nonce pi)) = None ->
  propagate_interest h face msg pi ipe
  = Some (propagation_recorded h f
            (bytes_at msg (CCN_PI_B_Nonce pi)
                      (u64 (CCN_PI_E_Nonce pi - CCN_PI_B_Nonce pi)))
            msg outbound ipe i, 0).
Proof.
  intros Hout Hne Hf Hi Hnonce Hnew. unfold propagate_interest.
  rewrite Hout. simpl. rewrite bool_decide_eq_false_2 by done.
  rewrite Hnonce. rewrite Hf. simpl. rewrite Hnew.
  unfold link_propagating_interest_to_interest_entry. simpl.
  rewrite Hi. simpl. rewrite lookup_insert_eq. simpl.
  unfold propagation_recorded. cbv zeta.
  destruct (nrand48 (seed h)) as [r seed'] eqn:Hr. simpl.
  rewrite insert_insert_eq. done.
Qed.


End Propagation.

(** X7. An interest that carries a nonce not seen before and has somewhere
    to go is recorded by [propagate_interest]: the result is 0, the table of
    propagating interests gets an entry under the nonce that holds the
    message as received, the arrival face's id and the outbound faces, the
    entry is last in the ring of its prefix entry, and one [do_propagate]
    event is scheduled for it.  Nothing is written yet, and from then on
    [is_duplicate_flooded] recognises the interest. *)
Theorem propagate_interest_records `{P : ccnd_private} `{L : ccn_library}
    (h : ccnd) (face : nat) (f : Face.t) (msg : list byte)
    (pi : ccn_parsed_interest) (ipe : list byte) (i : Ipe.t) (outbound : list Z) :
  get_outbound_faces h face pi = Some outbound -> outbound <> [] ->
  face_store h !! face = Some f ->
  interestprefix_tab h !! ipe = Some i ->
  u64 (CCN_PI_E_Nonce pi - CCN_PI_B_Nonce pi) <> 0 ->
  is_duplicate_flooded h msg pi = false ->
  let nonce := bytes_at msg (CCN_PI_B_Nonce pi)
                        (u64 (CCN_PI_E_Nonce pi - CCN_PI_B_Nonce pi)) in
  exists h',
    propagate_interest h face msg pi ipe = Some (h', 0) /\
    propagating_tab h'
    = <[nonce := Pe.mk (Some msg) (zlength msg) (Face.faceid f) (Some outbound)
                       (Some ipe)]> (propagating_tab h) /\
    (Ipe.propagating_head <$> interestprefix_tab h' !! ipe)
    = Some (Some (default [] (Ipe.propagating_head i) ++ [nonce])) /\
    (exists delay, sched h' = sched h
                              ++ [Build_scheduled_event delay (ev_do_propagate nonce) 0]) /\
    written h' = written h /\
    is_duplicate_flooded h' msg pi = true.
Proof.
  intros Hout Hne Hf Hi Hsize Hdup nonce.
  assert ((CCN_PI_B_Nonce pi =? CCN_PI_E_Nonce pi) = false) as Hnonce.
  { apply Z.eqb_neq. intros Heq. apply Hsize. rewrite Heq, Z.sub_diag. done. }
  assert (propagating_tab h !! nonce = None) as Hnew.
  { unfold is_duplicate_flooded in Hdup.
    replace (u64 (CCN_PI_E_Nonce pi - CCN_PI_B_Nonce pi) =? 0) with false in Hdup
      by (symmetry; by apply Z.eqb_neq).
    apply bool_decide_eq_false in Hdup.
    by apply eq_None_not_Some. }
  eexists. split.
  { by apply (propagate_interest_new_nonce h face f msg pi ipe i outbound). }
  unfold propagation_recorded. cbv zeta.
  destruct (nrand48 (seed h)) as [r seed'].
  split_and!; simpl.
  - done.
  - by rewrite lookup_insert_eq.
  - by eexists.
  - done.
  - unfold is_duplicate_flooded. simpl.
    replace (u64 (CCN_PI_E_Nonce pi - CCN_PI_B_Nonce pi) =? 0) with false
      by (symmetry; by apply Z.eqb_neq).
    apply bool_decide_eq_true_2. fold nonce. rewrite lookup_insert_eq. by eexists.
Qed.


Section PropagationRun.

#[local] Existing Instance sample_private.

#[local] Existing Instance sample_library.

Lemma propagate_interest_records_witness :
  exists h',
    propagate_interest interest_expected 101 interest_xy (interest_xy_parsed (-1))
      [x01; x02; x03; x04] = Some (h', 0) /\
    is_duplicate_flooded interest_expected interest_xy (interest_xy_parsed (-1)) = false /\
    is_duplicate_flooded h' interest_xy (interest_xy_parsed (-1)) = true.
Proof.
  assert (is_duplicate_flooded interest_expected interest_xy (interest_xy_parsed (-1))
          = false) as Hdup by (vm_compute; reflexivity).
  destruct (propagate_interest_records interest_expected 101 (Face.mk 3 0 0 0 0)
              interest_xy (interest_xy_parsed (-1)) [x01; x02; x03; x04]
              prefix_xy_new [1; 2])
    as (h' & Hp & _ & _ & _ & _ & Hd).
  - vm_compute. reflexivity.
  - discriminate.
  - vm_compute. reflexivity.
  - vm_compute. reflexivity.
  - vm_compute. discriminate.
  - exact Hdup.
  - exists h'. split; [exact Hp|]. split; [exact Hdup|exact Hd].
Defined.


End PropagationRun.

(** ** Forwarding a recorded interest (lines 828-848, 1075-1103) *)

Section DoPropagate.

Context `{P : ccnd_private} `{L : ccn_library}.

Lemma interest_sent_to_view (h h' : ccnd) (msg : list byte) (id : Z) :
  face_view h' = face_view h -> interest_sent_to h' msg id = interest_sent_to h msg id.
Proof.
  unfold face_view, interest_sent_to, face_from_faceid. intros [= -> -> ->]. done.
Qed.

Lemma finished_propagating_spec (h : ccnd) (pe : list byte) (e : Pe.t) :
  propagating_tab h !! pe = Some e ->
  exists h',
    finished_propagating h pe = Some h' /\
    propagating_tab h' = <[pe := pe_finished e]> (propagating_tab h) /\
    interestprefix_tab h' = ring_without h pe e /\
    face_view h' = face_view h /\ written h' = written h /\
    interests_sent h' = interests_sent h /\ content_tab h' = content_tab h.
Proof.
  intros He. unfold finished_propagating. rewrite He. simpl. unfold ring_without.
  destruct (Pe.next e); eexists; (split; [done|]); done.
Qed.

Lemma do_propagate_tail_spec (h : ccnd) (pe : list byte) (e : Pe.t) (out : list Z) :
  propagating_tab h !! pe = Some e ->
  exists h' again delay,
    do_propagate_tail h pe out = Some (h', again, delay) /\
    face_view h' = face_view h /\ written h' = written h /\
    interests_sent h' = interests_sent h /\ content_tab h' = content_tab h /\
    if bool_decide (out = []) then
      propagating_tab h' = <[pe := pe_finished e]> (propagating_tab h) /\
      interestprefix_tab h' = ring_without h pe e /\
      again = true /\ delay = 0
    else
      propagating_tab h' = <[pe := Pe.set_outbound (Some out) e]> (propagating_tab h) /\
      interestprefix_tab h' = interestprefix_tab h /\
      again = false.
Proof.
  intros He. unfold do_propagate_tail. cbv zeta.
  assert (propagating_tab (pe_set_outbound h pe (Some out))
          = <[pe := Pe.set_outbound (Some out) e]> (propagating_tab h)) as Htab.
  { simpl. apply map_eq. intros k. destruct (decide (k = pe)) as [->|Hk].
    - by rewrite lookup_alter_eq, lookup_insert_eq, He.
    - by rewrite lookup_alter_ne, lookup_insert_ne. }
  case_bool_decide as Hnil.
  - destruct (finished_propagating_spec (pe_set_outbound h pe (Some out)) pe
                (Pe.set_outbound (Some out) e))
      as (h' & -> & Ht & Hr & Hv & Hw & Hs & Hc).
    { rewrite Htab. apply lookup_insert_eq. }
    simpl. eexists _, _, _. split; [done|].
    split; [exact Hv|]. split; [exact Hw|]. split; [exact Hs|]. split; [exact Hc|].
    split; [|split; [exact Hr|done]].
    rewrite Ht, Htab. unfold pe_finished. simpl. by rewrite insert_insert_eq.
  - change (seed (pe_set_outbound h pe (Some out))) with (seed h).
    destruct (nrand48 (seed h)) as [r seed'].
    eexists _, _, _. split; [done|].
    split; [done|]. split; [done|]. split; [done|]. split; [done|].
    split; [exact Htab|done].
Qed.

Lemma face_from_faceid_stored (h : ccnd) (id : Z) (face : nat) :
  face_from_faceid h id = Some face -> is_Some (face_store h !! face).
Proof.
  unfold face_from_faceid. intros Hface.
  destruct (_ <? _); [|done].
  destruct (zlookup _ _) as [[p|]|]; [|done|done].
  destruct (face_store h !! p) as [f|] eqn:Hp; [|done].
  destruct (_ =? _); [|done]. injection Hface as <-. by exists f.
Qed.

(** One run on an entry that has faces left to serve. *)
Lemma do_propagate_step (h : ccnd) (pe : list byte) (e : Pe.t) (out : list Z)
    (id : Z) (msg : list byte) :
  propagating_tab h !! pe = Some e ->
  Pe.outbound e = Some (out ++ [id]) -> Pe.interest_msg e = Some msg ->
  exists h' again delay,
    do_propagate h pe false = Some (h', again, delay) /\
    face_view h' = face_view h /\
    written h' = written h ++ interest_sent_to h (bytes_at msg 0 (Pe.size e)) id /\
    interests_sent h'
    = interests_sent h
      + zlength (interest_sent_to h (bytes_at msg 0 (Pe.size e)) id) /\
    content_tab h' = content_tab h /\
    if bool_decide (out = []) then
      propagating_tab h' = <[pe := pe_finished e]> (propagating_tab h) /\
      interestprefix_tab h' = ring_without h pe e /\
      again = true /\ delay = 0
    else
      propagating_tab h' = <[pe := Pe.set_outbound (Some out) e]> (propagating_tab h) /\
      interestprefix_tab h' = interestprefix_tab h /\
      again = false.
Proof.
  intros He Hout Hmsg.
  assert (exists hw,
            do_propagate h pe false = do_propagate_tail hw pe out /\
            face_view hw = face_view h /\
            written hw = written h ++ interest_sent_to h (bytes_at msg 0 (Pe.size e)) id /\
            interests_sent hw
            = interests_sent h
              + zlength (interest_sent_to h (bytes_at msg 0 (Pe.size e)) id) /\
            content_tab hw = content_tab h /\
            propagating_tab hw = propagating_tab h /\
            interestprefix_tab hw = interestprefix_tab h)
    as (hw & -> & Hv & Hw & Hs & Hc & Ht & Hi).
  { unfold do_propagate. rewrite He. cbn [mbind option_bind].
    rewrite Hout, Hmsg. rewrite last_snoc.
    rewrite length_app. cbn [length].
    replace (length out + 1 - 1)%nat with (length out) by lia.
    rewrite take_app_length.
    unfold interest_sent_to.
    destruct (face_from_faceid h (u32 id)) as [face|] eqn:Hface.
    - destruct (face_from_faceid_stored h _ _ Hface) as [f Hf].
      unfold do_write_BFI. cbn [mbind option_bind]. rewrite Hf.
      cbn [mbind option_bind fmap option_fmap option_map].
      unfold do_propagate_tail.
      destruct (negb (Z.land (Face.flags f) CCN_FACE_LINK =? 0)).
      + cbn [mbind option_bind]. eexists. split; [reflexivity|]. simpl. done.
      + cbn [mbind option_bind]. eexists. split; [reflexivity|]. simpl. done.
    - exists h. split; [reflexivity|]. cbn [mbind option_bind].
      rewrite app_nil_r. unfold zlength. simpl. rewrite Z.add_0_r. done. }
  destruct (do_propagate_tail_spec hw pe e out) as (h' & again & delay & Htail & Hv' & Hw' & Hs' & Hc' & Hrest).
  { by rewrite Ht. }
  exists h', again, delay. split; [done|].
  split; [congruence|]. split; [congruence|]. split; [congruence|]. split; [congruence|].
  unfold ring_without in *. rewrite Ht, Hi in Hrest. exact Hrest.
Qed.

Lemma do_propagate_runs_spec (out : list Z) :
  forall (h : ccnd) (pe : list byte) (e : Pe.t) (msg : list byte),
  out <> [] ->
  propagating_tab h !! pe = Some e ->
  Pe.outbound e = Some out -> Pe.interest_msg e = Some msg ->
  let sent := concat (interest_sent_to h (bytes_at msg 0 (Pe.size e))
                        <$> reverse out) in
  exists h',
    do_propagate_runs (length out) h pe = Some h' /\
    face_view h' = face_view h /\
    written h' = written h ++ sent /\
    interests_sent h' = interests_sent h + zlength sent /\
    content_tab h' = content_tab h /\
    propagating_tab h' = <[pe := pe_finished e]> (propagating_tab h) /\
    interestprefix_tab h' = ring_without h pe e.
Proof.
  induction out as [|id out IH] using rev_ind; [done|].
  intros h pe e msg _ He Hout Hmsg. cbv zeta.
  rewrite length_app. simpl. rewrite Nat.add_1_r. cbn [do_propagate_runs].
  destruct (do_propagate_step h pe e out id msg He Hout Hmsg)
    as (h1 & again & delay & -> & Hview & Hw & Hs & Hc & Hrest).
  cbn [mbind option_bind]. rewrite reverse_app. simpl.
  case_bool_decide as Hnil.
  - subst out. destruct Hrest as (Htab & Hring & _ & _). simpl.
    exists h1. rewrite app_nil_r. done.
  - destruct Hrest as (Htab & Hring & _).
    destruct (IH h1 pe (Pe.set_outbound (Some out) e) msg Hnil)
      as (h' & Hruns & Hview' & Hw' & Hs' & Hc' & Htab' & Hring').
    { rewrite Htab. apply lookup_insert_eq. }
    { done. }
    { done. }
    exists h'. cbn [Pe.size Pe.set_outbound] in *.
    assert (concat (interest_sent_to h1 (bytes_at msg 0 (Pe.size e)) <$> reverse out)
            = concat (interest_sent_to h (bytes_at msg 0 (Pe.size e)) <$> reverse out))
      as Hsame.
    { f_equal. apply list_fmap_ext. intros _ x _. by apply interest_sent_to_view. }
    rewrite Hsame in Hw', Hs'.
    split_and!.
    + done.
    + congruence.
    + rewrite Hw', Hw. by rewrite app_assoc.
    + rewrite Hs', Hs. unfold zlength, fmap. rewrite length_app. lia.
    + congruence.
    + rewrite Htab', Htab. unfold pe_finished. simpl. by rewrite insert_insert_eq.
    + rewrite Hring'. unfold ring_without. simpl. by rewrite Hring.
Qed.

End DoPropagate.

(** X9. Run once for each of its outbound faces, [do_propagate] forwards the
    recorded interest exactly once to each outbound face that is still
    enrolled, from the last face of the set to the first, wrapped into a
    protocol data unit on link faces, and counts each copy in
    [interests_sent]; ids that no longer resolve are skipped.  With the last
    face the entry is released: the message and the outbound set are gone
    and the entry has left the ring of its prefix, while its key stays in
    the table. *)
Theorem do_propagate_forwards_once `{P : ccnd_private} `{L : ccn_library}
    (h : ccnd) (pe : list byte) (e : Pe.t) (out : list Z) (msg : list byte) :
  out <> [] ->
  propagating_tab h !! pe = Some e ->
  Pe.outbound e = Some out -> Pe.interest_msg e = Some msg ->
  let sent := concat (interest_sent_to h (bytes_at msg 0 (Pe.size e))
                        <$> reverse out) in
  exists h',
    do_propagate_runs (length out) h pe = Some h' /\
    written h' = written h ++ sent /\
    interests_sent h' = interests_sent h + zlength sent /\
    propagating_tab h' = <[pe := pe_finished e]> (propagating_tab h) /\
    (forall k ipe, Pe.next e = Some k -> interestprefix_tab h' !! k = Some ipe ->
       pe ∉ default [] (Ipe.propagating_head ipe)) /\
    do_propagate h' pe false = Some (h', false, 0).
Proof.
  intros Hne He Hout Hmsg sent.
  destruct (do_propagate_runs_spec out h pe e msg Hne He Hout Hmsg)
    as (h' & Hruns & Hview & Hw & Hs & Hc & Htab & Hring).
  exists h'. split_and!; [done|done|done|done| |].
  - intros k ipe Hk Hipe. rewrite Hring in Hipe. unfold ring_without in Hipe.
    rewrite Hk in Hipe. rewrite lookup_alter_eq in Hipe.
    destruct (interestprefix_tab h !! k) as [ipe0|]; [|done].
    simpl in Hipe. injection Hipe as <-. simpl.
    destruct (Ipe.propagating_head ipe0) as [ring|]; simpl; [|by apply not_elem_of_nil].
    intros Hin%list_elem_of_filter. by destruct Hin.
  - unfold do_propagate. rewrite Htab, lookup_insert_eq. done.
Qed.

(** X10. A run of [do_propagate] that is a cancellation sends nothing: the
    outbound set is emptied and the entry is released at once, and the
    reaper is asked for. *)
Theorem do_propagate_cancelled `{P : ccnd_private} `{L : ccn_library}
    (h : ccnd) (pe : list byte) (e : Pe.t) (out : list Z) (msg : list byte) :
  propagating_tab h !! pe = Some e ->
  Pe.outbound e = Some out -> Pe.interest_msg e = Some msg ->
  exists h',
    do_propagate h pe true = Some (h', true, 0) /\
    written h' = written h /\
    interests_sent h' = interests_sent h /\
    propagating_tab h' = <[pe := pe_finished e]> (propagating_tab h) /\
    do_propagate h' pe false = Some (h', false, 0).
Proof.
  intros He Hout Hmsg.
  destruct (do_propagate_tail_spec h pe e [] He)
    as (h' & again & delay & Htail & _ & Hw & Hs & _ & Htab & _ & -> & ->).
  exists h'. split_and!; [|done|done|done|].
  - unfold do_propagate. rewrite He. cbn [mbind option_bind].
    rewrite Hout, Hmsg. exact Htail.
  - unfold do_propagate. rewrite Htab, lookup_insert_eq. done.
Qed.

Section DoPropagateRun.

#[local] Existing Instance sample_private.

#[local] Existing Instance sample_library.

Lemma do_propagate_forwards_once_witness :
  exists h',
    do_propagate_runs 2 nonce_pending [x09; x09] = Some h' /\
    written h'
    = [(103%nat, interest_xy);
       (102%nat, [x43; x43; x4e; x82] ++ interest_xy ++ [x00])] /\
    interests_sent h' = 2 /\
    do_propagate h' [x09; x09] false = Some (h', false, 0).
Proof.
  destruct (do_propagate_forwards_once nonce_pending [x09; x09] nonce_pending_entry
              [1; 2] interest_xy)
    as (h' & Hruns & Hw & Hs & _ & _ & Hdone).
  - discriminate.
  - vm_compute. reflexivity.
  - reflexivity.
  - reflexivity.
  - exists h'. split; [exact Hruns|].
    split; [rewrite Hw; vm_compute; reflexivity|].
    split; [rewrite Hs; vm_compute; reflexivity|exact Hdone].
Defined.

Lemma do_propagate_cancelled_witness :
  exists h',
    do_propagate nonce_pending [x09; x09] true = Some (h', true, 0) /\
    written h' = [] /\
    do_propagate h' [x09; x09] false = Some (h', false, 0).
Proof.
  destruct (do_propagate_cancelled nonce_pending [x09; x09] nonce_pending_entry
              [1; 2] interest_xy)
    as (h' & Hrun & Hw & _ & _ & Hdone).
  - vm_compute. reflexivity.
  - reflexivity.
  - reflexivity.
  - exists h'. split; [exact Hrun|].
    split; [rewrite Hw; vm_compute; reflexivity|exact Hdone].
Defined.

End DoPropagateRun.

(** ** Expiry of propagating entries (lines 875-901) *)

Section CheckPropagating.

Context `{P : ccnd_private} `{L : ccn_library}.

Lemma filter_ext_in {A} (P1 P2 : A -> Prop) `{!forall x, Decision (P1 x)}
    `{!forall x, Decision (P2 x)} (l : list A) :
  (forall x, x ∈ l -> (P1 x <-> P2 x)) -> filter P1 l = filter P2 l.
Proof.
  induction l as [|a l IH]; intros Hl; [done|].
  rewrite !filter_cons. rewrite IH by (intros x Hx; apply Hl; by right).
  assert (P1 a <-> P2 a) as Ha by (apply Hl; by left).
  destruct (decide (P1 a)) as [H1|H1], (decide (P2 a)) as [H2|H2]; tauto.
Qed.

Lemma check_propagating_entry_spec (h : ccnd) (count : Z) (pe : list byte) (e : Pe.t) :
  propagating_tab h !! pe = Some e ->
  exists h',
    check_propagating_entry (h, count) pe
    = Some (h', if pe_expired e then count + 1 else count) /\
    propagating_tab h' = partial_alter (fun _ => pe_checked e) pe (propagating_tab h) /\
    written h' = written h /\ content_tab h' = content_tab h /\
    face_store h' = face_store h /\ faces_by_faceid h' = faces_by_faceid h /\
    face_limit h' = face_limit h.
Proof.
  intros He. unfold check_propagating_entry, pe_expired, pe_checked.
  rewrite He. cbn [mbind option_bind].
  destruct (Pe.interest_msg e) as [m|] eqn:Hm.
  - rewrite bool_decide_eq_false_2 by done. simpl.
    exists h. split; [done|]. split; [|done].
    apply map_eq. intros k. destruct (decide (k = pe)) as [->|Hk].
    + by rewrite lookup_partial_alter_eq.
    + by rewrite lookup_partial_alter_ne.
  - rewrite bool_decide_eq_true_2 by done. simpl.
    destruct (Pe.size e =? 0) eqn:Hs.
    + unfold release_propagating, finished_propagating. rewrite He.
      cbn [mbind option_bind].
      destruct (Pe.next e); simpl.
      * eexists. split; [done|]. simpl. split; [|done].
        apply map_eq. intros k. destruct (decide (k = pe)) as [->|Hk].
        -- by rewrite lookup_partial_alter_eq, lookup_delete_eq.
        -- by rewrite lookup_partial_alter_ne, lookup_delete_ne, lookup_insert_ne.
      * eexists. split; [done|]. simpl. split; [|done].
        apply map_eq. intros k. destruct (decide (k = pe)) as [->|Hk].
        -- by rewrite lookup_partial_alter_eq, lookup_delete_eq.
        -- by rewrite lookup_partial_alter_ne, lookup_delete_ne, lookup_insert_ne.
    + eexists. split; [done|]. simpl. split; [|done].
      apply map_eq. intros k. destruct (decide (k = pe)) as [->|Hk].
      * by rewrite lookup_partial_alter_eq, lookup_insert_eq.
      * by rewrite lookup_partial_alter_ne, lookup_insert_ne.
Qed.

Lemma check_propagating_loop (ks : list (list byte)) :
  NoDup ks ->
  forall (h : ccnd) (count : Z),
  (forall k, k ∈ ks -> is_Some (propagating_tab h !! k)) ->
  exists h' count',
    foldl (fun acc pe => st ← acc; check_propagating_entry st pe) (Some (h, count)) ks
    = Some (h', count') /\
    (forall k, propagating_tab h' !! k
               = if bool_decide (k ∈ ks) then propagating_tab h !! k ≫= pe_checked
                 else propagating_tab h !! k) /\
    count' = count
             + zlength (filter (fun k => default false
                                           (pe_expired <$> propagating_tab h !! k)
                                         = true) ks) /\
    written h' = written h /\ content_tab h' = content_tab h /\
    face_store h' = face_store h /\ faces_by_faceid h' = faces_by_faceid h /\
    face_limit h' = face_limit h.
Proof.
  induction 1 as [|k ks Hk Hnd IH]; intros h count Hall.
  - exists h, count. split; [done|]. split; [done|].
    split; [unfold zlength; simpl; lia|done].
  - destruct (Hall k) as [e He]; [by left|].
    destruct (check_propagating_entry_spec h count k e He)
      as (h1 & Hstep & Htab1 & Hw1 & Hc1 & Hf1 & Hs1 & Hl1).
    cbn [foldl mbind option_bind]. rewrite Hstep.
    destruct (IH h1 (if pe_expired e then count + 1 else count))
      as (h' & count' & Hfold & Htab & Hcount & Hw & Hc & Hf & Hs & Hl).
    { intros k' Hk'. rewrite Htab1.
      rewrite lookup_partial_alter_ne by (intros ->; done).
      apply Hall. by right. }
    exists h', count'. split; [exact Hfold|].
    split; [|split; [|split_and!; congruence]].
    + intros k'. rewrite Htab, Htab1.
      destruct (decide (k' = k)) as [->|Hne].
      * rewrite bool_decide_eq_false_2 by done.
        rewrite bool_decide_eq_true_2 by (by left).
        by rewrite lookup_partial_alter_eq, He.
      * rewrite lookup_partial_alter_ne by done.
        destruct (decide (k' ∈ ks)) as [Hin|Hnin].
        -- rewrite !bool_decide_eq_true_2; [done|by right|done].
        -- rewrite !bool_decide_eq_false_2; [done| |done].
           intros [->|Hin]%elem_of_cons; done.
    + rewrite Hcount. rewrite filter_cons. rewrite He. simpl.
      assert (filter (fun k0 => default false (pe_expired <$> propagating_tab h1 !! k0)
                                = true) ks
              = filter (fun k0 => default false (pe_expired <$> propagating_tab h !! k0)
                                  = true) ks) as ->.
      { apply filter_ext_in. intros k' Hk'.
        rewrite Htab1. rewrite lookup_partial_alter_ne by (intros ->; done). done. }
      destruct (pe_expired e); simpl; unfold zlength; simpl; lia.
Qed.

Lemma check_propagating_spec (h : ccnd) :
  exists h' count,
    check_propagating h = Some (h', count) /\
    propagating_tab h' = omap pe_checked (propagating_tab h) /\
    count = zlength (filter (fun kv => pe_expired kv.2 = true)
                            (map_to_list (propagating_tab h))) /\
    written h' = written h /\ content_tab h' = content_tab h /\
    face_store h' = face_store h /\ faces_by_faceid h' = faces_by_faceid h /\
    face_limit h' = face_limit h.
Proof.
  unfold check_propagating.
  destruct (check_propagating_loop (map_to_list (propagating_tab h)).*1
              (NoDup_fst_map_to_list _) h 0)
    as (h' & count & Hfold & Htab & Hcount & Hrest).
  { intros k (kv & -> & Hkv)%list_elem_of_fmap. destruct kv as [k e].
    apply elem_of_map_to_list in Hkv. by exists e. }
  exists h', count. split; [exact Hfold|]. split; [|split; [|exact Hrest]].
  - apply map_eq. intros k. rewrite Htab, lookup_omap.
    case_bool_decide as Hin; [done|].
    destruct (propagating_tab h !! k) as [e|] eqn:He; [|done].
    exfalso. apply Hin. apply list_elem_of_fmap. exists (k, e).
    split; [done|]. by apply elem_of_map_to_list.
  - rewrite Hcount, Z.add_0_l. unfold zlength. f_equal.
    assert (forall k e, (k, e) ∈ map_to_list (propagating_tab h) ->
                        propagating_tab h !! k = Some e) as Hl
      by (intros k e Hin; by apply elem_of_map_to_list).
    clear Hfold Htab Hcount. revert Hl.
    induction (map_to_list (propagating_tab h)) as [|[k e] l IHl]; intros Hl; [done|].
    assert (length (filter (fun k0 => default false
                                        (pe_expired <$> propagating_tab h !! k0) = true)
                           l.*1)
            = length (filter (fun kv : list byte * Pe.t => pe_expired kv.2 = true) l))
      as IH by (apply IHl; intros k' e' Hin; apply Hl; by right).
    rewrite fmap_cons, !filter_cons. cbn [fst snd].
    rewrite (Hl k e) by (by left). cbn [fmap option_fmap option_map default].
    destruct (pe_expired e).
    + rewrite !decide_True by done. cbn [length]. by rewrite IH.
    + rewrite !decide_False by done. done.
Qed.

End CheckPropagating.

(** X11. One pass of [check_propagating] never fails and touches nothing but
    the table of propagating interests (and the rings its finalizer takes
    deleted entries out of): an entry that still holds its interest message
    is left as it is; a released entry has its size counter stepped from
    more than 1 to 1 and from 1 to 0, and is deleted when it is found at 0.
    The value returned is the number of entries deleted. *)
Theorem check_propagating_pass `{P : ccnd_private} `{L : ccn_library} (h : ccnd) :
  exists h' count,
    check_propagating h = Some (h', count) /\
    propagating_tab h' = omap pe_checked (propagating_tab h) /\
    (forall k e, propagating_tab h !! k = Some e -> is_Some (Pe.interest_msg e) ->
                 propagating_tab h' !! k = Some e) /\
    (forall k e, propagating_tab h !! k = Some e -> pe_expired e = true ->
                 propagating_tab h' !! k = None) /\
    count = zlength (filter (fun kv => pe_expired kv.2 = true)
                            (map_to_list (propagating_tab h))) /\
    written h' = written h /\ content_tab h' = content_tab h /\
    face_store h' = face_store h.
Proof.
  destruct (check_propagating_spec h)
    as (h' & count & Hrun & Htab & Hcount & Hw & Hc & Hf & _).
  exists h', count. split_and!; [done|done| | |done|done|done|done].
  - intros k e He [m Hm]. rewrite Htab, lookup_omap, He. simpl.
    unfold pe_checked. by rewrite Hm.
  - intros k e He Hexp. rewrite Htab, lookup_omap, He. simpl.
    unfold pe_expired in Hexp. apply andb_prop in Hexp as [Hm Hs].
    apply bool_decide_eq_true in Hm. unfold pe_checked. by rewrite Hm, Hs.
Qed.

(** X12. "Go around twice": the nonce of a released entry whose stored size
    is more than 1 stays in the table for two more passes of
    [check_propagating], during which [is_duplicate_flooded] still
    recognises an interest that carries it, and is gone after the third
    pass. *)
Theorem check_propagating_go_around_twice `{P : ccnd_private} `{L : ccn_library}
    (h : ccnd) (k : list byte) (e : Pe.t) (msg : list byte)
    (pi : ccn_parsed_interest) :
  propagating_tab h !! k = Some e ->
  Pe.interest_msg e = None -> 1 < Pe.size e ->
  u64 (CCN_PI_E_Nonce pi - CCN_PI_B_Nonce pi) <> 0 ->
  bytes_at msg (CCN_PI_B_Nonce pi) (u64 (CCN_PI_E_Nonce pi - CCN_PI_B_Nonce pi)) = k ->
  exists h1 h2 h3,
    check_propagating_passes 1 h = Some h1 /\
    check_propagating_passes 2 h = Some h2 /\
    check_propagating_passes 3 h = Some h3 /\
    is_duplicate_flooded h1 msg pi = true /\
    is_duplicate_flooded h2 msg pi = true /\
    is_duplicate_flooded h3 msg pi = false.
Proof.
  intros He Hm Hs Hsize Hk.
  destruct (check_propagating_spec h) as (h1 & c1 & Hrun1 & Htab1 & _).
  destruct (check_propagating_spec h1) as (h2 & c2 & Hrun2 & Htab2 & _).
  destruct (check_propagating_spec h2) as (h3 & c3 & Hrun3 & Htab3 & _).
  assert (propagating_tab h1 !! k = Some (Pe.set_size 1 e)) as He1.
  { rewrite Htab1, lookup_omap, He. simpl. unfold pe_checked. rewrite Hm.
    replace (Pe.size e =? 0) with false by (symmetry; apply Z.eqb_neq; lia).
    by replace (1 <? Pe.size e) with true by (symmetry; apply Z.ltb_lt; lia). }
  assert (propagating_tab h2 !! k = Some (Pe.set_size 0 (Pe.set_size 1 e))) as He2.
  { rewrite Htab2, lookup_omap, He1. simpl. unfold pe_checked. simpl. by rewrite Hm. }
  assert (propagating_tab h3 !! k = None) as He3.
  { rewrite Htab3, lookup_omap, He2. simpl. unfold pe_checked. simpl. by rewrite Hm. }
  exists h1, h2, h3. simpl. rewrite Hrun1. simpl. rewrite Hrun2. simpl.
  rewrite Hrun3. simpl.
  unfold is_duplicate_flooded.
  replace (u64 (CCN_PI_E_Nonce pi - CCN_PI_B_Nonce pi) =? 0) with false
    by (symmetry; by apply Z.eqb_neq).
  rewrite Hk, He1, He2, He3.
  split_and!; try done.
Qed.

Section CheckPropagatingRun.

#[local] Existing Instance sample_private.

#[local] Existing Instance sample_library.

Lemma check_propagating_go_around_twice_witness :
  exists h1 h2 h3,
    check_propagating_passes 1 nonce_released = Some h1 /\
    check_propagating_passes 2 nonce_released = Some h2 /\
    check_propagating_passes 3 nonce_released = Some h3 /\
    is_duplicate_flooded h1 interest_xy (interest_xy_parsed (-1)) = true /\
    is_duplicate_flooded h2 interest_xy (interest_xy_parsed (-1)) = true /\
    is_duplicate_flooded h3 interest_xy (interest_xy_parsed (-1)) = false.
Proof.
  apply (check_propagating_go_around_twice nonce_released [x09; x09]
           (pe_finished nonce_pending_entry) interest_xy (interest_xy_parsed (-1))).
  - vm_compute. reflexivity.
  - reflexivity.
  - vm_compute. reflexivity.
  - vm_compute. discriminate.
  - vm_compute. reflexivity.
Defined.

End CheckPropagatingRun.

(** ** Consuming a pending interest (lines 420-433, 655-675) *)

Lemma filter_all {A} (Pf : A -> Prop) `{!forall x, Decision (Pf x)} (l : list A) :
  (forall x, x ∈ l -> Pf x) -> filter Pf l = l.
Proof.
  induction l as [|a l IH]; intros Hl; [done|].
  rewrite filter_cons_True by (apply Hl; by left).
  by rewrite IH by (intros x Hx; apply Hl; by right).
Qed.

Section CancelPropagating.

Context `{P : ccnd_private} `{L : ccn_library}.

Lemma ring_find_faceid_first (h : ccnd) (ring1 ring2 : list (list byte))
    (p : list byte) (e : Pe.t) (faceid : Z) :
  Forall (fun q => exists eq, propagating_tab h !! q = Some eq /\
                              Pe.faceid eq <> faceid) ring1 ->
  propagating_tab h !! p = Some e -> Pe.faceid e = faceid ->
  ring_find_faceid h (ring1 ++ p :: ring2) faceid = Some (Some p).
Proof.
  intros Hbefore He Hf. induction Hbefore as [|q ring1 (eq & Heq & Hne) _ IH]; simpl.
  - rewrite He. simpl. rewrite Hf, Z.eqb_refl. done.
  - rewrite Heq. simpl.
    replace (Pe.faceid eq =? faceid) with false by (symmetry; by apply Z.eqb_neq).
    exact IH.
Qed.

Lemma ring_find_faceid_none (h : ccnd) (ring : list (list byte)) (faceid : Z) :
  Forall (fun q => exists eq, propagating_tab h !! q = Some eq /\
                              Pe.faceid eq <> faceid) ring ->
  ring_find_faceid h ring faceid = Some None.
Proof.
  induction 1 as [|q ring (eq & Heq & Hne) _ IH]; simpl; [done|].
  rewrite Heq. simpl.
  by replace (Pe.faceid eq =? faceid) with false by (symmetry; by apply Z.eqb_neq).
Qed.

End CancelPropagating.

(** X13. [cancel_one_propagating_interest] consumes the oldest pending
    interest of the face: of the entries in the ring of the prefix, in the
    order in which they were linked, the first that came in on the face is
    released and leaves the ring, and no other entry is touched.  A released
    entry is not forwarded any more: [do_propagate] on it does nothing.
    A second call changes nothing when no later entry of the ring came in
    on the face. *)
Theorem cancel_one_propagating_interest_oldest `{P : ccnd_private} `{L : ccn_library}
    (h : ccnd) (ipe : list byte) (i : Ipe.t) (ring1 ring2 : list (list byte))
    (p : list byte) (e : Pe.t) (faceid : Z) :
  interestprefix_tab h !! ipe = Some i ->
  Ipe.propagating_head i = Some (ring1 ++ p :: ring2) ->
  NoDup (ring1 ++ p :: ring2) ->
  Forall (fun q => exists eq, propagating_tab h !! q = Some eq /\
                              Pe.faceid eq <> faceid) ring1 ->
  propagating_tab h !! p = Some e -> Pe.faceid e = faceid -> Pe.next e = Some ipe ->
  exists h',
    cancel_one_propagating_interest h ipe faceid = Some h' /\
    propagating_tab h' = <[p := pe_finished e]> (propagating_tab h) /\
    interestprefix_tab h'
    = <[ipe := Ipe.set_propagating_head (Some (ring1 ++ ring2)) i]>
        (interestprefix_tab h) /\
    written h' = written h /\
    do_propagate h' p false = Some (h', false, 0) /\
    (Forall (fun q => exists eq, propagating_tab h !! q = Some eq /\
                                 Pe.faceid eq <> faceid) ring2 ->
     cancel_one_propagating_interest h' ipe faceid = Some h').
Proof.
  intros Hi Hring Hnd Hbefore He Hf Hnext.
  unfold cancel_one_propagating_interest. rewrite Hi. cbn [mbind option_bind].
  rewrite Hring.
  rewrite (ring_find_faceid_first h ring1 ring2 p e faceid Hbefore He Hf).
  cbn [mbind option_bind].
  destruct (finished_propagating_spec h p e He)
    as (h' & Hfin & Htab & Hipe & _ & Hw & _ & _).
  assert (filter (fun q => q <> p) (ring1 ++ p :: ring2) = ring1 ++ ring2) as Hfilter.
  { apply NoDup_app in Hnd as (Hnd1 & Hdisj & Hnd2).
    apply NoDup_cons in Hnd2 as [Hp2 _].
    rewrite filter_app, filter_cons, decide_False by (intros Hne; by apply Hne).
    f_equal.
    - apply filter_all. intros q Hq ->. apply (Hdisj p Hq). by left.
    - apply filter_all. intros q Hq ->. done. }
  assert (interestprefix_tab h'
          = <[ipe := Ipe.set_propagating_head (Some (ring1 ++ ring2)) i]>
              (interestprefix_tab h)) as Hipe'.
  { rewrite Hipe. unfold ring_without. rewrite Hnext.
    apply map_eq. intros k. destruct (decide (k = ipe)) as [->|Hk].
    - rewrite lookup_alter_eq, lookup_insert_eq, Hi. simpl.
      by rewrite Hring, <- Hfilter.
    - by rewrite lookup_alter_ne, lookup_insert_ne. }
  exists h'. split; [exact Hfin|]. split; [exact Htab|]. split; [exact Hipe'|].
  split; [exact Hw|]. split.
  - unfold do_propagate. rewrite Htab, lookup_insert_eq. done.
  - intros Hafter. rewrite Hipe', lookup_insert_eq. cbn [mbind option_bind].
    cbn [Ipe.propagating_head Ipe.set_propagating_head].
    rewrite ring_find_faceid_none; [done|].
    apply NoDup_app in Hnd as (Hnd1 & Hdisj & Hnd2).
    apply NoDup_cons in Hnd2 as [Hp2 _].
    apply Forall_app. split.
    + apply Forall_forall. intros q Hq.
      rewrite Forall_forall in Hbefore. destruct (Hbefore q Hq) as (eq & Heq & Hne).
      exists eq. split; [|done]. rewrite Htab, lookup_insert_ne; [done|].
      intros <-. apply (Hdisj p Hq). by left.
    + apply Forall_forall. intros q Hq.
      rewrite Forall_forall in Hafter. destruct (Hafter q Hq) as (eq & Heq & Hne).
      exists eq. split; [|done]. rewrite Htab, lookup_insert_ne; [done|].
      by intros <-.
Qed.

Section CancelRun.

#[local] Existing Instance sample_private.

#[local] Existing Instance sample_library.

Lemma cancel_one_propagating_interest_oldest_witness :
  exists h',
    cancel_one_propagating_interest two_pending [x01; x02; x03; x04] 0 = Some h' /\
    (Pe.interest_msg <$> propagating_tab h' !! [x09; x09]) = Some None /\
    (Pe.interest_msg <$> propagating_tab h' !! [x0a; x0a])
    = Some (Some [x01; x02; x03; x04; x0a; x0a]) /\
    (Ipe.propagating_head <$> interestprefix_tab h' !! [x01; x02; x03; x04])
    = Some (Some [[x0a; x0a]]).
Proof.
  destruct (cancel_one_propagating_interest_oldest two_pending [x01; x02; x03; x04]
              two_pending_prefix [] [[x0a; x0a]] [x09; x09] nonce_pending_entry 0)
    as (h' & Hrun & Htab & Hipe & _).
  - vm_compute. reflexivity.
  - reflexivity.
  - apply (bool_decide_unpack _). vm_compute. exact I.
  - apply Forall_nil_2.
  - vm_compute. reflexivity.
  - reflexivity.
  - reflexivity.
  - exists h'. split; [exact Hrun|].
    rewrite Htab, Hipe. split; [vm_compute; reflexivity|].
    split; vm_compute; reflexivity.
Defined.

End CancelRun.

(** ** Arrival of new content (lines 300-319, 1380-1481) *)

Section SkiplistFrame.

Context `{P : ccnd_private} `{L : ccn_library}.

Lemma unlinked_insert (m : gmap (list byte) Content.t) (k : list byte)
    (e : Content.t) (x : option (list Z)) :
  m !! k = Some e ->
  unlinked <$> <[k := Content.set_skiplinks x e]> m = unlinked <$> m.
Proof.
  intros He. apply map_eq. intros k'. rewrite !lookup_fmap.
  destruct (decide (k' = k)) as [->|Hne].
  - by rewrite lookup_insert_eq, He.
  - by rewrite lookup_insert_ne.
Qed.

(** The skiplist operations change links only: those of the head and those
    of stored entries. *)
Lemma skipnode_set_link_shape (h h' : ccnd) (p : skipnode) (i : nat) (v : Z) :
  skipnode_set_link h p i v = Some h' ->
  exists l m, h' = set_skiplinks l (set_content_tab m h) /\
              unlinked <$> m = unlinked <$> content_tab h.
Proof.
  destruct p as [|k]; simpl.
  - case_bool_decide; [|done]. intros [= <-].
    exists (<[i := v]> (skiplinks h)), (content_tab h). split; [by destruct h|done].
  - destruct (content_tab h !! k) as [e|] eqn:He; [|done]. simpl.
    destruct (Content.skiplinks e) as [l|]; [|done]. simpl.
    case_bool_decide; [|done]. intros [= <-].
    exists (skiplinks h),
           (<[k := Content.set_skiplinks (Some (<[i := v]> l)) e]> (content_tab h)).
    split; [by destruct h|]. by apply unlinked_insert.
Qed.

Lemma skiplist_link_levels_shape (cnt : nat) :
  forall (h h' : ccnd) content accession pred (i : nat),
  skiplist_link_levels h content accession pred i cnt = Some h' ->
  exists l m, h' = set_skiplinks l (set_content_tab m h) /\
              unlinked <$> m = unlinked <$> content_tab h.
Proof.
  induction cnt as [|cnt IH]; intros h h' content accession pred i; simpl.
  - intros [= <-]. exists (skiplinks h), (content_tab h). split; [by destruct h|done].
  - destruct (pred !! i) as [p|]; [|done]. simpl.
    destruct (skipnode_links h p) as [links|]; [|done]. simpl.
    destruct (links !! i) as [nxt|]; [|done]. simpl.
    destruct (content_tab h !! content) as [e|] eqn:He; [|done]. simpl.
    destruct (Content.skiplinks e) as [l|]; [|done]. simpl.
    destruct (skipnode_set_link _ p i accession) as [h1|] eqn:Hset; [|done]. simpl.
    intros Hrest.
    apply skipnode_set_link_shape in Hset as (l1 & m1 & -> & Hm1).
    apply IH in Hrest as (l2 & m2 & -> & Hm2).
    exists l2, m2. split; [done|].
    rewrite Hm2. simpl. rewrite Hm1. simpl. by apply unlinked_insert.
Qed.

Lemma skiplist_link_levels_linked (cnt : nat) :
  forall (h h' : ccnd) content accession pred (i : nat) e0 l0,
  content_tab h !! content = Some e0 -> Content.skiplinks e0 = Some l0 ->
  skiplist_link_levels h content accession pred i cnt = Some h' ->
  exists e1 l1, content_tab h' !! content = Some e1 /\ Content.skiplinks e1 = Some l1.
Proof.
  induction cnt as [|cnt IH]; intros h h' content accession pred i e0 l0 He0 Hl0; simpl.
  - intros [= <-]. by exists e0, l0.
  - destruct (pred !! i) as [p|]; [|done]. simpl.
    destruct (skipnode_links h p) as [links|]; [|done]. simpl.
    destruct (links !! i) as [nxt|]; [|done]. simpl.
    rewrite He0. simpl. rewrite Hl0. simpl.
    destruct (skipnode_set_link _ p i accession) as [h2|] eqn:Hset; [|done]. simpl.
    intros Hrest.
    assert (exists e2 l2, content_tab h2 !! content = Some e2 /\
                          Content.skiplinks e2 = Some l2) as (e2 & l2 & He2 & Hl2).
    { destruct p as [|k]; simpl in Hset.
      - case_bool_decide; [|done]. injection Hset as <-. simpl.
        rewrite lookup_insert_eq. by eexists _, _.
      - destruct (decide (k = content)) as [->|Hne].
        + rewrite lookup_insert_eq in Hset. simpl in Hset.
          case_bool_decide; [|done]. injection Hset as <-. simpl.
          rewrite lookup_insert_eq. by eexists _, _.
        + rewrite lookup_insert_ne in Hset by done.
          destruct (content_tab h !! k) as [ek|]; [|done]. simpl in Hset.
          destruct (Content.skiplinks ek) as [lk|]; [|done]. simpl in Hset.
          case_bool_decide; [|done]. injection Hset as <-. simpl.
          rewrite lookup_insert_ne by done. rewrite lookup_insert_eq.
          by eexists _, _. }
    by apply (IH h2 h' content accession pred (S i) e2 l2).
Qed.

Lemma content_skiplist_insert_shape (h h' : ccnd) (content : list byte) :
  content_skiplist_insert h content = Some h' ->
  exists s l m, h' = set_seed s (set_skiplinks l (set_content_tab m h)) /\
                unlinked <$> m = unlinked <$> content_tab h /\
                exists e e', content_tab h !! content = Some e /\
                             m !! content = Some e' /\
                             is_Some (Content.skiplinks e').
Proof.
  unfold content_skiplist_insert.
  destruct (content_tab h !! content) as [e|] eqn:He; [|done].
  cbn [mbind option_bind].
  case_bool_decide; [done|].
  destruct (skiplist_choose_depth (Z.to_nat (CCN_SKIPLIST_MAX_DEPTH - 1 - 1)) 1 (seed h))
    as [d seed'].
  destruct (content_skiplist_findbefore _ _) as [pred|]; [|done].
  cbn [mbind option_bind].
  intros Hrun.
  destruct (skiplist_link_levels_linked _ _ _ _ _ _ _
              (Content.set_skiplinks (Some []) e) [] (lookup_insert_eq _ _ _) eq_refl Hrun)
    as (e1 & l1 & He1 & Hl1).
  apply skiplist_link_levels_shape in Hrun as (l & m & -> & Hm).
  exists seed', l, m. split; [done|]. split.
  - rewrite Hm. simpl. by apply unlinked_insert.
  - exists e, e1. simpl in He1. split; [done|]. split; [done|]. by rewrite Hl1.
Qed.

(** [enroll_content] changes the accession index only. *)
Lemma enroll_content_shape (h h' : ccnd) (content : list byte) :
  enroll_content h content = Some h' ->
  exists a w b, h' = set_content_by_accession a
                       (set_content_by_accession_window w (set_accession_base b h)).
Proof.
  unfold enroll_content.
  destruct (content_tab h !! content) as [c|]; [|done]. simpl.
  destruct (_ <=? Content.accession c).
  - destruct (_ && _); [|done]. intros [= <-]. by eexists _, _, _.
  - destruct (_ && _); [|done]. intros [= <-].
    exists (zupdate (content_by_accession h) (Content.accession c - accession_base h)
                    (Some content)),
           (content_by_accession_window h), (accession_base h).
    by destruct h.
Qed.

(** The message as it is kept in a new entry is the message received. *)
Lemma stored_bytes (msg : list byte) (keysize : Z) :
  0 <= keysize <= zlength msg -> zlength msg < 2 ^ 64 ->
  bytes_at msg 0 (keysize + u64 (zlength msg - keysize)) = msg.
Proof.
  intros Hk Hlen. unfold u64. rewrite Z.mod_small by lia.
  replace (keysize + (zlength msg - keysize)) with (zlength msg) by lia.
  unfold bytes_at, zlength. change (Z.to_nat 0) with 0%nat.
  rewrite drop_0, Nat2Z.id. apply firstn_all.
Qed.

(** The new entry is stored and linked: the state in which the pending
    interests are matched. *)
Lemma new_content_linked (h h2 : ccnd) (f : Face.t) (msg : list byte)
    (obj : ccn_parsed_ContentObject) (comps : list Z) :
  let key := bytes_at msg 0 (CCN_PCO_B_Content obj) in
  (h1 ← store_new_content h f msg obj comps; content_skiplist_insert h1 key) = Some h2 ->
  exists e2,
    content_tab h2 !! key = Some e2 /\
    unlinked e2 = new_content_entry h f msg obj comps /\
    is_Some (Content.skiplinks e2) /\
    unlinked <$> delete key (content_tab h2) = unlinked <$> delete key (content_tab h) /\
    face_store h2 = face_store h /\ faces_by_faceid h2 = faces_by_faceid h /\
    face_limit h2 = face_limit h /\ interestprefix_tab h2 = interestprefix_tab h /\
    propagating_tab h2 = propagating_tab h /\ sched h2 = sched h /\
    written h2 = written h /\ content_dups_recvd h2 = content_dups_recvd h.
Proof.
  intros key. unfold store_new_content. cbv zeta. fold key.
  destruct (enroll_content _ key) as [h1|] eqn:Hen; [|done]. cbn [mbind option_bind].
  intros Hins.
  apply enroll_content_shape in Hen as (a & w & b & ->).
  apply content_skiplist_insert_shape in Hins
    as (s & l & m & -> & Hm & e1 & e2 & He1 & He2 & Hl2).
  simpl in He1, Hm. rewrite lookup_insert_eq in He1. injection He1 as <-.
  exists e2. simpl. split; [done|]. split; [|split; [done|split; [|done]]].
  - apply (f_equal (fun t => t !! key)) in Hm.
    rewrite !lookup_fmap, He2, lookup_insert_eq in Hm.
    cbn [fmap option_fmap option_map] in Hm.
    apply (inj Some) in Hm. exact Hm.
  - apply map_eq. intros k. rewrite !lookup_fmap.
    destruct (decide (k = key)) as [->|Hne].
    + by rewrite !lookup_delete_eq.
    + rewrite !lookup_delete_ne by done.
      apply (f_equal (fun t => t !! k)) in Hm.
      by rewrite !lookup_fmap, lookup_insert_ne in Hm.
Qed.

End SkiplistFrame.

(** ** The invariant of the content store *)

Section StoreInvariant.

Context `{P : ccnd_private} `{L : ccn_library}.

Lemma same_store_links (h h' : ccnd) (c : skipnode) :
  same_store h h' -> skipnode_links h' c = skipnode_links h c.
Proof.
  intros (_ & _ & Hs & Hl). destruct c as [|k]; simpl; [by rewrite Hs|].
  specialize (Hl k).
  destruct (content_tab h' !! k) as [e'|], (content_tab h !! k) as [e|]; try done.
  simpl in *. congruence.
Qed.

Lemma content_store_ok_same (h h' : ccnd) :
  same_store h h' -> content_store_ok h -> content_store_ok h'.
Proof.
  intros Hsame [Hkeys Hsorted Hidx Hcnt Hiss].
  pose proof Hsame as (Hi & Hacc & Hs & Hl).
  pose proof Hi as (A & B & C & D).
  split.
  - by apply (same_index_keys_ok h h').
  - intros c links i a Hlinks Ha Hne.
    rewrite (same_store_links h h' c Hsame) in Hlinks.
    destruct (Hsorted c links i a Hlinks Ha Hne) as (k & depth & Hk & Hd & Hlt & Hord).
    exists k, depth. rewrite (same_index_accession h h') by done.
    split; [done|]. split.
    { unfold node_depth. by rewrite (same_store_links h h' _ Hsame). }
    split; [done|].
    intros kc ec' -> Hec'.
    destruct (same_index_entry h' h kc ec' (same_index_sym _ _ Hi) Hec')
      as (ec & Hec & Hacc' & _).
    rewrite <- Hacc'. by apply (Hord kc ec).
  - unfold accession_index_ok. by rewrite A, B, C.
  - unfold accession_counter_ok. by rewrite Hacc, B, C.
  - intros k e' He'.
    destruct (same_index_entry h' h k e' (same_index_sym _ _ Hi) He')
      as (e & He & Hacc' & _).
    rewrite <- Hacc', Hacc. by apply (Hiss k e).
Qed.

(** Entries that differ in their links only have the same name and
    accession. *)
Lemma unlinked_same_index (m m' : gmap (list byte) Content.t) (k : list byte) :
  unlinked <$> m' = unlinked <$> m ->
  (fun e => (Content.accession e, entry_name e)) <$> m' !! k
  = (fun e => (Content.accession e, entry_name e)) <$> m !! k.
Proof.
  intros Hm. apply (f_equal (fun t => t !! k)) in Hm. rewrite !lookup_fmap in Hm.
  destruct (m' !! k) as [e'|], (m !! k) as [e|]; try done.
  simpl in *. apply (inj Some) in Hm.
  apply (f_equal Content.accession) in Hm as H1.
  apply (f_equal Content.key) in Hm as H2.
  apply (f_equal Content.key_size) in Hm as H3.
  simpl in H1, H2, H3. unfold entry_name. by rewrite H1, H2, H3.
Qed.

(** The entry of a new key gets the next accession and a slot of the
    accession array. *)
Lemma store_new_content_index (h : ccnd) (f : Face.t) (msg : list byte)
    (obj : ccn_parsed_ContentObject) (comps : list Z) :
  let key := bytes_at msg 0 (CCN_PCO_B_Content obj) in
  accession_index_ok h -> accession_index_fits h -> accession_counter_ok h ->
  accession h + 1 < 2 ^ 64 ->
  content_tab h !! key = None ->
  exists h',
    store_new_content h f msg obj comps = Some h' /\
    accession_index_ok h' /\ accession_counter_ok h' /\
    accession h' = accession h + 1 /\
    skiplinks h' = skiplinks h /\
    content_tab h' = <[key := new_content_entry h f msg obj comps]> (content_tab h) /\
    content_from_accession h' (accession h + 1) = Some key /\
    forall a, a <> accession h + 1 ->
              content_from_accession h' a = content_from_accession h a.
Proof.
  intros key Hok Hfits [Hc1 Hc2] Hacc Hnew.
  pose proof Hok as [Hlen Hbase]. pose proof Hfits as [Hw Hb].
  assert (0 <= content_by_accession_window h) as Hw0 by (unfold zlength in Hlen; lia).
  assert (u64 (accession h + 1) = accession h + 1) as Hu.
  { unfold u64. apply Z.mod_small. lia. }
  unfold store_new_content. cbv zeta. fold key.
  set (e := new_content_entry h f msg obj comps).
  set (h1 := set_content_tab (<[key := e]> (content_tab (set_accession (u64 (accession h + 1)) h)))
               (set_accession (u64 (accession h + 1)) h)).
  change (enroll_content _ key) with (enroll_content h1 key).
  assert (content_tab h1 !! key = Some e) as He by apply lookup_insert_eq.
  assert (accession_index_ok h1) as Hok1 by done.
  assert (accession_index_fits h1) as Hfits1 by done.
  assert (Content.accession e = accession h + 1) as Hae by exact Hu.
  destruct (enroll_content_total h1 key e Hok1 Hfits1 He) as [h' Hen].
  { rewrite Hae.
    change (accession_base h1) with (accession_base h).
    change (content_by_accession_window h1) with (content_by_accession_window h).
    lia. }
  destruct (enroll_content_index h1 h' key e Hok1 Hfits1 He Hen)
    as (Hok' & Htab' & Hfound & Hrest & Hacc' & Hin').
  rewrite Hae in Hfound, Hrest, Hin'.
  change (accession h1) with (u64 (accession h + 1)) in Hacc'. rewrite Hu in Hacc'.
  exists h'. split; [done|].
  assert (accession_counter_ok h') as Hcnt'.
  { unfold accession_counter_ok. rewrite Hacc'. lia. }
  assert (skiplinks h' = skiplinks h) as Hsk.
  { apply enroll_content_shape in Hen as (a & w & b & ->). done. }
  split_and!; [done|done|done|done|done|done|].
  intros a Hne. rewrite (Hrest a Hne).
  unfold content_from_accession.
  change (accession_base h1) with (accession_base h).
  change (content_by_accession_window h1) with (content_by_accession_window h).
  change (content_by_accession h1) with (content_by_accession h).
  destruct (_ && _); [|done].
  destruct (zlookup _ _) as [[ans|]|]; [|done|done].
  change (content_tab h1) with (<[key := e]> (content_tab h)).
  destruct (decide (ans = key)) as [->|Hk].
  - rewrite lookup_insert_eq, Hnew. rewrite Hae.
    by replace (accession h + 1 =? a) with false by (symmetry; apply Z.eqb_neq; lia).
  - by rewrite lookup_insert_ne.
Qed.

(** A new entry, stored and enrolled: the store is as [content_skiplist_insert]
    needs it. *)
Lemma store_new_content_ok (h : ccnd) (f : Face.t) (msg : list byte)
    (obj : ccn_parsed_ContentObject) (comps : list Z) :
  let key := bytes_at msg 0 (CCN_PCO_B_Content obj) in
  let e := new_content_entry h f msg obj comps in
  content_store_ok h -> accession_index_fits h -> accession h + 1 < 2 ^ 64 ->
  0 <= CCN_PCO_B_Content obj <= zlength msg -> zlength msg < 2 ^ 64 ->
  content_tab h !! key = None ->
  exists h1,
    store_new_content h f msg obj comps = Some h1 /\
    content_tab h1 !! key = Some e /\
    newest h1 key e /\
    content_store_ok h1 /\ accession h1 = accession h + 1.
Proof.
  intros key e [Hkeys Hsorted Hidx Hcnt Hiss] Hfits Hacc Hks Hlen Hnew.
  destruct (store_new_content_index h f msg obj comps Hidx Hfits Hcnt Hacc Hnew)
    as (h1 & Hrun & Hidx1 & Hcnt1 & Hacc1 & Hsk1 & Htab1 & Hfound & Hrest).
  fold key in Htab1, Hfound. fold e in Htab1.
  assert (u64 (accession h + 1) = accession h + 1) as Hu.
  { unfold u64. apply Z.mod_small. destruct Hcnt, Hidx. lia. }
  assert (Content.accession e = accession h + 1) as Hae by exact Hu.
  assert (forall k ek, content_tab h !! k = Some ek ->
            k <> key /\ content_tab h1 !! k = Some ek /\
            content_from_accession h1 (Content.accession ek)
            = content_from_accession h (Content.accession ek)) as Hold.
  { intros k ek Hk.
    assert (k <> key) as Hne by (intros ->; congruence).
    split; [done|]. split; [by rewrite Htab1, lookup_insert_ne|].
    apply Hrest. pose proof (Hiss k ek Hk). lia. }
  assert (forall k ek, content_tab h1 !! k = Some ek -> k <> key ->
            content_tab h !! k = Some ek) as Hback.
  { intros k ek Hk Hne. by rewrite Htab1, lookup_insert_ne in Hk. }
  exists h1. split; [done|]. split; [by rewrite Htab1, lookup_insert_eq|].
  split; [|split; [split|done]].
  - intros k e' Hne He' _. rewrite Hae.
    pose proof (Hiss k e' (Hback k e' He' Hne)). lia.
  - intros k ek Hk. destruct (decide (k = key)) as [->|Hne].
    + rewrite Htab1, lookup_insert_eq in Hk. apply (inj Some) in Hk. subst ek.
      split.
      * unfold entry_name, e, new_content_entry. cbn [Content.key Content.key_size].
        rewrite stored_bytes by done. done.
      * by rewrite Hae.
    + destruct (Hold k ek (Hback k ek Hk Hne)) as (_ & _ & ->).
      by apply Hkeys, Hback.
  - intros c links i a Hlinks Ha Hne.
    assert (skipnode_links h c = Some links /\
            forall kc ec, c = skip_content kc -> content_tab h1 !! kc = Some ec ->
                          content_tab h !! kc = Some ec) as [Hlinks0 Hc].
    { destruct c as [|kc]; simpl in Hlinks |- *.
      - split; [by rewrite <- Hsk1|done].
      - destruct (decide (kc = key)) as [->|Hkc].
        + rewrite Htab1, lookup_insert_eq in Hlinks. done.
        + rewrite Htab1, lookup_insert_ne in Hlinks by done.
          split; [done|]. intros kc' ec [= <-] Hec. by apply Hback. }
    destruct (Hsorted c links i a Hlinks0 Ha Hne) as (k & depth & Hk & Hd & Hlt & Hord).
    destruct (content_from_accession_Some _ _ _ Hk) as (ek & Hek & Haek).
    destruct (Hold k ek Hek) as (Hkne & Hek1 & Hcfa). rewrite Haek in Hcfa.
    exists k, depth. rewrite Hcfa. split; [done|]. split.
    { unfold node_depth in *. simpl in *. by rewrite Hek1, <- Hek. }
    split; [done|].
    intros kc ec Hceq Hec. apply (Hord kc ec Hceq). by apply (Hc kc ec).
  - done.
  - done.
  - intros k ek Hk. rewrite Hacc1. destruct (decide (k = key)) as [->|Hne].
    + rewrite Htab1, lookup_insert_eq in Hk. apply (inj Some) in Hk. subst ek. lia.
    + pose proof (Hiss k ek (Hback k ek Hk Hne)). lia.
Qed.

(** The new entry is stored, enrolled and linked into the skiplist: these
    steps of [process_incoming_content] always go through, and the content
    store is as it should be again. *)
Lemma new_content_linked_ok (h : ccnd) (f : Face.t) (msg : list byte)
    (obj : ccn_parsed_ContentObject) (comps : list Z) :
  let key := bytes_at msg 0 (CCN_PCO_B_Content obj) in
  name_order_ok ->
  content_store_ok h -> accession_index_fits h -> accession h + 1 < 2 ^ 64 ->
  0 <= CCN_PCO_B_Content obj <= zlength msg -> zlength msg < 2 ^ 64 ->
  content_tab h !! key = None ->
  exists h2,
    (h1 ← store_new_content h f msg obj comps; content_skiplist_insert h1 key) = Some h2 /\
    content_store_ok h2 /\ accession h2 = accession h + 1.
Proof.
  intros key Hord Hok Hfits Hacc Hks Hlen Hnew.
  destruct (store_new_content_ok h f msg obj comps Hok Hfits Hacc Hks Hlen Hnew)
    as (h1 & Hrun & He & Hnewest & [Hkeys1 Hsorted1 Hidx1 Hcnt1 Hiss1] & Hacc1).
  fold key in He, Hnewest.
  destruct (content_skiplist_insert_sorted h1 key _ Hord Hnewest He eq_refl Hkeys1 Hsorted1)
    as (h2 & Hins & Hkeys2 & Hsorted2).
  exists h2. rewrite Hrun. cbn [mbind option_bind]. split; [done|].
  apply content_skiplist_insert_shape in Hins as (s & l & m & -> & Hm & _).
  split; [|done]. split; [done|done|done|done|].
  intros k e2 Hk. simpl in Hk |- *.
  pose proof (unlinked_same_index _ _ k Hm) as Hv. rewrite Hk in Hv.
  destruct (content_tab h1 !! k) as [e1|] eqn:Hk1; [|done].
  simpl in Hv. apply (inj Some) in Hv. injection Hv as Hv _. rewrite Hv.
  by apply (Hiss1 k e1).
Qed.

Lemma content_store_okb_sound (h : ccnd) :
  content_store_okb h = true -> content_store_ok h.
Proof.
  unfold content_store_okb.
  intros [[[[[Hall Hs]%andb_prop Hlen]%andb_prop Hb]%andb_prop Hc1]%andb_prop Hc2]%andb_prop.
  apply bool_decide_eq_true in Hall, Hlen.
  apply Z.leb_le in Hb, Hc1, Hc2.
  split.
  - intros k e He. destruct (Hall k e He) as (? & ? & _). done.
  - by apply skiplist_sortedb_sound.
  - done.
  - done.
  - intros k e He. by destruct (Hall k e He) as (_ & _ & ?).
Qed.

End StoreInvariant.

Section NewContentArrival.

Context `{P : ccnd_private} `{L : ccn_library}.

Lemma oldformat_counted_shape (h : ccnd) (obj : ccn_parsed_ContentObject) :
  exists a b, oldformat_counted h obj
              = set_oldformatcontentgrumble a (set_oldformatcontent b h).
Proof.
  unfold oldformat_counted. destruct (negb _).
  - cbv zeta. destruct (_ =? _).
    + by eexists _, _.
    + exists (oldformatcontentgrumble h), (oldformatcontent h + 1). by destruct h.
  - exists (oldformatcontentgrumble h), (oldformatcontent h). by destruct h.
Qed.

(** [process_incoming_content] on an object that parses, is not oversize
    and has a key that is not stored: the three steps of the branch
    HT_NEW_ENTRY. *)
Lemma process_incoming_content_new (h : ccnd) (face : nat) (f : Face.t)
    (msg : list byte) (obj : ccn_parsed_ContentObject) (comps : list Z) :
  let key := bytes_at msg 0 (CCN_PCO_B_Content obj) in
  let h0 := oldformat_counted (indexbuf_obtain h) obj in
  face_store h !! face = Some f ->
  1 <= zlength comps ->
  default 0 (zlookup comps (zlength comps - 1)) <= 65535 ->
  content_tab h !! key = None ->
  process_incoming_content h face msg (Some (obj, comps))
  = (h2 ← (h1 ← store_new_content h0 f msg obj comps; content_skiplist_insert h1 key);
     '(h3, n) ← match_interests (indexbuf_release h2) key;
     if n =? 0 then Some (content_update h3 key slow_send) else Some h3).
Proof.
  intros key h0 Hf Hn Hlast Hnew. unfold process_incoming_content.
  replace (zlength comps <? 1) with false by (symmetry; apply Z.ltb_ge; lia).
  replace (65535 <? default 0 (zlookup comps (zlength comps - 1))) with false
    by (symmetry; apply Z.ltb_ge; lia).
  cbn [orb]. change (face_store (indexbuf_obtain h)) with (face_store h).
  rewrite Hf. cbn [mbind option_bind].
  fold (oldformat_counted (indexbuf_obtain h) obj). fold h0. fold key.
  assert (content_tab h0 = content_tab h) as Htab.
  { unfold h0. destruct (oldformat_counted_shape (indexbuf_obtain h) obj)
      as (a & b & ->). done. }
  rewrite Htab, Hnew.
  destruct (store_new_content h0 f msg obj comps) as [h1|]; [|done].
  cbn [mbind option_bind].
  destruct (content_skiplist_insert h1 key) as [h2|]; [|done].
  cbn [mbind option_bind].
  destruct (match_interests (indexbuf_release h2) key) as [[h3 n]|]; [|done].
  cbn [mbind option_bind andb]. done.
Qed.

Lemma interest_tables_ok_frame (h h' : ccnd) :
  interestprefix_tab h' = interestprefix_tab h ->
  propagating_tab h' = propagating_tab h ->
  interest_tables_ok h -> interest_tables_ok h'.
Proof.
  intros Hi Hp Hok. unfold interest_tables_ok. rewrite Hi.
  intros k ipe Hk. specialize (Hok k ipe Hk). simpl in *.
  unfold ipe_linked_ok in *. by rewrite Hp.
Qed.

Lemma match_interests_no_pending (h : ccnd) (content : list byte) (e : Content.t) :
  content_tab h !! content = Some e ->
  1 <= Content.ncomps e -> Content.ncomps e = zlength (Content.comps e) ->
  no_pending_prefix h e ->
  match_interests h content = Some (h, 0).
Proof.
  intros He Hn1 Hn Hnone. unfold match_interests. rewrite He. cbn [mbind option_bind].
  destruct (zlookup_is_Some (Content.comps e) 0) as [c0 Hc0]; [lia|].
  rewrite Hc0. cbn [mbind option_bind].
  assert (forall cis : list nat,
            Forall (fun ci => Z.of_nat ci < Content.ncomps e) cis ->
            foldl (fun acc ci => st ← acc; match_interests_prefix content c0 st ci)
                  (Some (h, 0)) cis = Some (h, 0)) as Hloop.
  { induction 1 as [|ci cis Hci _ IH]; [done|].
    cbn [foldl]. cbn [mbind option_bind]. unfold match_interests_prefix at 2.
    rewrite He. cbn [mbind option_bind]. unfold content_prefix_key.
    destruct (zlookup_is_Some (Content.comps e) (Z.of_nat ci)) as [c Hc]; [lia|].
    rewrite Hc. cbn [mbind option_bind].
    rewrite (Hnone (Z.of_nat ci) c0 c Hc0 Hc). exact IH. }
  rewrite Hloop.
  - done.
  - apply Forall_forall. intros ci Hin%elem_of_reverse%elem_of_seq. lia.
Qed.

(** What matching leaves alone is all that the content store looks at. *)
Lemma same_store_frame (content : list byte) (h h' : ccnd) :
  content_frame content h' = content_frame content h -> same_store h h'.
Proof.
  unfold content_frame. intros Hfr.
  injection Hfr as _ _ _ _ Hacc Hca Hw Hb Hsk _ Hdel Hst.
  assert (forall k, static_view <$> content_tab h' !! k
                    = static_view <$> content_tab h !! k) as Hview.
  { intros k. destruct (decide (k = content)) as [->|Hne]; [done|].
    apply (f_equal (fun t => t !! k)) in Hdel.
    rewrite !lookup_delete_ne in Hdel by done. by rewrite Hdel. }
  split; [split; [done|split; [done|split; [done|]]]|split; [done|split; [done|]]].
  - intros k. specialize (Hview k).
    destruct (content_tab h' !! k) as [e'|], (content_tab h !! k) as [e|]; try done.
    simpl in *. apply (inj Some) in Hview. unfold static_view in Hview.
    injection Hview as Ha _ _ _ Hk Hks _ _ _ _ _. unfold entry_name.
    by rewrite Ha, Hk, Hks.
  - intros k. specialize (Hview k).
    destruct (content_tab h' !! k) as [e'|], (content_tab h !! k) as [e|]; try done.
    simpl in *. apply (inj Some) in Hview. unfold static_view in Hview.
    injection Hview as _ _ _ _ _ _ _ _ _ _ Hl. by rewrite Hl.
Qed.

Lemma same_store_slow_send (h : ccnd) (content : list byte) :
  same_store h (content_update h content slow_send).
Proof.
  unfold content_update.
  split; [split; [done|split; [done|split; [done|]]]|split; [done|split; [done|]]];
    intros k; simpl; (destruct (decide (k = content)) as [->|Hne];
      [rewrite lookup_alter_eq; by destruct (content_tab h !! content)
      |by rewrite lookup_alter_ne]).
Qed.

Lemma same_store_counted (h : ccnd) (obj : ccn_parsed_ContentObject) :
  same_store h (oldformat_counted (indexbuf_obtain h) obj).
Proof.
  destruct (oldformat_counted_shape (indexbuf_obtain h) obj) as (a & b & ->). done.
Qed.

(** The arrival of a ContentObject under a new key goes through: the entry
    is stored, enrolled and linked, and then matched against the pending
    interests. *)
Lemma process_incoming_content_new_run (h : ccnd) (face : nat) (f : Face.t)
    (msg : list byte) (obj : ccn_parsed_ContentObject) (comps : list Z) :
  let key := bytes_at msg 0 (CCN_PCO_B_Content obj) in
  name_order_ok ->
  content_store_ok h -> accession_index_fits h -> accession h + 1 < 2 ^ 64 ->
  interest_tables_ok h ->
  face_store h !! face = Some f ->
  1 <= zlength comps ->
  default 0 (zlookup comps (zlength comps - 1)) <= 65535 ->
  0 <= CCN_PCO_B_Content obj <= zlength msg -> zlength msg < 2 ^ 64 ->
  content_tab h !! key = None ->
  exists h2 e2 h3 n,
    process_incoming_content h face msg (Some (obj, comps))
    = Some (if n =? 0 then content_update h3 key slow_send else h3) /\
    content_tab h2 !! key = Some e2 /\
    unlinked e2 = new_content_entry h f msg obj comps /\
    face_store h2 = face_store h /\ interestprefix_tab h2 = interestprefix_tab h /\
    propagating_tab h2 = propagating_tab h /\ sched h2 = sched h /\
    written h2 = written h /\
    unlinked <$> delete key (content_tab h2) = unlinked <$> content_tab h /\
    content_store_ok h2 /\ accession h2 = accession h + 1 /\
    match_interests (indexbuf_release h2) key = Some (h3, n) /\
    dup_inv key (content_frame key (indexbuf_release h2)) [Face.faceid f]
      (indexbuf_release h2) /\
    dup_inv key (content_frame key (indexbuf_release h2)) [Face.faceid f] h3 /\
    (h1 ← store_new_content (oldformat_counted (indexbuf_obtain h) obj) f msg obj comps;
     content_skiplist_insert h1 key) = Some h2.
Proof.
  intros key Hord Hok Hfits Hacc Hwf Hf Hn Hlast Hk Hlen Hnew.
  rewrite (process_incoming_content_new h face f msg obj comps Hf Hn Hlast Hnew).
  fold key. set (h0 := oldformat_counted (indexbuf_obtain h) obj).
  destruct (oldformat_counted_shape (indexbuf_obtain h) obj) as (a & b & Hh0).
  assert (content_store_ok h0) as Hok0
    by (apply (content_store_ok_same h); [apply same_store_counted|done]).
  assert (accession_index_fits h0) as Hfits0 by (unfold h0; rewrite Hh0; done).
  assert (accession h0 = accession h) as Hacc0 by (unfold h0; rewrite Hh0; done).
  assert (content_tab h0 !! key = None) as Hnew0 by (unfold h0; rewrite Hh0; done).
  destruct (new_content_linked_ok h0 f msg obj comps Hord Hok0 Hfits0) as (h2 & Hlinked & Hok2 & Hacc2);
    [lia|done|done|done|].
  fold key in Hlinked. rewrite Hlinked. cbn [mbind option_bind].
  destruct (new_content_linked h0 h2 f msg obj comps Hlinked)
    as (e2 & He2 & Hun & _ & Hdel & Hfs & Hfi & Hfl & Hit & Hpt & Hsc & Hw & _).
  fold key in He2, Hdel.
  assert (unlinked <$> delete key (content_tab h2) = unlinked <$> content_tab h) as Hdel'.
  { rewrite Hdel. unfold h0. rewrite Hh0. simpl. by rewrite delete_id. }
  assert (new_content_entry h0 f msg obj comps = new_content_entry h f msg obj comps)
    as Hsame by (unfold h0; rewrite Hh0; done).
  rewrite Hsame in Hun.
  set (h2r := indexbuf_release h2).
  assert (dup_inv key (content_frame key h2r) [Face.faceid f] h2r) as Hinv.
  { split; [done| |].
    - exists e2, []. split; [done|].
      apply (f_equal Content.faces) in Hun. simpl in Hun. done.
    - apply (interest_tables_ok_frame h).
      + unfold h2r. simpl. rewrite Hit. unfold h0. by rewrite Hh0.
      + unfold h2r. simpl. rewrite Hpt. unfold h0. by rewrite Hh0.
      + done. }
  destruct (match_interests_inv key _ _ h2r e2 Hinv He2) as (h3 & n & Hmatch & Hinv3).
  { unfold content_entry_ok.
    apply (f_equal Content.ncomps) in Hun as Hnc. simpl in Hnc.
    apply (f_equal Content.comps) in Hun as Hcs. simpl in Hcs.
    apply (f_equal Content.nface_done) in Hun as Hnd. simpl in Hnd.
    rewrite Hnc, Hcs, Hnd, Z.eqb_refl.
    by replace (1 <=? zlength comps) with true by (symmetry; apply Z.leb_le; lia). }
  rewrite Hmatch. cbn [mbind option_bind].
  exists h2, e2, h3, n.
  split; [by destruct (n =? 0)|].
  split; [exact He2|]. split; [exact Hun|].
  split; [rewrite Hfs; unfold h0; by rewrite Hh0|].
  split; [rewrite Hit; unfold h0; by rewrite Hh0|].
  split; [rewrite Hpt; unfold h0; by rewrite Hh0|].
  split; [rewrite Hsc; unfold h0; by rewrite Hh0|].
  split; [rewrite Hw; unfold h0; by rewrite Hh0|].
  split; [exact Hdel'|]. split; [exact Hok2|].
  split; [by rewrite Hacc2, Hacc0|].
  split; [exact Hmatch|]. split; [exact Hinv|]. split; [exact Hinv3|]. reflexivity.
Qed.

End NewContentArrival.

(** X14. A ContentObject that arrives under a new key is stored byte for
    byte and sent on byte for byte.  On a daemon whose content store and
    interest tables are as the daemon keeps them, [process_incoming_content]
    returns, and afterwards the entry holds exactly the message received
    (key bytes followed by the tail), the component offsets of the parse
    and the next accession; the arrival face heads its face set, inside the
    done partition of one place, so the object is not scheduled back to
    where it came from; the arrival itself writes nothing.  [send_content]
    for the entry then hands [do_write] the message as received, wrapped
    into a protocol data unit exactly for a link face. *)
Theorem process_incoming_content_stores `{P : ccnd_private} `{L : ccn_library}
    (h : ccnd) (face : nat) (f : Face.t) (msg : list byte)
    (obj : ccn_parsed_ContentObject) (comps : list Z) :
  let key := bytes_at msg 0 (CCN_PCO_B_Content obj) in
  name_order_ok ->
  content_store_ok h -> accession_index_fits h -> accession h + 1 < 2 ^ 64 ->
  interest_tables_ok h ->
  face_store h !! face = Some f ->
  1 <= zlength comps ->
  default 0 (zlookup comps (zlength comps - 1)) <= 65535 ->
  0 <= CCN_PCO_B_Content obj <= zlength msg -> zlength msg < 2 ^ 64 ->
  content_tab h !! key = None ->
  exists h' e',
    process_incoming_content h face msg (Some (obj, comps)) = Some h' /\
    content_tab h' !! key = Some e' /\
    bytes_at (Content.key e') 0 (Content.key_size e' + Content.tail_size e') = msg /\
    Content.accession e' = accession h + 1 /\
    Content.comps e' = comps /\
    (exists extra, Content.faces e' = Some (Face.faceid f :: extra)) /\
    Content.nface_done e' = 1 /\
    written h' = written h /\
    forall face2 f2, face_store h !! face2 = Some f2 ->
      exists h'',
        send_content h' face2 key = Some h'' /\
        written h''
        = written h
          ++ [(face2,
               if negb (Z.land (Face.flags f2) CCN_FACE_LINK =? 0)
               then ccn_charbuf_append_tt CCN_DTAG_CCNProtocolDataUnit CCN_DTAG
                    ++ msg ++ [CCN_CLOSE]
               else msg)] /\
        content_items_sent h'' = content_items_sent h' + 1.
Proof.
  intros key Hord Hok Hfits Hacc Hwf Hf Hn Hlast Hk Hlen Hnew.
  destruct (process_incoming_content_new_run h face f msg obj comps
              Hord Hok Hfits Hacc Hwf Hf Hn Hlast Hk Hlen Hnew)
    as (h2 & e2 & h3 & n & Hrun & He2 & Hun & Hfs & _ & _ & _ & Hw & _ & _ & _ & Hmatch
        & Hinv & Hinv3 & _).
  fold key in Hrun, He2, Hmatch, Hinv, Hinv3. rewrite Hrun.
  set (h2r := indexbuf_release h2) in *.
  pose proof Hinv3 as [Hfr3 (e3 & extra & He3 & Hfaces3) _].
  pose proof (dup_inv_static _ _ _ _ _ _ _ Hinv Hinv3 He2 He3) as Hst.
  unfold static_view in Hst.
  assert (Content.accession e3 = accession h + 1 /\ Content.comps e3 = comps /\
          Content.key e3 = msg /\
          Content.key_size e3 + Content.tail_size e3 = zlength msg /\
          Content.nface_done e3 = 1) as (Ha3 & Hc3 & Hk3 & Hs3 & Hd3).
  { injection Hst as Hacc3 Hcomps _ _ Hkey Hks Hts _ Hdone _ _.
    rewrite Hacc3, Hcomps, Hkey, Hks, Hts, Hdone.
    apply (f_equal Content.accession) in Hun as H1.
    apply (f_equal Content.comps) in Hun as H2.
    apply (f_equal Content.key) in Hun as H3.
    apply (f_equal Content.key_size) in Hun as H4.
    apply (f_equal Content.tail_size) in Hun as H5.
    apply (f_equal Content.nface_done) in Hun as H6.
    simpl in H1, H2, H3, H4, H5, H6.
    rewrite H1, H2, H3, H4, H5, H6.
    rewrite stored_bytes by done.
    assert (0 <= accession h + 1) as Hacc0.
    { pose proof (cs_index _ Hok) as [_ Hb]. pose proof (cs_counter _ Hok) as [Hc _]. lia. }
    split_and!; try done.
    - unfold u64. rewrite Z.mod_small by lia. done.
    - unfold u64. rewrite Z.mod_small by lia. lia. }
  assert (written h3 = written h /\ face_store h3 = face_store h) as [Hw3 Hf3].
  { unfold content_frame in Hfr3.
    injection Hfr3 as Hfs3 _ _ Hwr3 _.
    rewrite Hwr3, Hfs3. unfold h2r. simpl. by rewrite Hw, Hfs. }
  assert (forall hx ex,
            content_tab hx !! key = Some ex ->
            Content.key ex = msg ->
            Content.key_size ex + Content.tail_size ex = zlength msg ->
            written hx = written h -> face_store hx = face_store h ->
            forall face2 f2, face_store h !! face2 = Some f2 ->
              exists h'',
                send_content hx face2 key = Some h'' /\
                written h''
                = written h
                  ++ [(face2,
                       if negb (Z.land (Face.flags f2) CCN_FACE_LINK =? 0)
                       then ccn_charbuf_append_tt CCN_DTAG_CCNProtocolDataUnit CCN_DTAG
                            ++ msg ++ [CCN_CLOSE]
                       else msg)] /\
                content_items_sent h'' = content_items_sent hx + 1) as Hsend.
  { intros hx ex Hex Hkx Hsx Hwx Hfx face2 f2 Hf2.
    unfold send_content. rewrite Hfx, Hf2. cbn [mbind option_bind].
    rewrite Hex. cbn [mbind option_bind].
    eexists. split; [done|]. simpl. rewrite Hwx, Hkx, Hsx.
    assert (bytes_at msg 0 (zlength msg) = msg) as ->.
    { unfold bytes_at, zlength. change (Z.to_nat 0) with 0%nat.
      rewrite drop_0, Nat2Z.id. apply firstn_all. }
    split; [|done].
    destruct (negb (Z.land (Face.flags f2) CCN_FACE_LINK =? 0)); simpl;
      [done|by rewrite app_nil_r]. }
  assert (bytes_at msg 0 (zlength msg) = msg) as Hall.
  { unfold bytes_at, zlength. change (Z.to_nat 0) with 0%nat.
    rewrite drop_0, Nat2Z.id. apply firstn_all. }
  destruct (n =? 0).
  - exists (content_update h3 key slow_send), (slow_send e3). unfold content_update. simpl.
    rewrite lookup_alter_eq, He3. simpl. rewrite Hk3, Hs3.
    split; [done|]. split; [done|]. split; [done|]. split; [done|]. split; [done|].
    split; [by exists extra|]. split; [done|]. split; [done|].
    apply (Hsend (content_update h3 key slow_send) (slow_send e3)); simpl; try done.
    by rewrite lookup_alter_eq, He3.
  - exists h3, e3. rewrite Hk3, Hs3.
    split; [done|]. split; [done|]. split; [done|]. split; [done|]. split; [done|].
    split; [by exists extra|]. split; [done|]. split; [done|].
    by apply (Hsend h3 e3).
Qed.

(** X15. Content that nobody has asked for is kept but not sent: when no
    interest-prefix entry exists for any prefix of the name of a new
    ContentObject, [process_incoming_content] returns and has stored it with
    the slow-send flag set, with the arrival face as its only face, already
    done, and with no sender; nothing is scheduled and nothing is
    written. *)
Theorem process_incoming_content_unsolicited `{P : ccnd_private} `{L : ccn_library}
    (h : ccnd) (face : nat) (f : Face.t) (msg : list byte)
    (obj : ccn_parsed_ContentObject) (comps : list Z) :
  let key := bytes_at msg 0 (CCN_PCO_B_Content obj) in
  name_order_ok ->
  content_store_ok h -> accession_index_fits h -> accession h + 1 < 2 ^ 64 ->
  face_store h !! face = Some f ->
  1 <= zlength comps ->
  default 0 (zlookup comps (zlength comps - 1)) <= 65535 ->
  0 <= CCN_PCO_B_Content obj <= zlength msg -> zlength msg < 2 ^ 64 ->
  content_tab h !! key = None ->
  no_pending_prefix h (new_content_entry h f msg obj comps) ->
  exists h' e',
    process_incoming_content h face msg (Some (obj, comps)) = Some h' /\
    content_tab h' !! key = Some e' /\
    Content.flags e' = Z.lor 0 CCN_CONTENT_ENTRY_SLOWSEND /\
    Content.faces e' = Some [Face.faceid f] /\ Content.nface_done e' = 1 /\
    Content.sender e' = None /\
    sched h' = sched h /\ written h' = written h /\
    interestprefix_tab h' = interestprefix_tab h /\
    propagating_tab h' = propagating_tab h.
Proof.
  intros key Hord Hok Hfits Hacc Hf Hn Hlast Hk Hlen Hnew Hnone.
  rewrite (process_incoming_content_new h face f msg obj comps Hf Hn Hlast Hnew).
  fold key. set (h0 := oldformat_counted (indexbuf_obtain h) obj).
  destruct (oldformat_counted_shape (indexbuf_obtain h) obj) as (a & b & Hh0).
  assert (content_store_ok h0) as Hok0
    by (apply (content_store_ok_same h); [apply same_store_counted|done]).
  assert (accession_index_fits h0) as Hfits0 by (unfold h0; rewrite Hh0; done).
  assert (accession h0 = accession h) as Hacc0 by (unfold h0; rewrite Hh0; done).
  assert (content_tab h0 !! key = None) as Hnew0 by (unfold h0; rewrite Hh0; done).
  destruct (new_content_linked_ok h0 f msg obj comps Hord Hok0 Hfits0)
    as (h2 & Hlinked & _ & _); [lia|done|done|done|].
  fold key in Hlinked. rewrite Hlinked. cbn [mbind option_bind].
  destruct (new_content_linked h0 h2 f msg obj comps Hlinked)
    as (e2 & He2 & Hun & _ & _ & Hfs & Hfi & Hfl & Hit & Hpt & Hsc & Hw & _).
  fold key in He2.
  assert (new_content_entry h0 f msg obj comps = new_content_entry h f msg obj comps)
    as Hsame by (unfold h0; rewrite Hh0; done).
  rewrite Hsame in Hun.
  apply (f_equal Content.ncomps) in Hun as Hnc.
  apply (f_equal Content.comps) in Hun as Hcs.
  apply (f_equal Content.key) in Hun as Hky.
  apply (f_equal Content.flags) in Hun as Hfg.
  apply (f_equal Content.faces) in Hun as Hfc.
  apply (f_equal Content.nface_done) in Hun as Hnd.
  apply (f_equal Content.sender) in Hun as Hsd.
  simpl in Hnc, Hcs, Hky, Hfg, Hfc, Hnd, Hsd.
  rewrite (match_interests_no_pending (indexbuf_release h2) key e2).
  - cbn [mbind option_bind]. rewrite Z.eqb_refl.
    exists (content_update (indexbuf_release h2) key slow_send), (slow_send e2).
    split; [done|]. unfold content_update. simpl.
    rewrite lookup_alter_eq, He2. simpl.
    rewrite Hfg, Hfc, Hnd, Hsd, Hsc, Hw, Hit, Hpt. unfold h0. rewrite Hh0. done.
  - done.
  - rewrite Hnc. lia.
  - by rewrite Hnc, Hcs.
  - intros ci c0 c Hc0 Hc. simpl. rewrite Hit. unfold h0. rewrite Hh0. simpl.
    rewrite Hcs in Hc0, Hc. rewrite Hky.
    apply (Hnone ci c0 c); simpl; done.
Qed.

Section NewContentRun.

#[local] Existing Instance sample_private.

#[local] Existing Instance sample_library.

Lemma nonce_pending_store_ok :
  content_store_ok nonce_pending /\ accession_index_fits nonce_pending /\
  interest_tables_ok nonce_pending.
Proof.
  split; [|split].
  - apply content_store_okb_sound. vm_compute. reflexivity.
  - split; vm_compute; reflexivity.
  - unfold interest_tables_ok. apply (bool_decide_unpack _). vm_compute. exact I.
Qed.

Lemma process_incoming_content_stores_witness :
  exists e' h'',
    content_tab content_arrived !! bytes_at content_xy1 0 6 = Some e' /\
    bytes_at (Content.key e') 0 (Content.key_size e' + Content.tail_size e')
    = content_xy1 /\
    Content.nface_done e' = 1 /\
    send_content content_arrived 101 (bytes_at content_xy1 0 6) = Some h'' /\
    written h'' = [(101%nat, content_xy1)].
Proof.
  assert (process_incoming_content nonce_pending 103 content_xy1
            (Some (content_xy1_parsed, [0; 2; 4; 6])) = Some content_arrived) as Hrun
    by (vm_compute; reflexivity).
  destruct nonce_pending_store_ok as (Hok & Hfits & Hwf).
  destruct (process_incoming_content_stores nonce_pending 103
              (Face.mk 5 2 2 0 0) content_xy1 content_xy1_parsed [0; 2; 4; 6]
              sample_name_order_ok Hok Hfits)
    as (h' & e' & Hrun' & He' & Hbytes & _ & _ & _ & Hdone & _ & Hsend).
  - vm_compute. reflexivity.
  - exact Hwf.
  - vm_compute. reflexivity.
  - vm_compute. discriminate.
  - vm_compute. discriminate.
  - vm_compute. split; discriminate.
  - vm_compute. reflexivity.
  - vm_compute. reflexivity.
  - rewrite Hrun in Hrun'. apply (inj Some) in Hrun'. subst h'.
    destruct (Hsend 101%nat (Face.mk 3 0 0 0 0)) as (h'' & Hs & Hw & _).
    { vm_compute. reflexivity. }
    exists e', h''. split; [exact He'|]. split; [exact Hbytes|].
    split; [exact Hdone|]. split; [exact Hs|]. rewrite Hw. vm_compute. reflexivity.
Defined.

Lemma process_incoming_content_unsolicited_witness :
  exists e',
    content_tab first_arrived !! bytes_at content_xy1 0 6 = Some e' /\
    Content.flags e' = 1 /\ Content.sender e' = None /\
    sched first_arrived = [] /\ written first_arrived = [].
Proof.
  assert (process_incoming_content store_empty 1 content_xy1
            (Some (content_xy1_parsed, [0; 2; 4; 6])) = Some first_arrived) as Hrun
    by (vm_compute; reflexivity).
  destruct (process_incoming_content_unsolicited store_empty 1 the_face
              content_xy1 content_xy1_parsed [0; 2; 4; 6] sample_name_order_ok)
    as (h' & e' & Hrun' & He' & Hflags & _ & _ & Hsender & Hsched & Hw & _).
  - apply content_store_okb_sound. vm_compute. reflexivity.
  - split; vm_compute; reflexivity.
  - vm_compute. reflexivity.
  - vm_compute. reflexivity.
  - vm_compute. discriminate.
  - vm_compute. discriminate.
  - vm_compute. split; discriminate.
  - vm_compute. reflexivity.
  - vm_compute. reflexivity.
  - intros ci c0 c _ _. reflexivity.
  - rewrite Hrun in Hrun'. apply (inj Some) in Hrun'. subst h'.
    exists e'. split; [exact He'|]. split; [rewrite Hflags; reflexivity|].
    split; [exact Hsender|]. split; [rewrite Hsched; reflexivity|].
    rewrite Hw. reflexivity.
Defined.

End NewContentRun.

(** ** Scheduling the sender (lines 643-653) *)

(** X16. A content entry has at most one sender event:
    [schedule_content_delivery] returns, and once it has run a second call
    changes nothing.  The first call schedules at most one event, and none
    when the entry has a sender already or no face is waiting. *)
Theorem schedule_content_delivery_once `{P : ccnd_private} `{L : ccn_library}
    (h : ccnd) (content : list byte) (e : Content.t) :
  content_tab h !! content = Some e ->
  0 <= Content.nface_done e ->
  exists h1,
    schedule_content_delivery h content = Some h1 /\
    schedule_content_delivery h1 content = Some h1 /\
    (sched h1 = sched h \/
     exists delay, sched h1 = sched h
                              ++ [Build_scheduled_event delay (ev_content_sender content) 0] /\
                   (Content.sender <$> content_tab h1 !! content)
                   = Some (Some (length (sched h)))) /\
    (is_Some (Content.sender e) \/ Content.faces e = None \/
     (exists fs, Content.faces e = Some fs /\ zlength fs <= Content.nface_done e) ->
     h1 = h).
Proof.
  intros He Hd. unfold schedule_content_delivery at 1. rewrite He. cbn [mbind option_bind].
  destruct (Content.sender e) as [ev|] eqn:Hsender.
  { exists h. split; [done|]. split; [|split; [by left|done]].
    unfold schedule_content_delivery. rewrite He. cbn [mbind option_bind].
    by rewrite Hsender. }
  destruct (Content.faces e) as [fs|] eqn:Hfaces.
  2:{ exists h. split; [done|]. split; [|split; [by left|done]].
      unfold schedule_content_delivery. rewrite He. cbn [mbind option_bind].
      by rewrite Hsender, Hfaces. }
  destruct (Content.nface_done e <? zlength fs) eqn:Hlt.
  2:{ exists h. split; [done|]. split; [|split; [by left|done]].
      unfold schedule_content_delivery. rewrite He. cbn [mbind option_bind].
      by rewrite Hsender, Hfaces, Hlt. }
  apply Z.ltb_lt in Hlt.
  destruct (zlookup_is_Some fs (Content.nface_done e)) as [nxt Hnxt]; [lia|].
  rewrite Hnxt. cbn [mbind option_bind].
  destruct (choose_content_delay_seed h (u32 nxt) (Content.flags e)) as [s Hs].
  destruct (choose_content_delay h (u32 nxt) (Content.flags e)) as [h0 delay].
  simpl in Hs. subst h0. simpl.
  eexists. split; [reflexivity|].
  split; [|split].
  - unfold schedule_content_delivery. simpl. rewrite lookup_alter_eq, He. done.
  - right. exists delay. simpl. by rewrite lookup_alter_eq, He.
  - intros [[ev Hev]|[Hnone|(fs' & Hfs' & Hle)]]; [done|done|].
    assert (fs' = fs) as -> by congruence. lia.
Qed.

Section ScheduleRun.

#[local] Existing Instance sample_private.

#[local] Existing Instance sample_library.

Lemma schedule_content_delivery_once_witness :
  exists h1,
    schedule_content_delivery sender_gone (bytes_at content_xy1 0 6) = Some h1 /\
    schedule_content_delivery h1 (bytes_at content_xy1 0 6) = Some h1 /\
    length (sched h1) = S (length (sched sender_gone)).
Proof.
  destruct (schedule_content_delivery_once sender_gone (bytes_at content_xy1 0 6)
              (Content.set_sender None content_arrived_entry))
    as (h1 & Hrun & Hagain & _ & _).
  - vm_compute. reflexivity.
  - vm_compute. discriminate.
  - exists h1. split; [exact Hrun|]. split; [exact Hagain|].
    assert ((fun h => length (sched h))
              <$> schedule_content_delivery sender_gone (bytes_at content_xy1 0 6)
            = Some (S (length (sched sender_gone)))) as Hlen by (vm_compute; reflexivity).
    rewrite Hrun in Hlen. apply (inj Some) in Hlen. exact Hlen.
Defined.

End ScheduleRun.

(** ** Weeding the face sets (lines 969-1018) *)

Section CleanDeamon.

Context `{P : ccnd_private} `{L : ccn_library}.

Lemma clean_faces_spec (h : ccnd) (o d0 : Z) (rest : list Z) :
  forall (j : Z) (kept : list Z) (d : Z),
  clean_faces h o d0 j rest kept d
  = (reverse kept ++ (u32 <$> kept_from h o j rest), d + kept_done h o d0 j rest).
Proof.
  induction rest as [|id rest IH]; intros j kept d.
  - simpl. by rewrite app_nil_r, Z.add_0_r.
  - cbn [clean_faces kept_from kept_done]. unfold face_kept, live_face, is_link.
    destruct (face_from_faceid h (u32 id) ≫= _) as [f|].
    + destruct ((j <? o) && negb (Z.land (Face.flags f) CCN_FACE_LINK =? 0)).
      * cbn [negb andb]. rewrite IH. f_equal; lia.
      * cbn [negb andb]. rewrite IH. rewrite reverse_cons, <- app_assoc.
        f_equal. destruct (j <? d0); lia.
    + cbn [andb]. rewrite IH. f_equal; lia.
Qed.

Lemma kept_done_take (h : ccnd) (o d0 : Z) (rest : list Z) :
  forall j, kept_done h o d0 j rest
            = zlength (kept_from h o j (take (Z.to_nat (d0 - j)) rest)).
Proof.
  induction rest as [|id rest IH]; intros j.
  - by rewrite take_nil.
  - cbn [kept_done]. rewrite IH.
    destruct (j <? d0) eqn:Hlt.
    + apply Z.ltb_lt in Hlt.
      replace (Z.to_nat (d0 - j)) with (S (Z.to_nat (d0 - (j + 1)))) by lia.
      cbn [take kept_from]. destruct (face_kept h o j id); cbn [andb].
      * unfold zlength. cbn [length]. lia.
      * lia.
    + apply Z.ltb_ge in Hlt.
      replace (Z.to_nat (d0 - j)) with 0%nat by lia.
      replace (Z.to_nat (d0 - (j + 1))) with 0%nat by lia.
      rewrite andb_false_r. done.
Qed.

Lemma kept_from_app (h : ccnd) (o : Z) (l1 l2 : list Z) :
  forall j, kept_from h o j (l1 ++ l2)
            = kept_from h o j l1 ++ kept_from h o (j + zlength l1) l2.
Proof.
  induction l1 as [|id l1 IH]; intros j.
  - simpl. unfold zlength. simpl. by rewrite Z.add_0_r.
  - cbn [app kept_from]. rewrite IH.
    replace (j + 1 + zlength l1) with (j + zlength (id :: l1))
      by (unfold zlength; cbn [length]; lia).
    by destruct (face_kept h o j id).
Qed.

(** At places from [nface_old] on, the ids kept are those of the faces that
    are still there. *)
Lemma kept_from_above (h : ccnd) (o : Z) (l : list Z) :
  forall j, o <= j ->
    kept_from h o j l = filter (fun id => is_Some (live_face h id)) l.
Proof.
  induction l as [|id l IH]; intros j Hj; [done|].
  cbn [kept_from]. rewrite filter_cons, IH by lia. unfold face_kept.
  replace (j <? o) with false by (symmetry; apply Z.ltb_ge; lia).
  destruct (live_face h id) as [f|]; cbn [andb negb].
  - by rewrite decide_True by eauto.
  - by rewrite decide_False by (intros [? ?]; done).
Qed.

Lemma kept_from_sublist (h : ccnd) (o : Z) (l : list Z) :
  forall j, kept_from h o j l `sublist_of` l.
Proof.
  induction l as [|id l IH]; intros j; [done|].
  cbn [kept_from]. destruct (face_kept h o j id).
  - by apply sublist_skip.
  - by apply sublist_cons.
Qed.

(** At places below [nface_old], the ids kept are those of the faces that
    are still there and are not link faces. *)
Lemma kept_from_below (h : ccnd) (o : Z) (l : list Z) :
  forall j, 0 <= j -> j + zlength l <= o ->
    kept_from h o j l = filter (fun id => live_local h id = true) l.
Proof.
  induction l as [|id l IH]; intros j Hj Hlen; [done|].
  assert (zlength (id :: l) = 1 + zlength l /\ 0 <= zlength l) as [Hl Hl0]
    by (unfold zlength; cbn [length]; lia).
  cbn [kept_from]. rewrite filter_cons, IH by lia. unfold face_kept, live_local.
  replace (j <? o) with true by (symmetry; apply Z.ltb_lt; lia).
  destruct (live_face h id) as [f|]; cbn [andb].
  - destruct (is_link f); cbn [negb].
    + by rewrite decide_False by done.
    + by rewrite decide_True by done.
  - by rewrite decide_False by done.
Qed.

Lemma live_face_u32 (h : ccnd) (id : Z) : live_face h (u32 id) = live_face h id.
Proof.
  unfold live_face. f_equal. f_equal. unfold u32. apply Z.mod_mod. lia.
Qed.

Lemma live_face_view (h h' : ccnd) (id : Z) :
  face_view h' = face_view h -> live_face h' id = live_face h id.
Proof.
  unfold face_view, live_face, face_from_faceid. intros [= -> -> ->]. done.
Qed.

Lemma clean_faces_view (h h' : ccnd) (o d0 : Z) (rest : list Z) :
  face_view h' = face_view h ->
  forall j kept d, clean_faces h' o d0 j rest kept d = clean_faces h o d0 j rest kept d.
Proof.
  intros Hv. induction rest as [|id rest IH]; intros j kept d; [done|].
  cbn [clean_faces]. fold (live_face h' id). fold (live_face h id).
  rewrite (live_face_view h h' id Hv).
  destruct (live_face h id) as [f|]; [|apply IH].
  destruct (_ && _); apply IH.
Qed.

Lemma clean_content_entry_view (h h' : ccnd) (e : Content.t) :
  face_view h' = face_view h -> clean_content_entry h' e = clean_content_entry h e.
Proof.
  intros Hv. unfold clean_content_entry. destruct (Content.faces e) as [fs|]; [|done].
  by rewrite (clean_faces_view h h' _ _ fs Hv).
Qed.

(** What the cleaning makes of the face set of one entry. *)
Lemma clean_content_entry_spec (h : ccnd) (e : Content.t) (fs : list Z) :
  Content.faces e = Some fs ->
  0 <= Content.nface_old e <= Content.nface_done e ->
  Content.nface_done e <= zlength fs ->
  let done0 := Z.to_nat (Content.nface_done e) in
  let e' := clean_content_entry h e in
  exists done' pending',
    Content.faces e' = Some (done' ++ pending') /\
    Content.nface_done e' = zlength done' /\
    Content.nface_old e' = zlength done' /\
    done' = u32 <$> kept_from h (Content.nface_old e) 0 (take done0 fs) /\
    pending' = u32 <$> filter (fun id => is_Some (live_face h id)) (drop done0 fs) /\
    unlinked (Content.set_faces None (Content.set_nface_done 0 (Content.set_nface_old 0 e')))
    = unlinked (Content.set_faces None (Content.set_nface_done 0 (Content.set_nface_old 0 e))) /\
    Content.skiplinks e' = Content.skiplinks e.
Proof.
  intros Hfs Ho Hd. cbv zeta.
  set (o := Content.nface_old e) in *. set (d0 := Content.nface_done e) in *.
  unfold clean_content_entry. rewrite Hfs, clean_faces_spec.
  fold o. fold d0. rewrite reverse_nil, app_nil_l, Z.add_0_l.
  rewrite kept_done_take, Z.sub_0_r.
  assert (fs = take (Z.to_nat d0) fs ++ drop (Z.to_nat d0) fs) as Hsplit
    by (by rewrite take_drop).
  assert (kept_from h o 0 fs
          = kept_from h o 0 (take (Z.to_nat d0) fs)
            ++ filter (fun id => is_Some (live_face h id)) (drop (Z.to_nat d0) fs))
    as Hkept.
  { rewrite Hsplit at 1. rewrite kept_from_app. f_equal.
    apply kept_from_above. unfold zlength. rewrite length_take.
    unfold zlength in Hd. lia. }
  set (kd := kept_from h o 0 (take (Z.to_nat d0) fs)) in *.
  exists (u32 <$> kd),
         (u32 <$> filter (fun id => is_Some (live_face h id)) (drop (Z.to_nat d0) fs)).
  assert (zlength (u32 <$> kd) = zlength kd) as Hlen
    by (unfold zlength; by rewrite length_fmap).
  rewrite Hkept, fmap_app.
  destruct (zlength _ <? zlength fs) eqn:Hcut; simpl; rewrite ?Hlen.
  - split_and!; done.
  - (* nothing was left out: every id below [nface_done] has been kept *)
    apply Z.ltb_ge in Hcut.
    assert (zlength kd = d0) as Hall.
    { pose proof (sublist_length _ _ (kept_from_sublist h o (take (Z.to_nat d0) fs) 0))
        as H1. fold kd in H1.
      pose proof (length_filter (fun id => is_Some (live_face h id))
                    (drop (Z.to_nat d0) fs)) as H2.
      unfold zlength in *. rewrite length_app, !length_fmap in Hcut.
      rewrite length_take in H1. rewrite length_drop in H2. lia. }
    fold d0. rewrite Hall. split_and!; done.
Qed.

Lemma enrolled_below_S (h : ccnd) (m : nat) (slot : option (list byte)) :
  content_by_accession h !! m = Some slot ->
  enrolled_below h (S m)
  = enrolled_below h m ++ match slot with Some k => [k] | None => [] end.
Proof.
  intros Hslot. unfold enrolled_below.
  rewrite (take_S_r _ _ _ Hslot), omap_app. simpl. by destruct slot.
Qed.

Lemma clean_deamon_loop (h : ccnd) (m : nat) :
  (m <= length (content_by_accession h))%nat ->
  NoDup (enrolled_below h m) ->
  (forall k, k ∈ enrolled_below h m -> is_Some (content_tab h !! k)) ->
  exists t,
    foldl (fun acc i =>
             h ← acc;
             slot ← content_by_accession h !! i;
             match slot with
             | Some content =>
                 e ← content_tab h !! content;
                 Some (set_content_tab
                         (<[content := clean_content_entry h e]> (content_tab h)) h)
             | None => Some h
             end)
          (Some h) (seq 0 m)
    = Some (set_content_tab t h) /\
    forall k, t !! k = if bool_decide (k ∈ enrolled_below h m)
                       then clean_content_entry h <$> content_tab h !! k
                       else content_tab h !! k.
Proof.
  induction m as [|m IH]; intros Hm Hnd Hall.
  - exists (content_tab h). split; [by destruct h|].
    intros k. unfold enrolled_below. rewrite take_0. done.
  - destruct (lookup_lt_is_Some_2 (content_by_accession h) m) as [slot Hslot]; [lia|].
    rewrite (enrolled_below_S h m slot Hslot) in Hnd, Hall.
    apply NoDup_app in Hnd as (Hnd1 & Hdisj & _).
    destruct IH as (t & Hfold & Ht); [lia|done| |].
    { intros k Hk. apply Hall. apply elem_of_app. by left. }
    rewrite seq_S, foldl_app, Hfold. cbn [foldl mbind option_bind].
    change (0 + m)%nat with m.
    change (content_by_accession (set_content_tab t h)) with (content_by_accession h).
    rewrite Hslot. cbn [mbind option_bind].
    destruct slot as [content|].
    + assert (content ∉ enrolled_below h m) as Hfresh.
      { intros Hin. apply (Hdisj content Hin). by left. }
      destruct (Hall content) as [e He]; [apply elem_of_app; right; by left|].
      change (content_tab (set_content_tab t h)) with t.
      rewrite Ht, bool_decide_eq_false_2, He by done. cbn [mbind option_bind].
      rewrite (clean_content_entry_view h (set_content_tab t h)) by done.
      exists (<[content := clean_content_entry h e]> t). split; [reflexivity|].
      intros k. rewrite (enrolled_below_S h m _ Hslot).
      destruct (decide (k = content)) as [->|Hne].
      * rewrite lookup_insert_eq, bool_decide_eq_true_2, He; [done|].
        apply elem_of_app. right. by left.
      * rewrite lookup_insert_ne, Ht by done.
        destruct (decide (k ∈ enrolled_below h m)) as [Hin|Hnin].
        -- rewrite !bool_decide_eq_true_2; [done| |done].
           apply elem_of_app. by left.
        -- rewrite !bool_decide_eq_false_2; [done| |done].
           intros [Hin|Hin%list_elem_of_singleton]%elem_of_app; done.
    + exists t. split; [done|].
      intros k. rewrite (enrolled_below_S h m _ Hslot), app_nil_r. apply Ht.
Qed.

End CleanDeamon.

(** X17. [clean_deamon] weeds the face sets of the entries enrolled in the
    slots it visits without disturbing deliveries that are still due.  The
    face set of such an entry is afterwards made of, in this order: the ids
    at the places below [nface_old] whose face is still there and is not a
    link face; the ids at the places from [nface_old] up to [nface_done]
    whose face is still there; and the ids of the pending part, from
    [nface_done] on, whose face is still there.  The first two parts are the
    new done part: [nface_done] and [nface_old] both end as their length.
    The ids are stored back as [unsigned] values.  Nothing else of the
    entry, no entry outside the slots visited and nothing else of the daemon
    changes, and the next run is asked for in 15 seconds. *)
Theorem clean_deamon_face_sets `{P : ccnd_private} `{L : ccn_library}
    (h : ccnd) (k : list byte) (e : Content.t) (fs : list Z) :
  (slots_cleaned h <= length (content_by_accession h))%nat ->
  NoDup (enrolled_below h (slots_cleaned h)) ->
  (forall k', k' ∈ enrolled_below h (slots_cleaned h) -> is_Some (content_tab h !! k')) ->
  k ∈ enrolled_below h (slots_cleaned h) ->
  content_tab h !! k = Some e ->
  Content.faces e = Some fs ->
  0 <= Content.nface_old e <= Content.nface_done e ->
  Content.nface_done e <= zlength fs ->
  let o := Z.to_nat (Content.nface_old e) in
  let d0 := Z.to_nat (Content.nface_done e) in
  let old' := u32 <$> filter (fun id => live_local h id = true) (take o fs) in
  let recent' := u32 <$> filter (fun id => is_Some (live_face h id))
                                (drop o (take d0 fs)) in
  let pending' := u32 <$> filter (fun id => is_Some (live_face h id)) (drop d0 fs) in
  exists t e',
    clean_deamon h false = Some (set_content_tab t h, 15000000) /\
    (forall k', k' ∉ enrolled_below h (slots_cleaned h) ->
                t !! k' = content_tab h !! k') /\
    t !! k = Some e' /\
    Content.faces e' = Some (old' ++ recent' ++ pending') /\
    Content.nface_done e' = zlength (old' ++ recent') /\
    Content.nface_old e' = zlength (old' ++ recent') /\
    Content.key e' = Content.key e /\ Content.accession e' = Content.accession e /\
    Content.skiplinks e' = Content.skiplinks e /\ Content.sender e' = Content.sender e.
Proof.
  intros Hn Hnd Hall Hk He Hfs Ho Hd o d0 old' recent' pending'.
  destruct (clean_deamon_loop h (slots_cleaned h) Hn Hnd Hall) as (t & Hfold & Ht).
  destruct (clean_content_entry_spec h e fs Hfs Ho Hd)
    as (done' & pending0 & Hfaces & Hdone & Hold & Hd' & Hp' & Hrest & Hlinks).
  fold d0 in Hd', Hp'.
  assert (done' = old' ++ recent') as Hparts.
  { rewrite Hd'. unfold old', recent'. rewrite <- fmap_app. f_equal.
    assert (take d0 fs = take o fs ++ drop o (take d0 fs)) as Hsplit.
    { rewrite <- (take_drop o (take d0 fs)) at 1. f_equal.
      rewrite take_take. f_equal. lia. }
    rewrite Hsplit at 1. rewrite kept_from_app. f_equal.
    - apply kept_from_below; [lia|]. unfold zlength. rewrite length_take. lia.
    - apply kept_from_above. unfold zlength. rewrite length_take.
      unfold zlength in Hd. lia. }
  exists t, (clean_content_entry h e).
  split_and!.
  - unfold clean_deamon. cbv zeta. fold (slots_cleaned h).
    unfold slots_cleaned in Hfold |- *. cbv zeta in Hfold. rewrite Hfold. done.
  - intros k' Hk'. by rewrite Ht, bool_decide_eq_false_2.
  - by rewrite Ht, bool_decide_eq_true_2, He.
  - rewrite Hfaces, Hparts, Hp'. by rewrite <- app_assoc.
  - by rewrite Hdone, Hparts.
  - by rewrite Hold, Hparts.
  - apply (f_equal Content.key) in Hrest. done.
  - apply (f_equal Content.accession) in Hrest. done.
  - done.
  - apply (f_equal Content.sender) in Hrest. done.
Qed.

Section CleanRun.

#[local] Existing Instance sample_private.

#[local] Existing Instance sample_library.

Lemma clean_deamon_face_sets_witness :
  exists t e',
    clean_deamon weeding_due false = Some (set_content_tab t weeding_due, 15000000) /\
    t !! bytes_at content_xy1 0 6 = Some e' /\
    Content.faces e' = Some [2; 0] /\
    Content.nface_done e' = 1 /\ Content.nface_old e' = 1.
Proof.
  destruct (clean_deamon_face_sets weeding_due (bytes_at content_xy1 0 6) weeding_due_entry [1; 2; 9; 0])
    as (t & e' & Hrun & _ & He' & Hfaces & Hdone & Hold & _).
  - vm_compute. lia.
  - apply (bool_decide_unpack _). vm_compute. exact I.
  - intros k' Hk'.
    assert (enrolled_below weeding_due (slots_cleaned weeding_due) = [bytes_at content_xy1 0 6]) as Henr
      by (vm_compute; reflexivity).
    rewrite Henr in Hk'. apply list_elem_of_singleton in Hk' as ->.
    vm_compute. eexists. reflexivity.
  - apply (bool_decide_unpack _). vm_compute. exact I.
  - vm_compute. reflexivity.
  - reflexivity.
  - vm_compute. split; discriminate.
  - vm_compute. discriminate.
  - exists t, e'. split; [exact Hrun|]. split; [exact He'|].
    rewrite Hfaces, Hdone, Hold. split; [|split]; vm_compute; reflexivity.
Defined.

End CleanRun.

(** ** The content store across an arrival (lines 1380-1481) *)

(** X18. The arrival of new content keeps the daemon's tables in order.  On
    a daemon whose content store is well formed (entries stored under their
    names and enrolled under their accessions, skiplist sorted, accession
    array of the size of the window) and whose interest tables are well
    formed, [process_incoming_content] for a ContentObject with a new key
    returns, and the content store and the interest tables are well formed
    again, with the accession counter advanced by one.  The entries stored
    before are all still there, unchanged but for their skiplist links, and
    the faces are untouched. *)
Theorem process_incoming_content_keeps_store `{P : ccnd_private} `{L : ccn_library}
    (h : ccnd) (face : nat) (f : Face.t) (msg : list byte)
    (obj : ccn_parsed_ContentObject) (comps : list Z) :
  let key := bytes_at msg 0 (CCN_PCO_B_Content obj) in
  name_order_ok ->
  content_store_ok h -> accession_index_fits h -> accession h + 1 < 2 ^ 64 ->
  interest_tables_ok h ->
  face_store h !! face = Some f ->
  1 <= zlength comps ->
  default 0 (zlookup comps (zlength comps - 1)) <= 65535 ->
  0 <= CCN_PCO_B_Content obj <= zlength msg -> zlength msg < 2 ^ 64 ->
  content_tab h !! key = None ->
  exists h',
    process_incoming_content h face msg (Some (obj, comps)) = Some h' /\
    content_store_ok h' /\ interest_tables_ok h' /\
    accession h' = accession h + 1 /\
    is_Some (content_tab h' !! key) /\
    unlinked <$> delete key (content_tab h') = unlinked <$> content_tab h /\
    face_store h' = face_store h.
Proof.
  intros key Hord Hok Hfits Hacc Hwf Hf Hn Hlast Hk Hlen Hnew.
  destruct (process_incoming_content_new_run h face f msg obj comps
              Hord Hok Hfits Hacc Hwf Hf Hn Hlast Hk Hlen Hnew)
    as (h2 & e2 & h3 & n & Hrun & He2 & _ & Hfs & _ & _ & _ & _ & Hdel & Hok2 & Hacc2
        & _ & _ & Hinv3 & _).
  fold key in Hrun, He2, Hdel, Hinv3.
  set (h2r := indexbuf_release h2) in *.
  destruct Hinv3 as [Hfr3 (e3 & extra & He3 & _) Hwf3].
  assert (content_store_ok h3) as Hok3.
  { apply (content_store_ok_same h2r); [by apply (same_store_frame key)|].
    apply (content_store_ok_same h2); [|done]. done. }
  assert (accession h3 = accession h + 1 /\ face_store h3 = face_store h /\
          delete key (content_tab h3) = delete key (content_tab h2)) as (Hacc3 & Hfs3 & Hdel3).
  { unfold content_frame in Hfr3.
    injection Hfr3 as Hf3 _ _ _ Ha3 _ _ _ _ _ Hd3 _.
    rewrite Ha3, Hf3, Hd3. unfold h2r. simpl. by rewrite Hacc2, Hfs. }
  exists (if n =? 0 then content_update h3 key slow_send else h3).
  split; [done|]. destruct (n =? 0).
  - split; [by apply (content_store_ok_same h3); [apply same_store_slow_send|]|].
    split; [by apply (interest_tables_ok_frame h3)|].
    unfold content_update. simpl. rewrite lookup_alter_eq, He3.
    split; [done|]. split; [by eexists|]. split; [|done].
    rewrite <- Hdel, <- Hdel3. f_equal. apply map_eq. intros k.
    destruct (decide (k = key)) as [->|Hne].
    + by rewrite !lookup_delete_eq.
    + by rewrite !lookup_delete_ne, lookup_alter_ne.
  - split; [done|]. split; [done|]. split; [done|]. split; [by eexists|].
    split; [|done]. by rewrite Hdel3.
Qed.

Section StoreKeptRun.

#[local] Existing Instance sample_private.

#[local] Existing Instance sample_library.

(** A third content object, whose name sorts before the two that are
    stored, arrives. *)
Lemma process_incoming_content_keeps_store_witness :
  exists h',
    process_incoming_content two_arrived 1 content_xy0
      (Some (content_xy1_parsed, [0; 2; 4; 6])) = Some h' /\
    content_store_ok h' /\ interest_tables_ok h' /\ accession h' = 3 /\
    is_Some (content_tab h' !! bytes_at content_xy0 0 6).
Proof.
  destruct (process_incoming_content_keeps_store two_arrived 1 the_face
              content_xy0 content_xy1_parsed [0; 2; 4; 6] sample_name_order_ok)
    as (h' & Hrun & Hok & Hwf & Hacc & Hin & _).
  - apply content_store_okb_sound. vm_compute. reflexivity.
  - split; vm_compute; reflexivity.
  - vm_compute. reflexivity.
  - unfold interest_tables_ok. apply (bool_decide_unpack _). vm_compute. exact I.
  - vm_compute. reflexivity.
  - vm_compute. discriminate.
  - vm_compute. discriminate.
  - vm_compute. split; discriminate.
  - vm_compute. reflexivity.
  - vm_compute. reflexivity.
  - exists h'. split; [exact Hrun|]. split; [exact Hok|]. split; [exact Hwf|].
    split; [rewrite Hacc; vm_compute; reflexivity|exact Hin].
Defined.

End StoreKeptRun.

(** ** The chains of the skiplist (lines 270-360) *)

Section SkiplistChain.

Context `{P : ccnd_private} `{L : ccn_library}.

Lemma step_at_det (h : ccnd) (i : nat) (c c1 c2 : skipnode) :
  step_at h i c c1 -> step_at h i c c2 -> c1 = c2.
Proof.
  intros (a1 & k1 & Hn1 & _ & Hk1 & ->) (a2 & k2 & Hn2 & _ & Hk2 & ->). congruence.
Qed.

Lemma reach_at_linear (h : ccnd) (i : nat) (c x y : skipnode) :
  reach_at h i c x -> reach_at h i c y -> reach_at h i x y \/ reach_at h i y x.
Proof.
  intros Hx. revert y. induction Hx as [c|c c1 x Hstep Hx IH]; intros y Hy.
  - by left.
  - destruct Hy as [|c c1' y Hstep' Hy].
    + right. by eapply rtc_l.
    + rewrite <- (step_at_det h i c c1 c1' Hstep Hstep') in Hy. by apply IH.
Qed.

Lemma reach_at_head (h : ccnd) (i : nat) (c : skipnode) :
  reach_at h i c skip_head -> c = skip_head.
Proof.
  intros Hr. apply rtc_inv_r in Hr as [->|(c' & _ & (a & k & _ & _ & _ & Heq))]; done.
Qed.

Lemma step_at_lt (h : ccnd) (i : nat) (c c' : skipnode) :
  skiplist_sorted h -> step_at h i c c' -> node_lt h c c'.
Proof.
  intros Hsorted (a & k & Hnext & Ha & Hk & ->). unfold next_at in Hnext.
  destruct (skipnode_links h c) as [links|] eqn:Hlinks; [|done]. simpl in Hnext.
  destruct (Hsorted c links i a Hlinks Hnext Ha) as (k' & depth & Hk' & _ & _ & Hlt).
  assert (k' = k) as -> by congruence.
  destruct (content_from_accession_Some _ _ _ Hk) as (e & He & Hacc).
  simpl. exists e. split; [done|]. destruct c as [|kc]; [done|].
  simpl in Hlinks. destruct (content_tab h !! kc) as [ec|] eqn:Hec; [|done].
  exists ec. split; [done|]. rewrite Hacc. by apply (Hlt kc ec).
Qed.

Lemma node_lt_trans (h : ccnd) (a b c : skipnode) :
  name_order_ok -> node_lt h a b -> node_lt h b c -> node_lt h a c.
Proof.
  intros Hord Hab Hbc. destruct c as [|kc]; [done|]. destruct b as [|kb]; [done|].
  destruct Hbc as (ec & Hec & eb & Heb & Hlt2). destruct Hab as (eb' & Heb' & Hab).
  assert (eb' = eb) as -> by congruence.
  exists ec. split; [done|]. destruct a as [|ka]; [done|].
  destruct Hab as (ea & Hea & Hlt1). exists ea. split; [done|].
  by apply (entry_lt_trans _ (kb, Content.accession eb)).
Qed.

Lemma node_lt_irrefl (h : ccnd) (c : skipnode) :
  name_order_ok -> ~ node_lt h c c.
Proof.
  intros Hord Hlt. destruct c as [|k]; [done|].
  destruct Hlt as (e & He & e' & He' & Hlt).
  assert (e' = e) as -> by congruence. by apply entry_lt_irrefl in Hlt.
Qed.

Lemma reach_at_lt (h : ccnd) (i : nat) (c c' : skipnode) :
  name_order_ok -> skiplist_sorted h ->
  reach_at h i c c' -> c = c' \/ node_lt h c c'.
Proof.
  intros Hord Hsorted Hr. induction Hr as [c|c c1 c' Hstep _ IH]; [by left|].
  right. apply (step_at_lt h i c c1 Hsorted) in Hstep.
  destruct IH as [<-|Hlt]; [done|]. by apply (node_lt_trans h c c1 c').
Qed.

(** Where a search for [key] stops at level [i], the chain goes on with the
    entries whose names are not below [key]: each of them comes after the
    node at which the search stopped. *)
Lemma chain_after_stop (h : ccnd) (key : list byte) (i : nat) (p : skipnode)
    (k : list byte) (e : Content.t) :
  name_order_ok -> skiplist_sorted h ->
  before_key key p -> reach_at h i skip_head p ->
  content_tab h !! k = Some e -> ~ name_lt k key ->
  reach_at h i skip_head (skip_content k) ->
  exists a k1, next_at h i p = Some a /\ a <> 0 /\
               content_from_accession h a = Some k1 /\
               reach_at h i (skip_content k1) (skip_content k).
Proof.
  intros Hord Hsorted Hbefore Hp He Hge Hk.
  assert (p <> skip_content k) as Hpk.
  { intros ->. apply Hge. by apply Hbefore. }
  destruct (reach_at_linear h i skip_head p (skip_content k) Hp Hk) as [Hr|Hr].
  - apply rtc_inv in Hr as [->|(c1 & (a & k1 & Hn & Ha & Hk1 & ->) & Hr)]; [done|].
    by exists a, k1.
  - apply (reach_at_lt h i _ _ Hord Hsorted) in Hr as [Heq|Hlt]; [done|].
    destruct p as [|kp]; [done|].
    destruct Hlt as (ep & Hep & e' & He' & Hlt). exfalso.
    pose proof (Hbefore kp eq_refl) as Hkp.
    destruct Hlt as [Hlt|(Hn1 & Hn2 & _)]; simpl in *.
    + apply Hge. by apply (no_trans Hord k kp key).
    + destruct (no_weak Hord kp key k Hkp) as [?|?]; done.
Qed.

Lemma chain_from_reach (fuel : nat) (h : ccnd) (i : nat) :
  forall c k, k ∈ chain_from fuel h i c -> reach_at h i c (skip_content k).
Proof.
  induction fuel as [|fuel IH]; intros c k; simpl; [by intros ?%elem_of_nil|].
  destruct (next_at h i c) as [a|] eqn:Hn; [|by intros ?%elem_of_nil].
  destruct (a =? 0) eqn:Ha; [by intros ?%elem_of_nil|].
  destruct (content_from_accession h a) as [k1|] eqn:Hk1; [|by intros ?%elem_of_nil].
  assert (step_at h i c (skip_content k1)) as Hstep.
  { exists a, k1. split_and!; try done. lia. }
  intros [->|Hin]%elem_of_cons.
  - by apply rtc_once.
  - eapply rtc_l; [done|]. by apply IH.
Qed.

Lemma skiplist_completeb_sound (h : ccnd) :
  skiplist_completeb h = true -> skiplist_complete h.
Proof.
  unfold skiplist_completeb. rewrite forallb_forall. intros Hall.
  assert (forall k e, content_tab h !! k = Some e ->
            Content.accession e <> 0 /\
            exists l, Content.skiplinks e = Some l /\ l <> [] /\
              forall i, (i < length l)%nat -> reach_at h i skip_head (skip_content k))
    as Hmain.
  { intros k e He.
    assert (In (k, e) (map_to_list (content_tab h))) as Hin
      by (apply list_elem_of_In; by apply elem_of_map_to_list).
    specialize (Hall (k, e) Hin). cbn [fst snd] in Hall.
    apply andb_prop in Hall as [Hacc Hl].
    split; [apply negb_true_iff in Hacc; lia|].
    destruct (Content.skiplinks e) as [l|]; [|done].
    apply andb_prop in Hl as [Hne Hl]. exists l. split; [done|]. split.
    { apply negb_true_iff in Hne. by apply bool_decide_eq_false in Hne. }
    intros i Hi. rewrite forallb_forall in Hl.
    assert (In i (seq 0 (length l))) as Hini
      by (apply list_elem_of_In, elem_of_seq; lia).
    specialize (Hl i Hini). apply bool_decide_eq_true in Hl.
    by apply chain_from_reach in Hl. }
  split.
  - intros k e He. by destruct (Hmain k e He).
  - intros k e He. by destruct (Hmain k e He).
Qed.

End SkiplistChain.

(** What [find_first_match_candidate] answers. *)
Lemma find_first_match_candidate_spec `{P : ccnd_private} `{L : ccn_library}
    (h : ccnd) (interest_msg : list byte) (pi : ccn_parsed_interest) :
  let key := bytes_at interest_msg 0 (CCN_PI_E_Name pi) in
  name_order_ok -> content_keys_ok h -> skiplist_sorted h -> skiplist_complete h ->
  exists r,
    find_first_match_candidate h interest_msg pi = Some r /\
    match r with
    | Some k =>
        exists e, content_tab h !! k = Some e /\ ~ name_lt k key /\
          forall k' e', content_tab h !! k' = Some e' -> ~ name_lt k' key ->
            k' = k \/ entry_lt (k, Content.accession e) (k', Content.accession e')
    | None =>
        forall k' e', content_tab h !! k' = Some e' -> name_lt k' key
    end.
Proof.
  intros key Hord Hkeys Hsorted [Hlinked Hpos].
  pose proof (skiplist_sorted_wf h Hord Hkeys Hsorted) as Hwf.
  unfold find_first_match_candidate, content_skiplist_findbefore. fold key.
  destruct (findbefore_levels_total h (rank_of h) key (length (skiplinks h)) Hwf
              skip_head (length (skiplinks h)))
    as (pred & Hpred & Hlen & Hlevels); [done|done|].
  rewrite Hpred. cbn [mbind option_bind].
  (* every stored entry is on the chain of level 0 *)
  assert (forall k e, content_tab h !! k = Some e ->
            reach_at h 0 skip_head (skip_content k)) as Hchain.
  { intros k e He. destruct (Hlinked k e He) as (l & _ & Hne & Hreach).
    apply Hreach. destruct l; [done|simpl; lia]. }
  destruct pred as [|p pred'].
  { (* a head without levels: nothing is stored *)
    exists None. split; [done|]. intros k' e' He'. exfalso.
    pose proof (Hchain k' e' He') as Hr.
    apply rtc_inv in Hr as [Heq|(c1 & (a & k1 & Hn & _) & _)]; [done|].
    unfold next_at in Hn. simpl in Hn. simpl in Hlen.
    destruct (skiplinks h); [done|done]. }
  destruct (Hlevels 0%nat) as (p0 & depth & Hp0 & Hdepth & Hd0); [simpl in Hlen; lia|].
  simpl in Hp0. injection Hp0 as <-.
  destruct (findbefore_levels_post h key _ Hkeys skip_head (p :: pred')
              ltac:(intros kc; done) Hpred 0%nat p eq_refl) as [Hbefore Hstop].
  destruct Hstop as (links & nxt & Hlinks & Hnxt & Hstop).
  rewrite Hlinks. cbn [mbind option_bind]. rewrite Hnxt. cbn [mbind option_bind].
  assert (reach_at h 0 skip_head p) as Hp.
  { destruct p as [|kp]; [done|]. simpl in Hlinks.
    destruct (content_tab h !! kp) as [ep|] eqn:Hep; [|done]. by apply (Hchain kp ep). }
  assert (next_at h 0 p = Some nxt) as Hnext by (unfold next_at; by rewrite Hlinks).
  exists (content_from_accession h nxt). split; [done|].
  destruct Hstop as [->|(k1 & e1 & Hk1 & He1 & Hcmp)].
  - (* the chain ends: every name is below the key *)
    assert (content_from_accession h 0 = None) as ->.
    { destruct (content_from_accession h 0) as [k0|] eqn:Hk0; [|done].
      destruct (content_from_accession_Some _ _ _ Hk0) as (e0 & He0 & Hacc0).
      by destruct (Hpos k0 e0 He0). }
    intros k' e' He'.
    destruct (decide (name_lt k' key)) as [|Hge]; [done|]. exfalso.
    destruct (chain_after_stop h key 0 p k' e' Hord Hsorted Hbefore Hp He' Hge
                (Hchain k' e' He')) as (a & k1 & Hn & Ha & _).
    congruence.
  - rewrite Hk1. exists e1. split; [done|].
    destruct (Hkeys k1 e1 He1) as [Hname _]. rewrite Hname in Hcmp.
    split; [unfold name_lt; lia|].
    intros k' e' He' Hge.
    destruct (chain_after_stop h key 0 p k' e' Hord Hsorted Hbefore Hp He' Hge
                (Hchain k' e' He')) as (a & k1' & Hn & Ha & Hk1' & Hr).
    assert (k1' = k1) as -> by congruence.
    apply (reach_at_lt h 0 _ _ Hord Hsorted) in Hr as [Heq|Hlt].
    + left. congruence.
    + right. destruct Hlt as (e'' & He'' & e1' & He1' & Hlt).
      assert (e'' = e') as -> by congruence.
      assert (e1' = e1) as -> by congruence. done.
Qed.

(** X19. [find_first_match_candidate] finds the first stored entry whose
    name is not below the name of the interest.  On a content store that is
    sorted and in which every entry is linked in, the search returns; the
    entry it answers has a name that is not below the name of the interest,
    and every other stored entry whose name is not below it comes later in
    the order of the skiplist.  The answer is NULL exactly when the name of
    every stored entry is below the name of the interest. *)
Theorem find_first_match_candidate_first `{P : ccnd_private} `{L : ccn_library}
    (h : ccnd) (interest_msg : list byte) (pi : ccn_parsed_interest) :
  let key := bytes_at interest_msg 0 (CCN_PI_E_Name pi) in
  name_order_ok -> content_keys_ok h -> skiplist_sorted h -> skiplist_complete h ->
  exists r,
    find_first_match_candidate h interest_msg pi = Some r /\
    match r with
    | Some k =>
        exists e, content_tab h !! k = Some e /\ ~ name_lt k key /\
          forall k' e', content_tab h !! k' = Some e' -> ~ name_lt k' key ->
            k' = k \/ entry_lt (k, Content.accession e) (k', Content.accession e')
    | None =>
        forall k' e', content_tab h !! k' = Some e' -> name_lt k' key
    end.
Proof.
  intros key Hord Hkeys Hsorted Hcomplete.
  exact (find_first_match_candidate_spec h interest_msg pi Hord Hkeys Hsorted Hcomplete).
Qed.

Section ChainRun.

#[local] Existing Instance sample_private.

#[local] Existing Instance sample_library.

Lemma two_arrived_store_ok :
  content_store_ok two_arrived /\ skiplist_complete two_arrived.
Proof.
  split.
  - apply content_store_okb_sound. vm_compute. reflexivity.
  - apply skiplist_completeb_sound. vm_compute. reflexivity.
Qed.

(** An interest in the common prefix of the two stored names is answered
    with the first of them. *)
Lemma find_first_match_candidate_first_witness :
  find_first_match_candidate two_arrived interest_xy (interest_xy_parsed (-1))
  = Some (Some (bytes_at content_xy1 0 6)) /\
  ~ name_lt (bytes_at content_xy1 0 6) (bytes_at interest_xy 0 4).
Proof.
  destruct two_arrived_store_ok as [[Hkeys Hsorted _ _ _] Hcomplete].
  destruct (find_first_match_candidate_first two_arrived interest_xy
              (interest_xy_parsed (-1)) sample_name_order_ok Hkeys Hsorted Hcomplete)
    as (r & Hrun & Hr).
  assert (find_first_match_candidate two_arrived interest_xy (interest_xy_parsed (-1))
          = Some (Some (bytes_at content_xy1 0 6))) as Hrun'
    by (vm_compute; reflexivity).
  split; [exact Hrun'|].
  rewrite Hrun' in Hrun. apply (inj Some) in Hrun. subst r.
  destruct Hr as (e & _ & Hge & _). exact Hge.
Defined.

End ChainRun.

(** ** Taking an entry out of the skiplist (lines 247-268, 321-335) *)

Section SkiplistRemove.

Context `{P : ccnd_private} `{L : ccn_library}.

(** [skipnode_set_link] on a node that has the level: the one link is set,
    and nothing else of the daemon changes. *)
Lemma skipnode_set_link_spec (h : ccnd) (p : skipnode) (i : nat) (v old : Z) :
  next_at h i p = Some old ->
  exists h',
    skipnode_set_link h p i v = Some h' /\
    (forall c j, next_at h' j c
                 = if decide (c = p /\ j = i) then Some v else next_at h j c) /\
    (forall c, node_depth h' c = node_depth h c) /\
    unlinked <$> content_tab h' = unlinked <$> content_tab h /\
    exists ls m, h' = set_skiplinks ls (set_content_tab m h).
Proof.
  unfold next_at. intros Hold.
  destruct (skipnode_links h p) as [links|] eqn:Hlinks; [|done]. simpl in Hold.
  pose proof (lookup_lt_Some _ _ _ Hold) as Hlt.
  destruct p as [|kp]; simpl in Hlinks |- *.
  - injection Hlinks as <-. rewrite bool_decide_eq_true_2 by done.
    eexists. split; [done|]. split; [|split; [|split; [done|]]].
    + intros c j. destruct (decide (c = skip_head /\ j = i)) as [[-> ->]|Hn].
      * simpl. by rewrite list_lookup_insert_eq.
      * destruct c as [|kc]; [|done]. simpl.
        rewrite list_lookup_insert_ne; [done|]. intros <-. by apply Hn.
    + intros [|kc]; unfold node_depth; simpl; [|done]. by rewrite length_insert.
    + by exists (<[i := v]> (skiplinks h)), (content_tab h).
  - destruct (content_tab h !! kp) as [ep|] eqn:Hep; [|done]. simpl in Hlinks |- *.
    rewrite Hlinks. simpl. rewrite bool_decide_eq_true_2 by done.
    eexists. split; [done|]. split; [|split; [|split]].
    + intros c j. destruct (decide (c = skip_content kp /\ j = i)) as [[-> ->]|Hn].
      * simpl. rewrite lookup_insert_eq. simpl. by rewrite list_lookup_insert_eq.
      * destruct c as [|kc]; [done|]. simpl.
        destruct (decide (kc = kp)) as [->|Hk].
        -- rewrite lookup_insert_eq, Hep. simpl. rewrite Hlinks.
           rewrite list_lookup_insert_ne; [done|]. intros <-. by apply Hn.
        -- by rewrite lookup_insert_ne.
    + intros [|kc]; unfold node_depth; simpl; [done|].
      destruct (decide (kc = kp)) as [->|Hk].
      * rewrite lookup_insert_eq, Hep. simpl. rewrite Hlinks. simpl.
        by rewrite length_insert.
      * by rewrite lookup_insert_ne.
    + simpl. by apply unlinked_insert.
    + by eexists (skiplinks h), _.
Qed.

(** The loop of [content_skiplist_remove]: at each level the predecessor
    gets the link that the entry had. *)
Lemma skiplist_unlink_levels_spec (links : list Z) (pred : list skipnode) (cnt : nat) :
  forall (i0 : nat) (h : ccnd),
  (forall j, (i0 <= j < i0 + cnt)%nat ->
     exists p nxt old, pred !! j = Some p /\ links !! j = Some nxt /\
                       next_at h j p = Some old) ->
  exists h',
    skiplist_unlink_levels h links pred i0 cnt = Some h' /\
    (forall c j, (i0 <= j < i0 + cnt)%nat -> pred !! j = Some c ->
                 next_at h' j c = links !! j) /\
    (forall c j, ~ ((i0 <= j < i0 + cnt)%nat /\ pred !! j = Some c) ->
                 next_at h' j c = next_at h j c) /\
    (forall c, node_depth h' c = node_depth h c) /\
    unlinked <$> content_tab h' = unlinked <$> content_tab h /\
    exists ls m, h' = set_skiplinks ls (set_content_tab m h).
Proof.
  induction cnt as [|cnt IH]; intros i0 h Hpred.
  { exists h. split; [done|]. split; [intros c j Hj; lia|]. split; [done|].
    split; [done|]. split; [done|]. exists (skiplinks h), (content_tab h). by destruct h. }
  cbn [skiplist_unlink_levels].
  destruct (Hpred i0) as (p & nxt & old & Hp & Hnxt & Hold); [lia|].
  rewrite Hp, Hnxt. cbn [mbind option_bind].
  destruct (skipnode_set_link_spec h p i0 nxt old Hold)
    as (h1 & -> & Hnext1 & Hdepth1 & Hun1 & ls1 & m1 & Hshape1).
  cbn [mbind option_bind].
  destruct (IH (S i0) h1) as (h' & -> & Hset & Hrest & Hdepth & Hun & ls & m & Hshape).
  { intros j Hj. destruct (Hpred j) as (pj & nj & oj & Hpj & Hnj & Hoj); [lia|].
    exists pj, nj, oj. split; [done|]. split; [done|].
    rewrite Hnext1. destruct (decide (pj = p /\ j = i0)) as [[_ ?]|_]; [lia|done]. }
  exists h'. split; [done|]. split; [|split; [|split; [|split]]].
  - intros c j Hj Hc. destruct (decide (j = i0)) as [->|Hne].
    + rewrite Hrest by (intros [? _]; lia). rewrite Hnext1.
      destruct (decide (c = p /\ i0 = i0)) as [_|Hn]; [done|].
      exfalso. apply Hn. split; [congruence|done].
    + apply Hset; [lia|done].
  - intros c j Hnot. rewrite Hrest by (intros [? ?]; apply Hnot; split; [lia|done]).
    rewrite Hnext1. destruct (decide (c = p /\ j = i0)) as [[-> ->]|_]; [|done].
    exfalso. apply Hnot. split; [lia|done].
  - intros c. by rewrite Hdepth, Hdepth1.
  - by rewrite Hun, Hun1.
  - subst h' h1. by eexists _, _.
Qed.

(** A node that has level [i] is on the chain of that level. *)
Lemma reach_at_level (h : ccnd) (i : nat) (c : skipnode) (a : Z) :
  skiplist_complete h -> next_at h i c = Some a -> reach_at h i skip_head c.
Proof.
  intros [Hlinked _] Hn. destruct c as [|kc]; [done|].
  unfold next_at in Hn. simpl in Hn.
  destruct (content_tab h !! kc) as [ec|] eqn:Hec; [|done]. simpl in Hn.
  destruct (Hlinked kc ec Hec) as (l & Hl & _ & Hreach).
  rewrite Hl in Hn. simpl in Hn. apply Hreach. by apply lookup_lt_Some in Hn.
Qed.

(** Where the search for the name of a linked entry stops, the link leads
    to the entry. *)
Lemma stop_links_to_entry (h : ccnd) (k : list byte) (e : Content.t) (l : list Z)
    (i : nat) (p : skipnode) :
  name_order_ok -> content_keys_ok h -> skiplist_sorted h -> skiplist_complete h ->
  content_tab h !! k = Some e -> Content.skiplinks e = Some l -> (i < length l)%nat ->
  newest_tied h k e ->
  before_key k p -> stops_at h k i p ->
  next_at h i p = Some (Content.accession e).
Proof.
  intros Hord Hkeys Hsorted Hcomplete He Hl Hi Htied Hbefore Hstop.
  destruct Hstop as (links & nxt & Hlinks & Hnxt & Hstop).
  assert (next_at h i p = Some nxt) as Hnext by (unfold next_at; by rewrite Hlinks).
  assert (reach_at h i skip_head (skip_content k)) as Hk.
  { destruct (sc_linked _ Hcomplete k e He) as (l' & Hl' & _ & Hreach).
    apply Hreach. congruence. }
  destruct (chain_after_stop h k i p k e Hord Hsorted Hbefore
              (reach_at_level h i p nxt Hcomplete Hnext) He (no_irrefl Hord k) Hk)
    as (a & k1 & Hn & Ha & Hk1 & Hr).
  assert (a = nxt) as -> by congruence.
  destruct (content_from_accession_Some _ _ _ Hk1) as (e1 & He1 & Hacc1).
  apply (reach_at_lt h i _ _ Hord Hsorted) in Hr as [Heq|Hlt].
  - injection Heq as ->. rewrite Hnext. congruence.
  - exfalso. destruct Hlt as (e' & He' & e1' & He1' & Hlt).
    assert (e' = e) as -> by congruence. assert (e1' = e1) as -> by congruence.
    destruct Hstop as [->|(k1' & e1'' & Hk1' & He1'' & Hcmp)]; [done|].
    assert (k1' = k1) as -> by congruence. assert (e1'' = e1) as -> by congruence.
    destruct (Hkeys k1 e1 He1) as [Hname _]. rewrite Hname in Hcmp.
    destruct Hlt as [Hlt|(Hn1 & Hn2 & Hnewer)]; simpl in *.
    + unfold name_lt in Hlt. lia.
    + assert (k1 <> k) as Hne.
      { intros ->. assert (e1 = e) as -> by congruence. lia. }
      pose proof (Htied k1 e1 He1 Hne Hn1 Hn2). lia.
Qed.

(** An entry has one predecessor at each of its levels. *)
Lemma predecessor_unique (h : ccnd) (i : nat) (c p x : skipnode) :
  name_order_ok -> skiplist_sorted h ->
  reach_at h i skip_head c -> reach_at h i skip_head p ->
  step_at h i c x -> step_at h i p x -> c = p.
Proof.
  intros Hord Hsorted Hc Hp Hcx Hpx.
  assert (forall c p, step_at h i c x -> step_at h i p x -> reach_at h i c p -> c = p)
    as Hone.
  { clear Hc Hp Hcx Hpx c p. intros c p Hcx Hpx Hr.
    apply rtc_inv in Hr as [->|(c1 & Hstep & Hr)]; [done|]. exfalso.
    rewrite (step_at_det h i c c1 x Hstep Hcx) in Hr.
    pose proof (step_at_lt h i p x Hsorted Hpx) as Hlt.
    apply (reach_at_lt h i _ _ Hord Hsorted) in Hr as [->|Hlt'].
    - by apply (node_lt_irrefl h p).
    - apply (node_lt_irrefl h p Hord). by apply (node_lt_trans h p x p). }
  destruct (reach_at_linear h i skip_head c p Hc Hp) as [Hr|Hr].
  - by apply Hone.
  - symmetry. by apply Hone.
Qed.

(** [content_skiplist_remove] on an entry that is linked in: it returns;
    every link that led to the entry is replaced by the link that the entry
    had at that level, and no other link changes. *)
Lemma content_skiplist_remove_spec (h : ccnd) (k : list byte) (e : Content.t)
    (l : list Z) :
  name_order_ok -> content_keys_ok h -> skiplist_sorted h -> skiplist_complete h ->
  content_tab h !! k = Some e -> Content.skiplinks e = Some l ->
  newest_tied h k e ->
  exists h',
    content_skiplist_remove h k = Some h' /\
    content_tab h' !! k = Some (unlinked e) /\
    unlinked <$> content_tab h' = unlinked <$> content_tab h /\
    (exists ls m, h' = set_skiplinks ls (set_content_tab m h)) /\
    (forall c, c <> skip_content k -> node_depth h' c = node_depth h c) /\
    (forall c j, c <> skip_content k -> next_at h j c = Some (Content.accession e) ->
                 next_at h' j c = next_at h j (skip_content k)) /\
    (forall c j, c <> skip_content k -> next_at h j c <> Some (Content.accession e) ->
                 next_at h' j c = next_at h j c).
Proof.
  intros Hord Hkeys Hsorted Hcomplete He Hl Htied.
  pose proof (skiplist_sorted_wf h Hord Hkeys Hsorted) as Hwf.
  destruct (Hkeys k e He) as [Hname Hcfa].
  assert (forall j, next_at h j (skip_content k) = l !! j) as Hown.
  { intros j. unfold next_at. simpl. rewrite He. simpl. by rewrite Hl. }
  (* the head has the levels of the entry *)
  assert (length l <= length (skiplinks h))%nat as Hdepth.
  { destruct (decide (length l = 0)%nat) as [->|Hne]; [lia|].
    destruct (sc_linked _ Hcomplete k e He) as (l' & Hl' & _ & Hreach).
    assert (l' = l) as -> by congruence.
    specialize (Hreach (length l - 1)%nat ltac:(lia)).
    apply rtc_inv in Hreach as [Heq|(c1 & (a & k1 & Hn & _) & _)]; [done|].
    unfold next_at in Hn. simpl in Hn. apply lookup_lt_Some in Hn. lia. }
  unfold content_skiplist_remove. rewrite He. cbn [mbind option_bind].
  rewrite Hl. cbn [mbind option_bind]. fold (entry_name e). rewrite Hname.
  unfold content_skiplist_findbefore.
  destruct (findbefore_levels_total h (rank_of h) k (length (skiplinks h)) Hwf
              skip_head (length (skiplinks h)))
    as (pred & Hpred & Hlen & Hlevels); [done|done|].
  rewrite Hpred. cbn [mbind option_bind].
  pose proof (findbefore_levels_post h k _ Hkeys skip_head pred
                ltac:(intros kc; done) Hpred) as Hpost.
  assert (Z.to_nat (if zlength l <? zlength pred then zlength l else zlength pred)
          = length l) as ->.
  { unfold zlength. rewrite Hlen. destruct (_ <? _) eqn:Hcmp; [lia|].
    apply Z.ltb_ge in Hcmp. lia. }
  assert (forall j p, (j < length l)%nat -> pred !! j = Some p ->
            next_at h j p = Some (Content.accession e)) as Hlinksto.
  { intros j p Hj Hp. destruct (Hpost j p Hp) as [Hbefore Hstop].
    by apply (stop_links_to_entry h k e l j p). }
  destruct (skiplist_unlink_levels_spec l pred (length l) 0%nat h)
    as (h1 & -> & Hset & Hrest & Hdepth1 & Hun1 & ls1 & m1 & Hshape1).
  { intros j Hj. destruct (Hlevels j) as (p & dp & Hp & _); [lia|].
    destruct (lookup_lt_is_Some_2 l j) as [nxt Hnxt]; [lia|].
    exists p, nxt, (Content.accession e). split; [done|]. split; [done|].
    apply Hlinksto; [lia|done]. }
  cbn [mbind option_bind].
  assert (exists e1, content_tab h1 !! k = Some e1 /\ unlinked e1 = unlinked e)
    as (e1 & He1 & Hun).
  { apply (f_equal (fun t => t !! k)) in Hun1. rewrite !lookup_fmap, He in Hun1.
    destruct (content_tab h1 !! k) as [e1|]; [|done].
    exists e1. split; [done|]. simpl in Hun1. by apply (inj Some) in Hun1. }
  rewrite He1. cbn [mbind option_bind].
  eexists. split; [done|]. cbn [content_tab set_content_tab].
  assert (forall c j, c <> skip_content k ->
            next_at (set_content_tab
                       (<[k := Content.set_skiplinks None e1]> (content_tab h1)) h1) j c
            = next_at h1 j c) as Hlast.
  { intros c j Hc. unfold next_at. destruct c as [|kc]; [done|]. simpl.
    rewrite lookup_insert_ne; [done|]. congruence. }
  split; [rewrite lookup_insert_eq; f_equal; exact Hun|]. split.
  { rewrite <- Hun1. by apply unlinked_insert. }
  split; [subst h1; by eexists _, _|]. split; [|split].
  - intros c Hc. rewrite <- Hdepth1. unfold node_depth.
    destruct c as [|kc]; [done|]. simpl. rewrite lookup_insert_ne; [done|]. congruence.
  - intros c j Hc Hto. rewrite (Hlast c j Hc), Hown.
    (* [c] is the predecessor of the entry at level [j] *)
    assert (Content.accession e <> 0) as Hpos by apply (sc_positive _ Hcomplete k e He).
    assert (step_at h j c (skip_content k)) as Hstep by (by exists (Content.accession e), k).
    assert (j < length l)%nat as Hj.
    { unfold next_at in Hto.
      destruct (skipnode_links h c) as [links|] eqn:Hlinks; [|done]. simpl in Hto.
      destruct (Hsorted c links j _ Hlinks Hto Hpos) as (k' & depth & Hk' & Hd & Hlt & _).
      assert (k' = k) as -> by congruence.
      unfold node_depth in Hd. simpl in Hd. rewrite He in Hd. simpl in Hd.
      rewrite Hl in Hd. simpl in Hd. injection Hd as <-. done. }
    destruct (Hlevels j) as (p & dp & Hp & _); [lia|].
    pose proof (Hlinksto j p Hj Hp) as Hpto.
    assert (c = p) as ->.
    { apply (predecessor_unique h j c p (skip_content k) Hord Hsorted).
      - by apply (reach_at_level h j c _ Hcomplete Hto).
      - by apply (reach_at_level h j p _ Hcomplete Hpto).
      - done.
      - by exists (Content.accession e), k. }
    apply Hset; [lia|done].
  - intros c j Hc Hnot. rewrite (Hlast c j Hc). apply Hrest.
    intros [Hj Hp]. apply Hnot. apply Hlinksto; [lia|done].
Qed.

Lemma entry_unlinked_index (h h' : ccnd) (k : list byte) (e : Content.t) :
  entry_unlinked h h' k e -> same_index h h'.
Proof.
  intros (_ & Hun & (A & B & C) & _). split; [done|]. split; [done|]. split; [done|].
  intros k'. by apply unlinked_same_index.
Qed.

Lemma entry_unlinked_sorted (h h' : ccnd) (k : list byte) (e : Content.t) (l : list Z) :
  name_order_ok -> content_keys_ok h -> skiplist_sorted h ->
  content_tab h !! k = Some e -> Content.skiplinks e = Some l ->
  Content.accession e <> 0 ->
  entry_unlinked h h' k e ->
  skiplist_sorted h' /\
  forall c j, next_at h' j c <> Some (Content.accession e).
Proof.
  intros Hord Hkeys Hsorted He Hl Hpos Hunl.
  pose proof (entry_unlinked_index h h' k e Hunl) as Hidx.
  destruct Hunl as (He' & Hun & _ & Hdepth & Hto & Hother).
  destruct (Hkeys k e He) as [_ Hcfa].
  assert (forall j, next_at h j (skip_content k) = l !! j) as Hown.
  { intros j. unfold next_at. simpl. rewrite He. simpl. by rewrite Hl. }
  assert (skipnode_links h' (skip_content k) = None) as Hnone.
  { simpl. by rewrite He'. }
  (* a link of the old state, with what the skiplist knows about it *)
  assert (forall c j a, next_at h j c = Some a -> a <> 0 ->
            exists k2 depth,
              content_from_accession h a = Some k2 /\
              node_depth h (skip_content k2) = Some depth /\ (j < depth)%nat /\
              forall kc ec, c = skip_content kc -> content_tab h !! kc = Some ec ->
                entry_lt (kc, Content.accession ec) (k2, a)) as Hlink.
  { intros c j a Hn Ha. unfold next_at in Hn.
    destruct (skipnode_links h c) as [links|] eqn:Hlinks; [|done]. simpl in Hn.
    by apply (Hsorted c links j a). }
  assert (forall a k2, content_from_accession h a = Some k2 -> k2 = k ->
            a = Content.accession e) as Hsame.
  { intros a k2 Hk2 ->. destruct (content_from_accession_Some _ _ _ Hk2) as (e2 & He2 & <-).
    congruence. }
  split.
  - intros c links' j a Hlinks' Ha Hne.
    assert (c <> skip_content k) as Hc by (intros ->; congruence).
    assert (next_at h' j c = Some a) as Hn' by (unfold next_at; by rewrite Hlinks').
    assert (forall kc ec', c = skip_content kc -> content_tab h' !! kc = Some ec' ->
              exists ec, content_tab h !! kc = Some ec /\
                         Content.accession ec' = Content.accession ec) as Hback.
    { intros kc ec' _ Hec'.
      destruct (same_index_entry h' h kc ec' (same_index_sym _ _ Hidx) Hec')
        as (ec & Hec & Hacc & _). by exists ec. }
    destruct (decide (next_at h j c = Some (Content.accession e))) as [Hyes|Hno].
    + rewrite (Hto c j Hc Hyes) in Hn'.
      destruct (Hlink (skip_content k) j a Hn' Hne) as (k2 & depth & Hk2 & Hd & Hlt & Ho2).
      destruct (Hlink c j _ Hyes Hpos) as (k1 & _ & Hk1 & _ & _ & Ho1).
      assert (k1 = k) as -> by congruence.
      specialize (Ho2 k e eq_refl He).
      assert (k2 <> k) as Hk2k.
      { intros ->. rewrite (Hsame a k Hk2 eq_refl) in Ho2.
        by apply entry_lt_irrefl in Ho2. }
      exists k2, depth. rewrite (same_index_accession h h') by done.
      split; [done|]. split; [rewrite Hdepth; [done|congruence]|]. split; [done|].
      intros kc ec' Hceq Hec'. destruct (Hback kc ec' Hceq Hec') as (ec & Hec & ->).
      apply (entry_lt_trans _ (k, Content.accession e)); [done| |done].
      by apply (Ho1 kc ec).
    + rewrite (Hother c j Hc Hno) in Hn'.
      destruct (Hlink c j a Hn' Hne) as (k2 & depth & Hk2 & Hd & Hlt & Ho2).
      assert (k2 <> k) as Hk2k.
      { intros ->. apply Hno. rewrite Hn'. f_equal. by apply (Hsame a k). }
      exists k2, depth. rewrite (same_index_accession h h') by done.
      split; [done|]. split; [rewrite Hdepth; [done|congruence]|]. split; [done|].
      intros kc ec' Hceq Hec'. destruct (Hback kc ec' Hceq Hec') as (ec & Hec & ->).
      by apply (Ho2 kc ec).
  - intros c j Hn'.
    destruct (decide (c = skip_content k)) as [->|Hc].
    { unfold next_at in Hn'. by rewrite Hnone in Hn'. }
    destruct (decide (next_at h j c = Some (Content.accession e))) as [Hyes|Hno].
    + rewrite (Hto c j Hc Hyes) in Hn'.
      destruct (Hlink (skip_content k) j _ Hn' Hpos) as (k2 & _ & Hk2 & _ & _ & Ho2).
      assert (k2 = k) as -> by congruence.
      specialize (Ho2 k e eq_refl He). by apply entry_lt_irrefl in Ho2.
    + by rewrite (Hother c j Hc Hno) in Hn'.
Qed.

(** The chains still lead to every other entry. *)
Lemma entry_unlinked_reach (h h' : ccnd) (k : list byte) (e : Content.t) (i : nat) :
  name_order_ok -> content_keys_ok h -> skiplist_sorted h ->
  content_tab h !! k = Some e ->
  entry_unlinked h h' k e ->
  forall z, reach_at h i skip_head z ->
    (z <> skip_content k -> reach_at h' i skip_head z) /\
    (z = skip_content k ->
     exists p, p <> skip_content k /\ next_at h i p = Some (Content.accession e) /\
               reach_at h' i skip_head p).
Proof.
  intros Hord Hkeys Hsorted He Hunl.
  pose proof (entry_unlinked_index h h' k e Hunl) as Hidx.
  destruct Hunl as (He' & Hun & _ & Hdepth & Hto & Hother).
  destruct (Hkeys k e He) as [_ Hcfa].
  apply (rtc_ind_r (fun z => (z <> skip_content k -> reach_at h' i skip_head z) /\
    (z = skip_content k ->
     exists p, p <> skip_content k /\ next_at h i p = Some (Content.accession e) /\
               reach_at h' i skip_head p))).
  { split; [done|done]. }
  intros y z Hy Hstep IH.
  destruct Hstep as (a & kz & Hn & Ha & Hkz & ->).
  destruct IH as [IH1 IH2]. split.
  - intros Hz. assert (kz <> k) as Hkzk by congruence.
    assert (a <> Content.accession e) as Hne by (intros ->; congruence).
    destruct (decide (y = skip_content k)) as [->|Hyk].
    + destruct (IH2 eq_refl) as (p & Hp & Hpto & Hreach).
      eapply rtc_r; [exact Hreach|]. exists a, kz.
      rewrite (Hto p i Hp Hpto), Hn, (same_index_accession h h') by done. done.
    + eapply rtc_r; [by apply IH1|]. exists a, kz.
      rewrite (Hother y i Hyk) by congruence.
      rewrite (same_index_accession h h') by done. done.
  - intros [= ->].
    assert (a = Content.accession e) as ->.
    { destruct (content_from_accession_Some _ _ _ Hkz) as (e2 & He2 & <-). congruence. }
    assert (y <> skip_content k) as Hyk.
    { intros ->. apply (node_lt_irrefl h (skip_content k) Hord).
      apply (step_at_lt h i); [done|]. by exists (Content.accession e), k. }
    exists y. split; [done|]. split; [done|]. by apply IH1.
Qed.

End SkiplistRemove.

(** X20. [content_skiplist_remove] takes exactly the entry out of the
    skiplist.  On a content store that is sorted and in which every entry is
    linked in, for an entry that is the newest among the entries whose names
    compare equal to its own, the call returns; afterwards the entry has no
    links, no link of the skiplist leads to it, the skiplist is still
    sorted, every other entry is still reached from the head at each of its
    levels, and nothing but links has changed. *)
Theorem content_skiplist_remove_unlinks `{P : ccnd_private} `{L : ccn_library}
    (h : ccnd) (k : list byte) (e : Content.t) (l : list Z) :
  name_order_ok -> content_keys_ok h -> skiplist_sorted h -> skiplist_complete h ->
  content_tab h !! k = Some e -> Content.skiplinks e = Some l ->
  newest_tied h k e ->
  exists h',
    content_skiplist_remove h k = Some h' /\
    content_tab h' !! k = Some (unlinked e) /\
    unlinked <$> content_tab h' = unlinked <$> content_tab h /\
    content_keys_ok h' /\ skiplist_sorted h' /\
    (forall c j, next_at h' j c <> Some (Content.accession e)) /\
    (forall k' e' l' (i : nat), k' <> k ->
       content_tab h' !! k' = Some e' -> Content.skiplinks e' = Some l' ->
       (i < length l')%nat -> reach_at h' i skip_head (skip_content k')).
Proof.
  intros Hord Hkeys Hsorted Hcomplete He Hl Htied.
  destruct (content_skiplist_remove_spec h k e l Hord Hkeys Hsorted Hcomplete He Hl Htied)
    as (h' & Hrun & He' & Hun & (ls & m & Hshape) & Hdepth & Hto & Hother).
  assert (entry_unlinked h h' k e) as Hunl.
  { split; [done|]. split; [done|]. split; [by subst h'|]. done. }
  pose proof (sc_positive _ Hcomplete k e He) as Hpos.
  destruct (entry_unlinked_sorted h h' k e l Hord Hkeys Hsorted He Hl Hpos Hunl)
    as [Hsorted' Hnolink].
  exists h'. split; [done|]. split; [done|]. split; [done|].
  split; [apply (same_index_keys_ok h h'); [by apply (entry_unlinked_index h h' k e)|done]|].
  split; [done|]. split; [done|].
  intros k' e' l' i Hk' He'' Hl' Hi.
  assert (node_depth h (skip_content k') = Some (length l')) as Hd.
  { rewrite <- Hdepth by congruence. unfold node_depth. simpl. rewrite He''. simpl.
    by rewrite Hl'. }
  unfold node_depth in Hd. simpl in Hd.
  destruct (content_tab h !! k') as [e0|] eqn:He0; [|done]. simpl in Hd.
  destruct (sc_linked _ Hcomplete k' e0 He0) as (l0 & Hl0 & _ & Hreach).
  rewrite Hl0 in Hd. simpl in Hd. injection Hd as Hlen.
  apply (entry_unlinked_reach h h' k e i Hord Hkeys Hsorted He Hunl).
  - apply Hreach. lia.
  - congruence.
Qed.

Section RemoveRun.

#[local] Existing Instance sample_private.

#[local] Existing Instance sample_library.

Lemma first_of_two_tied :
  newest_tied two_arrived (bytes_at content_xy1 0 6) first_of_two.
Proof.
  unfold newest_tied.
  change (map_Forall
            (fun k' e' => k' <> bytes_at content_xy1 0 6 ->
                          ~ name_lt k' (bytes_at content_xy1 0 6) ->
                          ~ name_lt (bytes_at content_xy1 0 6) k' ->
                          Content.accession e' < Content.accession first_of_two)
            (content_tab two_arrived)).
  apply (bool_decide_unpack _). vm_compute. exact I.
Qed.

Lemma content_skiplist_remove_unlinks_witness :
  exists h',
    content_skiplist_remove two_arrived (bytes_at content_xy1 0 6) = Some h' /\
    (Content.skiplinks <$> content_tab h' !! bytes_at content_xy1 0 6) = Some None /\
    skiplist_sorted h' /\
    reach_at h' 0 skip_head (skip_content (bytes_at content_xy2 0 6)).
Proof.
  destruct two_arrived_store_ok as [[Hkeys Hsorted _ _ _] Hcomplete].
  destruct (content_skiplist_remove_unlinks two_arrived (bytes_at content_xy1 0 6)
              first_of_two (default [] (Content.skiplinks first_of_two))
              sample_name_order_ok Hkeys Hsorted Hcomplete)
    as (h' & Hrun & He' & Hun & _ & Hsorted' & _ & Hreach).
  - vm_compute. reflexivity.
  - vm_compute. reflexivity.
  - exact first_of_two_tied.
  - exists h'. split; [exact Hrun|]. split; [rewrite He'; reflexivity|].
    split; [exact Hsorted'|].
    assert (exists e2 l2, content_tab h' !! bytes_at content_xy2 0 6 = Some e2 /\
                          Content.skiplinks e2 = Some l2 /\ (0 < length l2)%nat)
      as (e2 & l2 & He2 & Hl2 & Hlen).
    { assert ((fun h => (fun e => length <$> Content.skiplinks e)
                          <$> content_tab h !! bytes_at content_xy2 0 6)
                <$> content_skiplist_remove two_arrived (bytes_at content_xy1 0 6)
              = Some (Some (Some 1%nat))) as Hc by (vm_compute; reflexivity).
      rewrite Hrun in Hc. simpl in Hc. apply (inj Some) in Hc.
      destruct (content_tab h' !! bytes_at content_xy2 0 6) as [e2|] eqn:He2;
        [|discriminate Hc].
      simpl in Hc. apply (inj Some) in Hc.
      destruct (Content.skiplinks e2) as [l2|] eqn:Hl2; [|discriminate Hc].
      simpl in Hc. apply (inj Some) in Hc.
      exists e2, l2. split; [reflexivity|]. split; [exact Hl2|]. lia. }
    apply (Hreach (bytes_at content_xy2 0 6) e2 l2 0%nat); [|exact He2|exact Hl2|exact Hlen].
    vm_compute. discriminate.
Defined.

End RemoveRun.

(** ** Throwing an entry away (lines 247-268, 1420-1429) *)

Section ContentDelete.

Context `{P : ccnd_private} `{L : ccn_library}.






End ContentDelete.


Section CollisionRun.

#[local] Existing Instance sample_private.

#[local] Existing Instance sample_library.


End CollisionRun.

(** ** Linking an entry into the chains (lines 300-319) *)

Section SkiplistLink.

Context `{P : ccnd_private} `{L : ccn_library}.

Lemma skipnode_set_link_other (h h' : ccnd) (p : skipnode) (i : nat) (v : Z)
    (k : list byte) :
  skipnode_set_link h p i v = Some h' -> skip_content k <> p ->
  content_tab h' !! k = content_tab h !! k.
Proof.
  destruct p as [|kp]; simpl.
  - case_bool_decide; [|done]. by intros [= <-] _.
  - destruct (content_tab h !! kp) as [ep|]; [|done]. simpl.
    destruct (Content.skiplinks ep) as [lp|]; [|done]. simpl.
    case_bool_decide; [|done]. intros [= <-] Hne. simpl.
    rewrite lookup_insert_ne; [done|]. congruence.
Qed.

(** The last loop of [content_skiplist_insert]: at each level the entry
    takes the link of its predecessor, and the predecessor is linked to the
    entry. *)
Lemma skiplist_link_levels_next (content : list byte) (accession : Z)
    (pred : list skipnode) (cnt : nat) :
  forall (i0 : nat) (h : ccnd) (e : Content.t) (l : list Z),
  content_tab h !! content = Some e -> Content.skiplinks e = Some l -> length l = i0 ->
  (forall j, (i0 <= j < i0 + cnt)%nat ->
     exists p old, pred !! j = Some p /\ p <> skip_content content /\
                   next_at h j p = Some old) ->
  exists h',
    skiplist_link_levels h content accession pred i0 cnt = Some h' /\
    (forall c j, (i0 <= j < i0 + cnt)%nat -> pred !! j = Some c ->
       next_at h' j c = Some accession /\
       next_at h' j (skip_content content) = next_at h j c) /\
    (forall c j, c <> skip_content content ->
       ~ ((i0 <= j < i0 + cnt)%nat /\ pred !! j = Some c) ->
       next_at h' j c = next_at h j c) /\
    (forall j, (j < i0)%nat ->
       next_at h' j (skip_content content) = next_at h j (skip_content content)) /\
    (exists e' l', content_tab h' !! content = Some e' /\
                   Content.skiplinks e' = Some l' /\ length l' = (i0 + cnt)%nat) /\
    (forall c, c <> skip_content content -> node_depth h' c = node_depth h c).
Proof.
  induction cnt as [|cnt IH]; intros i0 h e l He Hl Hlen Hpred.
  { exists h. split; [done|]. split; [intros c j Hj; lia|]. split; [done|].
    split; [done|]. split; [|done]. exists e, l. split; [done|]. split; [done|]. lia. }
  cbn [skiplist_link_levels].
  destruct (Hpred i0) as (p & old & Hp & Hpc & Hold); [lia|].
  rewrite Hp. cbn [mbind option_bind].
  pose proof Hold as Hold0. unfold next_at in Hold0.
  destruct (skipnode_links h p) as [links|] eqn:Hlinks; [|done].
  cbn [mbind option_bind] in Hold0 |- *. rewrite Hold0. cbn [mbind option_bind].
  rewrite He. cbn [mbind option_bind]. rewrite Hl. cbn [mbind option_bind].
  set (e1 := Content.set_skiplinks (Some (l ++ [old])) e).
  set (ha := set_content_tab (<[content := e1]> (content_tab h)) h).
  assert (forall c j, c <> skip_content content -> next_at ha j c = next_at h j c) as Hna.
  { intros c j Hc. unfold next_at. destruct c as [|kc]; [done|]. simpl.
    rewrite lookup_insert_ne; [done|]. congruence. }
  assert (forall c, c <> skip_content content -> node_depth ha c = node_depth h c) as Hda.
  { intros c Hc. unfold node_depth. destruct c as [|kc]; [done|]. simpl.
    rewrite lookup_insert_ne; [done|]. congruence. }
  assert (forall j, next_at ha j (skip_content content) = (l ++ [old]) !! j) as Hca.
  { intros j. unfold next_at. simpl. by rewrite lookup_insert_eq. }
  destruct (skipnode_set_link_spec ha p i0 accession old)
    as (h1 & Hset1 & Hnext1 & Hdepth1 & Hun1 & _).
  { by rewrite Hna. }
  rewrite Hset1. cbn [mbind option_bind].
  assert (content_tab h1 !! content = Some e1) as He1.
  { rewrite (skipnode_set_link_other ha h1 p i0 accession content Hset1) by congruence.
    unfold ha. simpl. by rewrite lookup_insert_eq. }
  destruct (IH (S i0) h1 e1 (l ++ [old]) He1 eq_refl)
    as (h' & Hrun & Hset & Hrest & Hown & Hentry & Hdepth).
  { rewrite length_app. simpl. lia. }
  { intros j Hj. destruct (Hpred j) as (pj & oj & Hpj & Hpjc & Hoj); [lia|].
    exists pj, oj. split; [done|]. split; [done|].
    rewrite Hnext1. destruct (decide (pj = p /\ j = i0)) as [[_ ?]|_]; [lia|].
    by rewrite Hna. }
  exists h'. split; [exact Hrun|]. split; [|split; [|split; [|split]]].
  - intros c j Hj Hc. destruct (decide (j = i0)) as [->|Hne].
    + assert (c = p) as -> by congruence. split.
      * rewrite Hrest by (done || intros [? _]; lia). rewrite Hnext1.
        destruct (decide (p = p /\ i0 = i0)) as [_|Hn]; [done|]. exfalso. by apply Hn.
      * rewrite Hown by lia. rewrite Hnext1.
        destruct (decide (skip_content content = p /\ i0 = i0)) as [[? _]|_];
          [congruence|].
        rewrite Hca, Hold. rewrite lookup_app_r by lia.
        by rewrite Hlen, Nat.sub_diag.
    + destruct (Hset c j) as [H1 H2]; [lia|done|]. split; [done|].
      rewrite H2, Hnext1.
      destruct (decide (c = p /\ j = i0)) as [[_ ?]|_]; [done|].
      apply Hna. destruct (Hpred j) as (pj & oj & Hpj & Hpjc & _); [lia|]. congruence.
  - intros c j Hc Hnot. rewrite Hrest; [|done|intros [? ?]; apply Hnot; split; [lia|done]].
    rewrite Hnext1. destruct (decide (c = p /\ j = i0)) as [[-> ->]|_].
    + exfalso. apply Hnot. split; [lia|done].
    + by apply Hna.
  - intros j Hj. rewrite Hown by lia. rewrite Hnext1.
    destruct (decide (skip_content content = p /\ j = i0)) as [[? _]|_]; [congruence|].
    rewrite Hca. rewrite lookup_app_l by lia. unfold next_at. simpl. rewrite He. simpl.
    by rewrite Hl.
  - destruct Hentry as (e' & l' & He' & Hl' & Hlen').
    exists e', l'. split; [done|]. split; [done|]. lia.
  - intros c Hc. by rewrite Hdepth, Hdepth1, Hda.
Qed.

Lemma reach_at_subrel (h h' : ccnd) (i : nat) :
  (forall c c', step_at h i c c' -> reach_at h' i c c') ->
  forall c c', reach_at h i c c' -> reach_at h' i c c'.
Proof.
  intros Hstep c c' Hr. induction Hr as [c|c c1 c' Hs _ IH]; [done|].
  by etrans; [apply Hstep|].
Qed.

(** [content_skiplist_insert] links the entry into the chain of each of its
    levels, and every chain still leads to the entries it led to. *)
Lemma content_skiplist_insert_complete (h : ccnd) (content : list byte) (e : Content.t) :
  name_order_ok -> newest h content e ->
  content_tab h !! content = Some e -> Content.skiplinks e = None ->
  content_keys_ok h -> skiplist_sorted h -> linked_but h content ->
  exists h',
    content_skiplist_insert h content = Some h' /\
    content_keys_ok h' /\ skiplist_sorted h' /\ skiplist_complete h'.
Proof.
  intros Hord Hnew He Hl Hkeys Hsorted [Hlinked Hpos].
  destruct (content_skiplist_insert_sorted h content e Hord Hnew He Hl Hkeys Hsorted)
    as (h' & Hrun & Hkeys' & Hsorted').
  exists h'. split; [done|]. split; [done|]. split; [done|].
  destruct (content_skiplist_insert_shape h h' content Hrun)
    as (s & ls & m & Hshape & Hun & e0 & e' & He0 & He' & Hl').
  assert (same_index h h') as Hidx.
  { subst h'. split; [done|]. split; [done|]. split; [done|].
    intros k. simpl. by apply unlinked_same_index. }
  assert (content_tab h' !! content = Some e') as Hce by (by subst h').
  assert (Content.accession e' = Content.accession e) as Hacc.
  { destruct (same_index_entry h h' content e Hidx He) as (e'' & He'' & Ha & _).
    congruence. }
  assert (content_from_accession h' (Content.accession e) = Some content) as Hcfa.
  { rewrite <- Hacc. by apply (Hkeys' content e'). }
  (* the run, once more, for the links it sets *)
  revert Hrun. set (d := chosen_depth (seed h)).
  pose proof (chosen_depth_range (seed h)) as Hd. fold d in Hd.
  unfold content_skiplist_insert. rewrite He. cbn [mbind option_bind].
  rewrite Hl. rewrite bool_decide_eq_false_2 by (intros [? ?]; done).
  pose proof (skiplist_choose_depth_spec (Z.to_nat (CCN_SKIPLIST_MAX_DEPTH - 1 - 1)) 1 (seed h))
    as Hchoose.
  cbv zeta in Hchoose.
  change (CCN_SKIPLIST_MAX_DEPTH - 1 - 1) with (CCN_SKIPLIST_MAX_DEPTH - 2) in *.
  fold (chosen_depth (seed h)) in Hchoose. fold d in Hchoose.
  destruct (skiplist_choose_depth _ 1 (seed h)) as [d0 seed'].
  injection Hchoose as -> Hseed.
  set (h1 := set_skiplinks _ (set_seed seed' h)).
  assert (length (skiplinks h1)
          = Nat.max (length (skiplinks h)) (Z.to_nat d)) as Hlen1.
  { unfold h1. simpl. rewrite length_app, length_replicate. lia. }
  assert (same_index h h1) as Hidx1 by done.
  assert (content_keys_ok h1) as Hkeys1 by (by eapply same_index_keys_ok).
  assert (forall c j a, next_at h j c = Some a -> next_at h1 j c = Some a) as Hext.
  { intros c j a Hn. unfold next_at in *. destruct c as [|kc]; [|done].
    simpl in *. by apply lookup_app_l_Some. }
  assert (skiplist_sorted h1) as Hsorted1.
  { intros c links i a Hlinks Ha Hne.
    assert (exists ls, skipnode_links h c = Some ls /\ ls !! i = Some a) as (ls0 & Hls & Hi).
    { destruct c as [|k]; [|by exists links].
      simpl in Hlinks. injection Hlinks as <-. exists (skiplinks h). split; [done|].
      apply lookup_app_Some in Ha as [Ha|[_ Ha]]; [done|].
      apply lookup_replicate in Ha as [-> _]. done. }
    destruct (Hsorted c ls0 i a Hls Hi Hne) as (k & depth & Hk & Hdk & Hik & Hlt).
    exists k, depth. rewrite (same_index_accession h h1) by done.
    split_and!; try done; intros kc ec -> Hec; by apply (Hlt kc ec). }
  pose proof (skiplist_sorted_wf h1 Hord Hkeys1 Hsorted1) as Hwf1.
  destruct (findbefore_levels_total h1 (rank_of h1) content
              (length (skiplinks h1)) Hwf1 skip_head (length (skiplinks h1)))
    as (pred & Hfind & Hplen & Hpred); [done|lia|].
  destruct (Hkeys content e He) as [Hname _]. unfold entry_name in Hname.
  rewrite Hname.
  unfold content_skiplist_findbefore. rewrite Hfind. cbn [mbind option_bind].
  assert ((zlength pred <? d) = false) as ->.
  { apply Z.ltb_ge. unfold zlength. rewrite Hplen, Hlen1. lia. }
  set (e2 := Content.set_skiplinks (Some []) e).
  set (h2 := set_content_tab _ h1).
  assert (forall c j, c <> skip_content content -> next_at h2 j c = next_at h1 j c) as Hn2.
  { intros c j Hc. unfold next_at. destruct c as [|kc]; [done|]. unfold h2. simpl.
    rewrite lookup_insert_ne; [done|]. congruence. }
  assert (forall j p depth, pred !! j = Some p -> node_depth h1 p = Some depth ->
            p <> skip_content content) as Hpc.
  { intros j p depth _ Hpd ->. unfold node_depth in Hpd. simpl in Hpd.
    rewrite He in Hpd. simpl in Hpd. by rewrite Hl in Hpd. }
  destruct (skiplist_link_levels_next content (Content.accession e) pred (Z.to_nat d)
              0%nat h2 e2 [])
    as (h'' & Hrun'' & Hset & Hrest & _ & (e'' & l'' & He'' & Hl'' & Hlen'') & Hdepth).
  { apply lookup_insert_eq. }
  { done. }
  { done. }
  { intros j Hj. destruct (Hpred j) as (p & depth & Hp & Hpd & Hjd); [lia|].
    pose proof (Hpc j p depth Hp Hpd) as Hpne.
    unfold node_depth in Hpd.
    destruct (skipnode_links h1 p) as [lp|] eqn:Hlp; [|done].
    simpl in Hpd. injection Hpd as <-.
    destruct (lookup_lt_is_Some_2 lp j Hjd) as [old Hold].
    exists p, old. split; [done|]. split; [done|].
    rewrite Hn2 by done. unfold next_at. by rewrite Hlp. }
  rewrite Hrun''. intros Heq%(inj Some). subst h''.
  assert (e'' = e') as -> by congruence.
  (* the chains of the old state are chains of the new one *)
  assert (forall j c c', step_at h j c c' -> reach_at h' j c c') as Hstep.
  { intros j c c' (a & kc' & Hn & Ha & Hk' & ->).
    assert (c <> skip_content content) as Hc.
    { intros ->. unfold next_at in Hn. simpl in Hn. rewrite He in Hn. simpl in Hn.
      by rewrite Hl in Hn. }
    pose proof (Hext c j a Hn) as Hn1. rewrite <- (Hn2 c j Hc) in Hn1.
    destruct (decide ((0 <= j < 0 + Z.to_nat d)%nat /\ pred !! j = Some c)) as [[Hj Hp]|Hnot].
    - destruct (Hset c j Hj Hp) as [Hto Hfrom].
      eapply rtc_l; [by exists (Content.accession e), content; split_and!; try done;
                       apply (Hpos content e He)|].
      apply rtc_once. exists a, kc'. rewrite Hfrom, Hn1.
      rewrite (same_index_accession h h') by done. done.
    - apply rtc_once. exists a, kc'. rewrite (Hrest c j Hc Hnot), Hn1.
      rewrite (same_index_accession h h') by done. done. }
  split.
  - intros k' ek' Hk'. destruct (decide (k' = content)) as [->|Hne].
    + assert (ek' = e') as -> by congruence.
      exists l''. split; [done|]. split; [intros ->; simpl in Hlen''; lia|].
      intros i Hi. rewrite Hlen'' in Hi.
      destruct (Hpred i) as (p & depth & Hp & Hpd & Hid); [lia|].
      destruct (Hset p i ltac:(lia) Hp) as [Hto _].
      eapply rtc_r; [|by exists (Content.accession e), content; split_and!; try done;
                        apply (Hpos content e He)].
      destruct p as [|kp]; [done|].
      pose proof (Hpc i _ depth Hp Hpd) as Hpne.
      unfold node_depth in Hpd. simpl in Hpd.
      destruct (content_tab h !! kp) as [ep|] eqn:Hep; [|done]. simpl in Hpd.
      destruct (Hlinked kp ep ltac:(congruence) Hep) as (lp & Hlp & _ & Hreach).
      rewrite Hlp in Hpd. simpl in Hpd. injection Hpd as <-.
      apply (reach_at_subrel h h' i (Hstep i)). by apply Hreach.
    + destruct (same_index_entry h' h k' ek' (same_index_sym _ _ Hidx) Hk')
        as (ek & Hek & _ & _).
      destruct (Hlinked k' ek Hne Hek) as (lk & Hlk & Hlkne & Hreach).
      assert (node_depth h' (skip_content k') = Some (length lk)) as Hdk.
      { rewrite Hdepth by congruence. unfold node_depth, h2. simpl.
        rewrite lookup_insert_ne by done. rewrite Hek. simpl. by rewrite Hlk. }
      unfold node_depth in Hdk. simpl in Hdk. rewrite Hk' in Hdk. simpl in Hdk.
      destruct (Content.skiplinks ek') as [lk'|]; [|done]. simpl in Hdk.
      injection Hdk as Hlen. exists lk'. split; [done|]. split.
      { intros ->. destruct lk; done. }
      intros i Hi. apply (reach_at_subrel h h' i (Hstep i)). apply Hreach. lia.
  - intros k' ek' Hk'.
    destruct (same_index_entry h' h k' ek' (same_index_sym _ _ Hidx) Hk')
      as (ek & Hek & Ha & _).
    rewrite <- Ha. by apply (Hpos k' ek).
Qed.

End SkiplistLink.

(** ** Stored content is found (lines 300-360, 1448-1464) *)

Section ContentFound.

Context `{P : ccnd_private} `{L : ccn_library}.

Lemma skiplist_complete_same (h h' : ccnd) :
  same_store h h' -> skiplist_complete h -> skiplist_complete h'.
Proof.
  intros Hsame [Hlinked Hpos]. pose proof Hsame as (Hidx & _ & _ & Hl).
  assert (forall i c c', step_at h i c c' -> reach_at h' i c c') as Hstep.
  { intros i c c' (a & k & Hn & Ha & Hk & ->). apply rtc_once. exists a, k.
    unfold next_at. rewrite (same_store_links h h' c Hsame).
    by rewrite (same_index_accession h h'). }
  split.
  - intros k e' He'.
    destruct (same_index_entry h' h k e' (same_index_sym _ _ Hidx) He') as (e & He & _).
    destruct (Hlinked k e He) as (l & Hle & Hne & Hreach).
    exists l. split; [|split; [done|]].
    + specialize (Hl k). rewrite He, He' in Hl. simpl in Hl. congruence.
    + intros i Hi. apply (reach_at_subrel h h' i (Hstep i)). by apply Hreach.
  - intros k e' He'.
    destruct (same_index_entry h' h k e' (same_index_sym _ _ Hidx) He')
      as (e & He & Ha & _).
    rewrite <- Ha. by apply (Hpos k e).
Qed.

(** The new entry is stored, enrolled and linked into every chain of its
    levels. *)
Lemma new_content_linked_complete (h : ccnd) (f : Face.t) (msg : list byte)
    (obj : ccn_parsed_ContentObject) (comps : list Z) :
  let key := bytes_at msg 0 (CCN_PCO_B_Content obj) in
  name_order_ok ->
  content_store_ok h -> skiplist_complete h -> 0 <= accession h ->
  accession_index_fits h -> accession h + 1 < 2 ^ 64 ->
  0 <= CCN_PCO_B_Content obj <= zlength msg -> zlength msg < 2 ^ 64 ->
  content_tab h !! key = None ->
  exists h2,
    (h1 ← store_new_content h f msg obj comps; content_skiplist_insert h1 key) = Some h2 /\
    skiplist_complete h2.
Proof.
  intros key Hord Hok [Hlinked Hpos] Hacc0 Hfits Hacc Hks Hlen Hnew.
  destruct (store_new_content_ok h f msg obj comps Hok Hfits Hacc Hks Hlen Hnew)
    as (h1 & Hrun & He & Hnewest & [Hkeys1 Hsorted1 _ _ _] & Hacc1).
  fold key in He, Hnewest.
  destruct (store_new_content_index h f msg obj comps (cs_index _ Hok) Hfits
              (cs_counter _ Hok) Hacc Hnew)
    as (h1' & Hrun' & _ & _ & _ & Hsk & Htab & _ & Hrest).
  fold key in Htab. rewrite Hrun in Hrun'. apply (inj Some) in Hrun'. subst h1'.
  assert (linked_but h1 key) as Hbut.
  { assert (forall i c c', step_at h i c c' -> reach_at h1 i c c') as Hstep.
    { intros i c c' (a & k & Hn & Ha & Hk & ->). apply rtc_once. exists a, k.
      destruct (content_from_accession_Some _ _ _ Hk) as (ek & Hek & Haek).
      assert (a <> accession h + 1) as Hne.
      { pose proof (cs_issued _ Hok k ek Hek). lia. }
      rewrite (Hrest a Hne). split; [|done].
      unfold next_at in *. destruct c as [|kc]; simpl in *; [by rewrite Hsk|].
      rewrite Htab. destruct (decide (kc = key)) as [->|Hkc].
      - by rewrite Hnew in Hn.
      - by rewrite lookup_insert_ne. }
    split.
    - intros k' e' Hne Hk'. rewrite Htab, lookup_insert_ne in Hk' by done.
      destruct (Hlinked k' e' Hk') as (l & Hl & Hlne & Hreach).
      exists l. split; [done|]. split; [done|].
      intros i Hi. apply (reach_at_subrel h h1 i (Hstep i)). by apply Hreach.
    - intros k' e' Hk'. rewrite Htab in Hk'.
      destruct (decide (k' = key)) as [->|Hne].
      + rewrite lookup_insert_eq in Hk'. apply (inj Some) in Hk'. subst e'.
        simpl. unfold u64. rewrite Z.mod_small by lia. lia.
      + rewrite lookup_insert_ne in Hk' by done. by apply (Hpos k' e'). }
  destruct (content_skiplist_insert_complete h1 key _ Hord Hnewest He eq_refl
              Hkeys1 Hsorted1 Hbut) as (h2 & Hins & _ & _ & Hcomplete2).
  exists h2. rewrite Hrun. cbn [mbind option_bind]. done.
Qed.

End ContentFound.

(** X22. Content that has arrived is found.  On a daemon whose content
    store is well formed with every entry linked in, after
    [process_incoming_content] has stored a ContentObject under a new key,
    every entry - the new one too - is linked into the chain of each of its
    levels, and [find_first_match_candidate] for an interest whose name is
    the name of that ContentObject answers the new entry. *)
Theorem process_incoming_content_found `{P : ccnd_private} `{L : ccn_library}
    (h : ccnd) (face : nat) (f : Face.t) (msg : list byte)
    (obj : ccn_parsed_ContentObject) (comps : list Z) :
  let key := bytes_at msg 0 (CCN_PCO_B_Content obj) in
  name_order_ok ->
  content_store_ok h -> skiplist_complete h -> 0 <= accession h ->
  accession_index_fits h -> accession h + 1 < 2 ^ 64 ->
  interest_tables_ok h ->
  face_store h !! face = Some f ->
  1 <= zlength comps ->
  default 0 (zlookup comps (zlength comps - 1)) <= 65535 ->
  0 <= CCN_PCO_B_Content obj <= zlength msg -> zlength msg < 2 ^ 64 ->
  content_tab h !! key = None ->
  exists h',
    process_incoming_content h face msg (Some (obj, comps)) = Some h' /\
    content_store_ok h' /\ skiplist_complete h' /\
    forall interest_msg pi,
      bytes_at interest_msg 0 (CCN_PI_E_Name pi) = key ->
      find_first_match_candidate h' interest_msg pi = Some (Some key).
Proof.
  intros key Hord Hok Hcomplete Hacc0 Hfits Hacc Hwf Hf Hn Hlast Hk Hlen Hnew.
  destruct (process_incoming_content_new_run h face f msg obj comps
              Hord Hok Hfits Hacc Hwf Hf Hn Hlast Hk Hlen Hnew)
    as (h2 & e2 & h3 & n & Hrun & He2 & Hun & _ & _ & _ & _ & _ & _ & Hok2 & Hacc2
        & _ & _ & Hinv3 & Hlinked).
  fold key in Hrun, He2, Hinv3, Hlinked.
  set (h0 := oldformat_counted (indexbuf_obtain h) obj) in *.
  assert (same_store h h0) as Hsame0 by apply same_store_counted.
  destruct (oldformat_counted_shape (indexbuf_obtain h) obj) as (a & b & Hh0).
  destruct (new_content_linked_complete h0 f msg obj comps Hord)
    as (h2' & Hlinked' & Hcomplete2).
  { by apply (content_store_ok_same h). }
  { by apply (skiplist_complete_same h). }
  { unfold h0. by rewrite Hh0. }
  { unfold h0. by rewrite Hh0. }
  { unfold h0. rewrite Hh0. done. }
  { done. }
  { done. }
  { unfold h0. by rewrite Hh0. }
  fold key in Hlinked'. rewrite Hlinked in Hlinked'. apply (inj Some) in Hlinked'.
  subst h2'.
  set (h2r := indexbuf_release h2) in *.
  destruct Hinv3 as [Hfr3 (e3 & extra & He3 & _) _].
  assert (same_store h2 h3) as Hsame3.
  { assert (same_store h2r h3) as Hs by (by apply (same_store_frame key)).
    exact Hs. }
  set (h' := if n =? 0 then content_update h3 key slow_send else h3).
  assert (same_store h2 h') as Hsame'.
  { unfold h'. destruct (n =? 0); [|done].
    pose proof (same_store_slow_send h3 key) as Hs.
    destruct Hsame3 as (A1 & B1 & C1 & D1). destruct Hs as (A2 & B2 & C2 & D2).
    split; [by apply (same_index_trans h2 h3)|]. split; [congruence|].
    split; [congruence|]. intros k. by rewrite D2, D1. }
  assert (content_store_ok h') as Hok' by (by apply (content_store_ok_same h2)).
  assert (skiplist_complete h') as Hcomplete' by (by apply (skiplist_complete_same h2)).
  exists h'. split; [done|]. split; [done|]. split; [done|].
  intros interest_msg pi Hname.
  destruct (find_first_match_candidate_spec h' interest_msg pi Hord
              (cs_keys _ Hok') (cs_sorted _ Hok') Hcomplete') as (r & -> & Hr).
  rewrite Hname in Hr. f_equal.
  (* the new entry, in the final state *)
  destruct (same_index_entry h2 h' key e2 (proj1 Hsame') He2) as (e' & He' & Hacc' & _).
  assert (Content.accession e' = accession h + 1) as Hnewest.
  { rewrite Hacc'. apply (f_equal Content.accession) in Hun. simpl in Hun.
    rewrite Hun. unfold u64. apply Z.mod_small. lia. }
  assert (accession h' = accession h + 1) as Hcount.
  { destruct Hsame' as (_ & -> & _). done. }
  destruct r as [k1|].
  - destruct Hr as (e1 & He1 & Hge & Hfirst). f_equal.
    destruct (Hfirst key e' He' (no_irrefl Hord key)) as [Heq|Hlt]; [done|].
    exfalso. destruct Hlt as [Hlt|(_ & _ & Hnewer)]; simpl in *; [done|].
    pose proof (cs_issued _ Hok' k1 e1 He1). lia.
  - exfalso. by apply (no_irrefl Hord key), (Hr key e').
Qed.

Section FoundRun.

#[local] Existing Instance sample_private.

#[local] Existing Instance sample_library.

Lemma process_incoming_content_found_witness :
  exists h',
    process_incoming_content two_arrived 1 content_xy0
      (Some (content_xy1_parsed, [0; 2; 4; 6])) = Some h' /\
    skiplist_complete h' /\
    find_first_match_candidate h' interest_xy0 interest_xy0_parsed
    = Some (Some (bytes_at content_xy0 0 6)).
Proof.
  destruct two_arrived_store_ok as [Hok Hcomplete].
  destruct (process_incoming_content_found two_arrived 1 the_face
              content_xy0 content_xy1_parsed [0; 2; 4; 6] sample_name_order_ok
              Hok Hcomplete)
    as (h' & Hrun & _ & Hcomplete' & Hfound).
  - vm_compute. discriminate.
  - split; vm_compute; reflexivity.
  - vm_compute. reflexivity.
  - unfold interest_tables_ok. apply (bool_decide_unpack _). vm_compute. exact I.
  - vm_compute. reflexivity.
  - vm_compute. discriminate.
  - vm_compute. discriminate.
  - vm_compute. split; discriminate.
  - vm_compute. reflexivity.
  - vm_compute. reflexivity.
  - exists h'. split; [exact Hrun|]. split; [exact Hcomplete'|].
    apply Hfound. vm_compute. reflexivity.
Defined.

End FoundRun.

